(* ===== verification/_CoqProject ===== *)
-Q . S2P
Prelude.v
Bytes.v
Net.v
Float32.v
Node.v
ClusterPayload.v
ClusterPayloadFacts.v
ClusterMessage.v
Database.v
DatabaseFacts.v
Postgres.v
PostgresFacts.v
PostgresRefinement.v
Calendar.v
Scheduler.v
SchedulerFacts.v
DeviceManager.v
DeviceManagerFacts.v
Rlp.v
DeviceMessage.v
DeviceCodec.v
Backdoor.v
BackdoorFacts.v
BackdoorExamples.v
PostgresSystem.v
WakeUp.v
WakeUpFacts.v
WakeUpExamples.v
DebugSession.v
DebugSessionFacts.v
DebugSessionRun.v
MockDevice.v
MockDeviceFacts.v
DeviceLife.v
DeviceLifeExamples.v
RegistryLife.v
BackdoorPool.v
BackdoorPoolFacts.v
BackdoorPoolJobs.v
BackdoorPoolExamples.v
Membership.v
ClusterNode.v
Config.v
ConfigFacts.v
ConfigExamples.v
Storage.v
Delegation.v
FailureDetector.v
ClusterServer.v
ClusterManager.v
Rpc.v
RpcServer.v
Metrics.v
MetricsFacts.v
Main.v
HesCli.v
ClusterFacts.v
DetectorFacts.v
ShutdownFacts.v
ClusterExamples.v
Handover.v
RpcFacts.v
RpcServerFacts.v
RpcReload.v
RpcExamples.v
MainFacts.v
HesCliFacts.v
HesCliExamples.v
