(* ===== verification/Prelude.v ===== *)
(** * Head-End System: verification library

    The program (the Rust workspace under [src/]) is a head-end system for
    battery-powered meters. A device registers over UDP (the backdoor), is
    put in a time bucket of the day, and wakes once a day at its bucket's
    time; the system then opens a session with it. Several nodes form a
    cluster that shares one database: each device has one owning node, nodes
    watch each other with heartbeats, devices move between nodes by
    delegation, and the devices of a failed node are dealt to the others.

    ** Parts, files and sources

    - [Prelude.v]: Rust results ([outcome]: [Ok], [Err] or a panic), the
      state-and-error monad [SE] (state changes made before an error stay),
      loops, machine integers, tactics and the hint database [hes].
    - [Bytes.v]: byte buffers; the crate [bytes] is the class [BytesCrate],
      with an instance for big-endian integers. UTF-8 validation.
    - [Net.v]: socket addresses, their text and the standard library's parser.
    - [Float32.v]: [f32] as IEEE binary32 of the standard library's [SpecFloat].
    - [Node.v]: [cluster/node.rs], [cluster/error.rs]: node status, node
      information, cluster configuration, the error types.
    - [ClusterPayload.v], [ClusterPayloadFacts.v]: [cluster/protocol/payload.rs],
      every payload with encoder and decoder; well-formedness and round trips.
    - [ClusterMessage.v]: [cluster/protocol/message.rs] and [codec.rs].
    - [Database.v], [DatabaseFacts.v]: [common/database/api.rs] (class
      [Engine]), [in_memory.rs] (instance [InMemoryDB]), and the rows ([common/device.rs],
      [registration_status.rs], [scheduled_connection.rs],
      [delegated_device.rs]). The class [OwnershipEngine] states what the
      scheduler, the device manager and the cluster rely on; the in-memory
      engine discharges it. The PostgreSQL engine does not (its queries can
      fail): what is proved of it is in the next files.
    - [Postgres.v], [PostgresFacts.v], [PostgresRefinement.v],
      [PostgresSystem.v]: [common/database/postgres.rs] over the tables of
      [init-db.sql], a second instance of [Engine]; the server and [sqlx] are
      the class [PgServer]. [PostgresRefinement.v] has the abstract store it
      implements (the maps of the in-memory engine and a directory of nodes),
      [PostgresSystem.v] the restart of a scheduler on it.
    - [Calendar.v]: what is used of [chrono] (class [ChronoCrate]), with the
      Gregorian calendar as instance.
    - [Scheduler.v], [SchedulerFacts.v]: [scheduler/scheduler.rs],
      [schedule.rs]; [tokio-cron-scheduler] is the class [JobCrate].
    - [DeviceManager.v], [DeviceManagerFacts.v]:
      [device_manager/device_manager.rs].
    - [Rlp.v]: what is used of the crate [rlp] (class [RlpCrate]), with the
      RLP format as instance.
    - [DeviceMessage.v], [DeviceCodec.v]: [common/messages/]: message types,
      constructors and timestamps; the payloads' encoders and decoders and
      the codec, with their round trip.
    - [Backdoor.v], [BackdoorFacts.v], [BackdoorExamples.v]:
      [backdoor/backdoor.rs], the handlers of device registration.
    - [WakeUp.v], [WakeUpFacts.v], [WakeUpExamples.v]:
      [scheduler/task/wake_up_device.rs], the session with a device and its
      retries, and the reschedule listener of [main.rs].
    - [DebugSession.v], [DebugSessionFacts.v], [DebugSessionRun.v]:
      [backdoor/debug_session.rs] and the receive loop of [backdoor.rs].
    - [MockDevice.v], [MockDeviceFacts.v]: [tools/mock_device],
      [tools/mock_registry] and [tools/malformed_registry], the programs that
      play a device, as machines between two receives.
    - [DeviceLife.v], [DeviceLifeExamples.v], [RegistryLife.v]: these devices
      connected to the receive loop of the backdoor and to the wake-up task:
      each side is given what the other sent.
    - [BackdoorPool.v], [BackdoorPoolFacts.v], [BackdoorPoolJobs.v],
      [BackdoorPoolExamples.v]: the receive loop of [backdoor/backdoor.rs]
      with its handlers as tasks, each with a permit of the semaphore.
    - [Membership.v]: [MembershipList] of [cluster/membership.rs].
    - [ClusterNode.v]: the state the tasks of a node share, the sending
      functions of [cluster/membership.rs], [cluster/heartbeat.rs]; the UDP
      socket is the class [UdpSocket], [common/config_store.rs] the class
      [ConfigStore].
    - [Storage.v]: [Database] of [common/database/api.rs], which hides the
      engine, its creation and the connection URL of [postgres.rs].
    - [Delegation.v], [FailureDetector.v], [ClusterServer.v],
      [ClusterManager.v]: [cluster/delegation.rs], [failure_detector.rs],
      [server.rs], [manager.rs].
    - [ClusterFacts.v], [DetectorFacts.v], [ShutdownFacts.v],
      [ClusterExamples.v]: theorems on a cluster node and concrete clusters.
    - [Handover.v]: a delegation from end to end, between two such nodes.
    - [Config.v], [ConfigFacts.v], [ConfigExamples.v]: [config.rs], the
      instance of [ConfigStore] of a running server; the YAML and UUID crates,
      the file system and the environment are classes.
    - [Rpc.v], [RpcFacts.v], [RpcReload.v], [RpcExamples.v]: [rpc/src/], the
      methods of the admin console, their dispatch and a client's connection;
      the text of JSON is the class [RpcText].
    - [RpcServer.v], [RpcServerFacts.v]: [rpc/src/server.rs] with its accept
      loop, its permits and any number of connections.
    - [Metrics.v], [MetricsFacts.v]: [metrics/], the three collections of
      metrics, their creation and the endpoint; the crate [prometheus] is the
      class [PrometheusCrate].
    - [Main.v], [MainFacts.v]: [main.rs], start, input loop and shutdown; what
      it finds outside the program is a [Boot].
    - [HesCli.v], [HesCliFacts.v], [HesCliExamples.v]:
      [tools/hes-cli/src/main.rs], the command-line client.

    State is passed explicitly: the scheduler works on [SchedState] (itself
    and the database), the device manager on [DmState], a cluster node on
    [ClusterNode], the backdoor on [Backdoor], a wake-up task on [WakeState],
    the receive loop with its sessions on [Server] and, with its handlers as
    tasks, on [Pool], the console on [RpcState],
    its accept loop with all connections on [RpcServer], a device on [Mock];
    a component runs an operation of another with [szoom], which converts its
    error as the code's [From] instances do. [HashMap] and
    [HashSet] are [gmap] and [gset]; their iteration order is the class
    [HashOrder] (any permutation). Identifiers are [Z], text and bytes are
    lists of byte values, instants nanoseconds since 1970. Clock readings,
    random numbers and fresh identifiers are arguments. Integers wrap at
    their width, as in a release build.

    ** What the theorems show

    - Protocol: well-formed messages survive encoding and decoding; the
      cluster decoder panics only on two message types, and does on one of 48
      bytes; the device decoder never does; a decoded message carries the
      payload of its type.
    - The PostgreSQL engine: where the engines are meant to agree
      ([supported]) it answers as a store with the maps of the in-memory
      engine and a directory of nodes, with the same errors but for the text
      of a missing row, so that behind [Database] both engines answer
      alike on everything but cluster nodes, which the in-memory engine does
      not have; its tables stay well formed under any sequence of whole
      operations, whatever becomes of their statements (not when the
      statements of two operations interleave).
    - Buckets and schedule: both engines choose the same least-loaded bucket;
      registrations keep the buckets balanced; slots are distinct; the next
      wake-up is in the future and within 26 hours.
    - Jobs: recovery after a restart on PostgreSQL (with the in-memory engine
      a restarted program has no connections to recover; the theorem on that
      engine is about the operation), scheduling and cancelling, the end of a
      job.
    - Registration: the handshake of a new device from request to job; under
      every interleaving of handlers and timeout tasks registered devices have
      a job, with handlers interrupted at every [await] too, as long as debug
      sessions and other tasks take no job away ([keeps_jobs]).
    - Handlers of the backdoor: never more than the limit, a permit is given
      back when its handler ends, no message is lost, the loop never waits for
      ever; the loop with undivided handlers is one of the possible runs.
    - Wake-up: when a session succeeds and what it sends and leaves; the
      number of attempts and the reschedule signal.
    - The life of a device: a device registers over the network, and is served
      every day from then on, when its job is due: task and device answer each
      other until the session is complete on both sides, and each session sets
      the next job; a fleet of any size registers, with balanced buckets and
      exactly one new job per device; a broken message changes nothing.
    - Ownership: in every state of a device manager reachable under the
      conditions [op_allowed] (a database that answers, devices with rows, no
      rows taken or given behind its back, not its own failure) its set of
      devices is exactly what the database says; redistribution deals every
      device of a failed node; rebalancing gives away only a surplus.
    - Cluster: the membership list stays well formed under every interleaving
      of a node's tasks; who is accused of failure; what declaring a node
      dead does; delegation between two nodes, from the request over the
      datagrams they exchange to the new owner; the shutdown hand-over, with
      one request to each of several peers. A node
      that falls silent is removed and leaves no device behind.
    - Debug sessions: under every interleaving an entry of the router leads to
      a session that made it and has not yet removed it; every session ends, in
      at most ten turns; what a complete session does.
    - Configuration: a restart on the saved file gives the same configuration,
      if no text of it contains a dollar sign; what setting a key does.
    - Console: every line read is answered, once and in order, whatever the other
      clients do meanwhile; at most sixteen clients are served at once, and
      permits are neither lost nor made up; delegation requests
      offer only owned devices; from the start of the program on the services
      follow the configuration; the command-line client shows what the methods
      answer.
    - Metrics: the collections can always be made; the endpoint answers as the
      configuration says if metrics were enabled in the configuration the
      program started with, and never otherwise.
    - Behaviours that look unintended are stated as theorems too: a second
      redistribution is a no-op, a node told of its own death keeps devices
      it gave away, a delegated device keeps its job on the old owner,
      accepted devices do not count as load, a probe ignores the ping, a
      rejoining node keeps its old address, the gauge of active nodes goes
      stale, the one-hour margin fails at midnight, a device can be told a
      wake-up that has no job, IPv6 devices cannot register, an address
      change during registration doubles a job, timestamps are read in the
      wrong unit, the told wake-up drifts away from the job, the battery is
      read every day, a lost device that reports back is not scheduled,
      concurrent statements duplicate a bucket row, rescheduling on PostgreSQL
      multiplies jobs, a node missing from [T_NODES] cannot register devices,
      a repeated session request breaks both sessions, a value that looks like
      a variable blocks the next start, a node can delegate devices to itself
      and lose them, an unknown device is reported as a database error, a node
      without a cluster does not load its devices, a panic of a method leaves
      the gauge of console connections too high, metrics that are disabled at
      the start cannot be enabled, a key that is not the first byte of a read
      is lost, a closed input keeps the input loop turning, and credentials
      are put into the connection URL unescaped.

    ** Bounds

    Loops of the code are structural recursions on the list they walk; the
    only fuel is in [Net.v] (number of digits, at most 39), [Node.v]
    ([trim]: the length of the text), [Delegation.v] ([chunks]: the length
    of the list), [Rlp.v] (items of a body: its length), [Config.v] (matches
    and replacements in a text: its length) and [HesCli.v] (words of a line:
    its length), which is enough in each case: every step consumes a byte or
    an item; and in [RegistryLife.v], where the tool and the server run for as
    many exchanges as there are devices, which is proved to be enough. Theorems on dates cover the
    days from 1970 that [chrono] represents ([day_ok]); the shutdown theorem
    covers 540 devices, so that each request fits a datagram.

    A handler of a task is one step. The tasks of a node (server, failure
    detector, heartbeat) interleave between handlers; where a handler sleeps
    the others run, which is the argument [p_others] of a [Pause] and the
    field [at_others] of an [Attempt]. In the backdoor ([Backdoor.v]) the ACK
    handler is two steps, its reads and its writes; in [BackdoorPool.v] every
    handler is interrupted at each access to the database, the device manager
    and the socket ([PoolEvent]), an operation of the device manager being one
    step under its lock; in debug sessions a step is one access of a task to
    what it shares: a block under the lock of the device manager, an access to
    the router or the database, a datagram sent ([TaskState]). Statements of the PostgreSQL engine are separate
    steps where two calls race ([PostgresFacts.v]). In the console an event
    ([RpcEvent]) is an accept, a permit, the start of a connection, a line of
    one, or anything another task does to the shared state. A change of the
    configuration and its saving are one step ([cm_update]), although the code
    gives the lock back in between: two concurrent changes, whose saves could
    overtake each other, are not modelled. Nor are other finer interleavings at
    the acquisition of locks.

    The client's table of method names ([cli_method]) and the server's
    ([method_name]) are separate; which method a typed line asks for is
    [command_of], the client's own parsing.

    ** Not modelled

    - The values of the metrics, other than the gauges of active nodes and of
      console connections: they are only written by the code that counts.
      Logging and opening sockets: input and output of libraries. Opening the
      pool of connections to PostgreSQL is the argument [connect] of
      [database_new].
    - The declaration of command-line options; the options are given as
      [CliOverrides], [MockArgs] and the commands of [HesCli.v].
    - The text round trip of IPv6 addresses in general ([Net.v] proves it for
      IPv4 and evaluates IPv6 examples). *)

From stdpp Require Export base gmap sets list numbers option strings.
From Stdlib Require Export ZArith Lia.

Declare Scope hes_scope.
Delimit Scope hes_scope with hes.

(** ** Rust results

    [outcome E A] is what a Rust call of type [Result<A, E>] can do: return
    [Ok], return [Err], or unwind with a panic. *)
Inductive outcome (E A : Type) : Type :=
| Ok (a : A)
| Err (e : E)
| Panic.
Arguments Ok {E A} a.
Arguments Err {E A} e.
Arguments Panic {E A}.

(** The [?] operator: continue on [Ok], propagate the rest. *)
Definition obind {E A B : Type} (m : outcome E A) (k : A → outcome E B) : outcome E B :=
  match m with
  | Ok a => k a
  | Err e => Err e
  | Panic => Panic
  end.

(** [map_err]. *)
Definition omap_err {E F A : Type} (f : E → F) (m : outcome E A) : outcome F A :=
  match m with
  | Ok a => Ok a
  | Err e => Err (f e)
  | Panic => Panic
  end.

(** [Option::ok_or]. *)
Definition ok_or {E A : Type} (o : option A) (e : E) : outcome E A :=
  match o with
  | Some a => Ok a
  | None => Err e
  end.

Notation "'let!' x ':=' m 'in' k" := (obind m (fun x => k))
  (at level 10, x pattern, m at level 100, k at level 200)
  : hes_scope.

Notation "'guard!' b 'else' e 'in' k" := (if b then k else Err e)
  (at level 10, b at level 100, e at level 100, k at level 200)
  : hes_scope.

(** ** State and error passing

    [SE S E A]: code that mutates a state [S] and returns a [Result<A, E>]. A
    mutation made before an error survives the error, as it does in Rust. *)
Definition SE (S E A : Type) : Type := S → outcome E A * S.

Definition sret {S E A : Type} (a : A) : SE S E A := λ s, (Ok a, s).
Definition serr {S E A : Type} (e : E) : SE S E A := λ s, (Err e, s).

Definition sbind {S E A B : Type} (m : SE S E A) (k : A → SE S E B) : SE S E B :=
  λ s, match m s with
       | (Ok a, s') => k a s'
       | (Err e, s') => (Err e, s')
       | (Panic, s') => (Panic, s')
       end.

Notation "'do!' x '<-' m ';' k" := (sbind m (fun x => k))
  (at level 10, x pattern, m at level 100, k at level 200)
  : hes_scope.

Definition spanic {S E A : Type} : SE S E A := λ s, (Panic, s).
Definition sget {S E A : Type} (f : S → A) : SE S E A := λ s, (Ok (f s), s).
Definition smod {S E : Type} (f : S → S) : SE S E unit := λ s, (Ok tt, f s).
Definition slift {S E A : Type} (o : outcome E A) : SE S E A := λ s, (o, s).

(** Run an operation on a component of the state, converting its error ([From::from], [map_err]). *)
Definition szoom {S T E F A : Type} (get : S → T) (put : T → S → S) (conv : E → F)
    (m : SE T E A) : SE S F A :=
  λ s, let (r, t) := m (get s) in (omap_err conv r, put t s).

(** [let _ = m], [if let Err(e) = m { log }]: the error is dropped, a panic is not. *)
Definition sresult {S E F A : Type} (m : SE S E A) : SE S F (outcome E A) := λ s,
  match m s with
  | (Panic, s') => (Panic, s')
  | (r, s') => (Ok r, s')
  end.

(** [for x in l { body(x)?; }]. *)
Fixpoint sfor {S E A : Type} (l : list A) (body : A → SE S E unit) : SE S E unit :=
  match l with
  | [] => sret tt
  | x :: l' => sbind (body x) (λ _, sfor l' body)
  end.

(** A loop that pushes one result per element. *)
Fixpoint scollect {S E A B : Type} (l : list A) (f : A → SE S E B) : SE S E (list B) :=
  match l with
  | [] => sret []
  | x :: l' => sbind (f x) (λ y, sbind (scollect l' f) (λ ys, sret (y :: ys)))
  end.

(** ** Machine integers *)
Definition u8_max : Z := 255.
Definition u16_max : Z := 65535.
Definition u32_max : Z := 4294967295.

Definition wrap_u8 (z : Z) : Z := (z mod 2 ^ 8)%Z.
Definition wrap_u16 (z : Z) : Z := (z mod 2 ^ 16)%Z.
Definition wrap_u32 (z : Z) : Z := (z mod 2 ^ 32)%Z.
Definition wrap_u64 (z : Z) : Z := (z mod 2 ^ 64)%Z.
Definition wrap_u128 (z : Z) : Z := (z mod 2 ^ 128)%Z.

(** Two's complement reading of a [w]-bit pattern. *)
Definition wrap_signed (w z : Z) : Z :=
  let m := (z mod 2 ^ w)%Z in
  if (m <? 2 ^ (w - 1))%Z then m else (m - 2 ^ w)%Z.
Definition wrap_i32 : Z → Z := wrap_signed 32.
Definition wrap_i64 : Z → Z := wrap_signed 64.

(** [u32::saturating_sub] and its siblings, on unsigned operands. *)
Definition sat_sub (a b : Z) : Z := Z.max 0 (a - b).

(** ** Proof automation *)
Create HintDb hes.

(** Case analysis on every [match] of the goal, closing the impossible branches. *)
Ltac crush := repeat first [done | progress simplify_eq/= | case_match].

(** Evaluate a closed goal. *)
Ltac eval_done := vm_compute; reflexivity.

Lemma obind_Ok {E A B : Type} (m : outcome E A) (k : A → outcome E B) (b : B) :
  obind m k = Ok b ↔ ∃ a, m = Ok a ∧ k a = Ok b.
Proof. destruct m; naive_solver. Qed.

Lemma sbind_ret {S E A B : Type} (a : A) (k : A → SE S E B) (s : S) :
  sbind (sret a) k s = k a s.
Proof. done. Qed.

Lemma sbind_sbind {S E A B C} (m : SE S E A) (k : A → SE S E B) (l : B → SE S E C) s :
  sbind (sbind m k) l s = sbind m (λ a, sbind (k a) l) s.
Proof. unfold sbind. by destruct (m s) as [[a|e|] s']. Qed.

Lemma sbind_ext {S E A B} (m : SE S E A) (k l : A → SE S E B) s :
  (∀ a s', k a s' = l a s') → sbind m k s = sbind m l s.
Proof. intros Hk. unfold sbind. destruct (m s) as [[a|e|] s']; [apply Hk|done..]. Qed.

Lemma sbind_ok {S E A B : Type} (m : SE S E A) (k : A → SE S E B) (s s' : S) (a : A) :
  m s = (Ok a, s') → sbind m k s = k a s'.
Proof. intros Hm. unfold sbind. by rewrite Hm. Qed.

Lemma sbind_get {S E A B : Type} (f : S → A) (k : A → SE S E B) (s : S) :
  sbind (sget f) k s = k (f s) s.
Proof. done. Qed.

Lemma sbind_mod {S E B : Type} (f : S → S) (k : unit → SE S E B) (s : S) :
  sbind (smod f) k s = k tt (f s).
Proof. done. Qed.

Lemma sbind_err {S E A B : Type} (m : SE S E A) (k : A → SE S E B) (s s' : S) (e : E) :
  m s = (Err e, s') → sbind m k s = (Err e, s').
Proof. intros Hm. unfold sbind. by rewrite Hm. Qed.

Lemma sbind_inv {S E A B : Type} (m : SE S E A) (k : A → SE S E B) (s s' : S) (b : B) :
  sbind m k s = (Ok b, s') → ∃ a s1, m s = (Ok a, s1) ∧ k a s1 = (Ok b, s').
Proof. unfold sbind. destruct (m s) as [[a|e|] s1]; naive_solver. Qed.

(** Step over the first statement of a [do!] block whose result is known. *)
Ltac sstep H := rewrite (sbind_ok _ _ _ _ _ H).

Lemma sfor_app {S E A : Type} (l1 l2 : list A) (body : A → SE S E unit) (s : S) :
  sfor (l1 ++ l2) body s = sbind (sfor l1 body) (λ _, sfor l2 body) s.
Proof.
  revert s. induction l1 as [|x l1 IH]; intros s; simpl; [done|].
  unfold sbind. destruct (body x s) as [[[]|e|] s']; done || apply IH.
Qed.

(** An invariant that every iteration of a loop keeps is kept by the loop, whatever its outcome. *)
Lemma sfor_inv {S E A : Type} (P : S → Prop) (body : A → SE S E unit) (l : list A) (s : S) :
  (∀ x s, x ∈ l → P s → P (body x s).2) → P s → P (sfor l body s).2.
Proof.
  revert s. induction l as [|x l IH]; intros s Hbody Hs; [done|].
  simpl. unfold sbind. pose proof (Hbody x s ltac:(set_solver) Hs) as Hx.
  destruct (body x s) as [[[]|e|] s']; simpl in *; try done.
  apply IH; [|done]. intros y t Hy. apply Hbody. set_solver.
Qed.

(** A loop whose iterations all succeed while keeping [P] succeeds and keeps [P]. *)
Lemma sfor_ok {S E A : Type} (P : S → Prop) (body : A → SE S E unit) (l : list A) (s : S) :
  (∀ x s, x ∈ l → P s → ∃ s', body x s = (Ok tt, s') ∧ P s') → P s →
  ∃ s', sfor l body s = (Ok tt, s') ∧ P s'.
Proof.
  revert s. induction l as [|x l IH]; intros s Hbody Hs; [by exists s|].
  destruct (Hbody x s ltac:(set_solver) Hs) as (s1 & Hx & Hs1). cbn [sfor]. sstep Hx.
  apply IH; [|done]. intros y t Hy. apply Hbody. set_solver.
Qed.

Lemma scollect_inv {S E A B : Type} (P : S → Prop) (f : A → SE S E B) (l : list A) (s : S) :
  (∀ x s, x ∈ l → P s → P (f x s).2) → P s → P (scollect l f s).2.
Proof.
  revert s. induction l as [|x l IH]; intros s Hf Hs; [done|].
  simpl. unfold sbind. pose proof (Hf x s ltac:(set_solver) Hs) as Hx.
  destruct (f x s) as [[y|e|] s1]; simpl in *; try done.
  assert (HP : P (scollect l f s1).2).
  { apply IH; [|done]. intros z t Hz. apply Hf. set_solver. }
  by destruct (scollect l f s1) as [[ys|e|] s2].
Qed.

(** Sequencing keeps what both parts keep. *)
Lemma sbind_keeps {S E A B : Type} (P : S → Prop) (m : SE S E A) (k : A → SE S E B) (s : S) :
  P (m s).2 → (∀ a s1, m s = (Ok a, s1) → P s1 → P (k a s1).2) → P (sbind m k s).2.
Proof. unfold sbind. destruct (m s) as [[a|e|] s1]; naive_solver. Qed.

Lemma wrap_signed_small (w z : Z) :
  (0 < w)%Z → (- 2 ^ (w - 1) <= z < 2 ^ (w - 1))%Z → wrap_signed w (z mod 2 ^ w) = z.
Proof.
  intros Hw Hz. unfold wrap_signed.
  assert (Hp : (2 ^ w = 2 * 2 ^ (w - 1))%Z).
  { rewrite <- Z.pow_succ_r by lia. f_equal. lia. }
  rewrite Z.mod_mod by lia.
  destruct (decide (0 <= z)%Z).
  - rewrite Z.mod_small by lia. case_match; lia.
  - rewrite <- (Z.mod_unique z (2 ^ w) (-1) (z + 2 ^ w)) by lia. case_match; lia.
Qed.

Lemma wrap_signed_range (w z : Z) :
  (0 < w)%Z → (- 2 ^ (w - 1) <= wrap_signed w z < 2 ^ (w - 1))%Z.
Proof.
  intros Hw. unfold wrap_signed.
  assert (Hp : (2 ^ w = 2 * 2 ^ (w - 1))%Z).
  { rewrite <- Z.pow_succ_r by lia. f_equal. lia. }
  pose proof (Z.mod_pos_bound z (2 ^ w) ltac:(lia)). case_match; lia.
Qed.

(** ** Code that does not panic *)
Definition never_panics {S E A} (m : SE S E A) : Prop := ∀ s, (m s).1 ≠ Panic.

Section never_panics.
Context {S E : Type}.

Lemma np_ret {A} (a : A) : never_panics (S := S) (E := E) (sret a).
Proof. done. Qed.
Lemma np_err {A} (e : E) : never_panics (S := S) (A := A) (serr e).
Proof. done. Qed.
Lemma np_get {A} (f : S → A) : never_panics (E := E) (sget f).
Proof. done. Qed.
Lemma np_mod (f : S → S) : never_panics (E := E) (smod f).
Proof. done. Qed.
Lemma np_lift {A} (o : outcome E A) : o ≠ Panic → never_panics (S := S) (slift o).
Proof. by intros Ho s. Qed.
Lemma np_bind {A B} (m : SE S E A) (k : A → SE S E B) :
  never_panics m → (∀ a, never_panics (k a)) → never_panics (sbind m k).
Proof. intros Hm Hk s. unfold sbind. specialize (Hm s). destruct (m s) as [[a|e|] s']; [apply Hk|done|done]. Qed.
Lemma np_zoom {T F A} (get : S → T) put (conv : F → E) (m : SE T F A) :
  never_panics m → never_panics (szoom get put conv m).
Proof. intros Hm s. unfold szoom. specialize (Hm (get s)). by destruct (m (get s)) as [[] ?]. Qed.
Lemma np_result {F A} (m : SE S F A) : never_panics m → never_panics (E := E) (sresult m).
Proof. intros Hm s. unfold sresult. specialize (Hm s). by destruct (m s) as [[] ?]. Qed.
Lemma np_for {A} (l : list A) (f : A → SE S E unit) : (∀ x, never_panics (f x)) → never_panics (sfor l f).
Proof. intros Hf. induction l; cbn [sfor]; [apply np_ret|]. by apply np_bind. Qed.
Lemma np_collect {A B} (l : list A) (f : A → SE S E B) : (∀ x, never_panics (f x)) → never_panics (scollect l f).
Proof.
  intros Hf. induction l; cbn [scollect]; [apply np_ret|]. apply np_bind; [done|]. intros. by apply np_bind.
Qed.
End never_panics.

Create HintDb np.
#[export] Hint Resolve np_ret np_err np_get np_mod np_bind np_zoom np_result np_for np_collect : np.
#[export] Hint Extern 1 (never_panics (slift _)) => (apply np_lift; simpl) : np.

Lemma ok_or_no_panic {E A} (o : option A) (e : E) : ok_or o e ≠ Panic.
Proof. by destruct o. Qed.
Lemma omap_err_no_panic {E F A} (f : E → F) (o : outcome E A) : o ≠ Panic → omap_err f o ≠ Panic.
Proof. by destruct o. Qed.
Lemma obind_no_panic {E A B} (o : outcome E A) (k : A → outcome E B) :
  o ≠ Panic → (∀ a, k a ≠ Panic) → obind o k ≠ Panic.
Proof. destruct o; simpl; auto. Qed.
#[export] Hint Resolve ok_or_no_panic omap_err_no_panic obind_no_panic : np.
