(* ===== verification/Bytes.v ===== *)
(** * Byte buffers, UTF-8 text and the [bytes] crate

    Wire data is a list of bytes, each a [Z] in [0, 256). A Rust [String] is
    the list of its UTF-8 bytes. The [Buf]/[BufMut] primitives of the
    third-party [bytes] crate are the class [BytesCrate]: its documented
    behaviour is the laws, and every codec below is proved for any
    implementation of them. [big_endian] is a concrete one. *)

From S2P Require Import Prelude.

Local Open Scope Z_scope.
Local Open Scope hes_scope.

Definition is_byte (b : Z) : Prop := 0 <= b < 256.

(** ** Strings *)

(** The UTF-8 bytes of an ASCII literal of the source. *)
Fixpoint str (s : string) : list Z :=
  match s with
  | EmptyString => []
  | String a s' => Z.of_N (Ascii.N_of_ascii a) :: str s'
  end.

(** A UTF-8 continuation byte, within [lo, hi]. *)
Definition in_range (lo hi b : Z) : bool := (lo <=? b) && (b <=? hi).
Definition cont (b : Z) : bool := in_range 128 191 b.

(** Validity check of [String::from_utf8] (shortest form, no surrogates, at most U+10FFFF). *)
Fixpoint utf8_valid (l : list Z) : bool :=
  match l with
  | [] => true
  | b0 :: l1 =>
      if in_range 0 127 b0 then utf8_valid l1
      else if in_range 194 223 b0 then
        match l1 with
        | b1 :: l2 => cont b1 && utf8_valid l2
        | _ => false
        end
      else if in_range 224 239 b0 then
        match l1 with
        | b1 :: b2 :: l3 =>
            in_range (if b0 =? 224 then 160 else 128) (if b0 =? 237 then 159 else 191) b1
            && cont b2 && utf8_valid l3
        | _ => false
        end
      else if in_range 240 244 b0 then
        match l1 with
        | b1 :: b2 :: b3 :: l4 =>
            in_range (if b0 =? 240 then 144 else 128) (if b0 =? 244 then 143 else 191) b1
            && cont b2 && cont b3 && utf8_valid l4
        | _ => false
        end
      else false
  end.

(** [String::from_utf8]. *)
Definition from_utf8 (l : list Z) : option (list Z) := if utf8_valid l then Some l else None.

(** ** The [bytes] crate

    [put_uint n v] is what [put_u8], [put_u16], ... append for the [n]-byte
    integer [v]; [get_uint n l] is what the [n]-byte getter reads at the front
    of [l] with what is left, or [None] when it panics for want of data. *)
Class BytesCrate := {
  put_uint : nat → Z → list Z;
  get_uint : nat → list Z → option (Z * list Z);
  put_uint_length n v : length (put_uint n v) = n;
  put_uint_byte n v : Forall is_byte (put_uint n v);
  get_put_uint n v l : get_uint n (put_uint n v ++ l) = Some (v mod 256 ^ Z.of_nat n, l);
  get_uint_short n l : (length l < n)%nat → get_uint n l = None;
  get_uint_long n l : (n <= length l)%nat → ∃ v, get_uint n l = Some (v, drop n l);
  get_uint_range n l v l' :
    Forall is_byte l → get_uint n l = Some (v, l') → 0 <= v < 256 ^ Z.of_nat n
}.

Section Ops.
Context `{BytesCrate}.

Definition put_u8 (v : Z) : list Z := put_uint 1 v.
Definition put_u16 (v : Z) : list Z := put_uint 2 v.
Definition put_u32 (v : Z) : list Z := put_uint 4 v.
Definition put_u64 (v : Z) : list Z := put_uint 8 v.
Definition put_u128 (v : Z) : list Z := put_uint 16 v.
Definition put_i64 (v : Z) : list Z := put_uint 8 (v mod 2 ^ 64).

Definition get_n {E} (n : nat) (buf : list Z) : outcome E (Z * list Z) :=
  match get_uint n buf with
  | Some r => Ok r
  | None => Panic
  end.
Definition get_u8 {E} : list Z → outcome E (Z * list Z) := get_n 1.
Definition get_u16 {E} : list Z → outcome E (Z * list Z) := get_n 2.
Definition get_u32 {E} : list Z → outcome E (Z * list Z) := get_n 4.
Definition get_u64 {E} : list Z → outcome E (Z * list Z) := get_n 8.
Definition get_u128 {E} : list Z → outcome E (Z * list Z) := get_n 16.
Definition get_i64 {E} (buf : list Z) : outcome E (Z * list Z) :=
  let! (v, buf) := get_n 8 buf in Ok (wrap_i64 v, buf).

(** [copy_to_slice] into a fresh vector of [len] bytes: panics when they are not there. *)
Definition copy_to_slice {E} (len : Z) (buf : list Z) : outcome E (list Z * list Z) :=
  if Z.of_nat (length buf) <? len then Panic
  else Ok (take (Z.to_nat len) buf, drop (Z.to_nat len) buf).

(** [buf.remaining()]. *)
Definition remaining (buf : list Z) : Z := Z.of_nat (length buf).

(** [for _ in 0..n { v.push(read(buf)?) }]. *)
Fixpoint read_vec {E A} (n : nat) (read : list Z → outcome E (A * list Z)) (buf : list Z)
  : outcome E (list A * list Z) :=
  match n with
  | O => Ok ([], buf)
  | S n' =>
      let! (x, buf) := read buf in
      let! (xs, buf) := read_vec n' read buf in
      Ok (x :: xs, buf)
  end.

Lemma get_n_put {E} n v l :
  0 <= v < 256 ^ Z.of_nat n → @get_n E n (put_uint n v ++ l) = Ok (v, l).
Proof. intros Hv. unfold get_n. rewrite get_put_uint, Z.mod_small by done. done. Qed.

Lemma get_u8_put {E} v l : 0 <= v < 2 ^ 8 → @get_u8 E (put_u8 v ++ l) = Ok (v, l).
Proof. intros. apply get_n_put. done. Qed.
Lemma get_u16_put {E} v l : 0 <= v < 2 ^ 16 → @get_u16 E (put_u16 v ++ l) = Ok (v, l).
Proof. intros. apply get_n_put. done. Qed.
Lemma get_u32_put {E} v l : 0 <= v < 2 ^ 32 → @get_u32 E (put_u32 v ++ l) = Ok (v, l).
Proof. intros. apply get_n_put. done. Qed.
Lemma get_u64_put {E} v l : 0 <= v < 2 ^ 64 → @get_u64 E (put_u64 v ++ l) = Ok (v, l).
Proof. intros. apply get_n_put. done. Qed.
Lemma get_u128_put {E} v l : 0 <= v < 2 ^ 128 → @get_u128 E (put_u128 v ++ l) = Ok (v, l).
Proof. intros. apply get_n_put. done. Qed.

Lemma get_i64_put {E} v l : - 2 ^ 63 <= v < 2 ^ 63 → @get_i64 E (put_i64 v ++ l) = Ok (v, l).
Proof.
  intros. unfold get_i64, put_i64.
  rewrite get_n_put by (apply (Z.mod_pos_bound _ (2 ^ 64)); lia). simpl.
  unfold wrap_i64. rewrite wrap_signed_small; done || lia.
Qed.

Lemma copy_to_slice_app {E} (s l : list Z) len :
  len = Z.of_nat (length s) → @copy_to_slice E len (s ++ l) = Ok (s, l).
Proof.
  intros ->. unfold copy_to_slice. rewrite length_app.
  destruct (Z.ltb_spec (Z.of_nat (length s + length l)) (Z.of_nat (length s))); [lia|].
  rewrite Nat2Z.id, take_app_length, drop_app_length. done.
Qed.

(** A getter that has enough bytes does not panic and advances by its width. *)
Lemma get_n_ok {E} n (buf : list Z) :
  (n <= length buf)%nat → ∃ v, @get_n E n buf = Ok (v, drop n buf).
Proof. intros Hn. destruct (get_uint_long n buf Hn) as [v Hv]. exists v. unfold get_n. by rewrite Hv. Qed.

Lemma get_n_panic {E} n (buf : list Z) : (length buf < n)%nat → @get_n E n buf = Panic.
Proof. intros Hn. unfold get_n. by rewrite get_uint_short. Qed.

Lemma copy_to_slice_ok {E} len (buf : list Z) :
  0 <= len <= remaining buf →
  @copy_to_slice E len buf = Ok (take (Z.to_nat len) buf, drop (Z.to_nat len) buf).
Proof. intros Hl. unfold copy_to_slice, remaining in *. case_match; [lia|done]. Qed.

Lemma remaining_app (l1 l2 : list Z) : remaining (l1 ++ l2) = remaining l1 + remaining l2.
Proof. unfold remaining. rewrite length_app. lia. Qed.

Lemma remaining_put n v : remaining (put_uint n v) = Z.of_nat n.
Proof. unfold remaining. by rewrite put_uint_length. Qed.

Lemma remaining_nonneg (l : list Z) : 0 <= remaining l.
Proof. unfold remaining. lia. Qed.

(** Reading back a vector whose elements were written one after the other. *)
Lemma read_vec_flat_map {E A} (enc : A → list Z) (dec : list Z → outcome E (A * list Z)) xs l :
  (∀ x r, x ∈ xs → dec (enc x ++ r) = Ok (x, r)) →
  read_vec (length xs) dec (concat (enc <$> xs) ++ l) = Ok (xs, l).
Proof.
  induction xs as [|x xs IH]; intros Hx; [done|].
  rewrite fmap_cons. cbn [concat length read_vec].
  rewrite <- app_assoc, Hx by set_solver. cbn [obind].
  rewrite IH by (intros; apply Hx; set_solver). done.
Qed.
End Ops.

(** ** A concrete [bytes]: network byte order *)
Module big_endian.

Fixpoint be_put (n : nat) (v : Z) : list Z :=
  match n with
  | O => []
  | S n' => (v / 256 ^ Z.of_nat n') mod 256 :: be_put n' v
  end.

Definition be_val (l : list Z) : Z := fold_left (λ a b, a * 256 + b) l 0.

Definition be_get (n : nat) (l : list Z) : option (Z * list Z) :=
  if (length l <? n)%nat then None else Some (be_val (take n l), drop n l).

Lemma be_put_length n v : length (be_put n v) = n.
Proof. induction n; simpl; congruence. Qed.

Lemma be_put_byte n v : Forall is_byte (be_put n v).
Proof.
  induction n; simpl; constructor; [|done].
  apply Z.mod_pos_bound. lia.
Qed.

Lemma be_fold_acc l a : fold_left (λ a b, a * 256 + b) l a = a * 256 ^ Z.of_nat (length l) + be_val l.
Proof.
  unfold be_val. revert a. induction l as [|b l IH]; intros a; [simpl; lia|].
  change (fold_left (λ a b : Z, a * 256 + b) l (a * 256 + b)
    = a * 256 ^ Z.of_nat (length (b :: l)) + fold_left (λ a b : Z, a * 256 + b) l (0 * 256 + b)).
  rewrite (IH (a * 256 + b)), (IH (0 * 256 + b)).
  rewrite length_cons, Nat2Z.inj_succ, Z.pow_succ_r by lia. lia.
Qed.

Lemma be_val_cons b l : be_val (b :: l) = b * 256 ^ Z.of_nat (length l) + be_val l.
Proof. unfold be_val at 1. simpl. rewrite be_fold_acc. lia. Qed.

Lemma be_val_put n v : be_val (be_put n v) = v mod 256 ^ Z.of_nat n.
Proof.
  induction n as [|n IH]; [by rewrite Z.mod_1_r|].
  cbn [be_put]. rewrite be_val_cons, be_put_length, IH.
  rewrite Nat2Z.inj_succ, Z.pow_succ_r by lia.
  rewrite (Z.mul_comm 256), Z.rem_mul_r by lia. lia.
Qed.

Lemma be_val_range l : Forall is_byte l → 0 <= be_val l < 256 ^ Z.of_nat (length l).
Proof.
  induction 1 as [|b l Hb Hl IH]; [done|].
  rewrite be_val_cons, length_cons, Nat2Z.inj_succ, Z.pow_succ_r by lia.
  unfold is_byte in Hb. nia.
Qed.

#[export] Program Instance big_endian : BytesCrate := {|
  put_uint := be_put;
  get_uint := be_get
|}.
Next Obligation. exact be_put_length. Qed.
Next Obligation. exact be_put_byte. Qed.
Next Obligation.
  intros n v l. unfold be_get. rewrite length_app, be_put_length.
  destruct (Nat.ltb_spec (n + length l) n); [lia|].
  rewrite take_app_length', drop_app_length', be_val_put by (by rewrite be_put_length). done.
Qed.
Next Obligation.
  intros n l Hl. unfold be_get. destruct (Nat.ltb_spec (length l) n); [done|lia].
Qed.
Next Obligation.
  intros n l Hl. unfold be_get. destruct (Nat.ltb_spec (length l) n); [lia|eauto].
Qed.
Next Obligation.
  intros n l v l' Hl. unfold be_get. destruct (Nat.ltb_spec (length l) n); [done|].
  intros [= <- <-]. pose proof (be_val_range (take n l) ltac:(by apply Forall_take)) as Hr.
  rewrite length_take_le in Hr by done. done.
Qed.
End big_endian.
