(* ===== verification/Net.v ===== *)
(** * Socket addresses of [std::net]

    The address types, their [Display] text and the [FromStr] parser of the
    Rust standard library, as far as the sources use them: [NODE_JOIN] and
    [STATUS_RESPONSE] carry addresses as text, and devices are recorded under
    the text of their IP. The parser follows [core::net::parser]. *)

From S2P Require Import Prelude Bytes.

Local Open Scope Z_scope.

Inductive IpAddr :=
| V4 (a b c d : Z)
| V6 (segments : list Z).

Inductive SocketAddr :=
| SockV4 (a b c d : Z) (port : Z)
| SockV6 (segments : list Z) (port flowinfo scope_id : Z).

#[export] Instance IpAddr_eq_dec : EqDecision IpAddr.
Proof. solve_decision. Defined.
#[export] Instance SocketAddr_eq_dec : EqDecision SocketAddr.
Proof. solve_decision. Defined.

Definition sock_ip (s : SocketAddr) : IpAddr :=
  match s with
  | SockV4 a b c d _ => V4 a b c d
  | SockV6 segs _ _ _ => V6 segs
  end.

Definition sock_port (s : SocketAddr) : Z :=
  match s with
  | SockV4 _ _ _ _ p => p
  | SockV6 _ p _ _ => p
  end.

(** [SocketAddr::new(ip, port)]. *)
Definition sock_new (ip : IpAddr) (port : Z) : SocketAddr :=
  match ip with
  | V4 a b c d => SockV4 a b c d port
  | V6 segs => SockV6 segs port 0 0
  end.

(** ** Text of numbers *)
Definition digit_char (d : Z) : Z := if d <? 10 then 48 + d else 87 + d.

(** Digits of [n] in base [b], most significant first; [fuel] bounds their number. *)
Fixpoint digits (fuel : nat) (b n : Z) : list Z :=
  match fuel with
  | O => []
  | S f => if n / b =? 0 then [digit_char n] else digits f b (n / b) ++ [digit_char (n mod b)]
  end.

(** [{}] of an unsigned integer of at most 128 bits. *)
Definition dec (n : Z) : list Z := digits 39 10 n.
(** [{:x}] of a [u16]. *)
Definition hex16 (n : Z) : list Z := digits 4 16 n.

Definition join (sep : list Z) (parts : list (list Z)) : list Z :=
  match parts with
  | [] => []
  | p :: ps => p ++ concat ((λ q, sep ++ q) <$> ps)
  end.

(** ** Display *)
Definition colon : Z := 58.
Definition dot : Z := 46.

Definition ipv4_to_string (a b c d : Z) : list Z := join [dot] [dec a; dec b; dec c; dec d].

(** Longest run of zero segments: [(start, len)], the first of the longest. *)
Fixpoint zero_span (segs : list Z) (i : nat) (cur longest : nat * nat) : nat * nat :=
  match segs with
  | [] => longest
  | s :: segs' =>
      if s =? 0 then
        let start := if (cur.2 =? 0)%nat then i else cur.1 in
        let cur := (start, S cur.2) in
        zero_span segs' (S i) cur (if (longest.2 <? cur.2)%nat then cur else longest)
      else zero_span segs' (S i) (0%nat, 0%nat) longest
  end.

Definition fmt_subslice (segs : list Z) : list Z := join [colon] (hex16 <$> segs).

Definition ipv6_to_string (segs : list Z) : list Z :=
  match segs with
  | [0; 0; 0; 0; 0; 65535; hi; lo] =>
      str "::ffff:" ++ ipv4_to_string (hi / 256) (hi mod 256) (lo / 256) (lo mod 256)
  | _ =>
      let z := zero_span segs 0 (0%nat, 0%nat) (0%nat, 0%nat) in
      if (1 <? z.2)%nat
      then fmt_subslice (take z.1 segs) ++ str "::" ++ fmt_subslice (drop (z.1 + z.2) segs)
      else fmt_subslice segs
  end.

Definition ip_to_string (ip : IpAddr) : list Z :=
  match ip with
  | V4 a b c d => ipv4_to_string a b c d
  | V6 segs => ipv6_to_string segs
  end.

Definition sock_to_string (s : SocketAddr) : list Z :=
  match s with
  | SockV4 a b c d p => ipv4_to_string a b c d ++ colon :: dec p
  | SockV6 segs p _ scope =>
      str "[" ++ ipv6_to_string segs
        ++ (if scope =? 0 then [] else str "%" ++ dec scope) ++ str "]:" ++ dec p
  end.

(** ** Parsing *)
Definition to_digit (radix c : Z) : option Z :=
  let d := if in_range 48 57 c then c - 48
           else if in_range 97 122 c then c - 87
           else if in_range 65 90 c then c - 55 else 255 in
  if d <? radix then Some d else None.

Fixpoint read_digits (radix : Z) (l : list Z) (acc cnt : Z) : Z * Z * list Z :=
  match l with
  | c :: l' =>
      match to_digit radix c with
      | Some d => read_digits radix l' (acc * radix + d) (cnt + 1)
      | None => (acc, cnt, l)
      end
  | [] => (acc, cnt, l)
  end.

(** [Parser::read_number]: at most [max_digits], a value of at most [bound]. *)
Definition read_number (radix : Z) (max_digits : option Z) (allow_zero_prefix : bool) (bound : Z)
    (l : list Z) : option (Z * list Z) :=
  let '(v, cnt, rest) := read_digits radix l 0 0 in
  let too_long := match max_digits with Some m => m <? cnt | None => false end in
  let leading_zero := match l with c :: _ => c =? 48 | [] => false end in
  if too_long || (cnt =? 0) || (negb allow_zero_prefix && leading_zero && (1 <? cnt))
     || (bound <? v)
  then None else Some (v, rest).

Definition read_given_char (c : Z) (l : list Z) : option (list Z) :=
  match l with
  | x :: l' => if x =? c then Some l' else None
  | [] => None
  end.

(** [Parser::read_separator]: the separator is expected before every item but the first. *)
Definition read_separator {A} (sep : Z) (index : nat) (p : list Z → option (A * list Z)) (l : list Z)
  : option (A * list Z) :=
  match index with
  | O => p l
  | S _ => l' ← read_given_char sep l; p l'
  end.

Definition read_octet : list Z → option (Z * list Z) := read_number 10 (Some 3) false 255.

Definition read_ipv4_addr (l : list Z) : option ((Z * Z * Z * Z) * list Z) :=
  '(a, l) ← read_separator dot 0 read_octet l;
  '(b, l) ← read_separator dot 1 read_octet l;
  '(c, l) ← read_separator dot 2 read_octet l;
  '(d, l) ← read_separator dot 3 read_octet l;
  Some ((a, b, c, d), l).

(** [read_groups]: up to [k] more of [limit] hexadecimal groups, the last two possibly an IPv4
    address; returns the groups, whether they end in an IPv4 address, and the rest. *)
Fixpoint read_groups (k limit : nat) (i : nat) (l : list Z) : list Z * bool * list Z :=
  match k with
  | O => ([], false, l)
  | S k' =>
      let ipv4 := if (i <? limit - 1)%nat then read_separator colon i read_ipv4_addr l else None in
      match ipv4 with
      | Some ((a, b, c, d), l') => ([a * 256 + b; c * 256 + d], true, l')
      | None =>
          match read_separator colon i (read_number 16 (Some 4) true u16_max) l with
          | Some (g, l') =>
              let '(gs, v4, l'') := read_groups k' limit (S i) l' in (g :: gs, v4, l'')
          | None => ([], false, l)
          end
      end
  end.

Definition read_ipv6_addr (l : list Z) : option (list Z * list Z) :=
  let '(head, head_ipv4, l) := read_groups 8 8 0 l in
  if (length head =? 8)%nat then Some (head, l)
  else if head_ipv4 then None
  else
    l ← read_given_char colon l;
    l ← read_given_char colon l;
    let limit := (8 - (length head + 1))%nat in
    let '(tail, _, l) := read_groups limit limit 0 l in
    Some (head ++ replicate (8 - length head - length tail) 0 ++ tail, l).

Definition read_port (l : list Z) : option (Z * list Z) :=
  l ← read_given_char colon l; read_number 10 None true u16_max l.

Definition read_socket_addr_v4 (l : list Z) : option (SocketAddr * list Z) :=
  '((a, b, c, d), l) ← read_ipv4_addr l;
  '(p, l) ← read_port l;
  Some (SockV4 a b c d p, l).

Definition read_scope_id (l : list Z) : option (Z * list Z) :=
  l ← read_given_char 37 l; read_number 10 None true u32_max l.

Definition read_socket_addr_v6 (l : list Z) : option (SocketAddr * list Z) :=
  l ← read_given_char 91 l;
  '(segs, l) ← read_ipv6_addr l;
  let '(scope, l) := match read_scope_id l with Some r => r | None => (0, l) end in
  l ← read_given_char 93 l;
  '(p, l) ← read_port l;
  Some (SockV6 segs p 0 scope, l).

(** [str::parse::<SocketAddr>()]: the whole text must be consumed. *)
Definition parse_sock (l : list Z) : option SocketAddr :=
  match read_socket_addr_v4 l with
  | Some (s, []) => Some s
  | Some (_, _ :: _) => None
  | None => match read_socket_addr_v6 l with
            | Some (s, []) => Some s
            | _ => None
            end
  end.

(** ** Well-formedness

    An address whose text is valid UTF-8, fits a [u16] length and parses back.
    Every IPv4 address is one ([sock_ok_v4]). *)
Definition sock_ok (s : SocketAddr) : Prop :=
  parse_sock (sock_to_string s) = Some s ∧
  utf8_valid (sock_to_string s) = true ∧
  Z.of_nat (length (sock_to_string s)) < 2 ^ 16.
#[export] Instance sock_ok_dec (s : SocketAddr) : Decision (sock_ok s).
Proof. unfold sock_ok. apply _. Defined.

Definition sock_v4_wf (s : SocketAddr) : Prop :=
  match s with
  | SockV4 a b c d p =>
      0 <= a < 256 ∧ 0 <= b < 256 ∧ 0 <= c < 256 ∧ 0 <= d < 256 ∧ 0 <= p < 2 ^ 16
  | SockV6 _ _ _ _ => False
  end.

(** ** Numbers read back *)
Lemma to_digit_char b d : 2 <= b <= 16 → 0 <= d < b → to_digit b (digit_char d) = Some d.
Proof.
  intros Hb Hd. unfold to_digit, digit_char, in_range.
  destruct (Z.ltb_spec d 10).
  - destruct (Z.leb_spec 48 (48 + d)), (Z.leb_spec (48 + d) 57); try lia.
    cbn [andb]. destruct (Z.ltb_spec (48 + d - 48) b); [f_equal|]; lia.
  - destruct (Z.leb_spec 48 (87 + d)), (Z.leb_spec (87 + d) 57),
      (Z.leb_spec 97 (87 + d)), (Z.leb_spec (87 + d) 122); try lia.
    cbn [andb]. destruct (Z.ltb_spec (87 + d - 87) b); [f_equal|]; lia.
Qed.

Lemma read_digits_digits f b n rest acc cnt :
  2 <= b <= 16 → 0 <= n < b ^ Z.of_nat f → (0 < f)%nat →
  read_digits b (digits f b n ++ rest) acc cnt
  = read_digits b rest (acc * b ^ Z.of_nat (length (digits f b n)) + n)
      (cnt + Z.of_nat (length (digits f b n))).
Proof.
  intros Hb. revert n rest acc cnt.
  induction f as [|f IH]; intros n rest acc cnt Hn Hf; [lia|].
  cbn [digits]. rewrite Nat2Z.inj_succ, Z.pow_succ_r in Hn by lia.
  destruct (Z.eqb_spec (n / b) 0) as [Hz|Hz].
  - assert (n < b) by (apply Z.div_small_iff in Hz; lia).
    cbn [app read_digits length]. rewrite to_digit_char by lia. f_equal; lia.
  - assert (0 <= n / b < b ^ Z.of_nat f).
    { split; [apply Z.div_pos; lia|]. apply Z.div_lt_upper_bound; lia. }
    destruct f as [|f]; [simpl in *; lia|].
    rewrite <- app_assoc, IH by (done || lia).
    cbn [app read_digits]. rewrite to_digit_char by (done || apply Z.mod_pos_bound; lia).
    rewrite length_app, Nat2Z.inj_add. cbn [length].
    rewrite Z.pow_add_r by lia. f_equal; [|lia].
    pose proof (Z.div_mod n b ltac:(lia)). change (b ^ Z.of_nat 1) with (b ^ 1).
    rewrite Z.pow_1_r. nia.
Qed.

Lemma digits_nonempty f b n : (0 < f)%nat → (0 < length (digits f b n))%nat.
Proof. intros Hf. destruct f; [lia|]. cbn. case_match; [simpl; lia|]. rewrite length_app. simpl. lia. Qed.

Lemma digits_length_le f b n k :
  2 <= b → 0 <= n < b ^ Z.of_nat k → (0 < k)%nat → (length (digits f b n) <= k)%nat.
Proof.
  intros Hb. revert n k. induction f as [|f IH]; intros n k Hn Hk; [simpl; lia|].
  cbn [digits]. destruct (Z.eqb_spec (n / b) 0) as [Hz|Hz]; [simpl; lia|].
  destruct k as [|k]; [lia|]. rewrite Nat2Z.inj_succ, Z.pow_succ_r in Hn by lia.
  rewrite length_app. simpl.
  assert (0 <= n / b < b ^ Z.of_nat k).
  { split; [apply Z.div_pos; lia|]. apply Z.div_lt_upper_bound; lia. }
  destruct k; [simpl in *; lia|]. specialize (IH (n / b) (S k)). lia.
Qed.

(** No leading zero: only the text of [0] starts with ['0']. *)
Lemma digits_head f b n c l :
  2 <= b <= 16 → 0 <= n < b ^ Z.of_nat f → digits f b n = c :: l → c = 48 → n = 0.
Proof.
  intros Hb. revert n c l. induction f as [|f IH]; intros n c l Hn Hd Hc; [done|].
  cbn [digits] in Hd. rewrite Nat2Z.inj_succ, Z.pow_succ_r in Hn by lia.
  destruct (Z.eqb_spec (n / b) 0) as [Hz|Hz].
  - assert (n < b) by (apply Z.div_small_iff in Hz; lia).
    unfold digit_char in Hd. destruct (Z.ltb_spec n 10); simplify_eq; lia.
  - assert (0 <= n / b < b ^ Z.of_nat f).
    { split; [apply Z.div_pos; lia|]. apply Z.div_lt_upper_bound; lia. }
    destruct (digits f b (n / b)) as [|c' l'] eqn:Hr.
    + destruct f; [simpl in *; lia|].
      pose proof (digits_nonempty (S f) b (n / b)) as Hne. rewrite Hr in Hne. simpl in Hne. lia.
    + simpl in Hd. simplify_eq. exfalso. apply Hz. by eapply IH.
Qed.

Lemma digits_zero f b : (0 < f)%nat → digits f b 0 = [48].
Proof. intros. destruct f; [lia|]. cbn. rewrite Zdiv_0_l. done. Qed.

(** [read_number] reads back what [digits] wrote, up to a character that is no digit. *)
Lemma read_number_digits f b m allow bound n rest :
  2 <= b <= 16 → 0 <= n < b ^ Z.of_nat f → (0 < f)%nat → n <= bound →
  match m with Some k => n < b ^ k ∧ 0 < k | None => True end →
  match rest with c :: _ => to_digit b c = None | [] => True end →
  read_number b m allow bound (digits f b n ++ rest) = Some (n, rest).
Proof.
  intros Hb Hn Hf Hbound Hm Hrest. unfold read_number.
  rewrite read_digits_digits by done.
  replace (read_digits b rest _ _) with (n, Z.of_nat (length (digits f b n)), rest)
    by (destruct rest as [|c rest]; cbn [read_digits]; [|rewrite Hrest]; f_equal; f_equal; lia).
  pose proof (digits_nonempty f b n Hf) as Hne.
  assert (Hlong : match m with Some k => k <? Z.of_nat (length (digits f b n)) | None => false end = false).
  { destruct m as [k|]; [|done]. apply Z.ltb_ge.
    pose proof (digits_length_le f b n (Z.to_nat k)) as Hl. rewrite Z2Nat.id in Hl by lia. lia. }
  rewrite Hlong.
  destruct (Z.eqb_spec (Z.of_nat (length (digits f b n))) 0); [lia|].
  destruct (Z.ltb_spec bound n); [lia|].
  destruct (digits f b n) as [|c l] eqn:Hd; [simpl in Hne; lia|]. cbn [app orb].
  destruct (Z.eqb_spec c 48) as [Hc|]; [|by rewrite andb_false_r].
  assert (n = 0) as -> by (by eapply digits_head).
  rewrite digits_zero in Hd by done. simplify_eq. by destruct allow.
Qed.

Lemma digit_char_ascii b d : 2 <= b <= 16 → 0 <= d < b → 0 <= digit_char d <= 127.
Proof. intros. unfold digit_char. case_match; lia. Qed.

Lemma digits_ascii f b n : 2 <= b <= 16 → 0 <= n → Forall (λ c, 0 <= c <= 127) (digits f b n).
Proof.
  intros Hb. revert n. induction f as [|f IH]; intros n Hn; [constructor|].
  cbn [digits]. destruct (Z.eqb_spec (n / b) 0) as [Hz|Hz].
  - constructor; [|done]. apply (digit_char_ascii b); [done|].
    apply Z.div_small_iff in Hz; lia.
  - apply Forall_app_2; [apply IH, Z.div_pos; lia|].
    constructor; [|done]. apply (digit_char_ascii b); [done|]. apply Z.mod_pos_bound. lia.
Qed.

Lemma utf8_valid_ascii l : Forall (λ c, 0 <= c <= 127) l → utf8_valid l = true.
Proof.
  induction 1 as [|c l Hc Hl IH]; [done|]. cbn [utf8_valid]. unfold in_range.
  destruct (Z.leb_spec 0 c), (Z.leb_spec c 127); try lia. done.
Qed.

(** ** IPv4 addresses round-trip *)
Lemma read_octet_dec a rest :
  0 <= a < 256 → match rest with c :: _ => to_digit 10 c = None | [] => True end →
  read_octet (dec a ++ rest) = Some (a, rest).
Proof. intros Ha Hr. apply read_number_digits; simpl; lia || done. Qed.

Lemma parse_sock_v4 s : sock_v4_wf s → parse_sock (sock_to_string s) = Some s.
Proof.
  destruct s as [a b c d p|]; [|done]. intros (Ha & Hb & Hc & Hd & Hp).
  unfold parse_sock, read_socket_addr_v4, read_ipv4_addr, sock_to_string, ipv4_to_string.
  cbn [join fmap list_fmap concat read_separator]. rewrite app_nil_r, <- !app_assoc.
  rewrite read_octet_dec by done. cbn [mbind option_bind app read_given_char].
  rewrite Z.eqb_refl. cbn [mbind option_bind]. rewrite read_octet_dec by done.
  cbn [mbind option_bind app read_given_char]. rewrite Z.eqb_refl.
  cbn [mbind option_bind]. rewrite read_octet_dec by done.
  cbn [mbind option_bind app read_given_char]. rewrite Z.eqb_refl.
  cbn [mbind option_bind]. rewrite read_octet_dec by done.
  cbn [mbind option_bind]. unfold read_port. cbn [read_given_char].
  rewrite Z.eqb_refl. cbn [mbind option_bind].
  rewrite <- (app_nil_r (dec p)). unfold dec.
  rewrite read_number_digits; [done|lia|simpl in *; lia|lia|unfold u16_max; lia|done|done].
Qed.

Lemma dec_length_le n k : 0 <= n < 10 ^ Z.of_nat k → (0 < k)%nat → (length (dec n) <= k)%nat.
Proof. intros. apply digits_length_le; lia. Qed.

Lemma sock_ok_v4 s : sock_v4_wf s → sock_ok s.
Proof.
  intros Hs. split; [by apply parse_sock_v4|].
  destruct s as [a b c d p|]; [|done]. destruct Hs as (Ha & Hb & Hc & Hd & Hp).
  unfold sock_to_string, ipv4_to_string. cbn [join fmap list_fmap concat].
  split.
  - apply utf8_valid_ascii. rewrite !Forall_app, !Forall_cons.
    repeat split; try (apply digits_ascii; lia); try (unfold dot, colon; lia); constructor.
  - rewrite !length_app. cbn [length].
    pose proof (dec_length_le a 3 ltac:(simpl; lia) ltac:(lia)).
    pose proof (dec_length_le b 3 ltac:(simpl; lia) ltac:(lia)).
    pose proof (dec_length_le c 3 ltac:(simpl; lia) ltac:(lia)).
    pose proof (dec_length_le d 3 ltac:(simpl; lia) ltac:(lia)).
    pose proof (dec_length_le p 5 ltac:(simpl; lia) ltac:(lia)).
    rewrite ?length_app. lia.
Qed.
#[export] Hint Resolve sock_ok_v4 : hes.

Example v6_roundtrip :
  (λ s, parse_sock (sock_to_string s)) <$>
    [SockV6 [8193; 3512; 0; 0; 0; 0; 0; 1] 6570 0 0; SockV6 [0; 0; 0; 0; 0; 0; 0; 1] 80 0 0;
     SockV6 [65152; 0; 0; 1; 0; 0; 2; 3] 65535 0 7; SockV6 [0; 0; 0; 0; 0; 65535; 49320; 257] 1 0 0]
  = Some <$>
    [SockV6 [8193; 3512; 0; 0; 0; 0; 0; 1] 6570 0 0; SockV6 [0; 0; 0; 0; 0; 0; 0; 1] 80 0 0;
     SockV6 [65152; 0; 0; 1; 0; 0; 2; 3] 65535 0 7; SockV6 [0; 0; 0; 0; 0; 65535; 49320; 257] 1 0 0].
Proof. eval_done. Qed.
