(* ===== verification/Float32.v ===== *)
(** * Single-precision floats

    Rust's [f32] as the IEEE 754 binary32 format of the standard library's
    executable specification of floats ([SpecFloat], 24 bits of precision,
    exponents below 128), with the conversions the load metrics use. *)

From S2P Require Import Prelude.
From Stdlib Require Import SpecFloat.

Local Open Scope Z_scope.

Notation f32 := spec_float.

#[export] Instance f32_eq_dec : EqDecision f32.
Proof. solve_decision. Defined.

Definition prec : Z := 24.
Definition emax : Z := 128.

(** [n as f32]: rounds to nearest, ties to even. *)
Definition f32_of_Z (n : Z) : f32 := binary_normalize prec emax n 0 false.

Definition f32_add : f32 → f32 → f32 := SFadd prec emax.
Definition f32_mul : f32 → f32 → f32 := SFmul prec emax.
Definition f32_div : f32 → f32 → f32 := SFdiv prec emax.
(** [a >= b]. *)
Definition f32_ge (a b : f32) : bool := SFleb b a.
(** [a < b]. *)
Definition f32_lt (a b : f32) : bool := SFltb a b.

(** Integer part, rounding toward zero; [None] for NaN. *)
Definition f32_trunc (f : f32) : option Z :=
  match f with
  | S754_zero _ => Some 0
  | S754_infinity _ | S754_nan => None
  | S754_finite s m e =>
      let a := if 0 <=? e then Z.pos m * 2 ^ e else Z.pos m / 2 ^ (- e) in
      Some (if s then - a else a)
  end.

(** [f as uN]: saturating at 0 and [max], NaN to 0. *)
Definition f32_to_uint (max : Z) (f : f32) : Z :=
  match f with
  | S754_nan => 0
  | S754_infinity s => if s then 0 else max
  | _ => match f32_trunc f with
         | Some v => Z.max 0 (Z.min max v)
         | None => 0
         end
  end.

Definition f32_to_u8 : f32 → Z := f32_to_uint 255.
Definition f32_to_u32 : f32 → Z := f32_to_uint u32_max.
Definition f32_to_usize : f32 → Z := f32_to_uint (2 ^ 64 - 1).

Definition f32_zero : f32 := S754_zero false.
Definition f32_100 : f32 := f32_of_Z 100.
Definition f32_90 : f32 := f32_of_Z 90.

Lemma f32_to_uint_range max f : 0 <= max → 0 <= f32_to_uint max f <= max.
Proof. intros. unfold f32_to_uint. destruct f; try case_match; case_match || idtac; lia. Qed.

(** A [u8] survives [f32::from] followed by [as u8]. *)
Lemma f32_u8_roundtrip n : 0 <= n < 256 → f32_to_u8 (f32_of_Z n) = n.
Proof.
  intros Hn. assert (H : Forall (λ n, f32_to_u8 (f32_of_Z n) = n) (seqZ 0 256)).
  { eapply bool_decide_unpack. vm_compute. exact I. }
  rewrite Forall_forall in H. apply H, elem_of_seqZ. lia.
Qed.
