(* ===== verification/Node.v ===== *)
(** * Nodes and cluster configuration

    Model of [src/cluster/node.rs] and [src/cluster/error.rs]: the node
    status and its codes, [NodeInfo], [ClusterConfig] with its seed parsing,
    and the error type of the cluster. Instants are integers counting
    nanoseconds since the Unix epoch; a [Duration] counts milliseconds; every
    operation that reads the clock takes the reading as an argument. *)

From S2P Require Import Prelude Bytes Net Float32.

Local Open Scope Z_scope.
Local Open Scope hes_scope.

(** A [Uuid] is its 128-bit value ([as_u128]/[from_u128]). *)
Notation Uuid := Z.
Definition uuid_nil : Uuid := 0.
Definition uuid_wf (u : Uuid) : Prop := 0 <= u < 2 ^ 128.

Definition ns_per_ms : Z := 1000000.
Definition ns_per_s : Z := 1000000000.

(** ** Errors *)
Inductive DatabaseError :=
| TcpError (msg : list Z)
| QueryError (msg : list Z)
| NoDataFound
| TooManyRows
| InvalidInitilizationArguments
| SqlxError (msg : list Z)
| RegistrationError
| DbAckTimeout.

Inductive SchedulerError :=
| JobSchedulerError
| SchedDatabaseError (e : DatabaseError)
| ParseError (msg : list Z)
| NoScheduleDefined
| NoBucketDefined.

Inductive DeviceManagerError :=
| DmDatabase (e : DatabaseError)
| DmScheduler (e : SchedulerError)
| DmNoNodesAvailable.

Inductive ClusterError :=
| CommunicationError (msg : list Z)
| CodecError (msg : list Z)
| ClDatabaseError (e : DatabaseError)
| ClDeviceManagerError (e : DeviceManagerError)
| NodeNotFound (id : Uuid)
| NoNodesAvailable
| DelegationRejected (reason : list Z)
| ClIoError
| InvalidConfig (msg : list Z)
| NodeAlreadyExists (id : Uuid)
| ClTimeout (id : Uuid)
| InvalidMessage (msg : list Z)
| NotInitialized
| InvalidState (msg : list Z)
| ClSchedulerError (msg : list Z).

(** ** Node status *)
Inductive NodeStatus := Starting | Active | Draining | Suspect | Dead.

#[export] Instance NodeStatus_eq_dec : EqDecision NodeStatus.
Proof. solve_decision. Defined.

Definition status_code (s : NodeStatus) : Z :=
  match s with
  | Starting => 1
  | Active => 2
  | Draining => 3
  | Suspect => 4
  | Dead => 5
  end.

Definition status_from_code (code : Z) : option NodeStatus :=
  match code with
  | 1 => Some Starting
  | 2 => Some Active
  | 3 => Some Draining
  | 4 => Some Suspect
  | 5 => Some Dead
  | _ => None
  end.

Definition status_as_str (s : NodeStatus) : list Z :=
  match s with
  | Starting => str "starting"
  | Active => str "active"
  | Draining => str "draining"
  | Suspect => str "suspect"
  | Dead => str "dead"
  end.

Definition status_from_str (s : list Z) : option NodeStatus :=
  if decide (s = str "starting") then Some Starting
  else if decide (s = str "active") then Some Active
  else if decide (s = str "draining") then Some Draining
  else if decide (s = str "suspect") then Some Suspect
  else if decide (s = str "dead") then Some Dead
  else None.

(** ** Node information *)
Record NodeInfo := mkNodeInfo {
  node_id : Uuid;
  node_name : list Z;
  cluster_addr : SocketAddr;
  backdoor_port : Z;
  status : NodeStatus;
  started_at : Z;
  last_heartbeat : Z;
  bucket_count : Z;
  device_count : Z;
  max_device_suggested : Z;
  load_percent : f32
}.

#[export] Instance NodeInfo_eq_dec : EqDecision NodeInfo.
Proof. solve_decision. Defined.

Definition DEFAULT_MAX_DEVICES : Z := 1000.

(** [NodeInfo::new_local]. *)
Definition new_local (now : Z) (id : Uuid) (name : list Z) (addr : SocketAddr) (port : Z) : NodeInfo :=
  {| node_id := id; node_name := name; cluster_addr := addr; backdoor_port := port;
     status := Starting; started_at := now; last_heartbeat := now;
     bucket_count := 0; device_count := 0;
     max_device_suggested := DEFAULT_MAX_DEVICES; load_percent := f32_zero |}.

Definition is_available (n : NodeInfo) : bool :=
  match status n with Active => true | _ => false end.

Definition is_reachable (n : NodeInfo) : bool :=
  match status n with Starting | Active | Draining => true | _ => false end.

Definition set_status (st : NodeStatus) (n : NodeInfo) : NodeInfo :=
  {| node_id := node_id n; node_name := node_name n; cluster_addr := cluster_addr n;
     backdoor_port := backdoor_port n; status := st; started_at := started_at n;
     last_heartbeat := last_heartbeat n; bucket_count := bucket_count n;
     device_count := device_count n; max_device_suggested := max_device_suggested n;
     load_percent := load_percent n |}.

(** [NodeInfo::update_heartbeat]. *)
Definition touch_heartbeat (now : Z) (n : NodeInfo) : NodeInfo :=
  {| node_id := node_id n; node_name := node_name n; cluster_addr := cluster_addr n;
     backdoor_port := backdoor_port n; status := status n; started_at := started_at n;
     last_heartbeat := now; bucket_count := bucket_count n;
     device_count := device_count n; max_device_suggested := max_device_suggested n;
     load_percent := load_percent n |}.

(** Milliseconds since the last heartbeat; [0] when the clock went back. *)
Definition time_since_heartbeat (now : Z) (n : NodeInfo) : Z :=
  Z.max ((now - last_heartbeat n) ÷ ns_per_ms) 0.

(** ** Cluster configuration *)
Record ClusterConfig := mkClusterConfig {
  cfg_node_id : Uuid;
  cfg_node_name : list Z;
  cluster_port : Z;
  cluster_ip : list Z;
  cluster_seeds : list SocketAddr;
  heartbeat_interval : Z;
  suspect_timeout : Z;
  dead_timeout : Z;
  cfg_backdoor_port : Z;
  total_buckets : Z
}.

Definition DEFAULT_HEARTBEAT_INTERVAL : Z := 60 * 1000.
Definition DEFAULT_SUSPECT_TIMEOUT : Z := 180 * 1000.
Definition DEFAULT_DEAD_TIMEOUT : Z := 60 * 1000.
Definition DEFAULT_CLUSTER_PORT : Z := 6570.

(** [ClusterConfig::new]; [fresh] is the [Uuid::new_v4()] it draws. *)
Definition config_new (fresh : Uuid) (name ip : list Z) (port backdoor buckets : Z) : ClusterConfig :=
  {| cfg_node_id := fresh; cfg_node_name := name; cluster_port := port; cluster_ip := ip;
     cluster_seeds := []; heartbeat_interval := DEFAULT_HEARTBEAT_INTERVAL;
     suspect_timeout := DEFAULT_SUSPECT_TIMEOUT; dead_timeout := DEFAULT_DEAD_TIMEOUT;
     cfg_backdoor_port := backdoor; total_buckets := buckets |}.

Definition set_seeds (seeds : list SocketAddr) (c : ClusterConfig) : ClusterConfig :=
  {| cfg_node_id := cfg_node_id c; cfg_node_name := cfg_node_name c; cluster_port := cluster_port c;
     cluster_ip := cluster_ip c; cluster_seeds := seeds;
     heartbeat_interval := heartbeat_interval c; suspect_timeout := suspect_timeout c;
     dead_timeout := dead_timeout c; cfg_backdoor_port := cfg_backdoor_port c;
     total_buckets := total_buckets c |}.

Definition set_node_id (id : Uuid) (c : ClusterConfig) : ClusterConfig :=
  {| cfg_node_id := id; cfg_node_name := cfg_node_name c; cluster_port := cluster_port c;
     cluster_ip := cluster_ip c; cluster_seeds := cluster_seeds c;
     heartbeat_interval := heartbeat_interval c; suspect_timeout := suspect_timeout c;
     dead_timeout := dead_timeout c; cfg_backdoor_port := cfg_backdoor_port c;
     total_buckets := total_buckets c |}.

(** [str::split(c)]: always at least one piece. *)
Fixpoint split (sep : Z) (l : list Z) : list (list Z) :=
  match l with
  | [] => [[]]
  | c :: l' =>
      if c =? sep then [] :: split sep l'
      else match split sep l' with
           | p :: ps => (c :: p) :: ps
           | [] => [[c]]
           end
  end.

(** One [char] with the Unicode [White_Space] property at the front of UTF-8 text. *)
Definition ws_prefix (l : list Z) : option (list Z) :=
  match l with
  | b0 :: l1 =>
      if in_range 9 13 b0 || (b0 =? 32) then Some l1
      else match l1 with
           | b1 :: l2 =>
               if (b0 =? 194) && ((b1 =? 133) || (b1 =? 160)) then Some l2
               else match l2 with
                    | b2 :: l3 =>
                        if ((b0 =? 225) && (b1 =? 154) && (b2 =? 128))
                           || ((b0 =? 226) && (b1 =? 128)
                               && (in_range 128 138 b2 || (b2 =? 168) || (b2 =? 169) || (b2 =? 175)))
                           || ((b0 =? 226) && (b1 =? 129) && (b2 =? 159))
                           || ((b0 =? 227) && (b1 =? 128) && (b2 =? 128))
                        then Some l3 else None
                    | [] => None
                    end
           | [] => None
           end
  | [] => None
  end.

(** The same at the front of reversed text, where the bytes of a [char] come last first. *)
Definition ws_suffix (l : list Z) : option (list Z) :=
  match ws_prefix (take 1 l), ws_prefix (reverse (take 2 l)), ws_prefix (reverse (take 3 l)) with
  | Some [], _, _ => Some (drop 1 l)
  | _, Some [], _ => Some (drop 2 l)
  | _, _, Some [] => Some (drop 3 l)
  | _, _, _ => None
  end.

Fixpoint strip (fuel : nat) (front : list Z → option (list Z)) (l : list Z) : list Z :=
  match fuel with
  | O => l
  | S f => match front l with
           | Some l' => strip f front l'
           | None => l
           end
  end.

(** [str::trim]. *)
Definition trim (l : list Z) : list Z :=
  let l := strip (length l) ws_prefix l in
  reverse (strip (length l) ws_suffix (reverse l)).

Definition addr_parse_error : list Z := str "invalid socket address syntax".

(** [ClusterConfig::with_seeds]: the seeds parsed so far are lost with [self] on an error. *)
Fixpoint parse_seeds (pieces : list (list Z)) (acc : list SocketAddr) : outcome ClusterError (list SocketAddr) :=
  match pieces with
  | [] => Ok acc
  | seed :: pieces' =>
      let! addr := ok_or (parse_sock (trim seed))
        (InvalidConfig (str "Invalid seed address '" ++ seed ++ str "': " ++ addr_parse_error)) in
      parse_seeds pieces' (acc ++ [addr])
  end.

Definition with_seeds (c : ClusterConfig) (seeds : list Z) : outcome ClusterError ClusterConfig :=
  if decide (seeds = []) then Ok c
  else
    let! addrs := parse_seeds (split 44 seeds) (cluster_seeds c) in
    Ok (set_seeds addrs c).

(** [ClusterConfig::cluster_addr]. *)
Definition config_cluster_addr (c : ClusterConfig) : outcome ClusterError SocketAddr :=
  ok_or (parse_sock (cluster_ip c ++ colon :: dec (cluster_port c)))
    (InvalidConfig (str "Invalid cluster address: " ++ addr_parse_error)).

(** [ClusterConfig::from_cli_args]; [hostname] is what [hostname::get()] gives as UTF-8, if it does. *)
Definition from_cli_args (fresh : Uuid) (hostname : option (list Z))
    (id : Uuid) (name : option (list Z)) (ip : list Z) (port backdoor buckets : Z)
    (seeds : option (list Z)) : outcome ClusterError ClusterConfig :=
  let name := match name with
              | Some n => n
              | None => match hostname with Some h => h | None => str "hes-node" end
              end in
  let config := set_node_id id (config_new fresh name ip port backdoor buckets) in
  match seeds with
  | Some s => with_seeds config s
  | None => Ok config
  end.

(** ** Lemmas *)
Lemma status_code_from s : status_from_code (status_code s) = Some s.
Proof. by destruct s. Qed.

Lemma status_code_range s : 0 <= status_code s < 2 ^ 8.
Proof. destruct s; simpl; lia. Qed.

Lemma status_from_code_inv c s : status_from_code c = Some s → status_code s = c.
Proof. intros H. unfold status_from_code in H. repeat (case_match; simplify_eq; try done). Qed.

Lemma status_str_from s : status_from_str (status_as_str s) = Some s.
Proof. destruct s; by vm_compute. Qed.
#[export] Hint Resolve status_code_range : hes.

Lemma set_status_id st n : node_id (set_status st n) = node_id n.
Proof. done. Qed.

(** Splitting at a separator that the pieces do not contain. *)
Lemma split_app_sep sep l1 l2 : sep ∉ l1 → split sep (l1 ++ sep :: l2) = l1 :: split sep l2.
Proof.
  induction l1 as [|c l1 IH]; intros Hs; cbn [app split].
  - by rewrite Z.eqb_refl.
  - destruct (Z.eqb_spec c sep) as [->|]; [set_solver|]. rewrite IH by set_solver. done.
Qed.

Lemma split_no_sep sep l : sep ∉ l → split sep l = [l].
Proof.
  induction l as [|c l IH]; intros Hs; cbn [split]; [done|].
  destruct (Z.eqb_spec c sep) as [->|]; [set_solver|]. rewrite IH by set_solver. done.
Qed.
