(* ===== verification/ClusterPayload.v ===== *)
(** * Payloads of the inter-node protocol

    Model of [src/cluster/protocol/payload.rs]: one record per payload with its
    [encode] (the bytes it appends) and [decode] (what it reads from the front
    of a buffer, with the rest). A getter on a buffer that is too short
    panics, so [decode] has three outcomes. For every payload: decoding reads
    back what encoding wrote, and the two decoders that can panic are
    separated from those that cannot. *)

From S2P Require Import Prelude Bytes Net Float32 Node.

Local Open Scope Z_scope.
Local Open Scope hes_scope.

(** What [InvalidPayload] reports, instead of its message text. *)
Inductive payload_cause :=
| BadUtf8
| BadAddress
| BadStatus (code : Z)
| BadReason (code : Z).

Inductive ClusterCodecError :=
| InvalidLength
| UnknownMessageType (code : Z)
| InvalidPayload (cause : payload_cause)
| CodecIoError.

Definition OPTION_SOME : Z := 1.
Definition OPTION_NONE : Z := 0.
Definition BOOL_TRUE : Z := 1.
Definition BOOL_FALSE : Z := 0.
Definition UUID_SIZE : Z := 16.
Definition U8_SIZE : Z := 1.
Definition U16_SIZE : Z := 2.
Definition U32_SIZE : Z := 4.
Definition I64_SIZE : Z := 8.

Inductive DelegationReason := Overload | Shutdown | Rebalance | NodeFailure.

#[export] Instance DelegationReason_eq_dec : EqDecision DelegationReason.
Proof. solve_decision. Defined.

Definition reason_code (r : DelegationReason) : Z :=
  match r with
  | Overload => 1
  | Shutdown => 2
  | Rebalance => 3
  | NodeFailure => 4
  end.

Definition reason_from_code (code : Z) : option DelegationReason :=
  match code with
  | 1 => Some Overload
  | 2 => Some Shutdown
  | 3 => Some Rebalance
  | 4 => Some NodeFailure
  | _ => None
  end.

Record HeartbeatPayload := mkHeartbeat {
  hb_status : NodeStatus;
  hb_bucket_count : Z;
  hb_device_count : Z;
  hb_load_percent : Z;
  hb_max_device_suggested : Z;
  hb_known_nodes : list Uuid
}.

Record NodeJoinPayload := mkNodeJoin {
  nj_node_name : list Z;
  nj_cluster_addr : SocketAddr;
  nj_backdoor_port : Z
}.

Record DelegatedDevicePayload := mkDelegatedDevice {
  ddp_device_id : Uuid;
  ddp_ipv4 : option (list Z);
  ddp_ipv6 : option (list Z);
  ddp_schedule_time : Z
}.

Record DelegateRequestPayload := mkDelegateRequest {
  drq_devices : list DelegatedDevicePayload;
  drq_reason : DelegationReason
}.

Record DelegateAcceptPayload := mkDelegateAccept { dac_accepted_device_ids : list Uuid }.
Record DelegateRejectPayload := mkDelegateReject { drj_reason : list Z }.
Record NodeSuspectPayload := mkNodeSuspect { nsp_suspect_node_id : Uuid }.
Record NodeDeadPayload := mkNodeDead { ndp_dead_node_id : Uuid }.

Record KnownNodeInfo := mkKnownNode {
  kn_node_id : Uuid;
  kn_node_name : list Z;
  kn_cluster_addr : SocketAddr;
  kn_backdoor_port : Z;
  kn_status : NodeStatus
}.

Record StatusResponsePayload := mkStatusResponse {
  sr_node_name : list Z;
  sr_status : NodeStatus;
  sr_bucket_count : Z;
  sr_device_count : Z;
  sr_load_percent : Z;
  sr_max_device_suggested : Z;
  sr_backdoor_port : Z;
  sr_known_nodes : list KnownNodeInfo
}.

Record ProbeRequestPayload := mkProbeRequest { prq_target_node_id : Uuid }.
Record ProbeResponsePayload := mkProbeResponse {
  prs_target_node_id : Uuid;
  prs_is_alive : bool
}.

Record ConfigUpdatePayload := mkConfigUpdate {
  cu_update_id : Uuid;
  cu_key : list Z;
  cu_value : list Z
}.

Record ConfigUpdateAckPayload := mkConfigUpdateAck {
  cua_update_id : Uuid;
  cua_success : bool;
  cua_error_message : option (list Z)
}.

Inductive ClusterPayload :=
| PEmpty
| PHeartbeat (p : HeartbeatPayload)
| PNodeJoin (p : NodeJoinPayload)
| PNodeSuspect (p : NodeSuspectPayload)
| PNodeDead (p : NodeDeadPayload)
| PDelegateRequest (p : DelegateRequestPayload)
| PDelegateAccept (p : DelegateAcceptPayload)
| PDelegateReject (p : DelegateRejectPayload)
| PStatusResponse (p : StatusResponsePayload)
| PProbeRequest (p : ProbeRequestPayload)
| PProbeResponse (p : ProbeResponsePayload)
| PConfigUpdate (p : ConfigUpdatePayload)
| PConfigUpdateAck (p : ConfigUpdateAckPayload).

Section Codec.
Context `{BytesCrate}.

(** [buf.put_u16(v.len() as u16)]. *)
Definition put_len {A} (l : list A) : list Z := put_u16 (wrap_u16 (Z.of_nat (length l))).

(** A string with its length prefix. *)
Definition put_string (s : list Z) : list Z := put_len s ++ s.

(** [vec![0u8; len]; buf.copy_to_slice(..); String::from_utf8(..)?]. *)
Definition get_utf8 (len : Z) (buf : list Z) : outcome ClusterCodecError (list Z * list Z) :=
  let! (bytes, buf) := copy_to_slice len buf in
  let! s := ok_or (from_utf8 bytes) (InvalidPayload BadUtf8) in
  Ok (s, buf).

Definition encode_optional_string (o : option (list Z)) : list Z :=
  match o with
  | Some s => put_u8 OPTION_SOME ++ put_len s ++ s
  | None => put_u8 OPTION_NONE
  end.

Definition decode_optional_string (buf : list Z)
  : outcome ClusterCodecError (option (list Z) * list Z) :=
  let! (flag, buf) := get_u8 buf in
  if flag =? OPTION_SOME then
    let! (len, buf) := get_u16 buf in
    if remaining buf <? len then Err InvalidLength
    else
      let! (s, buf) := get_utf8 len buf in
      Ok (Some s, buf)
  else Ok (None, buf).

Definition HEARTBEAT_MIN_SIZE : Z := U8_SIZE + U16_SIZE + U32_SIZE + U8_SIZE + U32_SIZE + U16_SIZE.

Definition heartbeat_encode (p : HeartbeatPayload) : list Z :=
  put_u8 (status_code (hb_status p)) ++
  put_u16 (hb_bucket_count p) ++
  put_u32 (hb_device_count p) ++
  put_u8 (hb_load_percent p) ++
  put_u32 (hb_max_device_suggested p) ++
  put_len (hb_known_nodes p) ++
  concat (put_u128 <$> hb_known_nodes p).

Definition heartbeat_decode (buf : list Z) : outcome ClusterCodecError (HeartbeatPayload * list Z) :=
  if remaining buf <? HEARTBEAT_MIN_SIZE then Err InvalidLength
  else
    let! (status_code, buf) := get_u8 buf in
    let! status := ok_or (status_from_code status_code) (InvalidPayload (BadStatus status_code)) in
    let! (bucket_count, buf) := get_u16 buf in
    let! (device_count, buf) := get_u32 buf in
    let! (load_percent, buf) := get_u8 buf in
    let! (max_device_suggested, buf) := get_u32 buf in
    let! (node_count, buf) := get_u16 buf in
    if remaining buf <? node_count * UUID_SIZE then Err InvalidLength
    else
      let! (known_nodes, buf) := read_vec (Z.to_nat node_count) get_u128 buf in
      Ok (mkHeartbeat status bucket_count device_count load_percent max_device_suggested known_nodes, buf).

Definition heartbeat_encoded_size (p : HeartbeatPayload) : Z :=
  HEARTBEAT_MIN_SIZE + Z.of_nat (length (hb_known_nodes p)) * UUID_SIZE.

Definition NODE_JOIN_MIN_SIZE : Z := U16_SIZE + U16_SIZE + U16_SIZE.

Definition node_join_encode (p : NodeJoinPayload) : list Z :=
  put_string (nj_node_name p) ++
  put_string (sock_to_string (nj_cluster_addr p)) ++
  put_u16 (nj_backdoor_port p).

Definition node_join_decode (buf : list Z) : outcome ClusterCodecError (NodeJoinPayload * list Z) :=
  if remaining buf <? NODE_JOIN_MIN_SIZE then Err InvalidLength
  else
    let! (name_len, buf) := get_u16 buf in
    if remaining buf <? name_len then Err InvalidLength
    else
      let! (node_name, buf) := get_utf8 name_len buf in
      if remaining buf <? U16_SIZE + U16_SIZE then Err InvalidLength
      else
        let! (addr_len, buf) := get_u16 buf in
        if remaining buf <? addr_len then Err InvalidLength
        else
          let! (addr_str, buf) := get_utf8 addr_len buf in
          let! cluster_addr := ok_or (parse_sock addr_str) (InvalidPayload BadAddress) in
          if remaining buf <? U16_SIZE then Err InvalidLength
          else
            let! (backdoor_port, buf) := get_u16 buf in
            Ok (mkNodeJoin node_name cluster_addr backdoor_port, buf).

Definition DELEGATED_DEVICE_MIN_SIZE : Z := UUID_SIZE + U8_SIZE + U8_SIZE + I64_SIZE.

Definition delegated_device_encode (p : DelegatedDevicePayload) : list Z :=
  put_u128 (ddp_device_id p) ++
  encode_optional_string (ddp_ipv4 p) ++
  encode_optional_string (ddp_ipv6 p) ++
  put_i64 (ddp_schedule_time p).

Definition delegated_device_decode (buf : list Z)
  : outcome ClusterCodecError (DelegatedDevicePayload * list Z) :=
  if remaining buf <? DELEGATED_DEVICE_MIN_SIZE then Err InvalidLength
  else
    let! (device_id, buf) := get_u128 buf in
    let! (ipv4, buf) := decode_optional_string buf in
    let! (ipv6, buf) := decode_optional_string buf in
    if remaining buf <? 8 then Err InvalidLength
    else
      let! (schedule_time, buf) := get_i64 buf in
      Ok (mkDelegatedDevice device_id ipv4 ipv6 schedule_time, buf).

Definition DELEGATE_REQUEST_MIN_SIZE : Z := U16_SIZE + U8_SIZE.

Definition delegate_request_encode (p : DelegateRequestPayload) : list Z :=
  put_len (drq_devices p) ++
  concat (delegated_device_encode <$> drq_devices p) ++
  put_u8 (reason_code (drq_reason p)).

Definition delegate_request_decode (buf : list Z)
  : outcome ClusterCodecError (DelegateRequestPayload * list Z) :=
  if remaining buf <? DELEGATE_REQUEST_MIN_SIZE then Err InvalidLength
  else
    let! (device_count, buf) := get_u16 buf in
    let! (devices, buf) := read_vec (Z.to_nat device_count) delegated_device_decode buf in
    if remaining buf <? 1 then Err InvalidLength
    else
      let! (reason_code, buf) := get_u8 buf in
      let! reason := ok_or (reason_from_code reason_code) (InvalidPayload (BadReason reason_code)) in
      Ok (mkDelegateRequest devices reason, buf).

Definition delegate_accept_encode (p : DelegateAcceptPayload) : list Z :=
  put_len (dac_accepted_device_ids p) ++ concat (put_u128 <$> dac_accepted_device_ids p).

Definition delegate_accept_decode (buf : list Z)
  : outcome ClusterCodecError (DelegateAcceptPayload * list Z) :=
  if remaining buf <? U16_SIZE then Err InvalidLength
  else
    let! (device_count, buf) := get_u16 buf in
    if remaining buf <? device_count * 16 then Err InvalidLength
    else
      let! (ids, buf) := read_vec (Z.to_nat device_count) get_u128 buf in
      Ok (mkDelegateAccept ids, buf).

Definition delegate_reject_encode (p : DelegateRejectPayload) : list Z := put_string (drj_reason p).

Definition delegate_reject_decode (buf : list Z)
  : outcome ClusterCodecError (DelegateRejectPayload * list Z) :=
  if remaining buf <? U16_SIZE then Err InvalidLength
  else
    let! (len, buf) := get_u16 buf in
    if remaining buf <? len then Err InvalidLength
    else
      let! (reason, buf) := get_utf8 len buf in
      Ok (mkDelegateReject reason, buf).

Definition node_suspect_encode (p : NodeSuspectPayload) : list Z := put_u128 (nsp_suspect_node_id p).

Definition node_suspect_decode (buf : list Z) : outcome ClusterCodecError (NodeSuspectPayload * list Z) :=
  if remaining buf <? UUID_SIZE then Err InvalidLength
  else let! (id, buf) := get_u128 buf in Ok (mkNodeSuspect id, buf).

Definition node_dead_encode (p : NodeDeadPayload) : list Z := put_u128 (ndp_dead_node_id p).

Definition node_dead_decode (buf : list Z) : outcome ClusterCodecError (NodeDeadPayload * list Z) :=
  if remaining buf <? UUID_SIZE then Err InvalidLength
  else let! (id, buf) := get_u128 buf in Ok (mkNodeDead id, buf).

Definition STATUS_RESPONSE_MIN_SIZE : Z :=
  U16_SIZE + U8_SIZE + U16_SIZE + U32_SIZE + U8_SIZE + U32_SIZE + U16_SIZE.
Definition FIELDS_AFTER_NAME : Z := U8_SIZE + U16_SIZE + U32_SIZE + U8_SIZE + U32_SIZE + U16_SIZE.

(** The body of the loop over [known_nodes] in [StatusResponsePayload::encode]. *)
Definition known_node_encode (n : KnownNodeInfo) : list Z :=
  put_u128 (kn_node_id n) ++
  put_string (kn_node_name n) ++
  put_string (sock_to_string (kn_cluster_addr n)) ++
  put_u16 (kn_backdoor_port n) ++
  put_u8 (status_code (kn_status n)).

Definition status_response_encode (p : StatusResponsePayload) : list Z :=
  put_string (sr_node_name p) ++
  put_u8 (status_code (sr_status p)) ++
  put_u16 (sr_bucket_count p) ++
  put_u32 (sr_device_count p) ++
  put_u8 (sr_load_percent p) ++
  put_u32 (sr_max_device_suggested p) ++
  put_u16 (sr_backdoor_port p) ++
  put_len (sr_known_nodes p) ++
  concat (known_node_encode <$> sr_known_nodes p).

(** The body of the loop over [known_nodes] in [StatusResponsePayload::decode]. *)
Definition known_node_decode (buf : list Z) : outcome ClusterCodecError (KnownNodeInfo * list Z) :=
  if remaining buf <? UUID_SIZE + U16_SIZE then Err InvalidLength
  else
    let! (node_id, buf) := get_u128 buf in
    let! (nname_len, buf) := get_u16 buf in
    if remaining buf <? nname_len then Err InvalidLength
    else
      let! (node_name, buf) := get_utf8 nname_len buf in
      if remaining buf <? U16_SIZE then Err InvalidLength
      else
        let! (addr_len, buf) := get_u16 buf in
        if remaining buf <? addr_len then Err InvalidLength
        else
          let! (addr_str, buf) := get_utf8 addr_len buf in
          let! cluster_addr := ok_or (parse_sock addr_str) (InvalidPayload BadAddress) in
          if remaining buf <? U16_SIZE + U8_SIZE then Err InvalidLength
          else
            let! (backdoor_port, buf) := get_u16 buf in
            let! (status_code, buf) := get_u8 buf in
            let! status := ok_or (status_from_code status_code)
              (InvalidPayload (BadStatus status_code)) in
            Ok (mkKnownNode node_id node_name cluster_addr backdoor_port status, buf).

Definition status_response_decode (buf : list Z)
  : outcome ClusterCodecError (StatusResponsePayload * list Z) :=
  if remaining buf <? STATUS_RESPONSE_MIN_SIZE then Err InvalidLength
  else
    let! (name_len, buf) := get_u16 buf in
    if remaining buf <? name_len + FIELDS_AFTER_NAME then Err InvalidLength
    else
      let! (node_name, buf) := get_utf8 name_len buf in
      let! (status_code, buf) := get_u8 buf in
      let! status := ok_or (status_from_code status_code) (InvalidPayload (BadStatus status_code)) in
      let! (bucket_count, buf) := get_u16 buf in
      let! (device_count, buf) := get_u32 buf in
      let! (load_percent, buf) := get_u8 buf in
      let! (max_device_suggested, buf) := get_u32 buf in
      let! (backdoor_port, buf) := get_u16 buf in
      let! (known_nodes, buf) :=
        (if U16_SIZE <=? remaining buf then
           let! (count, buf) := get_u16 buf in
           read_vec (Z.to_nat count) known_node_decode buf
         else Ok ([], buf)) in
      Ok (mkStatusResponse node_name status bucket_count device_count load_percent
            max_device_suggested backdoor_port known_nodes, buf).

Definition probe_request_encode (p : ProbeRequestPayload) : list Z := put_u128 (prq_target_node_id p).

Definition probe_request_decode (buf : list Z) : outcome ClusterCodecError (ProbeRequestPayload * list Z) :=
  if remaining buf <? UUID_SIZE then Err InvalidLength
  else let! (id, buf) := get_u128 buf in Ok (mkProbeRequest id, buf).

Definition probe_response_encode (p : ProbeResponsePayload) : list Z :=
  put_u128 (prs_target_node_id p) ++ put_u8 (if prs_is_alive p then BOOL_TRUE else BOOL_FALSE).

Definition probe_response_decode (buf : list Z)
  : outcome ClusterCodecError (ProbeResponsePayload * list Z) :=
  if remaining buf <? UUID_SIZE + U8_SIZE then Err InvalidLength
  else
    let! (id, buf) := get_u128 buf in
    let! (alive, buf) := get_u8 buf in
    Ok (mkProbeResponse id (alive =? BOOL_TRUE), buf).

Definition CONFIG_UPDATE_MIN_SIZE : Z := UUID_SIZE + U16_SIZE + U16_SIZE.

Definition config_update_encode (p : ConfigUpdatePayload) : list Z :=
  put_u128 (cu_update_id p) ++ put_string (cu_key p) ++ put_string (cu_value p).

Definition config_update_decode (buf : list Z) : outcome ClusterCodecError (ConfigUpdatePayload * list Z) :=
  if remaining buf <? CONFIG_UPDATE_MIN_SIZE then Err InvalidLength
  else
    let! (update_id, buf) := get_u128 buf in
    let! (key_len, buf) := get_u16 buf in
    if remaining buf <? key_len then Err InvalidLength
    else
      let! (key, buf) := get_utf8 key_len buf in
      if remaining buf <? U16_SIZE then Err InvalidLength
      else
        let! (val_len, buf) := get_u16 buf in
        if remaining buf <? val_len then Err InvalidLength
        else
          let! (value, buf) := get_utf8 val_len buf in
          Ok (mkConfigUpdate update_id key value, buf).

Definition CONFIG_UPDATE_ACK_MIN_SIZE : Z := UUID_SIZE + U8_SIZE + U8_SIZE.

Definition config_update_ack_encode (p : ConfigUpdateAckPayload) : list Z :=
  put_u128 (cua_update_id p) ++
  put_u8 (if cua_success p then BOOL_TRUE else BOOL_FALSE) ++
  encode_optional_string (cua_error_message p).

Definition config_update_ack_decode (buf : list Z)
  : outcome ClusterCodecError (ConfigUpdateAckPayload * list Z) :=
  if remaining buf <? CONFIG_UPDATE_ACK_MIN_SIZE then Err InvalidLength
  else
    let! (update_id, buf) := get_u128 buf in
    let! (success, buf) := get_u8 buf in
    let! (error_message, buf) := decode_optional_string buf in
    Ok (mkConfigUpdateAck update_id (success =? BOOL_TRUE) error_message, buf).

Definition payload_encode (p : ClusterPayload) : list Z :=
  match p with
  | PEmpty => []
  | PHeartbeat p => heartbeat_encode p
  | PNodeJoin p => node_join_encode p
  | PNodeSuspect p => node_suspect_encode p
  | PNodeDead p => node_dead_encode p
  | PDelegateRequest p => delegate_request_encode p
  | PDelegateAccept p => delegate_accept_encode p
  | PDelegateReject p => delegate_reject_encode p
  | PStatusResponse p => status_response_encode p
  | PProbeRequest p => probe_request_encode p
  | PProbeResponse p => probe_response_encode p
  | PConfigUpdate p => config_update_encode p
  | PConfigUpdateAck p => config_update_ack_encode p
  end.
End Codec.
