(* ===== verification/ClusterPayloadFacts.v ===== *)
(** * Round trips and panics of the payload codecs

    For every payload of [ClusterPayload]: what [encode] wrote, [decode] reads
    back, with whatever follows left in the buffer ([*_roundtrip]); and
    [decode] answers [Ok] or [Err] on every input ([*_no_panic]), except for
    the two payloads that contain an optional string. *)

From S2P Require Import Prelude Bytes Net Float32 Node ClusterPayload.

Local Open Scope Z_scope.
Local Open Scope hes_scope.

(** ** Well-formed payloads: the values the Rust types can hold, and lengths that fit their prefix *)
Definition u8_wf (v : Z) : Prop := 0 <= v < 2 ^ 8.
Definition u16_wf (v : Z) : Prop := 0 <= v < 2 ^ 16.
Definition u32_wf (v : Z) : Prop := 0 <= v < 2 ^ 32.
Definition u64_wf (v : Z) : Prop := 0 <= v < 2 ^ 64.
Definition i64_wf (v : Z) : Prop := - 2 ^ 63 <= v < 2 ^ 63.
Definition len16 {A} (l : list A) : Prop := Z.of_nat (length l) < 2 ^ 16.
Definition text_wf (s : list Z) : Prop := utf8_valid s = true ∧ len16 s.
Definition opt_text_wf (o : option (list Z)) : Prop :=
  match o with Some s => text_wf s | None => True end.

Definition heartbeat_wf (p : HeartbeatPayload) : Prop :=
  u16_wf (hb_bucket_count p) ∧ u32_wf (hb_device_count p) ∧ u8_wf (hb_load_percent p) ∧
  u32_wf (hb_max_device_suggested p) ∧ Forall uuid_wf (hb_known_nodes p) ∧ len16 (hb_known_nodes p).
Definition node_join_wf (p : NodeJoinPayload) : Prop :=
  text_wf (nj_node_name p) ∧ sock_ok (nj_cluster_addr p) ∧ u16_wf (nj_backdoor_port p).
Definition delegated_device_wf (p : DelegatedDevicePayload) : Prop :=
  uuid_wf (ddp_device_id p) ∧ opt_text_wf (ddp_ipv4 p) ∧ opt_text_wf (ddp_ipv6 p) ∧
  i64_wf (ddp_schedule_time p).
Definition delegate_request_wf (p : DelegateRequestPayload) : Prop :=
  Forall delegated_device_wf (drq_devices p) ∧ len16 (drq_devices p).
Definition delegate_accept_wf (p : DelegateAcceptPayload) : Prop :=
  Forall uuid_wf (dac_accepted_device_ids p) ∧ len16 (dac_accepted_device_ids p).
Definition known_node_wf (n : KnownNodeInfo) : Prop :=
  uuid_wf (kn_node_id n) ∧ text_wf (kn_node_name n) ∧ sock_ok (kn_cluster_addr n) ∧
  u16_wf (kn_backdoor_port n).
Definition status_response_wf (p : StatusResponsePayload) : Prop :=
  text_wf (sr_node_name p) ∧ u16_wf (sr_bucket_count p) ∧ u32_wf (sr_device_count p) ∧
  u8_wf (sr_load_percent p) ∧ u32_wf (sr_max_device_suggested p) ∧ u16_wf (sr_backdoor_port p) ∧
  Forall known_node_wf (sr_known_nodes p) ∧ len16 (sr_known_nodes p).
Definition config_update_wf (p : ConfigUpdatePayload) : Prop :=
  uuid_wf (cu_update_id p) ∧ text_wf (cu_key p) ∧ text_wf (cu_value p).
Definition config_update_ack_wf (p : ConfigUpdateAckPayload) : Prop :=
  uuid_wf (cua_update_id p) ∧ opt_text_wf (cua_error_message p).

Definition payload_wf (p : ClusterPayload) : Prop :=
  match p with
  | PEmpty => True
  | PHeartbeat p => heartbeat_wf p
  | PNodeJoin p => node_join_wf p
  | PNodeSuspect p => uuid_wf (nsp_suspect_node_id p)
  | PNodeDead p => uuid_wf (ndp_dead_node_id p)
  | PDelegateRequest p => delegate_request_wf p
  | PDelegateAccept p => delegate_accept_wf p
  | PDelegateReject p => text_wf (drj_reason p)
  | PStatusResponse p => status_response_wf p
  | PProbeRequest p => uuid_wf (prq_target_node_id p)
  | PProbeResponse p => uuid_wf (prs_target_node_id p)
  | PConfigUpdate p => config_update_wf p
  | PConfigUpdateAck p => config_update_ack_wf p
  end.

Lemma reason_code_from r : reason_from_code (reason_code r) = Some r.
Proof. by destruct r. Qed.
Lemma reason_code_range r : 0 <= reason_code r < 2 ^ 8.
Proof. destruct r; simpl; lia. Qed.

Section Facts.
Context `{BytesCrate}.

(** ** Lengths *)
Lemma length_put_u8 v : length (put_u8 v) = 1%nat.
Proof. apply put_uint_length. Qed.
Lemma length_put_u16 v : length (put_u16 v) = 2%nat.
Proof. apply put_uint_length. Qed.
Lemma length_put_u32 v : length (put_u32 v) = 4%nat.
Proof. apply put_uint_length. Qed.
Lemma length_put_u64 v : length (put_u64 v) = 8%nat.
Proof. apply put_uint_length. Qed.
Lemma length_put_u128 v : length (put_u128 v) = 16%nat.
Proof. apply put_uint_length. Qed.
Lemma length_put_i64 v : length (put_i64 v) = 8%nat.
Proof. apply put_uint_length. Qed.
Lemma length_put_len {A} (l : list A) : length (put_len l) = 2%nat.
Proof. apply put_uint_length. Qed.

Lemma length_concat_u128 ids : length (concat (put_u128 <$> ids)) = (16 * length ids)%nat.
Proof.
  induction ids as [|i ids IH]; [done|].
  rewrite fmap_cons. cbn [concat length]. rewrite length_app, IH, length_put_u128. lia.
Qed.

(** ** Reading strings back *)
Lemma get_len_put {E A} (l : list A) r :
  len16 l → @get_u16 _ E (put_len l ++ r) = Ok (Z.of_nat (length l), r).
Proof.
  intros Hl. unfold len16 in Hl. unfold put_len, wrap_u16.
  rewrite Z.mod_small by lia. apply get_u16_put. lia.
Qed.

Lemma get_utf8_app s r :
  utf8_valid s = true → get_utf8 (Z.of_nat (length s)) (s ++ r) = Ok (s, r).
Proof.
  intros Hs. unfold get_utf8. rewrite copy_to_slice_app by done.
  cbn [obind]. unfold from_utf8. by rewrite Hs.
Qed.
End Facts.

(** A length guard of a decoder that the bytes at hand satisfy. *)
Ltac len_simpl :=
  unfold remaining, put_string, len16, U8_SIZE, U16_SIZE, U32_SIZE, I64_SIZE, UUID_SIZE in *;
  rewrite ?length_app, ?length_put_u8, ?length_put_u16, ?length_put_u32, ?length_put_u64,
    ?length_put_u128, ?length_put_i64, ?length_put_len, ?length_concat_u128 in *.
Ltac pass_guard :=
  match goal with
  | |- context [if ?x <? ?y then _ else _] =>
      let Hg := fresh in
      destruct (Z.ltb_spec x y) as [Hg|_]; [exfalso; len_simpl; lia|]
  | |- context [if ?x <=? ?y then _ else _] =>
      let Hg := fresh in
      destruct (Z.leb_spec x y) as [_|Hg]; [|exfalso; len_simpl; lia]
  end.
(** One getter of a decoder meets the bytes its field was written as. *)
Ltac read_field :=
  first
    [ rewrite get_len_put by (unfold len16 in *; tauto || lia)
    | rewrite get_u8_put by (auto with hes || (unfold u8_wf in *; lia))
    | rewrite get_u16_put by (unfold u16_wf in *; lia)
    | rewrite get_u32_put by (unfold u32_wf in *; lia)
    | rewrite get_u64_put by (unfold u64_wf in *; lia)
    | rewrite get_u128_put by (unfold uuid_wf in *; lia)
    | rewrite get_i64_put by (unfold i64_wf in *; lia)
    | rewrite get_utf8_app by tauto
    | rewrite status_code_from
    | rewrite reason_code_from ]; cbn [obind ok_or].
Ltac roundtrip := rewrite <- ?app_assoc; repeat (pass_guard || read_field).

#[export] Hint Resolve reason_code_range : hes.

Section Roundtrip.
Context `{BytesCrate}.

Lemma optional_string_roundtrip o r :
  opt_text_wf o → decode_optional_string (encode_optional_string o ++ r) = Ok (o, r).
Proof.
  destruct o as [s|]; intros Hs; unfold decode_optional_string, encode_optional_string, OPTION_SOME, OPTION_NONE.
  - destruct Hs as [Hv Hl]. rewrite <- ?app_assoc. rewrite get_u8_put by lia. cbn [obind].
    rewrite Z.eqb_refl. roundtrip. done.
  - rewrite get_u8_put by lia. done.
Qed.

Lemma heartbeat_roundtrip p r :
  heartbeat_wf p → heartbeat_decode (heartbeat_encode p ++ r) = Ok (p, r).
Proof.
  intros (Hb & Hd & Hl & Hm & Hk & Hlen).
  unfold heartbeat_decode, heartbeat_encode, HEARTBEAT_MIN_SIZE. roundtrip.
  rewrite Nat2Z.id, read_vec_flat_map.
  - by destruct p.
  - intros x r' Hx. apply get_u128_put. rewrite Forall_forall in Hk. by apply Hk.
Qed.

Lemma node_join_roundtrip p r :
  node_join_wf p → node_join_decode (node_join_encode p ++ r) = Ok (p, r).
Proof.
  intros ((Hn & Hnl) & (Hp & Hu & Hal) & Hb).
  unfold node_join_decode, node_join_encode, NODE_JOIN_MIN_SIZE, put_string. roundtrip.
  rewrite Hp. cbn [obind ok_or]. roundtrip. by destruct p.
Qed.

Lemma delegated_device_roundtrip p r :
  delegated_device_wf p → delegated_device_decode (delegated_device_encode p ++ r) = Ok (p, r).
Proof.
  intros (Hi & H4 & H6 & Ht). unfold delegated_device_decode, delegated_device_encode.
  unfold DELEGATED_DEVICE_MIN_SIZE. rewrite <- !app_assoc.
  destruct (Z.ltb_spec (remaining (put_u128 (ddp_device_id p) ++ encode_optional_string (ddp_ipv4 p) ++
    encode_optional_string (ddp_ipv6 p) ++ put_i64 (ddp_schedule_time p) ++ r))
    (UUID_SIZE + U8_SIZE + U8_SIZE + I64_SIZE)) as [Hg|_].
  { exfalso. unfold encode_optional_string in Hg.
    destruct (ddp_ipv4 p), (ddp_ipv6 p); len_simpl; lia. }
  rewrite get_u128_put by done. cbn [obind].
  rewrite optional_string_roundtrip by done. cbn [obind].
  rewrite optional_string_roundtrip by done. cbn [obind]. roundtrip. by destruct p.
Qed.

Lemma delegate_request_roundtrip p r :
  delegate_request_wf p → delegate_request_decode (delegate_request_encode p ++ r) = Ok (p, r).
Proof.
  intros (Hd & Hl). unfold delegate_request_decode, delegate_request_encode, DELEGATE_REQUEST_MIN_SIZE.
  roundtrip. rewrite Nat2Z.id, read_vec_flat_map.
  - cbn [obind]. roundtrip. by destruct p.
  - intros x r' Hx. apply delegated_device_roundtrip. rewrite Forall_forall in Hd. by apply Hd.
Qed.

Lemma delegate_accept_roundtrip p r :
  delegate_accept_wf p → delegate_accept_decode (delegate_accept_encode p ++ r) = Ok (p, r).
Proof.
  intros (Hd & Hl). unfold delegate_accept_decode, delegate_accept_encode. roundtrip.
  rewrite Nat2Z.id, read_vec_flat_map.
  - by destruct p.
  - intros x r' Hx. apply get_u128_put. rewrite Forall_forall in Hd. by apply Hd.
Qed.

Lemma delegate_reject_roundtrip p r :
  text_wf (drj_reason p) → delegate_reject_decode (delegate_reject_encode p ++ r) = Ok (p, r).
Proof.
  intros (Hu & Hl). unfold delegate_reject_decode, delegate_reject_encode, put_string.
  roundtrip. by destruct p.
Qed.

Lemma known_node_roundtrip p r :
  known_node_wf p → known_node_decode (known_node_encode p ++ r) = Ok (p, r).
Proof.
  intros (Hi & (Hn & Hnl) & (Hp & Hu & Hal) & Hb).
  unfold known_node_decode, known_node_encode, put_string. roundtrip.
  rewrite Hp. cbn [obind ok_or]. roundtrip. by destruct p.
Qed.

Lemma status_response_roundtrip p r :
  status_response_wf p → status_response_decode (status_response_encode p ++ r) = Ok (p, r).
Proof.
  intros ((Hn & Hnl) & Hb & Hd & Hl & Hm & Hbp & Hk & Hkl).
  unfold status_response_decode, status_response_encode, put_string.
  unfold STATUS_RESPONSE_MIN_SIZE, FIELDS_AFTER_NAME. roundtrip.
  rewrite Nat2Z.id, read_vec_flat_map.
  - by destruct p.
  - intros x r' Hx. apply known_node_roundtrip. rewrite Forall_forall in Hk. by apply Hk.
Qed.

Lemma probe_response_roundtrip p r :
  uuid_wf (prs_target_node_id p) → probe_response_decode (probe_response_encode p ++ r) = Ok (p, r).
Proof.
  intros Hi. unfold probe_response_decode, probe_response_encode, BOOL_TRUE, BOOL_FALSE.
  destruct p as [id []]; simpl in *; roundtrip; done.
Qed.

Lemma config_update_roundtrip p r :
  config_update_wf p → config_update_decode (config_update_encode p ++ r) = Ok (p, r).
Proof.
  intros (Hi & (Hk & Hkl) & (Hv & Hvl)).
  unfold config_update_decode, config_update_encode, CONFIG_UPDATE_MIN_SIZE, put_string.
  roundtrip. by destruct p.
Qed.

Lemma config_update_ack_roundtrip p r :
  config_update_ack_wf p → config_update_ack_decode (config_update_ack_encode p ++ r) = Ok (p, r).
Proof.
  intros (Hi & Hm). unfold config_update_ack_decode, config_update_ack_encode.
  unfold CONFIG_UPDATE_ACK_MIN_SIZE, BOOL_TRUE, BOOL_FALSE. rewrite <- !app_assoc.
  match goal with |- context [if ?x <? ?y then _ else _] => destruct (Z.ltb_spec x y) as [Hg|_] end.
  { exfalso. unfold encode_optional_string in Hg. destruct (cua_error_message p); len_simpl; lia. }
  rewrite get_u128_put by done. cbn [obind].
  rewrite get_u8_put by (destruct (cua_success p); lia). cbn [obind].
  rewrite optional_string_roundtrip by done. by destruct p as [? [] ?].
Qed.
End Roundtrip.

(** ** Panics

    [safe read]: on every buffer of bytes [read] returns, and leaves bytes. *)
Definition safe {A} (read : list Z → outcome ClusterCodecError (A * list Z)) : Prop :=
  ∀ buf, Forall is_byte buf →
    match read buf with
    | Ok (_, rest) => Forall is_byte rest
    | Err _ => True
    | Panic => False
    end.

Section Safety.
Context `{BytesCrate}.

Lemma get_n_safe {E} n buf :
  Forall is_byte buf → (n <= length buf)%nat →
  ∃ v, @get_n _ E n buf = Ok (v, drop n buf) ∧ 0 <= v ∧ Forall is_byte (drop n buf).
Proof.
  intros Hb Hn. destruct (get_uint_long n buf Hn) as [v Hv]. exists v.
  unfold get_n. rewrite Hv. split; [done|]. split; [|by apply Forall_drop].
  by eapply get_uint_range.
Qed.

Lemma get_utf8_safe len buf :
  0 <= len <= remaining buf →
  (∃ s, get_utf8 len buf = Ok (s, drop (Z.to_nat len) buf))
  ∨ get_utf8 len buf = Err (InvalidPayload BadUtf8).
Proof.
  intros Hl. unfold get_utf8. rewrite copy_to_slice_ok by done. cbn [obind].
  destruct (from_utf8 _) as [s|]; [left; eauto|by right].
Qed.

Lemma read_vec_safe {A} n (read : list Z → outcome ClusterCodecError (A * list Z)) :
  safe read → safe (read_vec n read).
Proof.
  intros Hread. induction n as [|n IH]; intros buf Hb; [done|].
  cbn [read_vec]. specialize (Hread buf Hb).
  destruct (read buf) as [[x rest]|e|]; [|done..]. cbn [obind]. specialize (IH rest Hread).
  by destruct (read_vec n read rest) as [[xs rest']|e|].
Qed.

Lemma read_vec_get_safe n k buf :
  Forall is_byte buf → (n * k <= length buf)%nat →
  ∃ vs, @read_vec ClusterCodecError _ n (get_n k) buf = Ok (vs, drop (n * k) buf).
Proof.
  revert buf. induction n as [|n IH]; intros buf Hb Hn; [by exists []|].
  cbn [read_vec]. destruct (@get_n_safe ClusterCodecError k buf) as (v & -> & _ & Hd); [done|lia|].
  cbn [obind]. destruct (IH (drop k buf)) as [vs ->]; [done|rewrite length_drop; lia|].
  cbn [obind]. exists (v :: vs). rewrite drop_drop. do 2 f_equal.
Qed.
End Safety.

Ltac len_arith :=
  unfold remaining, U8_SIZE, U16_SIZE, U32_SIZE, I64_SIZE, UUID_SIZE in *;
  rewrite ?length_drop in *; lia.
(** Advance a decoder past a guard, a getter, a string or a code on arbitrary bytes. *)
Ltac safe_step :=
  match goal with
  | |- context [if ?x <? ?y then Err _ else _] => destruct (Z.ltb_spec x y); [done|]
  | |- context [@get_n _ ?E ?n ?b] =>
      let v := fresh "v" in let Hv := fresh "Hv" in let Hb := fresh "Hb" in
      destruct (@get_n_safe _ E n b) as (v & -> & Hv & Hb); [assumption|len_arith|cbn [obind]]
  | |- context [get_utf8 ?n ?b] =>
      let s := fresh "s" in let Hb := fresh "Hb" in
      destruct (get_utf8_safe n b) as [[s ->]| ->]; [len_arith|cbn [obind]|done];
      assert (Forall is_byte (drop (Z.to_nat n) b)) as Hb by (by apply Forall_drop)
  | |- context [ok_or ?o _] => destruct o; cbn [obind ok_or]; [|done]
  end.
Ltac prove_safe :=
  intros buf Hbuf;
  unfold get_u8, get_u16, get_u32, get_u64, get_u128, get_i64; repeat safe_step; try done.

Section NoPanic.
Context `{BytesCrate}.

Lemma heartbeat_safe : safe heartbeat_decode.
Proof.
  unfold heartbeat_decode, HEARTBEAT_MIN_SIZE. prove_safe.
  destruct (read_vec_get_safe (Z.to_nat v4) 16 (drop 2 (drop 4 (drop 1 (drop 4 (drop 2 (drop 1 buf)))))))
    as [vs ->]; [done|len_arith|].
  cbn [obind]. by apply Forall_drop.
Qed.

Lemma node_join_safe : safe node_join_decode.
Proof. unfold node_join_decode, NODE_JOIN_MIN_SIZE. prove_safe. Qed.

Lemma delegate_accept_safe : safe delegate_accept_decode.
Proof.
  unfold delegate_accept_decode. prove_safe.
  destruct (read_vec_get_safe (Z.to_nat v) 16 (drop 2 buf)) as [vs ->]; [done|len_arith|].
  cbn [obind]. by apply Forall_drop.
Qed.

Lemma delegate_reject_safe : safe delegate_reject_decode.
Proof. unfold delegate_reject_decode. prove_safe. Qed.
Lemma node_suspect_safe : safe node_suspect_decode.
Proof. unfold node_suspect_decode. prove_safe. Qed.
Lemma node_dead_safe : safe node_dead_decode.
Proof. unfold node_dead_decode. prove_safe. Qed.
Lemma probe_request_safe : safe probe_request_decode.
Proof. unfold probe_request_decode. prove_safe. Qed.
Lemma probe_response_safe : safe probe_response_decode.
Proof. unfold probe_response_decode. prove_safe. Qed.
Lemma config_update_safe : safe config_update_decode.
Proof. unfold config_update_decode, CONFIG_UPDATE_MIN_SIZE. prove_safe. Qed.
Lemma known_node_safe : safe known_node_decode.
Proof. unfold known_node_decode. prove_safe. Qed.

Lemma status_response_safe : safe status_response_decode.
Proof.
  unfold status_response_decode, STATUS_RESPONSE_MIN_SIZE, FIELDS_AFTER_NAME.
  intros buf Hbuf. unfold get_u8, get_u16, get_u32. repeat safe_step.
  match goal with |- context [if ?x <=? ?y then _ else _] => destruct (Z.leb_spec x y) end;
    [|by cbn [obind]].
  match goal with |- context [@get_n _ ?E ?n ?b] =>
    destruct (@get_n_safe _ E n b) as (cnt & -> & Hcnt & Hrest); [done|len_arith|cbn [obind]] end.
  pose proof (read_vec_safe (Z.to_nat cnt) known_node_decode known_node_safe _ Hrest) as Hkn.
  by destruct (read_vec _ _ _) as [[xs rest]|e|].
Qed.

(** Exactly the inputs on which an optional string makes its decoder panic. *)
Lemma optional_string_panic buf :
  decode_optional_string buf = Panic ↔
  buf = [] ∨ ∃ rest, @get_u8 _ ClusterCodecError buf = Ok (OPTION_SOME, rest) ∧ (length rest < 2)%nat.
Proof.
  unfold decode_optional_string, get_u8, get_u16. destruct buf as [|b buf].
  { rewrite get_n_panic by (simpl; lia). naive_solver. }
  destruct (@get_n_ok _ ClusterCodecError 1 (b :: buf)) as [v ->]; [simpl; lia|]. cbn [obind].
  destruct (Z.eqb_spec v OPTION_SOME) as [->|Hne]; [|naive_solver].
  destruct (decide (length (drop 1 (b :: buf)) < 2)%nat) as [Hs|Hs].
  { rewrite get_n_panic by done. cbn [obind]. naive_solver. }
  destruct (@get_n_ok _ ClusterCodecError 2 (drop 1 (b :: buf))) as [len ->]; [lia|]. cbn [obind].
  destruct (Z.ltb_spec (remaining (drop 2 (drop 1 (b :: buf)))) len) as [|Hl]; [naive_solver|].
  unfold get_utf8, copy_to_slice, remaining in *.
  destruct (Z.ltb_spec (Z.of_nat (length (drop 2 (drop 1 (b :: buf))))) len); [lia|].
  cbn [obind]. destruct (from_utf8 _); naive_solver.
Qed.
End NoPanic.
