(* ===== verification/ClusterMessage.v ===== *)
(** * Cluster messages and their UDP codec

    Model of [src/cluster/protocol/message.rs] and
    [src/cluster/protocol/codec.rs]: the message types and their codes, the
    30-byte header, one constructor per message, and
    [ClusterMessageCodec::decode]/[encode]. The buffer a failed [decode]
    leaves behind is not modelled: every caller drops it. *)

From S2P Require Import Prelude Bytes Net Float32 Node ClusterPayload ClusterPayloadFacts.

Local Open Scope Z_scope.
Local Open Scope hes_scope.

Definition CLUSTER_PROTOCOL_VERSION : Z := 1.
Definition CLUSTER_HEADER_SIZE : Z := 30.

Inductive ClusterMessageType :=
| Heartbeat | HeartbeatAck | StatusRequest | StatusResponse
| DelegateRequest | DelegateAccept | DelegateReject
| NodeJoin | NodeLeave | NodeSuspect | NodeDead
| ProbeRequest | ProbeResponse | ConfigUpdate | ConfigUpdateAck.

#[export] Instance ClusterMessageType_eq_dec : EqDecision ClusterMessageType.
Proof. solve_decision. Defined.

Definition type_code (t : ClusterMessageType) : Z :=
  match t with
  | Heartbeat => 0x01
  | HeartbeatAck => 0x02
  | StatusRequest => 0x10
  | StatusResponse => 0x11
  | DelegateRequest => 0x20
  | DelegateAccept => 0x21
  | DelegateReject => 0x22
  | NodeJoin => 0x30
  | NodeLeave => 0x31
  | NodeSuspect => 0x40
  | NodeDead => 0x41
  | ProbeRequest => 0x50
  | ProbeResponse => 0x51
  | ConfigUpdate => 0x60
  | ConfigUpdateAck => 0x61
  end.

Definition type_from_code (code : Z) : outcome ClusterCodecError ClusterMessageType :=
  match code with
  | 0x01 => Ok Heartbeat
  | 0x02 => Ok HeartbeatAck
  | 0x10 => Ok StatusRequest
  | 0x11 => Ok StatusResponse
  | 0x20 => Ok DelegateRequest
  | 0x21 => Ok DelegateAccept
  | 0x22 => Ok DelegateReject
  | 0x30 => Ok NodeJoin
  | 0x31 => Ok NodeLeave
  | 0x40 => Ok NodeSuspect
  | 0x41 => Ok NodeDead
  | 0x50 => Ok ProbeRequest
  | 0x51 => Ok ProbeResponse
  | 0x60 => Ok ConfigUpdate
  | 0x61 => Ok ConfigUpdateAck
  | _ => Err (UnknownMessageType code)
  end.

Record ClusterMessage := mkClusterMessage {
  msg_version : Z;
  msg_type : ClusterMessageType;
  msg_node_id : Uuid;
  msg_seq : Z;
  msg_timestamp : Z;
  msg_payload : ClusterPayload
}.

(** [ClusterMessage::new]; [now_ms] is the system clock in Unix milliseconds. *)
Definition message_new (now_ms : Z) (id : Uuid) (seq : Z) (t : ClusterMessageType)
    (p : ClusterPayload) : ClusterMessage :=
  {| msg_version := CLUSTER_PROTOCOL_VERSION; msg_type := t; msg_node_id := id; msg_seq := seq;
     msg_timestamp := wrap_u64 (Z.max 0 now_ms); msg_payload := p |}.

Definition heartbeat (now : Z) (id : Uuid) (seq : Z) (p : HeartbeatPayload) : ClusterMessage :=
  message_new now id seq Heartbeat (PHeartbeat p).
Definition heartbeat_ack (now : Z) (id : Uuid) (seq : Z) : ClusterMessage :=
  message_new now id seq HeartbeatAck PEmpty.
Definition node_join (now : Z) (id : Uuid) (seq : Z) (p : NodeJoinPayload) : ClusterMessage :=
  message_new now id seq NodeJoin (PNodeJoin p).
Definition node_leave (now : Z) (id : Uuid) (seq : Z) : ClusterMessage :=
  message_new now id seq NodeLeave PEmpty.
Definition node_suspect (now : Z) (id : Uuid) (seq : Z) (suspect : Uuid) : ClusterMessage :=
  message_new now id seq NodeSuspect (PNodeSuspect (mkNodeSuspect suspect)).
Definition node_dead (now : Z) (id : Uuid) (seq : Z) (dead : Uuid) : ClusterMessage :=
  message_new now id seq NodeDead (PNodeDead (mkNodeDead dead)).
Definition delegate_request (now : Z) (id : Uuid) (seq : Z) (p : DelegateRequestPayload) : ClusterMessage :=
  message_new now id seq DelegateRequest (PDelegateRequest p).
Definition delegate_accept (now : Z) (id : Uuid) (seq : Z) (p : DelegateAcceptPayload) : ClusterMessage :=
  message_new now id seq DelegateAccept (PDelegateAccept p).
Definition delegate_reject (now : Z) (id : Uuid) (seq : Z) (reason : list Z) : ClusterMessage :=
  message_new now id seq DelegateReject (PDelegateReject (mkDelegateReject reason)).
Definition status_request (now : Z) (id : Uuid) (seq : Z) : ClusterMessage :=
  message_new now id seq StatusRequest PEmpty.
Definition status_response (now : Z) (id : Uuid) (seq : Z) (p : StatusResponsePayload) : ClusterMessage :=
  message_new now id seq StatusResponse (PStatusResponse p).
Definition probe_request (now : Z) (id : Uuid) (seq : Z) (target : Uuid) : ClusterMessage :=
  message_new now id seq ProbeRequest (PProbeRequest (mkProbeRequest target)).
Definition config_update (now : Z) (id : Uuid) (seq : Z) (p : ConfigUpdatePayload) : ClusterMessage :=
  message_new now id seq ConfigUpdate (PConfigUpdate p).
Definition config_update_ack (now : Z) (id : Uuid) (seq : Z) (p : ConfigUpdateAckPayload) : ClusterMessage :=
  message_new now id seq ConfigUpdateAck (PConfigUpdateAck p).
Definition probe_response (now : Z) (id : Uuid) (seq : Z) (target : Uuid) (alive : bool) : ClusterMessage :=
  message_new now id seq ProbeResponse (PProbeResponse (mkProbeResponse target alive)).

Section Codec.
Context `{BytesCrate}.

Definition encode_header (m : ClusterMessage) : list Z :=
  put_u8 (msg_version m) ++
  put_u8 (type_code (msg_type m)) ++
  put_u128 (msg_node_id m) ++
  put_u32 (msg_seq m) ++
  put_u64 (msg_timestamp m).

Definition decode_header (buf : list Z)
  : outcome ClusterCodecError ((Z * ClusterMessageType * Uuid * Z * Z) * list Z) :=
  if remaining buf <? CLUSTER_HEADER_SIZE then Err InvalidLength
  else
    let! (version, buf) := get_u8 buf in
    let! (msg_type_code, buf) := get_u8 buf in
    let! (node_id, buf) := get_u128 buf in
    let! (seq, buf) := get_u32 buf in
    let! (timestamp, buf) := get_u64 buf in
    let! msg_type := type_from_code msg_type_code in
    Ok ((version, msg_type, node_id, seq, timestamp), buf).

(** [Ok(ClusterPayload::X(XPayload::decode(buf)?))]. *)
Definition tag {A} (f : A → ClusterPayload) (r : outcome ClusterCodecError (A * list Z))
  : outcome ClusterCodecError (ClusterPayload * list Z) :=
  let! (p, buf) := r in Ok (f p, buf).

Definition decode_payload (t : ClusterMessageType) (buf : list Z)
  : outcome ClusterCodecError (ClusterPayload * list Z) :=
  match t with
  | Heartbeat => tag PHeartbeat (heartbeat_decode buf)
  | HeartbeatAck => Ok (PEmpty, buf)
  | StatusRequest => Ok (PEmpty, buf)
  | StatusResponse => tag PStatusResponse (status_response_decode buf)
  | DelegateRequest => tag PDelegateRequest (delegate_request_decode buf)
  | DelegateAccept => tag PDelegateAccept (delegate_accept_decode buf)
  | DelegateReject => tag PDelegateReject (delegate_reject_decode buf)
  | NodeJoin => tag PNodeJoin (node_join_decode buf)
  | NodeLeave => Ok (PEmpty, buf)
  | NodeSuspect => tag PNodeSuspect (node_suspect_decode buf)
  | NodeDead => tag PNodeDead (node_dead_decode buf)
  | ProbeRequest => tag PProbeRequest (probe_request_decode buf)
  | ProbeResponse => tag PProbeResponse (probe_response_decode buf)
  | ConfigUpdate => tag PConfigUpdate (config_update_decode buf)
  | ConfigUpdateAck => tag PConfigUpdateAck (config_update_ack_decode buf)
  end.

(** [ClusterMessageCodec::decode]. *)
Definition codec_decode (buf : list Z)
  : outcome ClusterCodecError (option ClusterMessage * list Z) :=
  if remaining buf <? CLUSTER_HEADER_SIZE then
    if (0 <? length buf)%nat then Err InvalidLength else Ok (None, buf)
  else
    let! ((version, msg_type, node_id, seq, timestamp), buf) := decode_header buf in
    let! (payload, buf) := decode_payload msg_type buf in
    Ok (Some (mkClusterMessage version msg_type node_id seq timestamp payload), buf).

(** [ClusterMessageCodec::encode] into an empty buffer; it cannot fail. *)
Definition codec_encode (m : ClusterMessage) : list Z := encode_header m ++ payload_encode (msg_payload m).
End Codec.

(** The payload a message type carries. *)
Definition payload_matches (t : ClusterMessageType) (p : ClusterPayload) : bool :=
  match t, p with
  | (HeartbeatAck | StatusRequest | NodeLeave), PEmpty => true
  | Heartbeat, PHeartbeat _ => true
  | StatusResponse, PStatusResponse _ => true
  | DelegateRequest, PDelegateRequest _ => true
  | DelegateAccept, PDelegateAccept _ => true
  | DelegateReject, PDelegateReject _ => true
  | NodeJoin, PNodeJoin _ => true
  | NodeSuspect, PNodeSuspect _ => true
  | NodeDead, PNodeDead _ => true
  | ProbeRequest, PProbeRequest _ => true
  | ProbeResponse, PProbeResponse _ => true
  | ConfigUpdate, PConfigUpdate _ => true
  | ConfigUpdateAck, PConfigUpdateAck _ => true
  | _, _ => false
  end.

Definition message_wf (m : ClusterMessage) : Prop :=
  u8_wf (msg_version m) ∧ uuid_wf (msg_node_id m) ∧ u32_wf (msg_seq m) ∧ u64_wf (msg_timestamp m) ∧
  payload_matches (msg_type m) (msg_payload m) = true ∧ payload_wf (msg_payload m).

(** ** Lemmas *)
Lemma type_code_range t : 0 <= type_code t < 2 ^ 8.
Proof. destruct t; simpl; lia. Qed.
#[export] Hint Resolve type_code_range : hes.

Lemma type_code_from t : type_from_code (type_code t) = Ok t.
Proof. by destruct t. Qed.

Lemma type_from_code_inv c t : type_from_code c = Ok t → type_code t = c.
Proof. intros H. unfold type_from_code in H. repeat (case_match; simplify_eq; try done). Qed.

Section Facts.
Context `{BytesCrate}.

Lemma decode_payload_roundtrip t p r :
  payload_matches t p = true → payload_wf p →
  decode_payload t (payload_encode p ++ r) = Ok (p, r).
Proof.
  intros Hm Hw.
  destruct t, p as [ |p|p|p|p|p|p|p|p|p|p|p|p]; try done; cbn [decode_payload payload_encode payload_wf] in *;
    try done.
  all: first
    [ rewrite heartbeat_roundtrip by done
    | rewrite status_response_roundtrip by done
    | rewrite delegate_request_roundtrip by done
    | rewrite delegate_accept_roundtrip by done
    | rewrite delegate_reject_roundtrip by done
    | rewrite node_join_roundtrip by done
    | rewrite probe_response_roundtrip by done
    | rewrite config_update_roundtrip by done
    | rewrite config_update_ack_roundtrip by done
    | unfold node_suspect_decode, node_suspect_encode, node_dead_decode, node_dead_encode,
        probe_request_decode, probe_request_encode; roundtrip; destruct p ];
    done.
Qed.

Lemma decode_header_roundtrip m r :
  message_wf m →
  decode_header (encode_header m ++ r)
  = Ok ((msg_version m, msg_type m, msg_node_id m, msg_seq m, msg_timestamp m), r).
Proof.
  intros (Hv & Hi & Hs & Ht & _). unfold decode_header, encode_header, CLUSTER_HEADER_SIZE.
  roundtrip. rewrite type_code_from. done.
Qed.

Lemma length_encode_header m : length (encode_header m) = 30%nat.
Proof. unfold encode_header. len_simpl. done. Qed.

Lemma decode_header_safe : safe decode_header.
Proof.
  unfold decode_header, CLUSTER_HEADER_SIZE. prove_safe.
  destruct (type_from_code v0) eqn:Ht; cbn [obind]; try done.
  unfold type_from_code in Ht. repeat (case_match; try done).
Qed.

Lemma tag_safe {A} (f : A → ClusterPayload) read : safe read → safe (λ buf, tag f (read buf)).
Proof.
  intros Hr buf Hb. specialize (Hr buf Hb). unfold tag. by destruct (read buf) as [[]|e|].
Qed.

Lemma decode_payload_safe t :
  t ≠ DelegateRequest → t ≠ ConfigUpdateAck → safe (decode_payload t).
Proof.
  intros Hd Hc. destruct t; try done; try (intros buf Hb; done);
    cbn [decode_payload]; apply tag_safe;
    auto using heartbeat_safe, status_response_safe, delegate_accept_safe, delegate_reject_safe,
      node_join_safe, node_suspect_safe, node_dead_safe, probe_request_safe, probe_response_safe,
      config_update_safe.
Qed.

Lemma decode_payload_matches t buf p r :
  decode_payload t buf = Ok (p, r) → payload_matches t p = true.
Proof.
  destruct t; cbn [decode_payload]; unfold tag; intros Hd; try (by simplify_eq);
    apply obind_Ok in Hd as ([p' r'] & _ & Hp); by simplify_eq.
Qed.

Lemma codec_decode_encode m r : message_wf m → codec_decode (codec_encode m ++ r) = Ok (Some m, r).
Proof.
  intros Hm. unfold codec_decode, codec_encode. rewrite <- app_assoc.
  destruct (Z.ltb_spec (remaining (encode_header m ++ payload_encode (msg_payload m) ++ r))
    CLUSTER_HEADER_SIZE) as [Hg|_].
  { exfalso. unfold remaining, CLUSTER_HEADER_SIZE in Hg.
    rewrite length_app, length_encode_header in Hg. lia. }
  rewrite decode_header_roundtrip by done. cbn [obind].
  destruct Hm as (_ & _ & _ & _ & Hpm & Hpw).
  rewrite decode_payload_roundtrip by done. cbn [obind]. by destruct m.
Qed.
End Facts.

(** ** Properties of the codec *)
Section Claims.
Context `{BytesCrate}.

(** C10: decoding a datagram that starts with an encoded, well-formed message
    gives back that message, for each of the fifteen message types, and
    leaves exactly the bytes that follow it. *)
Theorem cluster_message_roundtrip m r :
  message_wf m → codec_decode (codec_encode m ++ r) = Ok (Some m, r).
Proof. apply codec_decode_encode. Qed.

(** C34: on any datagram the decoder answers [Ok] or [Err], unless its header
    announces a [DELEGATE_REQUEST] or a [CONFIG_UPDATE_ACK], the two messages
    that contain an optional string. *)
Theorem cluster_decode_panics_only_on_optional_strings buf :
  Forall is_byte buf → codec_decode buf = Panic →
  ∃ v t id seq ts r, decode_header buf = Ok ((v, t, id, seq, ts), r) ∧
    (t = DelegateRequest ∨ t = ConfigUpdateAck).
Proof.
  intros Hb. unfold codec_decode.
  destruct (remaining buf <? CLUSTER_HEADER_SIZE); [by case_match|].
  pose proof (decode_header_safe buf Hb) as Hh.
  destruct (decode_header buf) as [[[[[[v t] id] seq] ts] r]|e|]; try done. cbn [obind].
  destruct (decide (t = DelegateRequest)) as [->|Hd]; [eauto 10|].
  destruct (decide (t = ConfigUpdateAck)) as [->|Hc]; [eauto 10|].
  pose proof (decode_payload_safe t Hd Hc r Hh) as Hp.
  by destruct (decode_payload t r) as [[]|e|].
Qed.

(** C40: a decoded message always carries the payload of its type, so the
    payload checks of the message handlers never reject a decoded message. *)
Theorem decoded_payload_matches_type buf m r :
  codec_decode buf = Ok (Some m, r) → payload_matches (msg_type m) (msg_payload m) = true.
Proof.
  unfold codec_decode. destruct (remaining buf <? CLUSTER_HEADER_SIZE); [by case_match|].
  intros Hd. apply obind_Ok in Hd as ([[[[[v t] id] seq] ts] r'] & _ & Hd).
  apply obind_Ok in Hd as ([p r''] & Hp & Hd). simplify_eq. simpl.
  by eapply decode_payload_matches.
Qed.

(** A delegated device takes 26 bytes or more. *)
Lemma delegate_request_length now id seq p :
  33 + 26 * Z.of_nat (length (drq_devices p)) <= Z.of_nat (length (codec_encode (delegate_request now id seq p))).
Proof.
  unfold codec_encode. rewrite length_app, length_encode_header. simpl.
  unfold delegate_request_encode. rewrite !length_app, length_put_len, length_put_u8.
  assert (Hd : (26 * length (drq_devices p)
    <= length (concat (delegated_device_encode <$> drq_devices p)))%nat).
  { induction (drq_devices p) as [|d ds IH]; [done|].
    rewrite fmap_cons. cbn [concat length]. rewrite length_app.
    unfold delegated_device_encode at 1.
    rewrite !length_app, length_put_u128, length_put_i64. unfold encode_optional_string at 1 2.
    destruct (ddp_ipv4 d), (ddp_ipv6 d); rewrite ?length_app, ?length_put_u8; lia. }
  lia.
Qed.
End Claims.

(** The wire codes of the message types are a bijection onto the codes the
    decoder accepts, and every other code is rejected by name. *)
Theorem message_type_codes c :
  (∀ t, type_from_code c = Ok t ↔ type_code t = c) ∧
  ((∀ t, type_code t ≠ c) → type_from_code c = Err (UnknownMessageType c)).
Proof.
  split.
  - intros t. split; [apply type_from_code_inv|]. intros <-. apply type_code_from.
  - intros Hc. destruct (type_from_code c) as [t|e|] eqn:Ht.
    + by apply type_from_code_inv, Hc in Ht.
    + unfold type_from_code in Ht. repeat (case_match; simplify_eq; try done).
    + unfold type_from_code in Ht. repeat (case_match; simplify_eq; try done).
Qed.

(** A [CONFIG_UPDATE_ACK] datagram of 48 bytes that announces an error string and stops there. *)
Definition truncated_ack : list Z :=
  [1; 0x61] ++ replicate 16 7 ++ replicate 4 0 ++ replicate 8 0 ++ replicate 16 9 ++ [0; 1].

(** The decoder panics on a 48-byte datagram: [decode_optional_string]
    reads the length of the string without checking that it is there, so one
    UDP packet ends the task of the cluster server. *)
Theorem truncated_ack_panics :
  Forall is_byte truncated_ack ∧ length truncated_ack = 48%nat ∧
  codec_decode (H := big_endian.big_endian) truncated_ack = Panic.
Proof.
  split; [|split; [done|eval_done]].
  repeat constructor; unfold is_byte; lia.
Qed.

(** ** Witnesses *)
Definition sample_status : ClusterMessage :=
  status_response 1700000000000 5 7
    (mkStatusResponse (str "node-b") Active 48 12 1 1000 6565
       [mkKnownNode 9 (str "node-c") (SockV4 10 0 0 7 6570) 6565 Draining]).

Lemma cluster_message_roundtrip_witness :
  message_wf sample_status ∧
  codec_decode (H := big_endian.big_endian) (codec_encode (H := big_endian.big_endian) sample_status ++ [1; 2])
  = Ok (Some sample_status, [1; 2]).
Proof.
  assert (Hw : message_wf sample_status).
  { assert (sock_ok (SockV4 10 0 0 7 6570)) by (apply sock_ok_v4; simpl; lia).
    unfold message_wf, sample_status, u8_wf, uuid_wf, u32_wf, u64_wf. simpl.
    repeat split; try lia; try done.
    repeat constructor; simpl; unfold uuid_wf, u16_wf, len16; try lia; try done;
      by destruct H as (? & ? & ?). }
  split; [exact Hw|].
  exact (cluster_message_roundtrip (H := big_endian.big_endian) sample_status [1; 2] Hw).
Defined.

Lemma cluster_decode_panics_witness :
  ∃ v t id seq ts r, decode_header (H := big_endian.big_endian) truncated_ack = Ok ((v, t, id, seq, ts), r) ∧
    (t = DelegateRequest ∨ t = ConfigUpdateAck).
Proof.
  apply (cluster_decode_panics_only_on_optional_strings (H := big_endian.big_endian)).
  - repeat constructor; unfold is_byte; lia.
  - eval_done.
Defined.

Lemma decoded_payload_matches_witness :
  payload_matches (msg_type sample_status) (msg_payload sample_status) = true.
Proof.
  apply (decoded_payload_matches_type (H := big_endian.big_endian)
    (codec_encode (H := big_endian.big_endian) sample_status) sample_status []).
  eval_done.
Defined.
