(* ===== verification/Database.v ===== *)
(** * The database: engine interface and in-memory engine

    Model of [src/common/database/api.rs] (the [Engine] trait that
    [Database] delegates to), [src/common/database/in_memory.rs] and the
    records the tables hold ([src/common/device.rs],
    [registration_status.rs], [scheduled_connection.rs],
    [delegated_device.rs]), with the bucket choice of
    [src/common/database/postgres.rs]. Times are instants in nanoseconds. *)

From S2P Require Import Prelude Bytes Net Float32 Node.

Local Open Scope Z_scope.
Local Open Scope hes_scope.

(** ** Hash maps

    [HashMap] iterates in an unspecified order: [hash_iter] is any order. *)
Class HashOrder := {
  hash_iter : ∀ {A : Type}, gmap Z A → list (Z * A);
  hash_iter_perm {A : Type} (m : gmap Z A) : hash_iter m ≡ₚ map_to_list m
}.

#[export] Program Instance tree_order : HashOrder := {| hash_iter := λ A m, map_to_list m |}.
Next Obligation. done. Qed.

(** The same for the elements of a [HashSet]. *)
Definition set_to_map (s : gset Z) : gmap Z unit := gset_to_gmap tt s.
Definition set_iter `{HashOrder} (s : gset Z) : list Z := (hash_iter (set_to_map s)).*1.

(** ** Records *)
Record Device := mkDevice {
  dev_id : Uuid;
  dev_ipv4 : option (list Z);
  dev_ipv6 : option (list Z);
  dev_imei : option (list Z)
}.

(** [Device::new]; [fresh] is its [Uuid::new_v4()]. *)
Definition device_new (fresh : Uuid) (socket : SocketAddr) (imei : option (list Z)) : Device :=
  let text := ip_to_string (sock_ip socket) in
  let (ipv4, ipv6) := match socket with
                      | SockV4 _ _ _ _ _ => (Some text, None)
                      | SockV6 _ _ _ _ => (None, Some text)
                      end in
  mkDevice fresh ipv4 ipv6 imei.

Inductive RegistrationStatus := Registered | PendingAck | AckTimeout.
Inductive ScheduledStatus := Awaiting | Lost | Done.

#[export] Instance RegistrationStatus_eq_dec : EqDecision RegistrationStatus.
Proof. solve_decision. Defined.
#[export] Instance ScheduledStatus_eq_dec : EqDecision ScheduledStatus.
Proof. solve_decision. Defined.

Record DeviceRegistration := mkDeviceRegistration {
  reg_fk_device : Uuid;
  registration_status : RegistrationStatus;
  registration_time : Z
}.

Record ScheduledConnection := mkScheduledConnection {
  fk_device : Uuid;
  schedule_time : Z;
  connection_time : option Z;
  sc_status : ScheduledStatus;
  job_id : option Uuid;
  renewable : bool;
  last_battery_read : option Z
}.

Record DelegatedDevice := mkDelegated {
  dd_device_id : Uuid;
  dd_ipv4 : option (list Z);
  dd_ipv6 : option (list Z);
  dd_schedule_time : Z
}.

(** ** The engine interface *)
Class Engine (DB : Type) := {
  add_device : Device → SE DB DatabaseError unit;
  get_device : Uuid → SE DB DatabaseError Device;
  modify_device : Device → SE DB DatabaseError unit;
  register_device : Uuid → Z → SE DB DatabaseError unit;
  registration_timeout : Uuid → Z → SE DB DatabaseError bool;
  get_device_registration : Uuid → SE DB DatabaseError DeviceRegistration;
  update_device_registration :
    Uuid → option RegistrationStatus → option Z → SE DB DatabaseError unit;
  get_bucket_with_less_devices : Z → SE DB DatabaseError Z;
  add_device_to_bucket : Uuid → Z → Uuid → SE DB DatabaseError unit;
  get_bucket_number : Uuid → SE DB DatabaseError Z;
  schedule_connection : Uuid → Z → Uuid → SE DB DatabaseError unit;
  get_scheduled_connections : SE DB DatabaseError (list ScheduledConnection);
  get_scheduled_connection : Uuid → SE DB DatabaseError ScheduledConnection;
  update_scheduled_connection : ScheduledConnection → SE DB DatabaseError unit;
  update_last_battery_read : Uuid → Z → SE DB DatabaseError unit;
  register_cluster_node : Uuid → list Z → list Z → Z → Z → SE DB DatabaseError unit;
  get_active_cluster_nodes : SE DB DatabaseError (list (Uuid * list Z * list Z * Z * Z));
  update_cluster_node_status : Uuid → list Z → SE DB DatabaseError unit;
  update_cluster_node_last_seen : Uuid → SE DB DatabaseError unit;
  get_devices_by_owner : Uuid → SE DB DatabaseError (list Uuid);
  set_device_owner : Uuid → Uuid → SE DB DatabaseError unit;
  get_all_device_ids : SE DB DatabaseError (list Uuid);
  get_upcoming_connections : Z → Z → option Uuid → SE DB DatabaseError (list ScheduledConnection);
  get_connection_history : Z → Z → option Uuid → SE DB DatabaseError (list ScheduledConnection)
}.

(** ** The in-memory engine *)
Record InnerDB := mkInnerDB {
  devices : gmap Z Device;
  device_registration : gmap Z (RegistrationStatus * Z);
  buckets : gmap Z (Z * Uuid);
  scheduled_connections : gmap Z ScheduledConnection
}.

Definition empty_db : InnerDB := mkInnerDB ∅ ∅ ∅ ∅.

Definition set_devices (m : gmap Z Device) (db : InnerDB) : InnerDB :=
  mkInnerDB m (device_registration db) (buckets db) (scheduled_connections db).
Definition set_registrations (m : gmap Z (RegistrationStatus * Z)) (db : InnerDB) : InnerDB :=
  mkInnerDB (devices db) m (buckets db) (scheduled_connections db).
Definition set_buckets (m : gmap Z (Z * Uuid)) (db : InnerDB) : InnerDB :=
  mkInnerDB (devices db) (device_registration db) m (scheduled_connections db).
Definition set_connections (m : gmap Z ScheduledConnection) (db : InnerDB) : InnerDB :=
  mkInnerDB (devices db) (device_registration db) (buckets db) m.

Definition mem_add_device (d : Device) : SE InnerDB DatabaseError unit := λ db,
  (Ok tt, set_devices (<[dev_id d := d]> (devices db)) db).

Definition mem_get_device (id : Uuid) : SE InnerDB DatabaseError Device := λ db,
  (ok_or (devices db !! id) NoDataFound, db).

Definition mem_modify_device (d : Device) : SE InnerDB DatabaseError unit := λ db,
  match devices db !! dev_id d with
  | Some _ => (Ok tt, set_devices (<[dev_id d := d]> (devices db)) db)
  | None => (Err NoDataFound, db)
  end.

Definition mem_register_device (id : Uuid) (timestamp : Z) : SE InnerDB DatabaseError unit := λ db,
  (Ok tt, set_registrations (<[id := (PendingAck, timestamp)]> (device_registration db)) db).

Definition mem_registration_timeout (id : Uuid) (timestamp : Z) : SE InnerDB DatabaseError bool := λ db,
  match device_registration db !! id with
  | None => (Err NoDataFound, db)
  | Some (PendingAck, _) =>
      (Ok true, set_registrations (<[id := (AckTimeout, timestamp)]> (device_registration db)) db)
  | Some _ => (Ok false, db)
  end.

(** One pass over the assignments, counting those of the buckets [0 .. len). *)
Fixpoint count_buckets (assigned : list Z) (counts : list Z) : list Z :=
  match assigned with
  | [] => counts
  | b :: assigned' =>
      let counts :=
        if (0 <=? b) && (b <? Z.of_nat (length counts))
        then alter (λ c, c + 1) (Z.to_nat b) counts else counts in
      count_buckets assigned' counts
  end.

(** [iter().min()], if any. *)
Definition list_min (l : list Z) : option Z :=
  match l with
  | [] => None
  | x :: l' => Some (fold_left Z.min l' x)
  end.

(** [iter().position(|&c| c == x)]. *)
Fixpoint position (x : Z) (l : list Z) : option Z :=
  match l with
  | [] => None
  | y :: l' => if y =? x then Some 0 else (λ i, i + 1) <$> position x l'
  end.

Definition mem_get_bucket_with_less_devices `{HashOrder} (total : Z) : SE InnerDB DatabaseError Z := λ db,
  if total <? 0 then (Panic, db)
  else
    let counts := count_buckets ((λ e, e.2.1) <$> hash_iter (buckets db)) (replicate (Z.to_nat total) 0) in
    let min_count := match list_min counts with Some m => m | None => 0 end in
    (Ok (match position min_count counts with Some i => i | None => 0 end), db).

Definition mem_add_device_to_bucket (id : Uuid) (bucket : Z) (node : Uuid)
  : SE InnerDB DatabaseError unit := λ db,
  (Ok tt, set_buckets (<[id := (bucket, node)]> (buckets db)) db).

Definition mem_get_bucket_number (id : Uuid) : SE InnerDB DatabaseError Z := λ db,
  (ok_or (fst <$> buckets db !! id) NoDataFound, db).

Definition mem_schedule_connection (id : Uuid) (timestamp : Z) (job : Uuid)
  : SE InnerDB DatabaseError unit := λ db,
  (Ok tt, set_connections
     (<[id := mkScheduledConnection id timestamp None Awaiting (Some job) true None]>
        (delete id (scheduled_connections db))) db).

Definition mem_get_scheduled_connections `{HashOrder} : SE InnerDB DatabaseError (list ScheduledConnection) :=
  λ db, (Ok ((hash_iter (scheduled_connections db)).*2), db).

Definition mem_get_scheduled_connection (id : Uuid) : SE InnerDB DatabaseError ScheduledConnection := λ db,
  (ok_or (scheduled_connections db !! id) NoDataFound, db).

Definition mem_update_scheduled_connection (c : ScheduledConnection) : SE InnerDB DatabaseError unit := λ db,
  (Ok tt, set_connections (<[fk_device c := c]> (scheduled_connections db)) db).

Definition mem_get_device_registration (id : Uuid) : SE InnerDB DatabaseError DeviceRegistration := λ db,
  match device_registration db !! id with
  | None => (Err NoDataFound, db)
  | Some (st, t) => (Ok (mkDeviceRegistration id st t), db)
  end.

Definition mem_update_device_registration (id : Uuid) (st : option RegistrationStatus) (t : option Z)
  : SE InnerDB DatabaseError unit := λ db,
  match device_registration db !! id with
  | None => (Err NoDataFound, db)
  | Some (st0, t0) =>
      (Ok tt, set_registrations (<[id := (default st0 st, default t0 t)]> (device_registration db)) db)
  end.

Definition cluster_unsupported : DatabaseError :=
  QueryError (str "Cluster operations are not supported in in-memory database. Use PostgreSQL for cluster mode.").

Definition mem_register_cluster_node (_ : Uuid) (_ _ : list Z) (_ _ : Z) : SE InnerDB DatabaseError unit :=
  serr cluster_unsupported.
Definition mem_get_active_cluster_nodes
  : SE InnerDB DatabaseError (list (Uuid * list Z * list Z * Z * Z)) := serr cluster_unsupported.
Definition mem_update_cluster_node_status (_ : Uuid) (_ : list Z) : SE InnerDB DatabaseError unit :=
  serr cluster_unsupported.
Definition mem_update_cluster_node_last_seen (_ : Uuid) : SE InnerDB DatabaseError unit :=
  serr cluster_unsupported.

Definition mem_get_devices_by_owner `{HashOrder} (node : Uuid) : SE InnerDB DatabaseError (list Uuid) := λ db,
  (Ok ((filter (λ e, e.2.2 = node) (hash_iter (buckets db))).*1), db).

Definition mem_set_device_owner (id node : Uuid) : SE InnerDB DatabaseError unit := λ db,
  (Ok tt, set_buckets (alter (λ e, (e.1, node)) id (buckets db)) db).

Definition mem_get_all_device_ids `{HashOrder} : SE InnerDB DatabaseError (list Uuid) := λ db,
  (Ok ((hash_iter (devices db)).*1), db).

Definition set_battery_read (t : Z) (c : ScheduledConnection) : ScheduledConnection :=
  mkScheduledConnection (fk_device c) (schedule_time c) (connection_time c) (sc_status c)
    (job_id c) (renewable c) (Some t).

Definition mem_update_last_battery_read (id : Uuid) (t : Z) : SE InnerDB DatabaseError unit := λ db,
  match scheduled_connections db !! id with
  | None => (Err NoDataFound, db)
  | Some c => (Ok tt, set_connections (<[id := set_battery_read t c]> (scheduled_connections db)) db)
  end.

(** [sort_by_key]: stable. *)
Fixpoint insert_by {A} (key : A → Z) (x : A) (l : list A) : list A :=
  match l with
  | [] => [x]
  | y :: l' => if key x <=? key y then x :: l else y :: insert_by key x l'
  end.
Definition sort_by_key {A} (key : A → Z) (l : list A) : list A := foldr (insert_by key) [] l.

(** [skip(n as usize)] and [take(n as usize)]; a negative [i64] becomes a huge [usize]. *)
Definition skip_usize {A} (n : Z) (l : list A) : list A :=
  if Z.of_nat (length l) <=? wrap_u64 n then [] else drop (Z.to_nat (wrap_u64 n)) l.
Definition take_usize {A} (n : Z) (l : list A) : list A :=
  if Z.of_nat (length l) <=? wrap_u64 n then l else take (Z.to_nat (wrap_u64 n)) l.

Definition for_device (dev : option Uuid) (c : ScheduledConnection) : bool :=
  match dev with None => true | Some d => fk_device c =? d end.
Definition is_awaiting (c : ScheduledConnection) : bool :=
  match sc_status c with Awaiting => true | _ => false end.
Definition is_past (c : ScheduledConnection) : bool :=
  match sc_status c with Done | Lost => true | Awaiting => false end.

Definition mem_get_upcoming_connections `{HashOrder} (limit offset : Z) (dev : option Uuid)
  : SE InnerDB DatabaseError (list ScheduledConnection) := λ db,
  let items := filter (λ c, is_awaiting c = true ∧ for_device dev c = true)
    ((hash_iter (scheduled_connections db)).*2) in
  (Ok (take_usize limit (skip_usize offset (sort_by_key schedule_time items))), db).

Definition mem_get_connection_history `{HashOrder} (limit offset : Z) (dev : option Uuid)
  : SE InnerDB DatabaseError (list ScheduledConnection) := λ db,
  let items := filter (λ c, is_past c = true ∧ for_device dev c = true)
    ((hash_iter (scheduled_connections db)).*2) in
  (Ok (take_usize limit (skip_usize offset (sort_by_key (λ c, - schedule_time c) items))), db).

#[export] Instance InMemoryDB `{HashOrder} : Engine InnerDB := {|
  add_device := mem_add_device;
  get_device := mem_get_device;
  modify_device := mem_modify_device;
  register_device := mem_register_device;
  registration_timeout := mem_registration_timeout;
  get_device_registration := mem_get_device_registration;
  update_device_registration := mem_update_device_registration;
  get_bucket_with_less_devices := mem_get_bucket_with_less_devices;
  add_device_to_bucket := mem_add_device_to_bucket;
  get_bucket_number := mem_get_bucket_number;
  schedule_connection := mem_schedule_connection;
  get_scheduled_connections := mem_get_scheduled_connections;
  get_scheduled_connection := mem_get_scheduled_connection;
  update_scheduled_connection := mem_update_scheduled_connection;
  update_last_battery_read := mem_update_last_battery_read;
  register_cluster_node := mem_register_cluster_node;
  get_active_cluster_nodes := mem_get_active_cluster_nodes;
  update_cluster_node_status := mem_update_cluster_node_status;
  update_cluster_node_last_seen := mem_update_cluster_node_last_seen;
  get_devices_by_owner := mem_get_devices_by_owner;
  set_device_owner := mem_set_device_owner;
  get_all_device_ids := mem_get_all_device_ids;
  get_upcoming_connections := mem_get_upcoming_connections;
  get_connection_history := mem_get_connection_history
|}.

(** ** The bucket choice of the PostgreSQL engine

    [rows] is the answer of [SELECT bucket, COUNT( * ) ... GROUP BY bucket]. *)
Definition i64_max : Z := 2 ^ 63 - 1.

Fixpoint pg_scan (counts : gmap Z Z) (bucket : Z) (n : nat) (best : Z * Z) : Z * Z :=
  match n with
  | O => best
  | S n' =>
      let count := default 0 (counts !! bucket) in
      let '(min_count, min_bucket) := best in
      let best :=
        if count <? min_count then (count, bucket)
        else if (count =? min_count) && (bucket <? min_bucket) then (min_count, bucket)
        else best in
      pg_scan counts (bucket + 1) n' best
  end.

(** Later rows override earlier ones, as [collect] into a [HashMap] does. *)
Definition pg_bucket_counts (rows : list (Z * Z)) : gmap Z Z := list_to_map (reverse rows).

Definition pg_get_bucket_with_less_devices (rows : list (Z * Z)) (total : Z) : Z :=
  let '(min_count, min_bucket) := pg_scan (pg_bucket_counts rows) 0 (Z.to_nat total) (i64_max, 1) in
  if min_count =? i64_max then 0 else min_bucket.
