(* ===== verification/DatabaseFacts.v ===== *)
(** * Facts about the database engines

    The bucket choice (both engines pick the first least-loaded bucket), the
    ownership view of the bucket table that the device manager relies on
    ([OwnershipEngine], discharged by the in-memory engine), sorting and
    paging of connection queries, and the registration states. *)

From Stdlib Require Import Sorted.
From S2P Require Import Prelude Bytes Net Float32 Node Database.

Local Open Scope Z_scope.
Local Open Scope hes_scope.

(** ** Iterating a hash set *)
Lemma set_iter_NoDup `{HashOrder} (s : gset Z) : NoDup (set_iter s).
Proof. unfold set_iter. rewrite hash_iter_perm. apply NoDup_fst_map_to_list. Qed.

Lemma elem_of_set_iter `{HashOrder} (s : gset Z) x : x ∈ set_iter s ↔ x ∈ s.
Proof.
  unfold set_iter. rewrite hash_iter_perm, list_elem_of_fmap. split.
  - intros ([k []] & -> & Hin). apply elem_of_map_to_list, lookup_gset_to_gmap_Some in Hin. by destruct Hin.
  - intros Hx. exists (x, tt). split; [done|]. by apply elem_of_map_to_list, lookup_gset_to_gmap_Some.
Qed.

Lemma set_iter_length `{HashOrder} (s : gset Z) : length (set_iter s) = size s.
Proof.
  rewrite <- (size_list_to_set (C := gset Z)) by apply set_iter_NoDup.
  f_equal. apply set_eq. intros x. by rewrite elem_of_list_to_set, elem_of_set_iter.
Qed.

(** ** Counting *)
Definition occ (b : Z) (l : list Z) : Z := Z.of_nat (length (filter (λ x, x = b) l)).

Lemma occ_nil b : occ b [] = 0.
Proof. done. Qed.
Lemma occ_cons b x l : occ b (x :: l) = (if decide (x = b) then 1 else 0) + occ b l.
Proof. unfold occ. rewrite filter_cons. case_decide; simpl; lia. Qed.
Lemma occ_perm b l1 l2 : l1 ≡ₚ l2 → occ b l1 = occ b l2.
Proof. intros Hp. unfold occ. by rewrite Hp. Qed.
Lemma occ_nonneg b l : 0 <= occ b l.
Proof. unfold occ. lia. Qed.

(** Number of devices a table of assignments puts in bucket [b]. *)
Definition table_load (m : gmap Z (Z * Uuid)) (b : Z) : Z := occ b ((λ e, e.2.1) <$> map_to_list m).

Definition bucket_load (db : InnerDB) : Z → Z := table_load (buckets db).

Lemma table_load_insert m id b node b' :
  m !! id = None →
  table_load (<[id := (b, node)]> m) b' = (if decide (b = b') then 1 else 0) + table_load m b'.
Proof.
  intros Hid. unfold table_load.
  rewrite (occ_perm _ _ (b :: ((λ e, e.2.1) <$> map_to_list m))).
  - apply occ_cons.
  - by rewrite map_to_list_insert by done.
Qed.

Lemma table_load_bounds m b : 0 <= table_load m b <= Z.of_nat (size m).
Proof.
  unfold table_load, occ. split; [lia|].
  rewrite <- length_map_to_list. pose proof (length_filter (λ x, x = b) ((λ e, e.2.1) <$> map_to_list m)) as Hl.
  rewrite length_fmap in Hl. lia.
Qed.

Lemma count_buckets_length assigned counts : length (count_buckets assigned counts) = length counts.
Proof.
  revert counts. induction assigned as [|b l IH]; intros counts; [done|].
  cbn [count_buckets]. rewrite IH. case_match; [apply length_alter|done].
Qed.

Lemma count_buckets_lookup assigned counts (i : nat) c :
  counts !! i = Some c →
  count_buckets assigned counts !! i = Some (c + occ (Z.of_nat i) assigned).
Proof.
  revert counts c. induction assigned as [|b l IH]; intros counts c Hc.
  { cbn. rewrite Hc. f_equal. rewrite occ_nil. lia. }
  cbn [count_buckets]. rewrite occ_cons.
  pose proof (lookup_lt_Some _ _ _ Hc).
  destruct (decide (b = Z.of_nat i)) as [->|Hb].
  - destruct (Z.leb_spec 0 (Z.of_nat i)), (Z.ltb_spec (Z.of_nat i) (Z.of_nat (length counts))); try lia.
    cbn [andb]. rewrite (IH _ (c + 1)); [f_equal; lia|].
    rewrite Nat2Z.id, list_lookup_alter_eq, Hc. done.
  - rewrite (IH _ c); [f_equal; lia|].
    destruct ((0 <=? b) && (b <? Z.of_nat (length counts))) eqn:Hg; [|done].
    apply andb_prop in Hg as [Hg _]. apply Z.leb_le in Hg.
    rewrite list_lookup_alter_ne by lia. done.
Qed.

Lemma fold_min_spec l x :
  (fold_left Z.min l x = x ∨ fold_left Z.min l x ∈ l) ∧
  fold_left Z.min l x <= x ∧ ∀ y, y ∈ l → fold_left Z.min l x <= y.
Proof.
  revert x. induction l as [|y l IH]; intros x; simpl; [set_solver by lia|].
  destruct (IH (Z.min x y)) as ([Hm|Hm] & Hle & Hall).
  - split; [|split; [lia|]].
    + rewrite Hm. destruct (Z.min_spec x y) as [[_ ->]|[_ ->]]; set_solver.
    + intros z [->|Hz]%elem_of_cons; [lia|]. by apply Hall.
  - split; [right; set_solver|split; [lia|]].
    intros z [->|Hz]%elem_of_cons; [lia|]. by apply Hall.
Qed.

Lemma list_min_spec l m : list_min l = Some m → m ∈ l ∧ ∀ y, y ∈ l → m <= y.
Proof.
  destruct l as [|x l]; [done|]. intros [= <-].
  destruct (fold_min_spec l x) as (Hin & Hle & Hall). split.
  { destruct Hin as [Hm|Hm]; [rewrite Hm|]; set_solver. }
  intros y [->|Hy]%elem_of_cons; [done|]. by apply Hall.
Qed.

Lemma position_spec m l :
  m ∈ l → ∃ i : nat, position m l = Some (Z.of_nat i) ∧ l !! i = Some m ∧
    ∀ j : nat, (j < i)%nat → l !! j ≠ Some m.
Proof.
  induction l as [|y l IH]; intros Hm; [set_solver|]. cbn [position].
  destruct (Z.eqb_spec y m) as [->|Hne].
  - exists 0%nat. split; [done|]. split; [done|]. lia.
  - apply elem_of_cons in Hm as [->|Hm]; [done|]. destruct (IH Hm) as (i & -> & Hi & Hf).
    exists (S i). split; [simpl; f_equal; lia|]. split; [done|].
    intros [|j] Hj; [simpl; congruence|]. apply Hf. lia.
Qed.

(** ** The least-loaded bucket *)
Definition least_bucket (load : Z → Z) (total b : Z) : Prop :=
  0 <= b < total ∧
  (∀ b', 0 <= b' < total → load b <= load b') ∧
  (∀ b', 0 <= b' < b → load b < load b').

Lemma least_bucket_unique load total b1 b2 :
  least_bucket load total b1 → least_bucket load total b2 → b1 = b2.
Proof.
  intros (H1 & Hm1 & Hf1) (H2 & Hm2 & Hf2).
  destruct (Z.lt_trichotomy b1 b2) as [Hl|[->|Hl]]; [|done|].
  - specialize (Hf2 b1). specialize (Hm1 b2). lia.
  - specialize (Hf1 b2). specialize (Hm2 b1). lia.
Qed.

Lemma mem_bucket_choice `{HashOrder} total db :
  0 < total →
  ∃ b, mem_get_bucket_with_less_devices total db = (Ok b, db) ∧ least_bucket (bucket_load db) total b.
Proof.
  intros Ht. unfold mem_get_bucket_with_less_devices.
  destruct (Z.ltb_spec total 0); [lia|].
  set (assigned := (λ e, e.2.1) <$> hash_iter (buckets db)).
  set (counts := count_buckets assigned (replicate (Z.to_nat total) 0)).
  assert (Hload : ∀ b, 0 <= b < total → counts !! Z.to_nat b = Some (bucket_load db b)).
  { intros b Hb. unfold counts. rewrite (count_buckets_lookup _ _ _ 0).
    - f_equal. rewrite Z.add_0_l, Z2Nat.id by lia. unfold bucket_load, table_load, assigned.
      apply occ_perm. by rewrite hash_iter_perm.
    - apply lookup_replicate_2. lia. }
  assert (Hlen : length counts = Z.to_nat total).
  { unfold counts. by rewrite count_buckets_length, length_replicate. }
  destruct (list_min counts) as [m|] eqn:Hm.
  2: { destruct counts; [simpl in Hlen; lia|done]. }
  destruct (list_min_spec _ _ Hm) as [Hin Hle].
  destruct (position_spec m counts Hin) as (i & Hpos & Hi & Hfirst).
  rewrite Hpos. exists (Z.of_nat i). split; [done|].
  pose proof (lookup_lt_Some _ _ _ Hi) as Hlt.
  assert (Hmi : bucket_load db (Z.of_nat i) = m).
  { pose proof (Hload (Z.of_nat i) ltac:(lia)) as Hl. rewrite Nat2Z.id in Hl. congruence. }
  assert (Hall : ∀ b, 0 <= b < total → m <= bucket_load db b).
  { intros b Hb. apply Hle, list_elem_of_lookup. exists (Z.to_nat b). by apply Hload. }
  split; [lia|]. rewrite Hmi. split; [done|].
  intros b Hb. specialize (Hall b ltac:(lia)).
  assert (bucket_load db b ≠ m); [|lia].
  intros Heq. apply (Hfirst (Z.to_nat b)); [lia|]. rewrite Hload by lia. by rewrite Heq.
Qed.

(** ** The PostgreSQL choice *)
Definition pg_best (load : Z → Z) (k : Z) (best : Z * Z) : Prop :=
  (k = 0 ∧ best = (i64_max, 1)) ∨ (best.1 = load best.2 ∧ least_bucket load k best.2).

Lemma pg_scan_spec counts load n k best :
  (∀ b, 0 <= b < k + Z.of_nat n → default 0 (counts !! b) = load b ∧ load b < i64_max) →
  0 <= k → pg_best load k best → pg_best load (k + Z.of_nat n) (pg_scan counts k n best).
Proof.
  revert k best. induction n as [|n IH]; intros k best Hc Hk Hb.
  { cbn. by rewrite Z.add_0_r. }
  cbn [pg_scan]. destruct best as [mc mb].
  destruct (Hc k ltac:(lia)) as [Hd Hmax]. rewrite Hd.
  replace (k + Z.of_nat (S n)) with ((k + 1) + Z.of_nat n) by lia.
  apply IH; [intros b Hlt; apply Hc; lia|lia|]. right.
  destruct Hb as [[-> [= -> ->]]|[Hmc Hle]].
  - destruct (Z.ltb_spec (load 0) i64_max); [|lia]. simpl. split; [done|].
    split; [lia|]. split; intros b' Hb'; [replace b' with 0 by lia; lia|lia].
  - cbn [fst snd] in Hmc, Hle. subst mc. destruct Hle as (Hr & Hm & Hf).
    destruct (Z.ltb_spec (load k) (load mb)).
    + simpl. split; [done|]. split; [lia|]. split; intros b' Hb'.
      * destruct (decide (b' = k)) as [->|]; [lia|]. specialize (Hm b'). lia.
      * specialize (Hm b'). lia.
    + destruct (Z.eqb_spec (load k) (load mb)), (Z.ltb_spec k mb); cbn [andb]; try lia;
        (simpl; split; [done|]; split; [lia|]; split; [|done]; intros b' Hb';
         destruct (decide (b' = k)) as [->|]; [lia|]; apply Hm; lia).
Qed.

(** What [SELECT bucket, COUNT( * ) ... GROUP BY bucket] answers for the given loads. *)
Definition group_by_answer (load : Z → Z) (rows : list (Z * Z)) : Prop :=
  NoDup rows.*1 ∧ ∀ b c, (b, c) ∈ rows ↔ c = load b ∧ 0 < c.

Lemma pg_bucket_counts_load load rows b :
  group_by_answer load rows → (∀ b, 0 <= load b) →
  default 0 (pg_bucket_counts rows !! b) = load b.
Proof.
  intros [Hnd Hrows] Hpos. unfold pg_bucket_counts.
  assert (Hnd' : NoDup (reverse rows).*1) by (by rewrite fmap_reverse, reverse_Permutation).
  destruct (list_to_map (reverse rows) !! b) as [c|] eqn:Hl; simpl.
  - apply elem_of_list_to_map in Hl; [|done]. apply elem_of_reverse, Hrows in Hl. naive_solver.
  - apply not_elem_of_list_to_map in Hl.
    destruct (decide (0 < load b)) as [Hlt|]; [|specialize (Hpos b); lia].
    exfalso. apply Hl. rewrite fmap_reverse. apply elem_of_reverse.
    apply list_elem_of_fmap. exists (b, load b). split; [done|]. by apply Hrows.
Qed.

Lemma pg_bucket_choice load rows total :
  group_by_answer load rows → (∀ b, 0 <= load b < i64_max) → 0 < total →
  least_bucket load total (pg_get_bucket_with_less_devices rows total).
Proof.
  intros Hrows Hload Ht. unfold pg_get_bucket_with_less_devices.
  pose proof (pg_scan_spec (pg_bucket_counts rows) load (Z.to_nat total) 0 (i64_max, 1)) as Hs.
  destruct (pg_scan (pg_bucket_counts rows) 0 (Z.to_nat total) (i64_max, 1)) as [mc mb].
  destruct Hs as [[Hz _]|[Hmc Hle]]; [|lia|by left|lia|].
  { intros b Hb. split; [apply pg_bucket_counts_load; [done|]; intros; apply Hload|apply Hload]. }
  simpl in *. subst mc. rewrite Z2Nat.id in Hle by lia.
  destruct (Z.eqb_spec (load mb) i64_max) as [He|]; [specialize (Hload mb); lia|done].
Qed.

(** ** Sorting and paging *)
Lemma insert_by_perm {A} (key : A → Z) x l : insert_by key x l ≡ₚ x :: l.
Proof.
  induction l as [|y l IH]; simpl; [done|]. case_match; [done|]. rewrite IH. apply Permutation_swap.
Qed.

Lemma sort_by_key_perm {A} (key : A → Z) l : sort_by_key key l ≡ₚ l.
Proof. induction l as [|x l IH]; simpl; [done|]. by rewrite insert_by_perm, IH. Qed.

Definition by_key {A} (key : A → Z) (x y : A) : Prop := key x <= key y.

Lemma insert_by_sorted {A} (key : A → Z) x l :
  StronglySorted (by_key key) l → StronglySorted (by_key key) (insert_by key x l).
Proof.
  induction 1 as [|y l Hs IH Hy]; simpl; [repeat constructor|].
  destruct (Z.leb_spec (key x) (key y)).
  - constructor; [by constructor|]. constructor; [done|].
    eapply Forall_impl; [done|]. unfold by_key. intros; lia.
  - constructor; [done|]. rewrite insert_by_perm. constructor; [unfold by_key; lia|done].
Qed.

Lemma sort_by_key_sorted {A} (key : A → Z) l : StronglySorted (by_key key) (sort_by_key key l).
Proof. induction l; simpl; [constructor|]. by apply insert_by_sorted. Qed.
#[export] Hint Resolve sort_by_key_sorted : hes.

(** A page of a query: [limit] rows from [offset] on. *)
Definition page {A} (limit offset : Z) (l : list A) : list A := take (Z.to_nat limit) (drop (Z.to_nat offset) l).

Lemma page_usize {A} limit offset (l : list A) :
  0 <= limit < 2 ^ 64 → 0 <= offset < 2 ^ 64 →
  take_usize limit (skip_usize offset l) = page limit offset l.
Proof.
  intros Hl Ho. unfold take_usize, skip_usize, page, wrap_u64. rewrite !Z.mod_small by lia.
  assert (Hd : (if Z.of_nat (length l) <=? offset then [] else drop (Z.to_nat offset) l) = drop (Z.to_nat offset) l).
  { destruct (Z.leb_spec (Z.of_nat (length l)) offset); [|done]. by rewrite drop_ge by lia. }
  rewrite Hd. destruct (Z.leb_spec (Z.of_nat (length (drop (Z.to_nat offset) l))) limit); [|done].
  by rewrite take_ge by lia.
Qed.

(** ** What the scheduler and the device manager rely on

    [OwnershipEngine] is the contract of a reachable engine on the table of
    assignments (device to bucket and owner): the queries answer what the
    table holds, the updates change it as named, and the operations on
    connections leave it alone. *)
Class OwnershipEngine (DB : Type) `{Engine DB} := {
  assignments : DB → gmap Z (Z * Uuid);
  least_loaded total db : 0 < total → ∃ b,
    get_bucket_with_less_devices total db = (Ok b, db) ∧ least_bucket (table_load (assignments db)) total b;
  assign_new id b node db : assignments db !! id = None → ∃ db',
    add_device_to_bucket id b node db = (Ok tt, db') ∧ assignments db' = <[id := (b, node)]> (assignments db);
  bucket_known id b node db : assignments db !! id = Some (b, node) → get_bucket_number id db = (Ok b, db);
  owner_query node db : ∃ l, get_devices_by_owner node db = (Ok l, db) ∧ NoDup l ∧
    ∀ id, id ∈ l ↔ ∃ b, assignments db !! id = Some (b, node);
  owner_update id node db : ∃ db', set_device_owner id node db = (Ok tt, db') ∧
    assignments db' = alter (λ e, (e.1, node)) id (assignments db);
  schedule_frame id t j db : ∃ db', schedule_connection id t j db = (Ok tt, db') ∧
    assignments db' = assignments db;
  status_frame id text db : ∃ r db', update_cluster_node_status id text db = (r, db') ∧ r ≠ Panic ∧
    assignments db' = assignments db
}.

#[export] Program Instance in_memory_ownership `{HashOrder} : OwnershipEngine InnerDB := {|
  assignments := buckets
|}.
Next Obligation. intros. by apply mem_bucket_choice. Qed.
Next Obligation. intros. by eexists. Qed.
Next Obligation. intros ? id b node db Hb. simpl. unfold mem_get_bucket_number. by rewrite Hb. Qed.
Next Obligation.
  intros ? node db. eexists. split; [done|].
  assert (Hp : (filter (λ e, e.2.2 = node) (hash_iter (buckets db))).*1
    ≡ₚ (filter (λ e, e.2.2 = node) (map_to_list (buckets db))).*1) by (by rewrite hash_iter_perm).
  split.
  - rewrite Hp. apply (sublist_NoDup _ (map_to_list (buckets db)).*1); [apply NoDup_fst_map_to_list|].
    apply fmap_sublist, sublist_filter.
  - intros id. rewrite Hp, list_elem_of_fmap. split.
    + intros ([k [b n]] & -> & Hin). apply list_elem_of_filter in Hin as [Hn Hin].
      apply elem_of_map_to_list in Hin. simpl in *. subst. by exists b.
    + intros [b Hb]. exists (id, (b, node)). split; [done|].
      by rewrite list_elem_of_filter, elem_of_map_to_list.
Qed.
Next Obligation. intros. by eexists. Qed.
Next Obligation. intros. by eexists. Qed.
Next Obligation. intros. by do 2 eexists. Qed.

(** ** Claims on the engines *)

(** C36: Both engines assign a new device to the same bucket: when [rows] is what the
    [GROUP BY] query answers for the assignments held in memory, the PostgreSQL scan
    and the in-memory counting return the same bucket, which is the first of the
    least-loaded ones. *)
Theorem engines_choose_same_bucket `{HashOrder} (db : InnerDB) (rows : list (Z * Z)) (total : Z)
    (Hrows : group_by_answer (bucket_load db) rows) (Htotal : 0 < total)
    (Hsize : Z.of_nat (size (buckets db)) < i64_max) :
  mem_get_bucket_with_less_devices total db = (Ok (pg_get_bucket_with_less_devices rows total), db)
  ∧ least_bucket (bucket_load db) total (pg_get_bucket_with_less_devices rows total).
Proof.
  destruct (mem_bucket_choice total db Htotal) as (b & Hmem & Hleast).
  assert (Hpg : least_bucket (bucket_load db) total (pg_get_bucket_with_less_devices rows total)).
  { apply pg_bucket_choice; [done| |done]. intros b'.
    pose proof (table_load_bounds (buckets db) b'). unfold bucket_load. lia. }
  by rewrite Hmem, (least_bucket_unique _ _ _ _ Hleast Hpg).
Qed.

Definition three_devices : InnerDB :=
  set_buckets {[ 1 := (0, 9); 2 := (2, 9); 3 := (0, 9) ]} empty_db.

Lemma engines_choose_same_bucket_witness :
  mem_get_bucket_with_less_devices 3 three_devices
    = (Ok (pg_get_bucket_with_less_devices [(0, 2); (2, 1)] 3), three_devices)
  ∧ pg_get_bucket_with_less_devices [(0, 2); (2, 1)] 3 = 1.
Proof.
  assert (Hl : ∀ b, bucket_load three_devices b = if b =? 0 then 2 else if b =? 2 then 1 else 0).
  { intros b. unfold bucket_load, table_load, three_devices. simpl.
    match goal with |- occ b ?l = _ => let l' := eval vm_compute in l in replace l with l' by (vm_compute; reflexivity) end.
    rewrite !occ_cons, occ_nil. repeat case_decide; repeat case_match; lia. }
  split; [|reflexivity].
  apply (engines_choose_same_bucket three_devices [(0, 2); (2, 1)] 3); [|lia|vm_compute; reflexivity].
  split; [apply (bool_decide_unpack _); vm_compute; exact I|].
  intros b c. rewrite Hl, !elem_of_cons, elem_of_nil.
  destruct (Z.eqb_spec b 0), (Z.eqb_spec b 2); naive_solver lia.
Defined.

(** Every page of the upcoming connections, whatever the limit and offset, is a slice
    of one list: the awaiting connections (of the requested device, if one is given),
    each exactly once, by increasing schedule time. Reading never changes the table. *)
Theorem upcoming_pages `{HashOrder} (db : InnerDB) (dev : option Uuid) :
  ∃ all, StronglySorted (by_key schedule_time) all ∧
    all ≡ₚ filter (λ c, is_awaiting c = true ∧ for_device dev c = true)
             (map_to_list (scheduled_connections db)).*2 ∧
    ∀ limit offset, 0 <= limit < 2 ^ 64 → 0 <= offset < 2 ^ 64 →
      mem_get_upcoming_connections limit offset dev db = (Ok (page limit offset all), db).
Proof.
  exists (sort_by_key schedule_time (filter (λ c, is_awaiting c = true ∧ for_device dev c = true)
     ((hash_iter (scheduled_connections db)).*2))).
  split; [auto with hes|]. split; [by rewrite sort_by_key_perm, hash_iter_perm|].
  intros limit offset Hl Ho. unfold mem_get_upcoming_connections. by rewrite page_usize.
Qed.
