(* ===== verification/Postgres.v ===== *)
(** * The PostgreSQL engine

    Model of [src/common/database/postgres.rs] over the tables that
    [init-db.sql] creates. A table is a list of rows; every SQL statement of
    the source is a function on the tables, run through [statement], which
    adds what the connection can do to it. The server and the driver [sqlx]
    are the class [PgServer]: which statements reach the server, the texts of
    errors, the clock of [NOW()], the order of rows where no [ORDER BY] fixes
    it, the collation of text and the precision of [TIMESTAMP]. *)

From S2P Require Import Prelude Bytes Net Float32 Node Database.

Local Open Scope Z_scope.
Local Open Scope hes_scope.

(** ** Tables *)

(** A row of [T_NODES]; [bucket_count] and [device_count] are never used. *)
Record NodeRow := mkNodeRow {
  n_id : Uuid;
  n_node_name : list Z;
  n_cluster_ip : list Z;
  n_cluster_port : Z;
  n_backdoor_port : Z;
  n_status : list Z;
  n_started_at : Z;
  n_last_seen : Z
}.

(** A row of [T_BUCKETS]. *)
Record BucketRow := mkBucketRow {
  b_device : Uuid;
  b_node : Uuid;
  b_bucket : Z
}.

(** The five tables. Column [FK_NODE] of [T_SCHEDULED_CONNECTIONS] is never
    written or read. *)
Record Tables := mkTables {
  t_nodes : list NodeRow;
  t_devices : list Device;
  t_registration : list DeviceRegistration;
  t_buckets : list BucketRow;
  t_connections : list ScheduledConnection
}.

Definition empty_tables : Tables := mkTables [] [] [] [] [].

Definition with_nodes (l : list NodeRow) (t : Tables) : Tables :=
  mkTables l (t_devices t) (t_registration t) (t_buckets t) (t_connections t).
Definition with_devices (l : list Device) (t : Tables) : Tables :=
  mkTables (t_nodes t) l (t_registration t) (t_buckets t) (t_connections t).
Definition with_registration (l : list DeviceRegistration) (t : Tables) : Tables :=
  mkTables (t_nodes t) (t_devices t) l (t_buckets t) (t_connections t).
Definition with_buckets (l : list BucketRow) (t : Tables) : Tables :=
  mkTables (t_nodes t) (t_devices t) (t_registration t) l (t_connections t).
Definition with_connections (l : list ScheduledConnection) (t : Tables) : Tables :=
  mkTables (t_nodes t) (t_devices t) (t_registration t) (t_buckets t) l.

(** ** The server *)
Inductive PgError :=
| UniqueViolation
| ForeignKeyViolation
| StringTooLong
| NulInText
| NegativeLimit
| NegativeOffset
| RowNotFound.

(** What becomes of a statement: it is answered, it is lost on the way to the
    server, or the server runs it and its answer is lost. *)
Inductive PgLink := Answered | LostBefore (text : list Z) | LostAfter (text : list Z).

Class PgServer := {
  pg_link : nat → PgLink;
  pg_message : PgError → list Z;
  pg_now : nat → Z;
  pg_order : ∀ {A : Type}, nat → list A → list A;
  pg_order_perm {A : Type} n (l : list A) : pg_order n l ≡ₚ l;
  pg_text_le : list Z → list Z → bool;
  pg_time : Z → Z;
  pg_time_micro t : pg_time t mod 1000 = 0;
  pg_time_whole t : t mod 1000 = 0 → pg_time t = t
}.

(** The database: its tables and the number of statements it was sent. *)
Record PostgresDB := mkPg { tables : Tables; statements : nat }.

Section Engine.
Context `{PgServer}.

(** One statement: it fails as a whole or changes the tables as a whole. *)
Definition statement {A} (q : nat → Tables → outcome PgError A * Tables)
  : SE PostgresDB DatabaseError A := λ db,
  let n := statements db in
  match pg_link n with
  | LostBefore text => (Err (QueryError text), mkPg (tables db) (S n))
  | LostAfter text => (Err (QueryError text), mkPg (q n (tables db)).2 (S n))
  | Answered =>
      let (r, t) := q n (tables db) in
      (omap_err (λ e, QueryError (pg_message e)) r, mkPg t (S n))
  end.

(** A query that only reads. *)
Definition query {A} (f : nat → Tables → outcome PgError A) : SE PostgresDB DatabaseError A :=
  statement (λ n t, (f n t, t)).

(** A statement that replaces the tables or fails. *)
Definition execute (f : nat → Tables → outcome PgError Tables) : SE PostgresDB DatabaseError unit :=
  statement (λ n t, match f n t with
                    | Ok t' => (Ok tt, t')
                    | Err e => (Err e, t)
                    | Panic => (Panic, t)
                    end).

(** [fetch_one]. *)
Definition fetch_one {A} (rows : list A) : outcome PgError A := ok_or (head rows) RowNotFound.

(** [UPDATE ... SET f WHERE p]. *)
Definition update_where {A} (p : A → bool) (f : A → A) (rows : list A) : list A :=
  (λ r, if p r then f r else r) <$> rows.

(** [WHERE p] of a [SELECT] or [COUNT]; [DELETE] keeps the others. *)
Definition where_rows {A} (p : A → bool) (rows : list A) : list A := filter (λ r, p r = true) rows.
Definition delete_where {A} (p : A → bool) (rows : list A) : list A := filter (λ r, p r = false) rows.

Definition count_rows {A} (rows : list A) : Z := Z.of_nat (length rows).

(** ** Columns *)

(** Text of a [TEXT] column: no zero byte. *)
Definition pg_text (s : list Z) : outcome PgError (list Z) :=
  if existsb (λ b, b =? 0) s then Err NulInText else Ok s.

(** The first [n] characters of UTF-8 text, and what follows them. *)
Definition is_continuation (b : Z) : bool := (128 <=? b) && (b <=? 191).

Fixpoint split_chars (n : Z) (s : list Z) : list Z * list Z :=
  match s with
  | [] => ([], [])
  | b :: s' =>
      let n' := if is_continuation b then n else n - 1 in
      if n' <? 0 then ([], s)
      else let (kept, rest) := split_chars n' s' in (b :: kept, rest)
  end.

(** Text of a [VARCHAR(n)] column: at most [n] characters; spaces beyond them are dropped. *)
Definition pg_varchar (n : Z) (s : list Z) : outcome PgError (list Z) :=
  let! s := pg_text s in
  let (kept, rest) := split_chars n s in
  if forallb (λ b, b =? 32) rest then Ok kept else Err StringTooLong.

Definition pg_nullable {A} (f : A → outcome PgError A) (o : option A) : outcome PgError (option A) :=
  match o with
  | None => Ok None
  | Some a => let! a := f a in Ok (Some a)
  end.

(** The row of a device: [(id, IPv4, IPv6, imei)] of [T_DEVICES]. *)
Definition device_row (d : Device) : outcome PgError Device :=
  let! ipv4 := pg_nullable pg_text (dev_ipv4 d) in
  let! ipv6 := pg_nullable pg_text (dev_ipv6 d) in
  let! imei := pg_nullable (pg_varchar 15) (dev_imei d) in
  Ok (mkDevice (dev_id d) ipv4 ipv6 imei).

(** Primary keys of the tables that others refer to. *)
Definition has_device (id : Uuid) (t : Tables) : bool := existsb (λ d, dev_id d =? id) (t_devices t).
Definition has_node (id : Uuid) (t : Tables) : bool := existsb (λ n, n_id n =? id) (t_nodes t).

(** ** Devices *)
Definition pg_add_device (d : Device) : SE PostgresDB DatabaseError unit :=
  execute (λ _ t,
    let! row := device_row d in
    guard! negb (has_device (dev_id d) t) else UniqueViolation in
    Ok (with_devices (t_devices t ++ [row]) t)).

Definition pg_get_device (device_id : Uuid) : SE PostgresDB DatabaseError Device :=
  do! count <- query (λ _ t, Ok (count_rows (where_rows (λ d, dev_id d =? device_id) (t_devices t))));
  if count <? 1 then serr NoDataFound
  else if 1 <? count then serr TooManyRows
  else query (λ n t, fetch_one (pg_order n (where_rows (λ d, dev_id d =? device_id) (t_devices t)))).

Definition pg_modify_device (d : Device) : SE PostgresDB DatabaseError unit :=
  execute (λ _ t,
    let! row := device_row d in
    Ok (with_devices (update_where (λ d', dev_id d' =? dev_id d) (λ _, row) (t_devices t)) t)).

(** ** Registration *)
Definition reg_of (device_id : Uuid) (r : DeviceRegistration) : bool := reg_fk_device r =? device_id.
Definition reg_pending (device_id : Uuid) (r : DeviceRegistration) : bool :=
  reg_of device_id r && bool_decide (registration_status r = PendingAck).

Definition registration_delete (device_id : Uuid) : SE PostgresDB DatabaseError unit :=
  execute (λ _ t, Ok (with_registration (delete_where (reg_of device_id) (t_registration t)) t)).
Definition registration_insert (device_id : Uuid) (timestamp : Z) : SE PostgresDB DatabaseError unit :=
  execute (λ _ t,
    guard! has_device device_id t else ForeignKeyViolation in
    Ok (with_registration
      (t_registration t ++ [mkDeviceRegistration device_id PendingAck (pg_time timestamp)]) t)).

Definition pg_register_device (device_id : Uuid) (timestamp : Z) : SE PostgresDB DatabaseError unit :=
  do! _ <- registration_delete device_id;
  registration_insert device_id timestamp.

Definition pg_registration_timeout (device_id : Uuid) (timestamp : Z) : SE PostgresDB DatabaseError bool :=
  do! count <- query (λ _ t, Ok (count_rows (where_rows (reg_pending device_id) (t_registration t))));
  if count <? 1 then sret false
  else if 1 <? count then serr TooManyRows
  else
    do! _ <- execute (λ _ t, Ok (with_registration
      (update_where (reg_pending device_id)
         (λ r, mkDeviceRegistration (reg_fk_device r) AckTimeout (pg_time timestamp))
         (t_registration t)) t));
    sret true.

Definition pg_get_device_registration (device_id : Uuid) : SE PostgresDB DatabaseError DeviceRegistration :=
  query (λ n t, fetch_one (pg_order n (where_rows (reg_of device_id) (t_registration t)))).

Definition registration_update (device_id : Uuid) (f : DeviceRegistration → DeviceRegistration)
  : SE PostgresDB DatabaseError unit :=
  execute (λ _ t, Ok (with_registration (update_where (reg_of device_id) f (t_registration t)) t)).

Definition pg_update_device_registration (device_id : Uuid) (status : option RegistrationStatus)
    (timestamp : option Z) : SE PostgresDB DatabaseError unit :=
  do! count <- query (λ _ t, Ok (count_rows (where_rows (reg_of device_id) (t_registration t))));
  if count <? 1 then serr NoDataFound
  else match status, timestamp with
       | Some s, Some ts => registration_update device_id
           (λ r, mkDeviceRegistration (reg_fk_device r) s (pg_time ts))
       | Some s, None => registration_update device_id
           (λ r, mkDeviceRegistration (reg_fk_device r) s (registration_time r))
       | None, Some ts => registration_update device_id
           (λ r, mkDeviceRegistration (reg_fk_device r) (registration_status r) (pg_time ts))
       | None, None => sret tt
       end.

(** ** Buckets and owners *)
Definition bucket_of (device_id : Uuid) (r : BucketRow) : bool := b_device r =? device_id.

(** [SELECT bucket, COUNT( * ) FROM T_BUCKETS GROUP BY bucket]. *)
Definition group_buckets (rows : list BucketRow) : list (Z * Z) :=
  (λ b, (b, count_rows (where_rows (λ r, b_bucket r =? b) rows))) <$> remove_dups (b_bucket <$> rows).

Definition pg_bucket_with_less_devices (total_buckets : Z) : SE PostgresDB DatabaseError Z :=
  do! rows <- query (λ n t, Ok (pg_order n (group_buckets (t_buckets t))));
  sret (pg_get_bucket_with_less_devices rows total_buckets).

Definition bucket_delete (device_id : Uuid) : SE PostgresDB DatabaseError unit :=
  execute (λ _ t, Ok (with_buckets (delete_where (bucket_of device_id) (t_buckets t)) t)).
Definition bucket_insert (device_id : Uuid) (bucket_number : Z) (node_id : Uuid)
  : SE PostgresDB DatabaseError unit :=
  execute (λ _ t,
    guard! (has_device device_id t && has_node node_id t)%bool else ForeignKeyViolation in
    Ok (with_buckets (t_buckets t ++ [mkBucketRow device_id node_id bucket_number]) t)).

Definition pg_add_device_to_bucket (device_id : Uuid) (bucket_number : Z) (node_id : Uuid)
  : SE PostgresDB DatabaseError unit :=
  do! _ <- bucket_delete device_id;
  bucket_insert device_id bucket_number node_id.

Definition pg_get_bucket_number (device_id : Uuid) : SE PostgresDB DatabaseError Z :=
  query (λ n t, fetch_one (b_bucket <$> pg_order n (where_rows (bucket_of device_id) (t_buckets t)))).

Definition pg_get_devices_by_owner (node_id : Uuid) : SE PostgresDB DatabaseError (list Uuid) :=
  query (λ n t, Ok (b_device <$> pg_order n (where_rows (λ r, b_node r =? node_id) (t_buckets t)))).

(** The reference is checked for the rows that change. *)
Definition pg_set_device_owner (device_id node_id : Uuid) : SE PostgresDB DatabaseError unit :=
  execute (λ _ t,
    guard! (has_node node_id t || (count_rows (where_rows (bucket_of device_id) (t_buckets t)) =? 0))%bool
      else ForeignKeyViolation in
    Ok (with_buckets (update_where (bucket_of device_id)
      (λ r, mkBucketRow (b_device r) node_id (b_bucket r)) (t_buckets t)) t)).

Definition pg_get_all_device_ids : SE PostgresDB DatabaseError (list Uuid) :=
  query (λ n t, Ok (sort_by_key (λ id, id) (dev_id <$> pg_order n (t_devices t)))).

(** ** Scheduled connections *)
Definition conn_of (device_id : Uuid) (c : ScheduledConnection) : bool := fk_device c =? device_id.

(** [map_scheduled_row]: a row is read back column by column. *)
Definition map_scheduled_row (row : ScheduledConnection) : ScheduledConnection :=
  mkScheduledConnection (fk_device row) (schedule_time row) (connection_time row) (sc_status row)
    (job_id row) (renewable row) (last_battery_read row).

Definition pg_schedule_connection (device_id : Uuid) (timestamp : Z) (job : Uuid)
  : SE PostgresDB DatabaseError unit :=
  execute (λ _ t,
    guard! has_device device_id t else ForeignKeyViolation in
    Ok (with_connections (t_connections t ++
      [mkScheduledConnection device_id (pg_time timestamp) None Awaiting (Some job) true None]) t)).

Definition pg_get_scheduled_connections : SE PostgresDB DatabaseError (list ScheduledConnection) :=
  query (λ n t, Ok (map_scheduled_row <$>
    sort_by_key schedule_time (pg_order n (where_rows is_awaiting (t_connections t))))).

Definition pg_get_scheduled_connection (device_id : Uuid) : SE PostgresDB DatabaseError ScheduledConnection :=
  query (λ n t, fetch_one (map_scheduled_row <$> pg_order n (where_rows (conn_of device_id) (t_connections t)))).

Definition pg_update_scheduled_connection (c : ScheduledConnection) : SE PostgresDB DatabaseError unit :=
  execute (λ _ t, Ok (with_connections (update_where (conn_of (fk_device c))
    (λ r, mkScheduledConnection (fk_device r) (pg_time (schedule_time c)) (pg_time <$> connection_time c)
            (sc_status c) (job_id c) (renewable c) (pg_time <$> last_battery_read c))
    (t_connections t)) t)).

Definition pg_update_last_battery_read (device_id : Uuid) (timestamp : Z) : SE PostgresDB DatabaseError unit :=
  execute (λ _ t, Ok (with_connections (update_where (conn_of device_id)
    (set_battery_read (pg_time timestamp)) (t_connections t)) t)).

(** [LIMIT limit OFFSET offset]. *)
Definition limit_offset {A} (limit offset : Z) (rows : list A) : outcome PgError (list A) :=
  guard! 0 <=? offset else NegativeOffset in
  guard! 0 <=? limit else NegativeLimit in
  Ok (take_usize limit (skip_usize offset rows)).

Definition pg_get_upcoming_connections (limit offset : Z) (device_id : option Uuid)
  : SE PostgresDB DatabaseError (list ScheduledConnection) :=
  query (λ n t,
    let! rows := limit_offset limit offset (sort_by_key schedule_time
      (pg_order n (where_rows (λ c, is_awaiting c && for_device device_id c) (t_connections t)))) in
    Ok (map_scheduled_row <$> rows)).

Definition pg_get_connection_history (limit offset : Z) (device_id : option Uuid)
  : SE PostgresDB DatabaseError (list ScheduledConnection) :=
  query (λ n t,
    let! rows := limit_offset limit offset (sort_by_key (λ c, - schedule_time c)
      (pg_order n (where_rows (λ c, is_past c && for_device device_id c) (t_connections t)))) in
    Ok (map_scheduled_row <$> rows)).

(** ** Cluster nodes *)
Definition status_active : list Z := str "active".
Definition status_starting : list Z := str "starting".

(** [ON CONFLICT (id) DO UPDATE]: the name and the start time of a known node stay. *)
Definition pg_register_cluster_node (node_id : Uuid) (node_name cluster_ip : list Z)
    (cluster_port backdoor_port : Z) : SE PostgresDB DatabaseError unit :=
  execute (λ n t,
    let! name := pg_varchar 255 node_name in
    let! ip := pg_varchar 45 cluster_ip in
    if has_node node_id t then
      Ok (with_nodes (update_where (λ r, n_id r =? node_id)
        (λ r, mkNodeRow (n_id r) (n_node_name r) ip cluster_port backdoor_port status_active
                (n_started_at r) (pg_now n)) (t_nodes t)) t)
    else
      Ok (with_nodes (t_nodes t ++ [mkNodeRow node_id name ip cluster_port backdoor_port status_active
                                      (pg_now n) (pg_now n)]) t)).

(** [ORDER BY node_name], in the collation of the server. *)
Fixpoint insert_name (r : NodeRow) (l : list NodeRow) : list NodeRow :=
  match l with
  | [] => [r]
  | r' :: l' => if pg_text_le (n_node_name r) (n_node_name r') then r :: l else r' :: insert_name r l'
  end.
Definition order_by_name (l : list NodeRow) : list NodeRow := foldr insert_name [] l.

Definition pg_get_active_cluster_nodes
  : SE PostgresDB DatabaseError (list (Uuid * list Z * list Z * Z * Z)) :=
  query (λ n t, Ok ((λ r, (n_id r, n_node_name r, n_cluster_ip r, n_cluster_port r, n_backdoor_port r)) <$>
    order_by_name (pg_order n (where_rows
      (λ r, bool_decide (n_status r = status_active ∨ n_status r = status_starting)) (t_nodes t))))).

Definition pg_update_cluster_node_status (node_id : Uuid) (status : list Z) : SE PostgresDB DatabaseError unit :=
  execute (λ n t,
    let! status := pg_varchar 20 status in
    Ok (with_nodes (update_where (λ r, n_id r =? node_id)
      (λ r, mkNodeRow (n_id r) (n_node_name r) (n_cluster_ip r) (n_cluster_port r) (n_backdoor_port r)
              status (n_started_at r) (pg_now n)) (t_nodes t)) t)).

Definition pg_update_cluster_node_last_seen (node_id : Uuid) : SE PostgresDB DatabaseError unit :=
  execute (λ n t, Ok (with_nodes (update_where (λ r, n_id r =? node_id)
    (λ r, mkNodeRow (n_id r) (n_node_name r) (n_cluster_ip r) (n_cluster_port r) (n_backdoor_port r)
            (n_status r) (n_started_at r) (pg_now n)) (t_nodes t)) t)).

#[export] Instance PostgresEngine : Engine PostgresDB := {|
  add_device := pg_add_device;
  get_device := pg_get_device;
  modify_device := pg_modify_device;
  register_device := pg_register_device;
  registration_timeout := pg_registration_timeout;
  get_device_registration := pg_get_device_registration;
  update_device_registration := pg_update_device_registration;
  get_bucket_with_less_devices := pg_bucket_with_less_devices;
  add_device_to_bucket := pg_add_device_to_bucket;
  get_bucket_number := pg_get_bucket_number;
  schedule_connection := pg_schedule_connection;
  get_scheduled_connections := pg_get_scheduled_connections;
  get_scheduled_connection := pg_get_scheduled_connection;
  update_scheduled_connection := pg_update_scheduled_connection;
  update_last_battery_read := pg_update_last_battery_read;
  register_cluster_node := pg_register_cluster_node;
  get_active_cluster_nodes := pg_get_active_cluster_nodes;
  update_cluster_node_status := pg_update_cluster_node_status;
  update_cluster_node_last_seen := pg_update_cluster_node_last_seen;
  get_devices_by_owner := pg_get_devices_by_owner;
  set_device_owner := pg_set_device_owner;
  get_all_device_ids := pg_get_all_device_ids;
  get_upcoming_connections := pg_get_upcoming_connections;
  get_connection_history := pg_get_connection_history
|}.

End Engine.

(** ** A server

    Every statement is answered, rows come in insertion order, text compares
    byte by byte and times are cut to microseconds. *)
Fixpoint bytes_le (a b : list Z) : bool :=
  match a, b with
  | [], _ => true
  | _ :: _, [] => false
  | x :: a', y :: b' => if x =? y then bytes_le a' b' else x <? y
  end.

Definition plain_message (e : PgError) : list Z :=
  match e with
  | UniqueViolation => str "duplicate key value violates unique constraint"
  | ForeignKeyViolation => str "insert or update violates foreign key constraint"
  | StringTooLong => str "value too long for type character varying"
  | NulInText => str "invalid byte sequence for encoding"
  | NegativeLimit => str "LIMIT must not be negative"
  | NegativeOffset => str "OFFSET must not be negative"
  | RowNotFound => str "no rows returned by a query that expected to return at least one row"
  end.

Program Definition plain_server : PgServer := {|
  pg_link := λ _, Answered;
  pg_message := plain_message;
  pg_now := λ n, Z.of_nat n * 1000;
  pg_order := λ A n l, l;
  pg_text_le := bytes_le;
  pg_time := λ t, t / 1000 * 1000
|}.
Next Obligation. done. Qed.
Next Obligation. intros t. simpl. by rewrite Z.mod_mul. Qed.
Next Obligation. intros t Ht. simpl. pose proof (Z.div_mod t 1000). lia. Qed.
