(* ===== verification/PostgresFacts.v ===== *)
(** * Facts about the PostgreSQL engine

    Tables with one row per key read as finite maps; the engine keeps its
    tables well formed whatever becomes of its statements; it refines the
    in-memory engine on the operations where both agree. *)

From Stdlib Require Import Sorted.
From S2P Require Import Prelude Bytes Net Float32 Node Database DatabaseFacts Postgres.

Local Open Scope Z_scope.
Local Open Scope hes_scope.

Lemma filter_fmap {A B} (f : A → B) (P : B → Prop) `{∀ x, Decision (P x)} (l : list A) :
  filter P (f <$> l) = f <$> filter (λ x, P (f x)) l.
Proof. induction l as [|x l IH]; [done|]. rewrite fmap_cons, !filter_cons, IH. by case_decide. Qed.

Lemma filter_all {A} (P : A → Prop) `{∀ x, Decision (P x)} (l : list A) :
  (∀ x, x ∈ l → P x) → filter P l = l.
Proof.
  induction l as [|x l IH]; intros Hl; [done|]. rewrite filter_cons, decide_True by (apply Hl; constructor).
  f_equal. apply IH. intros y Hy. apply Hl. by constructor.
Qed.

(** ** Tables as maps *)
Section Keyed.
Context {R V : Type} (key : R → Z) (val : R → V).

Definition table_map (rows : list R) : gmap Z V := list_to_map ((λ r, (key r, val r)) <$> rows).
Definition unique (rows : list R) : Prop := NoDup (key <$> rows).

Lemma table_keys rows : ((λ r, (key r, val r)) <$> rows).*1 = key <$> rows.
Proof. by rewrite <- list_fmap_compose. Qed.

Lemma table_map_None rows id : table_map rows !! id = None ↔ id ∉ key <$> rows.
Proof. unfold table_map. by rewrite <- not_elem_of_list_to_map, table_keys. Qed.

Lemma table_map_Some rows id v :
  unique rows → table_map rows !! id = Some v ↔ ∃ r, r ∈ rows ∧ key r = id ∧ val r = v.
Proof.
  intros Hu. unfold table_map. rewrite <- elem_of_list_to_map by (by rewrite table_keys).
  rewrite list_elem_of_fmap. naive_solver.
Qed.

Lemma table_map_insert rows r :
  unique rows → key r ∉ key <$> rows →
  unique (rows ++ [r]) ∧ table_map (rows ++ [r]) = <[key r := val r]> (table_map rows).
Proof.
  intros Hu Hr. assert (Hp : rows ++ [r] ≡ₚ r :: rows) by (by rewrite Permutation_app_comm).
  assert (Hu' : unique (rows ++ [r])).
  { unfold unique. rewrite Hp. simpl. by constructor. }
  split; [done|]. unfold table_map.
  rewrite (list_to_map_proper _ ((λ r, (key r, val r)) <$> r :: rows)); [done| |by rewrite Hp].
  by rewrite table_keys.
Qed.

Lemma table_map_perm rows1 rows2 :
  unique rows1 → rows1 ≡ₚ rows2 → table_map rows1 = table_map rows2.
Proof. intros Hu Hp. unfold table_map. apply list_to_map_proper; [by rewrite table_keys|by rewrite Hp]. Qed.

Lemma unique_sublist rows1 rows2 : sublist rows1 rows2 → unique rows2 → unique rows1.
Proof. intros Hs Hu. eapply sublist_NoDup; [exact Hu|]. by apply fmap_sublist. Qed.

Lemma table_map_delete rows id :
  unique rows →
  unique (delete_where (λ r, key r =? id) rows) ∧
  table_map (delete_where (λ r, key r =? id) rows) = delete id (table_map rows).
Proof.
  intros Hu. assert (Hu' : unique (delete_where (λ r, key r =? id) rows)).
  { eapply unique_sublist; [apply sublist_filter|done]. }
  split; [done|]. apply map_eq. intros k.
  destruct (decide (k = id)) as [->|Hk].
  - rewrite lookup_delete_eq. apply table_map_None. unfold delete_where.
    intros (r & -> & [Hr _]%list_elem_of_filter)%list_elem_of_fmap. lia.
  - rewrite lookup_delete_ne by done. apply option_eq. intros v.
    rewrite !table_map_Some by done. unfold delete_where. setoid_rewrite list_elem_of_filter.
    split; [naive_solver|]. intros (r & Hr & <- & <-). exists r. split_and!; try done. lia.
Qed.

Lemma update_keys p (f : R → R) rows :
  (∀ r, r ∈ rows → p r = true → key (f r) = key r) → key <$> update_where p f rows = key <$> rows.
Proof.
  intros Hf. unfold update_where. rewrite <- list_fmap_compose. apply list_fmap_ext.
  intros i r Hr%list_elem_of_lookup_2. simpl. case_match; [by apply Hf|done].
Qed.

Lemma table_map_update rows id p (f : R → R) (g : V → V) :
  unique rows →
  (∀ r, r ∈ rows → p r = (key r =? id)) →
  (∀ r, r ∈ rows → key r = id → key (f r) = id ∧ val (f r) = g (val r)) →
  unique (update_where p f rows) ∧
  table_map (update_where p f rows) = alter g id (table_map rows).
Proof.
  intros Hu Hp Hf.
  assert (Hk : key <$> update_where p f rows = key <$> rows).
  { apply update_keys. intros r Hr. rewrite Hp by done. intros <-%Z.eqb_eq. by apply Hf. }
  split; [unfold unique; by rewrite Hk|].
  revert Hu Hp Hf. clear Hk. induction rows as [|r rows IH]; intros Hu Hp Hf.
  { unfold table_map. simpl. apply map_eq. intros k. by destruct (decide (k = id)) as [->|]; simplify_map_eq. }
  apply NoDup_cons in Hu as [Hr Hu]. specialize (IH Hu).
  change (table_map (update_where p f (r :: rows))) with
    (<[key (if p r then f r else r) := val (if p r then f r else r)]> (table_map (update_where p f rows))).
  change (table_map (r :: rows)) with (<[key r := val r]> (table_map rows)).
  rewrite IH by (intros; (apply Hp || apply Hf); [by constructor|done..] || (apply Hp; by constructor)).
  rewrite Hp by constructor. destruct (Z.eqb_spec (key r) id) as [He|Hne].
  - destruct (Hf r ltac:(constructor) He) as [Hkf Hvf]. rewrite Hkf, Hvf. subst id.
    apply map_eq. intros k. destruct (decide (k = key r)) as [->|];
      [rewrite lookup_insert_eq, lookup_alter_eq, lookup_insert_eq; done|].
    by rewrite lookup_insert_ne, !lookup_alter_ne, lookup_insert_ne by done.
  - apply map_eq. intros k. destruct (decide (k = key r)) as [->|].
    + by rewrite lookup_insert_eq, lookup_alter_ne, lookup_insert_eq by done.
    + destruct (decide (k = id)) as [->|];
        [by rewrite lookup_insert_ne, !lookup_alter_eq, lookup_insert_ne by done|].
      by rewrite lookup_insert_ne, !lookup_alter_ne, lookup_insert_ne by done.
Qed.

(** The rows of a key: the one row the map knows, or none. *)
Lemma where_key rows id :
  unique rows →
  match table_map rows !! id with
  | Some v => ∃ r, where_rows (λ r, key r =? id) rows = [r] ∧ r ∈ rows ∧ key r = id ∧ val r = v
  | None => where_rows (λ r, key r =? id) rows = []
  end.
Proof.
  unfold where_rows. induction rows as [|r rows IH]; intros Hu.
  { unfold table_map. simpl. by rewrite lookup_empty. }
  apply NoDup_cons in Hu as [Hr Hu]. specialize (IH Hu).
  change (table_map (r :: rows)) with (<[key r := val r]> (table_map rows)).
  rewrite filter_cons. destruct (Z.eqb_spec (key r) id) as [<-|Hne].
  - rewrite lookup_insert_eq. rewrite decide_True by done. exists r.
    apply table_map_None in Hr. rewrite Hr in IH. rewrite IH. split_and!; try done. constructor.
  - rewrite lookup_insert_ne by done. rewrite decide_False by done.
    destruct (table_map rows !! id); [|done].
    destruct IH as (r' & -> & Hin & ?). exists r'. split_and!; try naive_solver. by constructor.
Qed.

Lemma table_values rows : unique rows → (map_to_list (table_map rows)).*2 ≡ₚ val <$> rows.
Proof.
  intros Hu. unfold table_map. rewrite map_to_list_to_map by (by rewrite table_keys).
  by rewrite <- list_fmap_compose.
Qed.

Lemma table_entries rows : unique rows → map_to_list (table_map rows) ≡ₚ (λ r, (key r, val r)) <$> rows.
Proof. intros Hu. unfold table_map. by rewrite map_to_list_to_map by (by rewrite table_keys). Qed.
End Keyed.

(** ** Well-formed tables

    The primary keys and references that the schema enforces, and one row per
    device in [T_DEVICE_REGISTRATION] and [T_BUCKETS], which it does not. *)
Record pg_wf (t : Tables) : Prop := {
  wf_nodes : unique n_id (t_nodes t);
  wf_devices : unique dev_id (t_devices t);
  wf_registration : unique reg_fk_device (t_registration t);
  wf_buckets : unique b_device (t_buckets t);
  wf_registration_fk : reg_fk_device <$> t_registration t ⊆ dev_id <$> t_devices t;
  wf_buckets_fk : b_device <$> t_buckets t ⊆ dev_id <$> t_devices t;
  wf_owner_fk : b_node <$> t_buckets t ⊆ n_id <$> t_nodes t;
  wf_connections_fk : fk_device <$> t_connections t ⊆ dev_id <$> t_devices t
}.

Lemma has_device_elem id t : has_device id t = true ↔ id ∈ dev_id <$> t_devices t.
Proof.
  unfold has_device. rewrite existsb_exists. setoid_rewrite <- list_elem_of_In.
  setoid_rewrite Z.eqb_eq. rewrite list_elem_of_fmap. naive_solver.
Qed.

Lemma has_node_elem id t : has_node id t = true ↔ id ∈ n_id <$> t_nodes t.
Proof.
  unfold has_node. rewrite existsb_exists. setoid_rewrite <- list_elem_of_In.
  setoid_rewrite Z.eqb_eq. rewrite list_elem_of_fmap. naive_solver.
Qed.

Lemma delete_where_incl {A B} (k : A → B) p (l : list A) : k <$> delete_where p l ⊆ k <$> l.
Proof. intros x (r & -> & [_ Hr]%list_elem_of_filter)%list_elem_of_fmap. by apply list_elem_of_fmap_2. Qed.

Lemma update_where_incl {A B} (k : A → B) p f (l : list A) (s : list B) :
  k <$> l ⊆ s → (∀ r, r ∈ where_rows p l → k (f r) ∈ s) → k <$> update_where p f l ⊆ s.
Proof.
  intros Hl Hf x (r & -> & Hr)%list_elem_of_fmap. unfold update_where in Hr.
  apply list_elem_of_fmap in Hr as (r' & -> & Hr). destruct (p r') eqn:Hp.
  - apply Hf. unfold where_rows. by apply list_elem_of_filter.
  - apply Hl. by apply list_elem_of_fmap_2.
Qed.

(** Facts about a key that an update does not touch. *)
Lemma update_same_keys {A} (key : A → Z) p f (l : list A) :
  (∀ r, key (f r) = key r) → key <$> update_where p f l = key <$> l.
Proof. intros Hf. apply update_keys. auto. Qed.

(** A row inserted after the rows of its key were deleted. *)
Lemma reinsert_unique {A} (key : A → Z) (r : A) (l : list A) :
  key r ∉ key <$> l → unique key l → unique key (l ++ [r]).
Proof. intros Hr Hu. by apply (table_map_insert key (λ r, r)). Qed.

Lemma deleted_key {A} (key : A → Z) id (l : list A) : id ∉ key <$> delete_where (λ r, key r =? id) l.
Proof. unfold delete_where. intros (r & -> & [Hr _]%list_elem_of_filter)%list_elem_of_fmap. lia. Qed.

Section Wf.
Context `{PgServer}.

(** A property of the tables that a statement's effect keeps survives the
    statement, answered or not. *)
Lemma statement_keeps (P : Tables → Prop) {A} (q : nat → Tables → outcome PgError A * Tables) db :
  (P (tables db) → P (q (statements db) (tables db)).2) →
  P (tables db) → P (tables (statement q db).2).
Proof.
  intros Hq HP. unfold statement. destruct (pg_link (statements db)); [|done|by apply Hq].
  specialize (Hq HP). by destruct (q (statements db) (tables db)).
Qed.

Lemma execute_keeps (P : Tables → Prop) f db :
  (∀ t', f (statements db) (tables db) = Ok t' → P (tables db) → P t') →
  P (tables db) → P (tables (execute f db).2).
Proof. intros Hf. apply statement_keeps. intros HP. case_match; simpl; auto. Qed.

Lemma query_keeps (P : Tables → Prop) {A} (f : nat → Tables → outcome PgError A) db :
  P (tables db) → P (tables (query f db).2).
Proof. by apply statement_keeps. Qed.

Lemma device_row_id d row : device_row d = Ok row → dev_id row = dev_id d.
Proof. unfold device_row. intros (? & _ & (? & _ & (? & _ & [= <-])%obind_Ok)%obind_Ok)%obind_Ok. done. Qed.

Lemma devices_grow (l : list Z) (t : Tables) (d : Device) :
  l ⊆ dev_id <$> t_devices t → l ⊆ dev_id <$> (t_devices t ++ [d]).
Proof. rewrite fmap_app. set_solver. Qed.

Lemma add_device_wf d db : pg_wf (tables db) → pg_wf (tables (pg_add_device d db).2).
Proof.
  apply execute_keeps. intros t' (row & Hrow & Hg)%obind_Ok Hwf.
  apply device_row_id in Hrow. destruct (has_device (dev_id d) (tables db)) eqn:Hd; [done|].
  injection Hg as <-. destruct Hwf. constructor; simpl; auto using devices_grow.
  apply reinsert_unique; [|done]. rewrite Hrow, <- has_device_elem. by rewrite Hd.
Qed.

Lemma modify_device_wf d db : pg_wf (tables db) → pg_wf (tables (pg_modify_device d db).2).
Proof.
  apply execute_keeps. intros t' (row & Hrow%device_row_id & [= <-])%obind_Ok [].
  assert (Hk : dev_id <$> update_where (λ d', dev_id d' =? dev_id d) (λ _, row) (t_devices (tables db))
    = dev_id <$> t_devices (tables db)) by (apply update_keys; intros; lia).
  constructor; unfold unique; simpl; by rewrite ?Hk.
Qed.

Lemma registration_delete_wf id db : pg_wf (tables db) → pg_wf (tables (registration_delete id db).2).
Proof.
  apply execute_keeps. intros t' [= <-] []. constructor; simpl; try done.
  - eapply unique_sublist; [apply sublist_filter|done].
  - etrans; [apply delete_where_incl|done].
Qed.

Lemma registration_insert_wf id ts db :
  id ∉ reg_fk_device <$> t_registration (tables db) →
  pg_wf (tables db) → pg_wf (tables (registration_insert id ts db).2).
Proof.
  intros Hid. apply execute_keeps. intros t' Ht [].
  destruct (has_device id (tables db)) eqn:Hd; [|done]. apply has_device_elem in Hd.
  injection Ht as <-. constructor; simpl; try done; [by apply reinsert_unique|].
  rewrite fmap_app. set_solver.
Qed.

(** After [DELETE ... WHERE p] was answered, no row satisfies [p]. *)
Lemma registration_deleted id db db' :
  registration_delete id db = (Ok tt, db') → id ∉ reg_fk_device <$> t_registration (tables db').
Proof.
  unfold registration_delete, execute, statement. destruct (pg_link _); [|done..].
  intros [= <-]. apply (deleted_key reg_fk_device).
Qed.

Lemma register_device_wf id ts db : pg_wf (tables db) → pg_wf (tables (pg_register_device id ts db).2).
Proof.
  intros Hwf. unfold pg_register_device.
  apply (sbind_keeps (λ db, pg_wf (tables db))); [by apply registration_delete_wf|].
  intros [] db' Hd Hwf'. apply registration_insert_wf; [|done]. by eapply registration_deleted.
Qed.

Lemma registration_update_wf p f db :
  (∀ r, reg_fk_device (f r) = reg_fk_device r) → pg_wf (tables db) →
  pg_wf (tables (execute (λ _ t, Ok (with_registration (update_where p f (t_registration t)) t)) db).2).
Proof.
  intros Hf. apply execute_keeps. intros t' [= <-] [].
  constructor; unfold unique; simpl; by rewrite ?update_same_keys by done.
Qed.

Lemma registration_timeout_wf id ts db : pg_wf (tables db) → pg_wf (tables (pg_registration_timeout id ts db).2).
Proof.
  intros Hwf. unfold pg_registration_timeout.
  apply (sbind_keeps (λ db, pg_wf (tables db))); [by apply query_keeps|].
  intros c db' _ Hwf'. repeat case_match; try done.
  apply (sbind_keeps (λ db, pg_wf (tables db))); [by apply registration_update_wf|done].
Qed.

Lemma update_device_registration_wf id st ts db :
  pg_wf (tables db) → pg_wf (tables (pg_update_device_registration id st ts db).2).
Proof.
  intros Hwf. unfold pg_update_device_registration, registration_update.
  apply (sbind_keeps (λ db, pg_wf (tables db))); [by apply query_keeps|].
  intros c db' _ Hwf'. repeat case_match; try done; by apply registration_update_wf.
Qed.

Lemma bucket_delete_wf id db : pg_wf (tables db) → pg_wf (tables (bucket_delete id db).2).
Proof.
  apply execute_keeps. intros t' [= <-] []. constructor; simpl; try done.
  - eapply unique_sublist; [apply sublist_filter|done].
  - etrans; [apply delete_where_incl|done].
  - etrans; [apply delete_where_incl|done].
Qed.

Lemma bucket_insert_wf id b node db :
  id ∉ b_device <$> t_buckets (tables db) →
  pg_wf (tables db) → pg_wf (tables (bucket_insert id b node db).2).
Proof.
  intros Hid. apply execute_keeps. intros t' Ht [].
  destruct (has_device id (tables db) && has_node node (tables db))%bool eqn:Hd; [|done].
  apply andb_prop in Hd as [Hd%has_device_elem Hn%has_node_elem].
  injection Ht as <-. constructor; simpl; try done; [by apply reinsert_unique|rewrite fmap_app; set_solver..].
Qed.

Lemma bucket_deleted id db db' :
  bucket_delete id db = (Ok tt, db') → id ∉ b_device <$> t_buckets (tables db').
Proof.
  unfold bucket_delete, execute, statement. destruct (pg_link _); [|done..].
  intros [= <-]. apply (deleted_key b_device).
Qed.

Lemma add_device_to_bucket_wf id b node db :
  pg_wf (tables db) → pg_wf (tables (pg_add_device_to_bucket id b node db).2).
Proof.
  intros Hwf. unfold pg_add_device_to_bucket.
  apply (sbind_keeps (λ db, pg_wf (tables db))); [by apply bucket_delete_wf|].
  intros [] db' Hd Hwf'. apply bucket_insert_wf; [|done]. by eapply bucket_deleted.
Qed.

Lemma set_device_owner_wf id node db : pg_wf (tables db) → pg_wf (tables (pg_set_device_owner id node db).2).
Proof.
  apply execute_keeps. intros t' Ht []. set (rows := t_buckets (tables db)) in *.
  destruct (has_node node (tables db) || _)%bool eqn:Hg; [|done]. injection Ht as <-.
  constructor; unfold unique; simpl; rewrite ?update_same_keys by done; try done.
  apply update_where_incl; [done|]. intros r Hr. simpl.
  apply orb_prop in Hg as [Hn%has_node_elem|Hc]; [done|].
  apply Z.eqb_eq in Hc. unfold count_rows in Hc. fold rows in Hc.
  by destruct (where_rows (bucket_of id) rows); [inversion Hr|].
Qed.

Lemma connections_wf f db :
  (∀ t, fk_device <$> t_connections t ⊆ dev_id <$> t_devices t →
        fk_device <$> f t ⊆ dev_id <$> t_devices t) →
  pg_wf (tables db) → pg_wf (tables (execute (λ _ t, Ok (with_connections (f t) t)) db).2).
Proof. intros Hf. apply execute_keeps. intros t' [= <-] []. constructor; simpl; auto. Qed.

Lemma schedule_connection_wf id ts j db :
  pg_wf (tables db) → pg_wf (tables (pg_schedule_connection id ts j db).2).
Proof.
  apply execute_keeps. intros t' Ht [].
  destruct (has_device id (tables db)) eqn:Hd; [|done]. apply has_device_elem in Hd.
  injection Ht as <-. constructor; simpl; try done. rewrite fmap_app. set_solver.
Qed.

(** A change of [T_NODES] that keeps the known identifiers. *)
Lemma with_nodes_wf l t :
  unique n_id l → n_id <$> t_nodes t ⊆ n_id <$> l → pg_wf t → pg_wf (with_nodes l t).
Proof. intros Hu Hi []. constructor; simpl; try done. by etrans. Qed.

Lemma update_nodes_wf p f t :
  (∀ r, n_id (f r) = n_id r) → pg_wf t → pg_wf (with_nodes (update_where p f (t_nodes t)) t).
Proof.
  intros Hf Hwf. apply with_nodes_wf; unfold unique; rewrite ?update_same_keys by done; [apply Hwf|done|done].
Qed.

Lemma register_cluster_node_wf id name ip cp bp db :
  pg_wf (tables db) → pg_wf (tables (pg_register_cluster_node id name ip cp bp db).2).
Proof.
  apply execute_keeps. intros t' (nm & _ & (i & _ & Ht)%obind_Ok)%obind_Ok Hwf.
  destruct (has_node id (tables db)) eqn:Hn; injection Ht as <-; [by apply update_nodes_wf|].
  apply with_nodes_wf; [|rewrite fmap_app; set_solver|done].
  apply reinsert_unique; [|apply Hwf]. simpl. rewrite <- has_node_elem. by rewrite Hn.
Qed.

Lemma update_cluster_node_status_wf id st db :
  pg_wf (tables db) → pg_wf (tables (pg_update_cluster_node_status id st db).2).
Proof. apply execute_keeps. intros t' (s & _ & [= <-])%obind_Ok Hwf. by apply update_nodes_wf. Qed.

Lemma update_cluster_node_last_seen_wf id db :
  pg_wf (tables db) → pg_wf (tables (pg_update_cluster_node_last_seen id db).2).
Proof. apply execute_keeps. intros t' [= <-] Hwf. by apply update_nodes_wf. Qed.

End Wf.

(** ** Operations as data

    The calls of an [Engine], to speak of sequences of them. *)
Inductive Op :=
| OpAddDevice (d : Device)
| OpGetDevice (id : Uuid)
| OpModifyDevice (d : Device)
| OpRegister (id : Uuid) (t : Z)
| OpTimeout (id : Uuid) (t : Z)
| OpRegistration (id : Uuid)
| OpUpdateRegistration (id : Uuid) (st : option RegistrationStatus) (t : option Z)
| OpLeastLoaded (total : Z)
| OpAssign (id : Uuid) (bucket : Z) (node : Uuid)
| OpBucket (id : Uuid)
| OpSchedule (id : Uuid) (t : Z) (job : Uuid)
| OpConnections
| OpConnection (id : Uuid)
| OpUpdateConnection (c : ScheduledConnection)
| OpBatteryRead (id : Uuid) (t : Z)
| OpRegisterNode (id : Uuid) (name ip : list Z) (cluster_port backdoor_port : Z)
| OpActiveNodes
| OpNodeStatus (id : Uuid) (status : list Z)
| OpNodeSeen (id : Uuid)
| OpOwned (node : Uuid)
| OpSetOwner (id node : Uuid)
| OpDeviceIds
| OpUpcoming (limit offset : Z) (dev : option Uuid)
| OpHistory (limit offset : Z) (dev : option Uuid).

Inductive Answer :=
| AUnit
| ABool (b : bool)
| ANumber (n : Z)
| ADevice (d : Device)
| ARegistration (r : DeviceRegistration)
| AConnection (c : ScheduledConnection)
| AConnections (l : list ScheduledConnection)
| APage (l : list ScheduledConnection)
| AIds (l : list Uuid)
| ANodes (l : list (Uuid * list Z * list Z * Z * Z)).

Definition smap {S E A B} (f : A → B) (m : SE S E A) : SE S E B := do! x <- m; sret (f x).

Definition run_query {DB} `{Engine DB} (op : Op) : SE DB DatabaseError Answer :=
  match op with
  | OpAddDevice d => smap (λ _, AUnit) (add_device d)
  | OpGetDevice id => smap ADevice (get_device id)
  | OpModifyDevice d => smap (λ _, AUnit) (modify_device d)
  | OpRegister id t => smap (λ _, AUnit) (register_device id t)
  | OpTimeout id t => smap ABool (registration_timeout id t)
  | OpRegistration id => smap ARegistration (get_device_registration id)
  | OpUpdateRegistration id st t => smap (λ _, AUnit) (update_device_registration id st t)
  | OpLeastLoaded total => smap ANumber (get_bucket_with_less_devices total)
  | OpAssign id b node => smap (λ _, AUnit) (add_device_to_bucket id b node)
  | OpBucket id => smap ANumber (get_bucket_number id)
  | OpSchedule id t job => smap (λ _, AUnit) (schedule_connection id t job)
  | OpConnections => smap AConnections get_scheduled_connections
  | OpConnection id => smap AConnection (get_scheduled_connection id)
  | OpUpdateConnection c => smap (λ _, AUnit) (update_scheduled_connection c)
  | OpBatteryRead id t => smap (λ _, AUnit) (update_last_battery_read id t)
  | OpRegisterNode id name ip cp bp => smap (λ _, AUnit) (register_cluster_node id name ip cp bp)
  | OpActiveNodes => smap ANodes get_active_cluster_nodes
  | OpNodeStatus id st => smap (λ _, AUnit) (update_cluster_node_status id st)
  | OpNodeSeen id => smap (λ _, AUnit) (update_cluster_node_last_seen id)
  | OpOwned node => smap AIds (get_devices_by_owner node)
  | OpSetOwner id node => smap (λ _, AUnit) (set_device_owner id node)
  | OpDeviceIds => smap AIds get_all_device_ids
  | OpUpcoming limit offset dev => smap APage (get_upcoming_connections limit offset dev)
  | OpHistory limit offset dev => smap APage (get_connection_history limit offset dev)
  end.

(** Run a list of operations, each whatever the others answered. *)
Fixpoint run_queries {DB} `{Engine DB} (ops : list Op) (db : DB) : list (outcome DatabaseError Answer) * DB :=
  match ops with
  | [] => ([], db)
  | op :: ops' =>
      let (r, db1) := run_query op db in
      let (rs, db2) := run_queries ops' db1 in (r :: rs, db2)
  end.

Lemma smap_state {S E A B} (f : A → B) (m : SE S E A) s : (smap f m s).2 = (m s).2.
Proof. unfold smap, sbind. by destruct (m s) as [[] ?]. Qed.

#[export] Hint Resolve add_device_wf modify_device_wf register_device_wf registration_timeout_wf
  update_device_registration_wf add_device_to_bucket_wf set_device_owner_wf schedule_connection_wf
  register_cluster_node_wf update_cluster_node_status_wf update_cluster_node_last_seen_wf : hes.

Lemma run_query_wf `{PgServer} op db : pg_wf (tables db) → pg_wf (tables (run_query op db).2).
Proof.
  intros Hwf. destruct op; cbn [run_query]; rewrite smap_state; simpl; auto with hes;
    try (by apply (query_keeps pg_wf)).
  - unfold pg_get_device. apply (sbind_keeps (λ db, pg_wf (tables db))); [by apply query_keeps|].
    intros. repeat case_match; try done. by apply query_keeps.
  - unfold pg_bucket_with_less_devices. apply (sbind_keeps (λ db, pg_wf (tables db))); [by apply query_keeps|done].
  - apply connections_wf; [|done]. intros tb Ht. by rewrite update_same_keys.
  - apply connections_wf; [|done]. intros tb Ht. by rewrite update_same_keys.
Qed.

(** C25: Whatever sequence of operations runs on the PostgreSQL engine, and whichever of its
    statements are lost before or after the server ran them, each device keeps at most one
    registration row and one bucket row (which no constraint of the schema ensures), keys
    stay unique and every reference points to a stored device and node. *)
Theorem tables_stay_well_formed `{PgServer} (ops : list Op) (db : PostgresDB)
    (Hwf : pg_wf (tables db)) : pg_wf (tables (run_queries ops db).2).
Proof.
  revert db Hwf. induction ops as [|op ops IH]; intros db Hwf; [done|].
  cbn [run_queries]. pose proof (run_query_wf op db Hwf) as Hwf1. destruct (run_query op db) as [r db1].
  specialize (IH db1 Hwf1). by destruct (run_queries ops db1).
Qed.

(** A server with two nodes and one device. *)
Definition two_nodes : list NodeRow :=
  [mkNodeRow 1 (str "north") (str "10.0.0.1") 6570 6565 status_active 0 0;
   mkNodeRow 2 (str "south") (str "10.0.0.2") 6570 6565 status_active 0 0].
Definition meter_row : Device := mkDevice 77 (Some (str "10.1.0.7")) None (Some (str "490154203237518")).
Definition stored : PostgresDB := mkPg (mkTables two_nodes [meter_row] [] [] []) 0.

Lemma two_nodes_wf : pg_wf (tables stored).
Proof.
  constructor; simpl; try done; try (apply (bool_decide_unpack _); vm_compute; exact I).
Qed.

Lemma tables_stay_well_formed_witness :
  pg_wf (tables (@run_queries _ (@PostgresEngine plain_server)
    [OpRegister 77 5000; OpAssign 77 3 1; OpRegister 77 6000; OpAssign 77 4 2; OpAssign 99 1 1] stored).2).
Proof. apply (@tables_stay_well_formed plain_server); exact two_nodes_wf. Defined.

(** C37: The statements of [add_device_to_bucket] are not one transaction: when two nodes
    assign the same stored device at the same time and both [DELETE]s run before both
    [INSERT]s, the device ends with two bucket rows, both nodes are told they own it, and
    well-formedness is lost. *)
Theorem concurrent_assignments_duplicate `{PgServer} (db : PostgresDB) (id n1 n2 b1 b2 : Z)
    (Hlink : ∀ n, pg_link n = Answered)
    (Hdev : has_device id (tables db) = true)
    (Hn1 : has_node n1 (tables db) = true) (Hn2 : has_node n2 (tables db) = true) (Hne : n1 ≠ n2) :
  let db' := ((do! _ <- bucket_delete id; do! _ <- bucket_delete id;
               do! _ <- bucket_insert id b1 n1; bucket_insert id b2 n2) db).2 in
  (∀ node, node = n1 ∨ node = n2 → ∃ l db'', pg_get_devices_by_owner node db' = (Ok l, db'') ∧ id ∈ l) ∧
  ¬ pg_wf (tables db').
Proof.
  unfold bucket_delete, bucket_insert, execute, statement, sbind.
  repeat (rewrite Hlink; simpl). unfold has_device, has_node in *. simpl. rewrite Hdev, Hn1. simpl.
  repeat (rewrite Hlink; simpl). unfold has_device, has_node in *. simpl. rewrite Hdev, Hn2. simpl.
  set (rest := delete_where _ _). split.
  - intros node Hnode. unfold pg_get_devices_by_owner, query, statement. rewrite Hlink. simpl.
    eexists _, _. split; [done|]. rewrite pg_order_perm. apply list_elem_of_fmap.
    unfold where_rows. setoid_rewrite list_elem_of_filter.
    destruct Hnode as [->| ->]; [exists (mkBucketRow id n1 b1)|exists (mkBucketRow id n2 b2)];
      simpl; rewrite Z.eqb_refl; set_solver.
  - intros Hwf. apply wf_buckets in Hwf. unfold unique in Hwf. simpl in Hwf.
    rewrite <- app_assoc, fmap_app in Hwf. apply NoDup_app in Hwf as (_ & _ & Hd).
    simpl in Hd. inversion Hd; subst. set_solver.
Qed.

Lemma concurrent_assignments_duplicate_witness :
  let db' := @snd _ _ (@sbind _ _ _ _ (@bucket_delete plain_server 77) (λ _,
    sbind (@bucket_delete plain_server 77) (λ _,
    sbind (@bucket_insert plain_server 77 0 1) (λ _, @bucket_insert plain_server 77 1 2))) stored) in
  (t_buckets (tables db') = [mkBucketRow 77 1 0; mkBucketRow 77 2 1]) ∧ ¬ pg_wf (tables db').
Proof.
  split; [eval_done|].
  apply (@concurrent_assignments_duplicate plain_server stored 77 1 2 0 1); (reflexivity || lia).
Defined.
