(* ===== verification/PostgresRefinement.v ===== *)
(** * The two engines answer alike

    The in-memory engine, with a directory of nodes, read as the specification
    of the PostgreSQL one: a relation between the tables and the store, the
    operations on which the engines agree ([supported]) and the simulation,
    lifted to sequences of operations. *)

From stdpp Require Import sorting.
From Stdlib Require Import Sorted.
From S2P Require Import Prelude Bytes Net Float32 Node Database DatabaseFacts Postgres PostgresFacts.

Local Open Scope Z_scope.
Local Open Scope hes_scope.

(** ** The relation *)
Definition reg_value (r : DeviceRegistration) : RegistrationStatus * Z :=
  (registration_status r, registration_time r).
Definition bucket_value (r : BucketRow) : Z * Uuid := (b_bucket r, b_node r).

Definition map_devices (t : Tables) : gmap Z Device := table_map dev_id (λ d, d) (t_devices t).
Definition map_registration (t : Tables) : gmap Z (RegistrationStatus * Z) :=
  table_map reg_fk_device reg_value (t_registration t).
Definition map_buckets (t : Tables) : gmap Z (Z * Uuid) := table_map b_device bucket_value (t_buckets t).
Definition map_connections (t : Tables) : gmap Z ScheduledConnection :=
  table_map fk_device (λ c, c) (t_connections t).

(** The maps that well-formed tables with one connection per device hold. *)
Definition represents (t : Tables) (m : InnerDB) : Prop :=
  pg_wf t ∧ unique fk_device (t_connections t) ∧
  m = mkInnerDB (map_devices t) (map_registration t) (map_buckets t) (map_connections t).

(** ** Where the engines agree *)
Definition whole (t : Z) : Prop := t mod 1000 = 0.
Definition whole_opt (o : option Z) : Prop := match o with Some t => whole t | None => True end.
Definition i64_nonneg (z : Z) : Prop := 0 <= z < 2 ^ 63.

(** The operations on the directory of nodes. *)
Definition is_node_op (op : Op) : bool :=
  match op with
  | OpRegisterNode _ _ _ _ _ | OpActiveNodes | OpNodeStatus _ _ | OpNodeSeen _ => true
  | _ => false
  end.

(** [knows] tells the nodes of the directory. *)
Definition supported (knows : Uuid → bool) (m : InnerDB) (op : Op) : Prop :=
  match op with
  | OpAddDevice d => device_row d = Ok d ∧ devices m !! dev_id d = None
  | OpModifyDevice d => device_row d = Ok d ∧ is_Some (devices m !! dev_id d)
  | OpRegister id ts => is_Some (devices m !! id) ∧ whole ts
  | OpTimeout id ts => is_Some (device_registration m !! id) ∧ whole ts
  | OpUpdateRegistration id st ts => whole_opt ts
  | OpLeastLoaded total => 0 < total ∧ Z.of_nat (size (buckets m)) < i64_max
  | OpAssign id b node => is_Some (devices m !! id) ∧ knows node = true
  | OpSetOwner id node => knows node = true
  | OpSchedule id ts job => is_Some (devices m !! id) ∧ scheduled_connections m !! id = None ∧ whole ts
  | OpConnections => ∀ id c, scheduled_connections m !! id = Some c → sc_status c = Awaiting
  | OpUpdateConnection c => is_Some (scheduled_connections m !! fk_device c) ∧
      whole (schedule_time c) ∧ whole_opt (connection_time c) ∧ whole_opt (last_battery_read c)
  | OpBatteryRead id ts => is_Some (scheduled_connections m !! id) ∧ whole ts
  | OpUpcoming limit offset _ | OpHistory limit offset _ => i64_nonneg limit ∧ i64_nonneg offset
  | OpRegisterNode id name ip _ _ => pg_varchar 255 name = Ok name ∧ pg_varchar 45 ip = Ok ip
  | OpNodeStatus id st => pg_varchar 20 st = Ok st
  | _ => True
  end.

(** The rows a page is made of. *)
Definition page_row (op : Op) (c : ScheduledConnection) : bool :=
  match op with
  | OpUpcoming _ _ dev => is_awaiting c && for_device dev c
  | OpHistory _ _ dev => is_past c && for_device dev c
  | _ => false
  end.

(** The errors: PostgreSQL says that there is no row where the in-memory engine says that
    there is no data, in the three operations that fetch a row without counting first;
    elsewhere they say the same. *)
Definition same_error `{PgServer} (op : Op) (e1 e2 : DatabaseError) : Prop :=
  match op with
  | OpRegistration _ | OpBucket _ | OpConnection _ => e1 = QueryError (pg_message RowNotFound) ∧ e2 = NoDataFound
  | _ => e1 = e2
  end.

(** Answers agree up to the order the server is free to choose. A page has the same times at
    the same places, and its rows are distinct stored connections of the kind asked for. *)
Definition same_answer `{PgServer} (m : InnerDB) (op : Op) (r1 r2 : outcome DatabaseError Answer) : Prop :=
  match r1, r2 with
  | Ok (AIds l1), Ok (AIds l2) => l1 ≡ₚ l2
  | Ok (AConnections l1), Ok (AConnections l2) => l1 ≡ₚ l2
  | Ok (ANodes l1), Ok (ANodes l2) => l1 ≡ₚ l2
  | Ok (APage l1), Ok (APage l2) => schedule_time <$> l1 = schedule_time <$> l2 ∧ NoDup l1 ∧
      ∀ c, c ∈ l1 → scheduled_connections m !! fk_device c = Some c ∧ page_row op c = true
  | Ok a1, Ok a2 => a1 = a2
  | Err e1, Err e2 => same_error op e1 e2
  | _, _ => False
  end.

(** ** The store

    What the cluster knows of a node, and the operations on the directory of nodes, which
    the in-memory engine does not have. *)
Record NodeEntry := mkNodeEntry {
  ne_name : list Z;
  ne_ip : list Z;
  ne_port : Z;
  ne_backdoor_port : Z;
  ne_status : list Z
}.
Definition node_entry (r : NodeRow) : NodeEntry :=
  mkNodeEntry (n_node_name r) (n_cluster_ip r) (n_cluster_port r) (n_backdoor_port r) (n_status r).
Definition active (e : Uuid * NodeEntry) : Prop := ne_status e.2 = status_active ∨ ne_status e.2 = status_starting.
#[export] Instance active_dec e : Decision (active e).
Proof. unfold active. apply _. Defined.

Record Store := mkStore { st_data : InnerDB; st_nodes : gmap Z NodeEntry }.
Definition known (s : Store) (id : Uuid) : bool := bool_decide (is_Some (st_nodes s !! id)).

Definition store_query `{HashOrder} (op : Op) (s : Store) : outcome DatabaseError Answer * Store :=
  match op with
  | OpRegisterNode id name ip port backdoor_port =>
      let name := from_option ne_name name (st_nodes s !! id) in
      (Ok AUnit, mkStore (st_data s) (<[id := mkNodeEntry name ip port backdoor_port status_active]> (st_nodes s)))
  | OpActiveNodes =>
      (Ok (ANodes ((λ e, (e.1, ne_name e.2, ne_ip e.2, ne_port e.2, ne_backdoor_port e.2)) <$> filter active (map_to_list (st_nodes s)))), s)
  | OpNodeStatus id status =>
      (Ok AUnit, mkStore (st_data s)
        (alter (λ e, mkNodeEntry (ne_name e) (ne_ip e) (ne_port e) (ne_backdoor_port e) status) id (st_nodes s)))
  | OpNodeSeen _ => (Ok AUnit, s)
  | _ => let (r, m) := run_query op (st_data s) in (r, mkStore m (st_nodes s))
  end.

Lemma store_query_data `{HashOrder} op s :
  is_node_op op = false →
  store_query op s = ((run_query op (st_data s)).1, mkStore (run_query op (st_data s)).2 (st_nodes s)).
Proof.
  intros Hop. unfold store_query. destruct op; try discriminate Hop; cbv iota;
    match goal with |- context [run_query ?o (st_data s)] => by destruct (run_query o (st_data s)) end.
Qed.

(** The tables hold the data of the store. *)
Definition represents_store (t : Tables) (s : Store) : Prop :=
  represents t (st_data s) ∧ st_nodes s = table_map n_id node_entry (t_nodes t).

Section Refinement.
Context `{PgServer} `{HashOrder}.
Hypothesis link_up : ∀ n, pg_link n = Answered.

(** What one operation has to show. *)
Definition simulates (op : Op) (db : PostgresDB) (m : InnerDB) : Prop :=
  same_answer m op (run_query op db).1 (run_query op m).1 ∧
  represents (tables (run_query op db).2) (run_query op m).2.

Definition simulates_store (op : Op) (db : PostgresDB) (s : Store) : Prop :=
  same_answer (st_data s) op (run_query op db).1 (store_query op s).1 ∧
  represents_store (tables (run_query op db).2) (store_query op s).2.

Lemma statement_up {A} (q : nat → Tables → outcome PgError A * Tables) db :
  statement q db =
  (omap_err (λ e, QueryError (pg_message e)) (q (statements db) (tables db)).1,
   mkPg (q (statements db) (tables db)).2 (S (statements db))).
Proof. unfold statement. rewrite link_up. by destruct (q _ _). Qed.

Lemma query_up {A} (f : nat → Tables → outcome PgError A) db :
  query f db = (omap_err (λ e, QueryError (pg_message e)) (f (statements db) (tables db)),
                mkPg (tables db) (S (statements db))).
Proof. unfold query. by rewrite statement_up. Qed.

Lemma execute_up f db t' :
  f (statements db) (tables db) = Ok t' → execute f db = (Ok tt, mkPg t' (S (statements db))).
Proof. intros Hf. unfold execute. by rewrite statement_up, Hf. Qed.

Lemma pg_whole t : whole t → pg_time t = t.
Proof. apply pg_time_whole. Qed.
Lemma pg_whole_opt o : whole_opt o → pg_time <$> o = o.
Proof. destruct o; [|done]. simpl. intros Hw. by rewrite pg_whole. Qed.

Lemma device_stored t id : is_Some (map_devices t !! id) → has_device id t = true.
Proof.
  intros [d Hd]. apply has_device_elem. apply dec_stable. intros Hn.
  apply (table_map_None dev_id (λ d, d)) in Hn. unfold map_devices in Hd. congruence.
Qed.

(** The row of a key, whatever order the server returns its rows in. *)
Lemma fetch_key {R V} (key : R → Z) (val : R → V) rows id n :
  unique key rows →
  match table_map key val rows !! id with
  | Some v => ∃ r, pg_order n (where_rows (λ r, key r =? id) rows) = [r] ∧ r ∈ rows ∧ key r = id ∧ val r = v
  | None => pg_order n (where_rows (λ r, key r =? id) rows) = []
  end.
Proof.
  intros Hu. pose proof (where_key key val rows id Hu) as Hw.
  pose proof (pg_order_perm n (where_rows (λ r, key r =? id) rows)) as Hp.
  destruct (table_map key val rows !! id).
  - destruct Hw as (r & Hw & ?). rewrite Hw in *. exists r. split; [|done]. by apply Permutation_singleton_r.
  - rewrite Hw in *. by apply Permutation_nil_r.
Qed.

Lemma count_key {R V} (key : R → Z) (val : R → V) rows id :
  unique key rows →
  count_rows (where_rows (λ r, key r =? id) rows) = (if table_map key val rows !! id then 1 else 0).
Proof.
  intros Hu. pose proof (where_key key val rows id Hu) as Hw. unfold count_rows.
  destruct (table_map key val rows !! id); [destruct Hw as (r & -> & _)|rewrite Hw]; done.
Qed.

(** An answered pair of runs. *)
Lemma smap_ok {S E A B} (f : A → B) (m : SE S E A) s s' a :
  m s = (Ok a, s') → smap f m s = (Ok (f a), s').
Proof. intros Hm. unfold smap. by rewrite (sbind_ok _ _ _ _ _ Hm). Qed.
Lemma smap_err {S E A B} (f : A → B) (m : SE S E A) s s' e :
  m s = (Err e, s') → smap f m s = (Err e, s').
Proof. intros Hm. unfold smap. by rewrite (sbind_err _ _ _ _ _ Hm). Qed.

Lemma simulates_intro op db m r1 r2 db' m' :
  run_query op db = (r1, db') → run_query op m = (r2, m') →
  same_answer m op r1 r2 → represents (tables db') m' → simulates op db m.
Proof. intros H1 H2 Hs Hr. unfold simulates. by rewrite H1, H2. Qed.

(** Changing one table changes the map it is. *)
Lemma represents_devices l t m :
  represents t m → pg_wf (with_devices l t) →
  represents (with_devices l t) (set_devices (table_map dev_id (λ d, d) l) m).
Proof. by intros (Hwf & Hc & ->) Hwf'. Qed.
Lemma represents_registration l t m :
  represents t m → pg_wf (with_registration l t) →
  represents (with_registration l t) (set_registrations (table_map reg_fk_device reg_value l) m).
Proof. by intros (Hwf & Hc & ->) Hwf'. Qed.
Lemma represents_buckets l t m :
  represents t m → pg_wf (with_buckets l t) →
  represents (with_buckets l t) (set_buckets (table_map b_device bucket_value l) m).
Proof. by intros (Hwf & Hc & ->) Hwf'. Qed.
Lemma represents_connections l t m :
  represents t m → pg_wf (with_connections l t) → unique fk_device l →
  represents (with_connections l t) (set_connections (table_map fk_device (λ c, c) l) m).
Proof. by intros (Hwf & Hc & ->) Hwf' Hu. Qed.

Lemma alter_as_insert {V} (g : V → V) (m : gmap Z V) id v :
  m !! id = Some v → alter g id m = <[id := g v]> m.
Proof.
  intros Hv. apply map_eq. intros k. destruct (decide (k = id)) as [->|].
  - by rewrite lookup_alter_eq, lookup_insert_eq, Hv.
  - by rewrite lookup_alter_ne, lookup_insert_ne.
Qed.

Lemma represents_nodes l t m : represents t m → pg_wf (with_nodes l t) → represents (with_nodes l t) m.
Proof. by intros (Hwf & Hc & ->) Hwf'. Qed.

(** ** Devices *)
Lemma add_device_sim d db m :
  represents (tables db) m → supported (λ id, has_node id (tables db)) m (OpAddDevice d) → simulates (OpAddDevice d) db m.
Proof.
  intros Hrep [Hrow Hnew]. pose proof Hrep as (Hwf & Hc & Hm). rewrite Hm in Hnew.
  assert (Hn : dev_id d ∉ dev_id <$> t_devices (tables db)) by (by apply (table_map_None dev_id (λ d, d))).
  assert (Hrun : pg_add_device d db = (Ok tt, mkPg (with_devices (t_devices (tables db) ++ [d]) (tables db)) (S (statements db)))).
  { apply execute_up. rewrite Hrow. simpl. rewrite <- has_device_elem in Hn.
    by destruct (has_device (dev_id d) (tables db)). }
  pose proof (add_device_wf d db Hwf) as Hwf'. rewrite Hrun in Hwf'.
  eapply simulates_intro; [by apply smap_ok|by apply smap_ok|done|].
  assert (Hd : devices m = map_devices (tables db)) by (by rewrite Hm). rewrite Hd. unfold map_devices.
  rewrite <- (proj2 (table_map_insert dev_id (λ d, d) _ d (wf_devices _ Hwf) Hn)). by apply represents_devices.
Qed.

Lemma modify_device_sim d db m :
  represents (tables db) m → supported (λ id, has_node id (tables db)) m (OpModifyDevice d) → simulates (OpModifyDevice d) db m.
Proof.
  intros Hrep [Hrow [d0 Hd0]]. pose proof Hrep as (Hwf & Hc & Hm).
  assert (Hrun : pg_modify_device d db = (Ok tt, mkPg (with_devices
    (update_where (λ d', dev_id d' =? dev_id d) (λ _, d) (t_devices (tables db))) (tables db)) (S (statements db)))).
  { apply execute_up. by rewrite Hrow. }
  pose proof (modify_device_wf d db Hwf) as Hwf'. rewrite Hrun in Hwf'.
  eapply simulates_intro; [by apply smap_ok|apply smap_ok; simpl; unfold mem_modify_device; by rewrite Hd0|done|].
  rewrite <- (alter_as_insert (λ _, d) _ _ _ Hd0). assert (Hd : devices m = map_devices (tables db)) by (by rewrite Hm).
  rewrite Hd. unfold map_devices.
  rewrite <- (proj2 (table_map_update dev_id (λ d, d) (t_devices (tables db)) (dev_id d)
    (λ d', dev_id d' =? dev_id d) (λ _, d) (λ _, d) (wf_devices _ Hwf) ltac:(done) ltac:(done))).
  by apply represents_devices.
Qed.

Lemma get_device_sim id db m : represents (tables db) m → simulates (OpGetDevice id) db m.
Proof.
  intros (Hwf & Hc & ->). unfold simulates. cbn [run_query]. rewrite !smap_state.
  simpl. unfold smap, sbind. simpl. unfold pg_get_device, mem_get_device, sbind. rewrite query_up. cbn [omap_err fst snd].
  rewrite (count_key dev_id (λ d, d)) by apply Hwf.
  pose proof (fetch_key dev_id (λ d, d) (t_devices (tables db)) id (S (statements db)) (wf_devices _ Hwf)) as Hf.
  cbn [devices]. unfold map_devices at 1. destruct (table_map dev_id (λ d, d) (t_devices (tables db)) !! id) as [d|] eqn:Hd.
  - destruct Hf as (r & Hf & _ & _ & Hv). simpl in Hv. subst r. simpl. rewrite query_up. simpl. rewrite Hf. simpl.
    unfold map_devices. rewrite Hd. done.
  - simpl. unfold map_devices. by rewrite Hd.
Qed.

(** ** Registration *)
Lemma register_device_sim id ts db m :
  represents (tables db) m → supported (λ id, has_node id (tables db)) m (OpRegister id ts) → simulates (OpRegister id ts) db m.
Proof.
  intros Hrep [Hdev Hts]. pose proof Hrep as (Hwf & Hc & Hm). rewrite Hm in Hdev. apply device_stored in Hdev.
  set (row := mkDeviceRegistration id PendingAck ts).
  set (kept := delete_where (reg_of id) (t_registration (tables db))).
  assert (Hrun : pg_register_device id ts db = (Ok tt, mkPg (with_registration (kept ++ [row]) (tables db)) (S (S (statements db))))).
  { unfold pg_register_device. erewrite sbind_ok by (by apply execute_up). unfold registration_insert.
    erewrite execute_up; [done|]. simpl. unfold has_device in *. simpl. rewrite Hdev. by rewrite pg_whole. }
  pose proof (register_device_wf id ts db Hwf) as Hwf'. rewrite Hrun in Hwf'.
  eapply simulates_intro; [by apply smap_ok|by apply smap_ok|done|].
  destruct (table_map_delete reg_fk_device reg_value _ id (wf_registration _ Hwf)) as [Hu Hdel].
  assert (Hreg : <[id := (PendingAck, ts)]> (device_registration m) = table_map reg_fk_device reg_value (kept ++ [row])).
  { rewrite Hm. rewrite (proj2 (table_map_insert reg_fk_device reg_value kept row Hu (deleted_key _ _ _))).
    unfold kept, reg_of. rewrite Hdel. simpl. unfold reg_value. simpl. by rewrite insert_delete_eq. }
  rewrite Hreg. by apply represents_registration.
Qed.

(** An update of the one row of a device. *)
Lemma registration_update_map t id p f st ts v :
  pg_wf t → map_registration t !! id = Some v →
  (∀ r, r ∈ t_registration t → p r = (reg_fk_device r =? id)) →
  (∀ r, reg_fk_device (f r) = reg_fk_device r) →
  (∀ r, r ∈ t_registration t → reg_value r = v → reg_value (f r) = (st, ts)) →
  <[id := (st, ts)]> (map_registration t) = table_map reg_fk_device reg_value (update_where p f (t_registration t)).
Proof.
  intros Hwf Hv Hp Hk Hf. symmetry.
  assert (Hrow : ∀ r, r ∈ t_registration t → reg_fk_device r = id → reg_value r = v).
  { intros r Hr Hid. unfold map_registration in Hv.
    assert (Hs : table_map reg_fk_device reg_value (t_registration t) !! id = Some (reg_value r)).
    { apply table_map_Some; [apply Hwf|]. eauto. } congruence. }
  rewrite (proj2 (table_map_update reg_fk_device reg_value _ id p f (λ _, (st, ts)) (wf_registration _ Hwf) Hp ltac:(intros r Hr Hid; rewrite Hk; eauto))).
  by apply (alter_as_insert (λ _, (st, ts)) _ _ v).
Qed.

(** The one registration row of a device that the map knows. *)
Lemma registration_row t id v :
  pg_wf t → map_registration t !! id = Some v →
  ∃ r, where_rows (reg_of id) (t_registration t) = [r] ∧ r ∈ t_registration t ∧ reg_fk_device r = id ∧ reg_value r = v.
Proof.
  intros Hwf Hv. pose proof (where_key reg_fk_device reg_value (t_registration t) id (wf_registration _ Hwf)) as Hw.
  unfold map_registration in Hv. by rewrite Hv in Hw.
Qed.

Lemma pending_rows t id v :
  pg_wf t → map_registration t !! id = Some v →
  count_rows (where_rows (reg_pending id) (t_registration t)) = (if decide (v.1 = PendingAck) then 1 else 0).
Proof.
  intros Hwf Hv. destruct (registration_row _ _ _ Hwf Hv) as (r & Hw & Hr & Hid & <-).
  assert (Hp : where_rows (reg_pending id) (t_registration t) =
    filter (λ r, registration_status r = PendingAck) (where_rows (reg_of id) (t_registration t))).
  { unfold where_rows. rewrite list_filter_filter. apply list_filter_iff. intros x. unfold reg_pending.
    rewrite andb_true_iff, bool_decide_eq_true. naive_solver. }
  rewrite Hp, Hw. unfold count_rows. rewrite filter_cons, filter_nil. simpl. by case_decide.
Qed.

Lemma registration_timeout_sim id ts db m :
  represents (tables db) m → supported (λ id, has_node id (tables db)) m (OpTimeout id ts) → simulates (OpTimeout id ts) db m.
Proof.
  intros Hrep [[[st t0] Hv] Hts]. pose proof Hrep as (Hwf & Hc & Hm).
  assert (Hv' : map_registration (tables db) !! id = Some (st, t0)) by (by rewrite Hm in Hv).
  set (f := λ r, mkDeviceRegistration (reg_fk_device r) AckTimeout ts).
  destruct (decide (st = PendingAck)) as [->|Hst].
  - set (rows := update_where (reg_pending id) f (t_registration (tables db))).
    assert (Hrun : pg_registration_timeout id ts db = (Ok true, mkPg (with_registration rows (tables db)) (S (S (statements db))))).
    { unfold pg_registration_timeout. erewrite sbind_ok by (by rewrite query_up). rewrite (pending_rows _ _ _ Hwf Hv').
      simpl. erewrite sbind_ok by (by apply execute_up). simpl. unfold rows, f. by rewrite pg_whole. }
    pose proof (registration_timeout_wf id ts db Hwf) as Hwf'. rewrite Hrun in Hwf'.
    eapply simulates_intro; [by apply smap_ok|apply smap_ok; simpl; unfold mem_registration_timeout; by rewrite Hv|done|].
    assert (Hreg : device_registration m = map_registration (tables db)) by (by rewrite Hm). rewrite Hreg.
    rewrite (registration_update_map (tables db) id (reg_pending id) f AckTimeout ts (PendingAck, t0)); try done; [by apply represents_registration|].
    intros r Hr. unfold reg_pending, reg_of. destruct (Z.eqb_spec (reg_fk_device r) id) as [Hid|]; [|done].
    apply bool_decide_eq_true. destruct (registration_row _ _ _ Hwf Hv') as (r' & _ & Hr' & Hid' & Hval).
    assert (Hs : map_registration (tables db) !! id = Some (reg_value r)) by (apply table_map_Some; [apply Hwf|eauto]).
    unfold reg_value in Hs. congruence.
  - clear f. assert (Hrun : pg_registration_timeout id ts db = (Ok false, mkPg (tables db) (S (statements db)))).
    { unfold pg_registration_timeout. erewrite sbind_ok by (by rewrite query_up). rewrite (pending_rows _ _ _ Hwf Hv').
      by rewrite decide_False. }
    eapply simulates_intro; [by apply smap_ok|apply smap_ok; simpl; unfold mem_registration_timeout; rewrite Hv; by destruct st|done|done].
Qed.

Lemma get_registration_sim id db m : represents (tables db) m → simulates (OpRegistration id) db m.
Proof.
  intros Hrep. pose proof Hrep as (Hwf & Hc & Hm).
  pose proof (fetch_key reg_fk_device reg_value (t_registration (tables db)) id (statements db) (wf_registration _ Hwf)) as Hf.
  assert (Hreg : device_registration m = table_map reg_fk_device reg_value (t_registration (tables db))) by (by rewrite Hm).
  assert (Hrun : pg_get_device_registration id db =
    (omap_err (λ e, QueryError (pg_message e))
       (fetch_one (pg_order (statements db) (where_rows (λ r, reg_fk_device r =? id) (t_registration (tables db))))),
     mkPg (tables db) (S (statements db)))) by (unfold pg_get_device_registration; by rewrite query_up).
  destruct (table_map reg_fk_device reg_value (t_registration (tables db)) !! id) as [v|] eqn:Hv.
  - destruct Hf as ([] & Hf & _ & Hid & Hval). rewrite Hf in Hrun. simpl in Hrun. simpl in Hid, Hval. unfold reg_value in Hval. simpl in Hval. subst.
    eapply simulates_intro; [by apply smap_ok|apply smap_ok; simpl; unfold mem_get_device_registration; by rewrite Hreg, Hv|done|done].
  - rewrite Hf in Hrun. simpl in Hrun.
    eapply simulates_intro; [by apply smap_err|apply smap_err; simpl; unfold mem_get_device_registration; by rewrite Hreg, Hv|done|done].
Qed.

Lemma registration_update_run id f db :
  registration_update id f db =
  (Ok tt, mkPg (with_registration (update_where (reg_of id) f (t_registration (tables db))) (tables db)) (S (statements db))).
Proof. by apply execute_up. Qed.

Lemma update_registration_sim id st ts db m :
  represents (tables db) m → supported (λ id, has_node id (tables db)) m (OpUpdateRegistration id st ts) →
  simulates (OpUpdateRegistration id st ts) db m.
Proof.
  intros Hrep Hts. simpl in Hts. pose proof Hrep as (Hwf & Hc & Hm).
  assert (Hreg : device_registration m = map_registration (tables db)) by (by rewrite Hm).
  assert (Hcount : ∀ k : Z → SE PostgresDB DatabaseError unit, sbind (query (λ _ t, Ok (count_rows (where_rows (reg_of id) (t_registration t))))) k db
     = k (if map_registration (tables db) !! id then 1 else 0) (mkPg (tables db) (S (statements db)))).
  { intros k. erewrite sbind_ok by (by rewrite query_up). f_equal. unfold map_registration.
    rewrite <- (count_key reg_fk_device reg_value) by apply Hwf. done. }
  pose proof (update_device_registration_wf id st ts db Hwf) as Hwf'.
  unfold pg_update_device_registration in Hwf'. rewrite Hcount in Hwf'.
  destruct (map_registration (tables db) !! id) as [[st0 t0]|] eqn:Hv.
  2: { eapply simulates_intro; [apply smap_err; simpl; unfold pg_update_device_registration; by rewrite Hcount
         |apply smap_err; simpl; unfold mem_update_device_registration; by rewrite Hreg, Hv|done|done]. }
  simpl in Hwf'.
  destruct st as [s|], ts as [t|]; simpl in Hts.
  4: { eapply simulates_intro; [apply smap_ok; simpl; unfold pg_update_device_registration; by rewrite Hcount
         |apply smap_ok; simpl; unfold mem_update_device_registration; by rewrite Hreg, Hv|done|].
       simpl. rewrite insert_id by done. by destruct m; simpl in *; subst. }
  all: rewrite registration_update_run in Hwf'; simpl in Hwf';
    (eapply simulates_intro; [apply smap_ok; simpl; unfold pg_update_device_registration; rewrite Hcount; by apply registration_update_run
      |apply smap_ok; simpl; unfold mem_update_device_registration; by rewrite Hreg, Hv|done|]);
    rewrite ?(pg_whole t) in * by done; simpl;
    (erewrite (registration_update_map (tables db) id (reg_of id));
     [by apply represents_registration|done|done|done|done|]).
  all: intros r Hr Hval; unfold reg_value in *; simpl; congruence.
Qed.

(** ** Buckets and owners *)
Lemma count_bucket rows b : count_rows (where_rows (λ r, b_bucket r =? b) rows) = occ b (b_bucket <$> rows).
Proof.
  unfold count_rows, where_rows, occ. rewrite filter_fmap, length_fmap. do 2 f_equal.
  apply list_filter_iff. intros r. simpl. apply Z.eqb_eq.
Qed.

Lemma table_load_rows t b : pg_wf t → table_load (map_buckets t) b = occ b (b_bucket <$> t_buckets t).
Proof.
  intros Hwf. unfold table_load, map_buckets. apply occ_perm.
  rewrite (table_entries b_device bucket_value) by apply Hwf. by rewrite <- list_fmap_compose.
Qed.

Lemma group_buckets_answer t n :
  pg_wf t → group_by_answer (table_load (map_buckets t)) (pg_order n (group_buckets (t_buckets t))).
Proof.
  intros Hwf. unfold group_by_answer, group_buckets. split.
  - rewrite pg_order_perm, <- list_fmap_compose. rewrite (list_fmap_ext _ (λ b, b)) by done.
    rewrite list_fmap_id. apply NoDup_remove_dups.
  - intros b c. rewrite pg_order_perm, table_load_rows by done. rewrite list_elem_of_fmap. split.
    + intros (b' & [= -> ->] & Hb). rewrite elem_of_remove_dups in Hb. rewrite count_bucket. split; [done|].
      apply list_elem_of_split in Hb as (l1 & l2 & ->). unfold occ. rewrite filter_app, length_app, filter_cons.
      rewrite decide_True by done. simpl. lia.
    + intros [-> Hpos]. exists b. rewrite count_bucket. split; [done|]. apply elem_of_remove_dups.
      unfold occ in Hpos. destruct (filter (λ x, x = b) (b_bucket <$> t_buckets t)) as [|x l] eqn:Hf; [done|].
      assert (Hx : x ∈ filter (λ x, x = b) (b_bucket <$> t_buckets t)) by (rewrite Hf; constructor).
      apply list_elem_of_filter in Hx as [-> Hx]. done.
Qed.

Lemma least_loaded_sim total db m :
  represents (tables db) m → supported (λ id, has_node id (tables db)) m (OpLeastLoaded total) → simulates (OpLeastLoaded total) db m.
Proof.
  intros Hrep [Htotal Hsize]. pose proof Hrep as (Hwf & Hc & Hm).
  destruct (mem_bucket_choice total m Htotal) as (b & Hmem & Hleast).
  assert (Hload : bucket_load m = table_load (map_buckets (tables db))) by (by rewrite Hm).
  assert (Hb : pg_get_bucket_with_less_devices (pg_order (statements db) (group_buckets (t_buckets (tables db)))) total = b).
  { eapply least_bucket_unique; [|done]. rewrite Hload. apply pg_bucket_choice; [by apply group_buckets_answer| |done].
    intros b'. pose proof (table_load_bounds (map_buckets (tables db)) b'). rewrite Hm in Hsize. simpl in Hsize. lia. }
  eapply simulates_intro; [apply smap_ok; simpl; unfold pg_bucket_with_less_devices; erewrite sbind_ok by (by rewrite query_up); done
    |by apply smap_ok| |done].
  simpl. by rewrite Hb.
Qed.

Lemma assign_sim id b node db m :
  represents (tables db) m → supported (λ id, has_node id (tables db)) m (OpAssign id b node) → simulates (OpAssign id b node) db m.
Proof.
  intros Hrep [Hdev Hnode]. pose proof Hrep as (Hwf & Hc & Hm). rewrite Hm in Hdev. apply device_stored in Hdev.
  set (row := mkBucketRow id node b).
  set (kept := delete_where (bucket_of id) (t_buckets (tables db))).
  assert (Hrun : pg_add_device_to_bucket id b node db = (Ok tt, mkPg (with_buckets (kept ++ [row]) (tables db)) (S (S (statements db))))).
  { unfold pg_add_device_to_bucket. erewrite sbind_ok by (by apply execute_up). unfold bucket_insert.
    erewrite execute_up; [done|]. simpl. unfold has_device, has_node in *. simpl. by rewrite Hdev, Hnode. }
  pose proof (add_device_to_bucket_wf id b node db Hwf) as Hwf'. rewrite Hrun in Hwf'.
  eapply simulates_intro; [by apply smap_ok|by apply smap_ok|done|].
  destruct (table_map_delete b_device bucket_value _ id (wf_buckets _ Hwf)) as [Hu Hdel].
  assert (Hmap : <[id := (b, node)]> (buckets m) = table_map b_device bucket_value (kept ++ [row])).
  { rewrite Hm, (proj2 (table_map_insert b_device bucket_value kept row Hu (deleted_key _ _ _))).
    unfold kept, bucket_of. rewrite Hdel. unfold bucket_value. simpl. by rewrite insert_delete_eq. }
  rewrite Hmap. by apply represents_buckets.
Qed.

Lemma get_bucket_sim id db m : represents (tables db) m → simulates (OpBucket id) db m.
Proof.
  intros Hrep. pose proof Hrep as (Hwf & Hc & Hm).
  pose proof (fetch_key b_device bucket_value (t_buckets (tables db)) id (statements db) (wf_buckets _ Hwf)) as Hf.
  assert (Hb : buckets m = table_map b_device bucket_value (t_buckets (tables db))) by (by rewrite Hm).
  assert (Hrun : pg_get_bucket_number id db =
    (omap_err (λ e, QueryError (pg_message e))
       (fetch_one (b_bucket <$> pg_order (statements db) (where_rows (λ r, b_device r =? id) (t_buckets (tables db))))),
     mkPg (tables db) (S (statements db)))) by (unfold pg_get_bucket_number; by rewrite query_up).
  destruct (table_map b_device bucket_value (t_buckets (tables db)) !! id) as [v|] eqn:Hv.
  - destruct Hf as (r & Hf & _ & Hid & <-). rewrite Hf in Hrun. simpl in Hrun.
    eapply simulates_intro; [by apply smap_ok|apply smap_ok; simpl; unfold mem_get_bucket_number; by rewrite Hb, Hv|done|done].
  - rewrite Hf in Hrun. simpl in Hrun.
    eapply simulates_intro; [by apply smap_err|apply smap_err; simpl; unfold mem_get_bucket_number; by rewrite Hb, Hv|done|done].
Qed.

Lemma owned_sim node db m : represents (tables db) m → simulates (OpOwned node) db m.
Proof.
  intros Hrep. pose proof Hrep as (Hwf & Hc & Hm).
  eapply simulates_intro; [apply smap_ok; simpl; unfold pg_get_devices_by_owner; by rewrite query_up|by apply smap_ok| |done].
  assert (Hb : buckets m = map_buckets (tables db)) by (by rewrite Hm).
  cbn [same_answer]. rewrite pg_order_perm, hash_iter_perm, Hb. unfold map_buckets.
  rewrite (table_entries b_device bucket_value) by apply Hwf.
  rewrite filter_fmap, <- list_fmap_compose. unfold where_rows. apply fmap_Permutation.
  erewrite list_filter_iff; [done|]. intros r. simpl. apply Z.eqb_eq.
Qed.

Lemma set_owner_sim id node db m :
  represents (tables db) m → supported (λ id, has_node id (tables db)) m (OpSetOwner id node) → simulates (OpSetOwner id node) db m.
Proof.
  intros Hrep Hnode. simpl in Hnode. pose proof Hrep as (Hwf & Hc & Hm).
  set (f := λ r, mkBucketRow (b_device r) node (b_bucket r)).
  assert (Hrun : pg_set_device_owner id node db = (Ok tt, mkPg (with_buckets
    (update_where (bucket_of id) f (t_buckets (tables db))) (tables db)) (S (statements db)))).
  { apply execute_up. by rewrite Hnode. }
  pose proof (set_device_owner_wf id node db Hwf) as Hwf'. rewrite Hrun in Hwf'.
  eapply simulates_intro; [by apply smap_ok|by apply smap_ok|done|].
  assert (Hb : buckets m = map_buckets (tables db)) by (by rewrite Hm). rewrite Hb. unfold map_buckets.
  rewrite <- (proj2 (table_map_update b_device bucket_value (t_buckets (tables db)) id (bucket_of id) f
    (λ e, (e.1, node)) (wf_buckets _ Hwf) ltac:(done) ltac:(done))).
  by apply represents_buckets.
Qed.

Lemma device_ids_sim db m : represents (tables db) m → simulates OpDeviceIds db m.
Proof.
  intros Hrep. pose proof Hrep as (Hwf & Hc & Hm).
  eapply simulates_intro; [apply smap_ok; simpl; unfold pg_get_all_device_ids; by rewrite query_up|by apply smap_ok| |done].
  assert (Hd : devices m = map_devices (tables db)) by (by rewrite Hm).
  cbn [same_answer]. rewrite sort_by_key_perm, pg_order_perm, hash_iter_perm, Hd. unfold map_devices.
  rewrite (table_entries dev_id (λ d, d)) by apply Hwf. by rewrite <- list_fmap_compose.
Qed.

(** ** Connections *)
Lemma map_row_id (l : list ScheduledConnection) : map_scheduled_row <$> l = l.
Proof. rewrite (list_fmap_ext _ (λ c, c)); [by rewrite list_fmap_id|]. by intros ? []. Qed.

Lemma schedule_sim id ts j db m :
  represents (tables db) m → supported (λ id, has_node id (tables db)) m (OpSchedule id ts j) → simulates (OpSchedule id ts j) db m.
Proof.
  intros Hrep (Hdev & Hnone & Hts). pose proof Hrep as (Hwf & Hc & Hm). rewrite Hm in Hdev. apply device_stored in Hdev.
  set (row := mkScheduledConnection id ts None Awaiting (Some j) true None).
  assert (Hrun : pg_schedule_connection id ts j db = (Ok tt, mkPg (with_connections (t_connections (tables db) ++ [row]) (tables db)) (S (statements db)))).
  { apply execute_up. rewrite Hdev. by rewrite pg_whole. }
  pose proof (schedule_connection_wf id ts j db Hwf) as Hwf'. rewrite Hrun in Hwf'.
  eapply simulates_intro; [by apply smap_ok|by apply smap_ok|done|].
  assert (Hn : id ∉ fk_device <$> t_connections (tables db)).
  { rewrite Hm in Hnone. by apply (table_map_None fk_device (λ c, c)) in Hnone. }
  destruct (table_map_insert fk_device (λ c, c) _ row Hc Hn) as [Hu Hmap].
  rewrite delete_id by done. assert (Hcs : scheduled_connections m = map_connections (tables db)) by (by rewrite Hm).
  rewrite Hcs. fold row. change id with (fk_device row) at 1. unfold map_connections. rewrite <- Hmap.
  by apply represents_connections.
Qed.

Lemma connections_of (t : Tables) m :
  represents t m → (map_to_list (scheduled_connections m)).*2 ≡ₚ t_connections t.
Proof.
  intros (Hwf & Hc & ->). simpl. unfold map_connections. rewrite (table_values fk_device (λ c, c)) by done.
  by rewrite list_fmap_id.
Qed.

Lemma get_connections_sim db m :
  represents (tables db) m → supported (λ id, has_node id (tables db)) m OpConnections → simulates OpConnections db m.
Proof.
  intros Hrep Hall. simpl in Hall. pose proof Hrep as (Hwf & Hc & Hm).
  eapply simulates_intro; [apply smap_ok; simpl; unfold pg_get_scheduled_connections; by rewrite query_up|by apply smap_ok| |done].
  cbn [same_answer]. rewrite map_row_id, sort_by_key_perm, pg_order_perm, hash_iter_perm, connections_of by done.
  unfold where_rows. rewrite filter_all; [done|]. intros c Hin.
  unfold is_awaiting. rewrite (Hall (fk_device c) c); [done|]. rewrite Hm. simpl.
  apply (table_map_Some fk_device (λ c, c)); [done|]. eauto.
Qed.

Lemma get_connection_sim id db m : represents (tables db) m → simulates (OpConnection id) db m.
Proof.
  intros Hrep. pose proof Hrep as (Hwf & Hc & Hm).
  pose proof (fetch_key fk_device (λ c, c) (t_connections (tables db)) id (statements db) Hc) as Hf.
  assert (Hb : scheduled_connections m = table_map fk_device (λ c, c) (t_connections (tables db))) by (by rewrite Hm).
  assert (Hrun : pg_get_scheduled_connection id db =
    (omap_err (λ e, QueryError (pg_message e))
       (fetch_one (pg_order (statements db) (where_rows (λ r, fk_device r =? id) (t_connections (tables db))))),
     mkPg (tables db) (S (statements db)))).
  { unfold pg_get_scheduled_connection. rewrite query_up. by rewrite map_row_id. }
  destruct (table_map fk_device (λ c, c) (t_connections (tables db)) !! id) as [v|] eqn:Hv.
  - destruct Hf as (r & Hf & _ & Hid & <-). rewrite Hf in Hrun. simpl in Hrun.
    eapply simulates_intro; [by apply smap_ok|apply smap_ok; simpl; unfold mem_get_scheduled_connection; by rewrite Hb, Hv|done|done].
  - rewrite Hf in Hrun. simpl in Hrun.
    eapply simulates_intro; [by apply smap_err|apply smap_err; simpl; unfold mem_get_scheduled_connection; by rewrite Hb, Hv|done|done].
Qed.

(** An update of the connection of one device. *)
Lemma update_connection_map id f v t m :
  represents t m → scheduled_connections m !! id = Some v → (∀ r, fk_device (f r) = fk_device r) →
  pg_wf (with_connections (update_where (conn_of id) f (t_connections t)) t) →
  represents (with_connections (update_where (conn_of id) f (t_connections t)) t)
    (set_connections (<[id := f v]> (scheduled_connections m)) m).
Proof.
  intros Hrep Hv Hf Hwf'. pose proof Hrep as (Hwf & Hc & Hm).
  destruct (table_map_update fk_device (λ c, c) (t_connections t) id (conn_of id) f f Hc ltac:(done)
    ltac:(intros r _ Hr; by rewrite Hf)) as [Hu Hmap].
  rewrite <- (alter_as_insert f _ _ _ Hv).
  assert (Hcs : scheduled_connections m = map_connections t) by (by rewrite Hm).
  rewrite Hcs. unfold map_connections. rewrite <- Hmap. by apply represents_connections.
Qed.

Lemma update_connection_sim c db m :
  represents (tables db) m → supported (λ id, has_node id (tables db)) m (OpUpdateConnection c) → simulates (OpUpdateConnection c) db m.
Proof.
  intros Hrep ([v Hv] & Ht & Hct & Hb). pose proof Hrep as (Hwf & Hc & Hm).
  set (f := λ r : ScheduledConnection, mkScheduledConnection (fk_device r) (schedule_time c) (connection_time c)
              (sc_status c) (job_id c) (renewable c) (last_battery_read c)).
  assert (Hrun : pg_update_scheduled_connection c db = (Ok tt, mkPg (with_connections
    (update_where (conn_of (fk_device c)) f (t_connections (tables db))) (tables db)) (S (statements db)))).
  { apply execute_up. by rewrite pg_whole, !pg_whole_opt. }
  eapply simulates_intro; [by apply smap_ok|by apply smap_ok|done|].
  assert (Hfv : f v = c).
  { assert (Hid : fk_device v = fk_device c).
    { rewrite Hm in Hv. simpl in Hv. apply (table_map_Some fk_device (λ c, c)) in Hv as (r & _ & Hr & <-); done. }
    unfold f. rewrite Hid. by destruct c. }
  pose proof (update_connection_map (fk_device c) f v (tables db) m Hrep Hv ltac:(done)) as Hr.
  rewrite Hfv in Hr. apply Hr. clear Hr.
  apply (connections_wf (λ t, update_where (conn_of (fk_device c)) f (t_connections t)) db) in Hwf.
  - by rewrite (execute_up _ _ _ eq_refl) in Hwf.
  - intros tb Htb. by rewrite update_same_keys.
Qed.

Lemma battery_sim id ts db m :
  represents (tables db) m → supported (λ id, has_node id (tables db)) m (OpBatteryRead id ts) → simulates (OpBatteryRead id ts) db m.
Proof.
  intros Hrep [[v Hv] Ht]. pose proof Hrep as (Hwf & Hc & Hm).
  assert (Hrun : pg_update_last_battery_read id ts db = (Ok tt, mkPg (with_connections
    (update_where (conn_of id) (set_battery_read ts) (t_connections (tables db))) (tables db)) (S (statements db)))).
  { apply execute_up. by rewrite pg_whole. }
  eapply simulates_intro; [by apply smap_ok|apply smap_ok; simpl; unfold mem_update_last_battery_read; by rewrite Hv|done|].
  apply update_connection_map; [done|done|done|].
  apply (connections_wf (λ t, update_where (conn_of id) (set_battery_read ts) (t_connections t)) db) in Hwf.
  - by rewrite (execute_up _ _ _ eq_refl) in Hwf.
  - intros tb Htb. by rewrite update_same_keys.
Qed.

(** Pages: the keys of a sorted list do not depend on the order of the rows sorted. *)
Lemma sort_keys {A} (key : A → Z) l1 l2 :
  l1 ≡ₚ l2 → key <$> sort_by_key key l1 = key <$> sort_by_key key l2.
Proof.
  intros Hp. apply (StronglySorted_unique Z.le).
  1, 2: match goal with |- StronglySorted _ (_ <$> sort_by_key _ ?l) =>
          pose proof (sort_by_key_sorted key l) as Hs end;
        induction Hs as [|x l Hs IH Hall]; simpl; constructor; [done|];
        apply Forall_fmap; exact Hall.
  by rewrite !sort_by_key_perm, Hp.
Qed.

Lemma fmap_page {A B} (f : A → B) limit offset l :
  f <$> take_usize limit (skip_usize offset l) = take_usize limit (skip_usize offset (f <$> l)).
Proof.
  assert (Hs : f <$> skip_usize offset l = skip_usize offset (f <$> l)).
  { unfold skip_usize. rewrite length_fmap. case_match; by rewrite ?fmap_drop. }
  rewrite <- Hs. unfold take_usize. rewrite length_fmap. case_match; by rewrite ?fmap_take.
Qed.

Lemma limit_offset_ok {A} limit offset (l : list A) :
  i64_nonneg limit → i64_nonneg offset →
  limit_offset limit offset l = Ok (take_usize limit (skip_usize offset l)).
Proof.
  intros [Hl _] [Ho _]. unfold limit_offset. apply Z.leb_le in Hl, Ho. by rewrite Hl, Ho.
Qed.

Lemma page_rows (p : ScheduledConnection → bool) (P : ScheduledConnection → Prop) `{∀ c, Decision (P c)} t m n :
  represents t m → (∀ c, p c = true ↔ P c) →
  pg_order n (where_rows p (t_connections t)) ≡ₚ filter P (hash_iter (scheduled_connections m)).*2.
Proof.
  intros Hrep Hp. rewrite pg_order_perm, hash_iter_perm, connections_of by done.
  unfold where_rows. by erewrite list_filter_iff.
Qed.

(** The rows of a page are distinct and stored. *)
Lemma page_stored op (p : ScheduledConnection → bool) key limit offset t m n :
  represents t m → (∀ c, page_row op c = p c) →
  let l := take_usize limit (skip_usize offset (sort_by_key key (pg_order n (where_rows p (t_connections t))))) in
  NoDup l ∧ ∀ c, c ∈ l → scheduled_connections m !! fk_device c = Some c ∧ page_row op c = true.
Proof.
  intros (_ & Hc & ->) Hp l. set (rows := sort_by_key key (pg_order n (where_rows p (t_connections t)))) in *.
  assert (Hperm : rows ≡ₚ where_rows p (t_connections t)) by (unfold rows; by rewrite sort_by_key_perm, pg_order_perm).
  assert (Hsub : sublist l rows).
  { unfold l, take_usize, skip_usize. etrans; [|instantiate (1 := skip_usize offset rows); unfold skip_usize; case_match; [apply sublist_nil_l|apply sublist_drop]].
    case_match; [done|apply sublist_take]. }
  split.
  - eapply sublist_NoDup; [|exact Hsub]. rewrite Hperm. apply NoDup_filter. eapply NoDup_fmap_1, Hc.
  - intros c Hin. apply (elem_of_sublist _ _ _ Hin) in Hsub. rewrite Hperm in Hsub.
    apply list_elem_of_filter in Hsub as [Hpc Hin']. split; [|by rewrite Hp]. simpl.
    apply (table_map_Some fk_device (λ c, c)); [done|]. eauto.
Qed.

Lemma upcoming_sim limit offset dev db m :
  represents (tables db) m → supported (λ id, has_node id (tables db)) m (OpUpcoming limit offset dev) →
  simulates (OpUpcoming limit offset dev) db m.
Proof.
  intros Hrep [Hl Ho].
  eapply simulates_intro; [apply smap_ok; simpl; unfold pg_get_upcoming_connections; by rewrite query_up, limit_offset_ok
    |by apply smap_ok| |done].
  cbn [same_answer obind omap_err]. rewrite map_row_id. split; [|by apply page_stored].
  rewrite !fmap_page. do 2 f_equal. apply sort_keys, page_rows; [done|]. intros c. apply andb_true_iff.
Qed.

Lemma history_sim limit offset dev db m :
  represents (tables db) m → supported (λ id, has_node id (tables db)) m (OpHistory limit offset dev) →
  simulates (OpHistory limit offset dev) db m.
Proof.
  intros Hrep [Hl Ho].
  eapply simulates_intro; [apply smap_ok; simpl; unfold pg_get_connection_history; by rewrite query_up, limit_offset_ok
    |by apply smap_ok| |done].
  cbn [same_answer obind omap_err]. rewrite map_row_id. split; [|by apply page_stored]. rewrite !fmap_page. do 2 f_equal.
  assert (Hneg : ∀ l : list ScheduledConnection, schedule_time <$> l = Z.opp <$> ((λ c, - schedule_time c) <$> l)).
  { intros l. rewrite <- list_fmap_compose. apply list_fmap_ext. intros. simpl. lia. }
  rewrite !Hneg. f_equal. apply sort_keys, page_rows; [done|]. intros c. apply andb_true_iff.
Qed.

(** One operation on the data. *)
Lemma op_sim op db m :
  is_node_op op = false → represents (tables db) m → supported (λ id, has_node id (tables db)) m op → simulates op db m.
Proof.
  intros Hop Hrep Hs.
  destruct op; first [discriminate Hop | eauto using add_device_sim, modify_device_sim, get_device_sim,
    register_device_sim, registration_timeout_sim, get_registration_sim, update_registration_sim,
    least_loaded_sim, assign_sim, get_bucket_sim, owned_sim, set_owner_sim, device_ids_sim, schedule_sim,
    get_connections_sim, get_connection_sim, update_connection_sim, battery_sim, upcoming_sim, history_sim].
Qed.

(** It leaves the table of nodes alone. *)
Lemma execute_nodes f db :
  (∀ t', f (statements db) (tables db) = Ok t' → t_nodes t' = t_nodes (tables db)) →
  t_nodes (tables (execute f db).2) = t_nodes (tables db).
Proof. intros Hf. apply (execute_keeps (λ t, t_nodes t = t_nodes (tables db))); [|done]. intros t' Ht' _. by apply Hf. Qed.

Lemma data_nodes op db : is_node_op op = false → t_nodes (tables (run_query op db).2) = t_nodes (tables db).
Proof.
  assert (Hq : ∀ A (f : nat → Tables → outcome PgError A) d, t_nodes (tables (query f d).2) = t_nodes (tables d))
    by (intros; by apply (query_keeps (λ t, t_nodes t = t_nodes (tables d)))).
  assert (He : ∀ f d, (∀ n t t', f n t = Ok t' → t_nodes t' = t_nodes t) → t_nodes (tables (execute f d).2) = t_nodes (tables d))
    by (intros f d Hf; apply execute_nodes; intros t' Ht'; by eapply Hf).
  assert (Hb : ∀ A B (m : SE PostgresDB DatabaseError A) (k : A → SE PostgresDB DatabaseError B) d,
    (∀ d, t_nodes (tables (m d).2) = t_nodes (tables d)) → (∀ a d, t_nodes (tables (k a d).2) = t_nodes (tables d)) →
    t_nodes (tables (sbind m k d).2) = t_nodes (tables d)).
  { intros A B mm k d H1' H2'. unfold sbind. specialize (H1' d). destruct (mm d) as [[a|e|] d']; simpl in *; [by rewrite H2'|done..]. }
  destruct op; try done; intros _; cbn [run_query]; rewrite smap_state; simpl; try apply Hq;
    unfold pg_add_device, pg_get_device, pg_modify_device, pg_register_device, pg_registration_timeout,
      pg_update_device_registration, pg_bucket_with_less_devices, pg_add_device_to_bucket, pg_set_device_owner,
      pg_schedule_connection, pg_update_scheduled_connection, pg_update_last_battery_read, registration_delete,
      registration_insert, bucket_delete, bucket_insert, registration_update;
    repeat first [apply Hb; intros | apply Hq | apply He; intros ? ? ? ? | case_match; try done].
  all: repeat match goal with
              | Hx : obind _ _ = Ok _ |- _ => apply obind_Ok in Hx as (? & _ & Hx)
              | Hx : (if ?b then _ else _) = Ok _ |- _ => destruct b; [|done]
              | Hx : Ok _ = Ok _ |- _ => injection Hx as <-
              end; done.
Qed.

(** ** The directory of nodes *)
(** An update of the row of one node that keeps its key. *)
Lemma update_node_sim id f g db s :
  represents_store (tables db) s → (∀ r, n_id (f r) = n_id r ∧ node_entry (f r) = g (node_entry r)) →
  pg_wf (with_nodes (update_where (λ r, n_id r =? id) f (t_nodes (tables db))) (tables db)) →
  represents_store (with_nodes (update_where (λ r, n_id r =? id) f (t_nodes (tables db))) (tables db))
    (mkStore (st_data s) (alter g id (st_nodes s))).
Proof.
  intros [Hrep Hn] Hf Hwf'. pose proof Hrep as (Hwf & _). split; [by apply represents_nodes|]. cbn [st_nodes t_nodes with_nodes].
  rewrite (proj2 (table_map_update n_id node_entry (t_nodes (tables db)) id (λ r, n_id r =? id) f g (wf_nodes _ Hwf)
    ltac:(done) ltac:(intros r _ <-; apply Hf))). by rewrite Hn.
Qed.

Lemma register_node_sim id name ip cp bp db s :
  represents_store (tables db) s → supported (known s) (st_data s) (OpRegisterNode id name ip cp bp) →
  simulates_store (OpRegisterNode id name ip cp bp) db s.
Proof.
  intros Hs [Hname Hip]. pose proof Hs as [Hrep Hn]. pose proof Hrep as (Hwf & _). unfold simulates_store. cbn [run_query store_query fst snd].
  pose proof (register_cluster_node_wf id name ip cp bp db Hwf) as Hwf'.
  rewrite smap_state. unfold smap, sbind, sret. simpl in *. unfold pg_register_cluster_node, execute in *. rewrite statement_up in *.
  rewrite Hname, Hip in *. cbn [obind] in *. destruct (has_node id (tables db)) eqn:Hhas; cbn [fst snd omap_err tables] in Hwf' |- *; (split; [done|]).
  - apply has_node_elem in Hhas. destruct (st_nodes s !! id) as [e|] eqn:He.
    2: { rewrite Hn in He. by apply (table_map_None n_id node_entry) in He. }
    cbn [from_option]. rewrite <- (alter_as_insert (λ e, mkNodeEntry (ne_name e) ip cp bp status_active) _ _ _ He).
    by apply update_node_sim.
  - split; [by apply represents_nodes|]. cbn [st_nodes t_nodes with_nodes].
    assert (Hnot : id ∉ n_id <$> t_nodes (tables db)) by (rewrite <- has_node_elem; by rewrite Hhas).
    assert (Hnone : st_nodes s !! id = None) by (rewrite Hn; by apply table_map_None). rewrite Hnone.
    rewrite (proj2 (table_map_insert n_id node_entry _ (mkNodeRow id name ip cp bp status_active _ _) (wf_nodes _ Hwf) Hnot)).
    by rewrite Hn.
Qed.

Lemma node_status_sim id st db s :
  represents_store (tables db) s → supported (known s) (st_data s) (OpNodeStatus id st) → simulates_store (OpNodeStatus id st) db s.
Proof.
  intros Hrep Hst. pose proof Hrep as [(Hwf & _) _]. simpl in Hst. unfold simulates_store. cbn [run_query store_query fst snd].
  pose proof (update_cluster_node_status_wf id st db Hwf) as Hwf'.
  rewrite smap_state. unfold smap, sbind, sret. simpl in *. unfold pg_update_cluster_node_status, execute in *. rewrite statement_up in *.
  rewrite Hst in *. cbn [fst snd omap_err tables] in Hwf' |- *. split; [done|]. by apply update_node_sim.
Qed.

Lemma node_seen_sim id db s : represents_store (tables db) s → simulates_store (OpNodeSeen id) db s.
Proof.
  intros Hrep. pose proof Hrep as [(Hwf & _) _]. unfold simulates_store. cbn [run_query store_query fst snd].
  pose proof (update_cluster_node_last_seen_wf id db Hwf) as Hwf'.
  rewrite smap_state. unfold smap, sbind, sret. simpl in *. unfold pg_update_cluster_node_last_seen, execute in *. rewrite statement_up in *.
  cbn [fst snd omap_err tables] in Hwf' |- *. split; [done|].
  assert (Ha : alter (λ e, e) id (st_nodes s) = st_nodes s) by (by apply alter_id).
  replace s with (mkStore (st_data s) (alter (λ e, e) id (st_nodes s))) by (rewrite Ha; by destruct s).
  by apply update_node_sim.
Qed.

Lemma order_by_name_perm l : order_by_name l ≡ₚ l.
Proof.
  induction l as [|r l IH]; [done|]. cbn [order_by_name foldr]. fold (order_by_name l). rewrite <- IH at 2. generalize (order_by_name l) as k.
  induction k as [|r' k IHk]; [done|]. cbn [insert_name]. case_match; [done|]. rewrite IHk. apply Permutation_swap.
Qed.

Lemma active_nodes_sim db s : represents_store (tables db) s → simulates_store OpActiveNodes db s.
Proof.
  intros [Hrep Hn]. pose proof Hrep as (Hwf & _). unfold simulates_store. cbn [run_query store_query fst snd].
  rewrite smap_state. unfold smap, sbind, sret. simpl. unfold pg_get_active_cluster_nodes. rewrite query_up. cbn [omap_err fst snd tables].
  split; [|by split]. cbn [same_answer]. rewrite order_by_name_perm, pg_order_perm, Hn.
  rewrite (table_entries n_id node_entry) by apply Hwf. unfold where_rows.
  clear Hn. induction (t_nodes (tables db)) as [|r l IH]; [done|]. rewrite fmap_cons, !filter_cons. unfold active at 1.
  destruct (decide (n_status r = status_active ∨ n_status r = status_starting)) as [Ha|Ha].
  - rewrite decide_True by (by apply bool_decide_eq_true). rewrite decide_True by done. rewrite !fmap_cons. apply perm_skip. exact IH.
  - rewrite decide_False by (by rewrite bool_decide_eq_true). rewrite decide_False by done. exact IH.
Qed.

(** One operation. *)
Lemma store_sim op db s :
  represents_store (tables db) s → supported (known s) (st_data s) op → simulates_store op db s.
Proof.
  intros Hrep Hs. destruct (is_node_op op) eqn:Hop.
  - destruct op; try done; eauto using register_node_sim, active_nodes_sim, node_status_sim, node_seen_sim.
  - destruct Hrep as [Hdata Hn].
    assert (Hs' : supported (λ id, has_node id (tables db)) (st_data s) op).
    { assert (Hknown : ∀ id, known s id = true → has_node id (tables db) = true).
      { intros id [e He]%bool_decide_eq_true. apply has_node_elem. rewrite Hn in He. apply dec_stable. intros Hno.
        apply (table_map_None n_id node_entry) in Hno. congruence. }
      destruct op; try done; simpl in Hs |- *; [destruct Hs; auto|auto]. }
    destruct (op_sim op db (st_data s) Hop Hdata Hs') as [Hans Hrep'].
    unfold simulates_store. rewrite store_query_data by done. split; [done|]. split; [done|]. by rewrite data_nodes.
Qed.
End Refinement.

(** ** Sequences *)
Fixpoint store_queries `{HashOrder} (ops : list Op) (s : Store) : list (outcome DatabaseError Answer) * Store :=
  match ops with
  | [] => ([], s)
  | op :: ops' =>
      let (r, s1) := store_query op s in
      let (rs, s2) := store_queries ops' s1 in (r :: rs, s2)
  end.

Fixpoint supported_run `{HashOrder} (ops : list Op) (s : Store) : Prop :=
  match ops with
  | [] => True
  | op :: ops' => supported (known s) (st_data s) op ∧ supported_run ops' (store_query op s).2
  end.

(** [s] is the store the answers of the second list start from. *)
Fixpoint same_answers `{PgServer} `{HashOrder} (ops : list Op) (s : Store) (l1 l2 : list (outcome DatabaseError Answer)) : Prop :=
  match ops, l1, l2 with
  | [], [], [] => True
  | op :: ops', r1 :: l1', r2 :: l2' => same_answer (st_data s) op r1 r2 ∧ same_answers ops' (store_query op s).2 l1' l2'
  | _, _, _ => False
  end.

Lemma run_queries_sim `{PgServer} `{HashOrder} (ops : list Op) (db : PostgresDB) (s : Store) :
  (∀ n, pg_link n = Answered) → represents_store (tables db) s → supported_run ops s →
  same_answers ops s (run_queries ops db).1 (store_queries ops s).1 ∧
  represents_store (tables (run_queries ops db).2) (store_queries ops s).2.
Proof.
  intros Hlink. revert db s. induction ops as [|op ops IH]; intros db s Hrep Hsup; [done|].
  destruct Hsup as [Hop Hrest]. destruct (store_sim Hlink op db s Hrep Hop) as [Hs Hrep1].
  cbn [run_queries store_queries same_answers]. destruct (run_query op db) as [r1 db1]. destruct (store_query op s) as [r2 s1].
  specialize (IH db1 s1 Hrep1 Hrest). destruct (run_queries ops db1), (store_queries ops s1). cbn [fst snd] in *. by destruct IH.
Qed.


(** Without operations on nodes the store is the in-memory engine. *)
Lemma store_queries_memory `{HashOrder} ops s :
  Forall (λ op, is_node_op op = false) ops → (store_queries ops s).1 = (run_queries ops (st_data s)).1.
Proof.
  intros Hops. revert s. induction Hops as [|op ops Hop _ IH]; intros s; [done|]. cbn [store_queries run_queries].
  rewrite store_query_data by done. destruct (run_query op (st_data s)) as [r m]. specialize (IH (mkStore m (st_nodes s))). cbn [fst snd st_data st_nodes] in *.
  destruct (store_queries ops _), (run_queries ops m). simpl in *. by rewrite IH.
Qed.

(** ** A run *)
Definition clinic_data : list Op :=
  [OpAddDevice meter_row; OpRegister 77 5000; OpLeastLoaded 4; OpAssign 77 0 1; OpUpdateRegistration 77 (Some Registered) None;
   OpSchedule 77 9000 500; OpConnection 77; OpBatteryRead 77 9000; OpOwned 1; OpSetOwner 77 2; OpOwned 1; OpOwned 2;
   OpUpcoming 10 0 None; OpBucket 78; OpDeviceIds].
(** A third node joins, the first one leaves, and the device goes to the new one. *)
Definition clinic : list Op :=
  clinic_data ++ [OpRegisterNode 3 (str "east") (str "10.0.0.3") 6570 6565; OpNodeStatus 1 (str "left"); OpNodeSeen 2;
                  OpActiveNodes; OpSetOwner 77 3; OpOwned 3].
Definition two_nodes_db : PostgresDB := mkPg (mkTables two_nodes [] [] [] []) 0.
Definition two_nodes_store : Store := mkStore empty_db (table_map n_id node_entry two_nodes).

Lemma two_nodes_empty : represents_store (tables two_nodes_db) two_nodes_store.
Proof.
  split; [|reflexivity]. split; [|split; [constructor|reflexivity]].
  constructor; simpl; try done; try (apply (bool_decide_unpack _); vm_compute; exact I).
Qed.
Lemma clinic_supported : @supported_run tree_order clinic two_nodes_store.
Proof.
  unfold clinic, clinic_data. cbn [supported_run app].
  repeat split; vm_compute; first [exact I | reflexivity | discriminate | eexists; reflexivity].
Qed.

