(* ===== verification/Calendar.v ===== *)
(** * Dates and times of the [chrono] crate

    What the scheduler uses of the third-party [chrono] crate: the civil date
    of a day, the checked constructors of dates and times. [ChronoCrate]
    states their documented behaviour; [gregorian] is a concrete calendar. *)

From S2P Require Import Prelude Bytes Net Float32 Node.

Local Open Scope Z_scope.

Definition secs_per_day : Z := 24 * 60 * 60.
Definition ns_per_day : Z := secs_per_day * ns_per_s.

(** Days are counted from 1970-01-01; the laws cover the days [chrono] can represent
    from then on (its years end at 262142). *)
Definition day_ok (d : Z) : Prop := 0 <= d < 90000000.

Class ChronoCrate := {
  (** [(year, month, day)] of a day. *)
  civil : Z → Z * Z * Z;
  (** [NaiveDate::from_ymd_opt]. *)
  from_ymd_opt : Z → Z → Z → option Z;
  (** [NaiveTime::from_hms_opt], in seconds of the day. *)
  from_hms_opt : Z → Z → Z → option Z;
  (** [DateTime::from_timestamp(secs, nanos)], as an instant. *)
  from_timestamp : Z → Z → option Z;
  civil_range d : day_ok d → match civil d with (y, m, dd) => 0 <= y < 2 ^ 31 ∧ 1 <= m <= 12 ∧ 1 <= dd <= 31 end;
  from_ymd_civil d : day_ok d → match civil d with (y, m, dd) => from_ymd_opt y m dd = Some d end;
  from_hms_valid h m s :
    0 <= h < 24 → 0 <= m < 60 → 0 <= s < 60 → from_hms_opt h m s = Some (h * 3600 + m * 60 + s);
  from_hms_invalid h m s :
    (24 <= h ∨ 60 <= m ∨ 60 <= s) → from_hms_opt h m s = None;
  from_timestamp_ok s n : day_ok (s / secs_per_day) → 0 <= n < ns_per_s → from_timestamp s n = Some (s * ns_per_s + n)
}.

(** Day, and hour of the day, of an instant. *)
Definition day_of (t : Z) : Z := t / ns_per_day.
Definition hour_of (t : Z) : Z := (t mod ns_per_day) / (3600 * ns_per_s).

(** ** The proleptic Gregorian calendar *)
Module gregorian.

Definition civil_from_days (z : Z) : Z * Z * Z :=
  let z := z + 719468 in
  let era := z / 146097 in
  let doe := z mod 146097 in
  let yoe := (doe - doe / 1460 + doe / 36524 - doe / 146096) / 365 in
  let doy := doe - (365 * yoe + yoe / 4 - yoe / 100) in
  let mp := (5 * doy + 2) / 153 in
  let d := doy - (153 * mp + 2) / 5 + 1 in
  let m := if mp <? 10 then mp + 3 else mp - 9 in
  (yoe + era * 400 + (if m <=? 2 then 1 else 0), m, d).

Definition days_from_civil (y m d : Z) : Z :=
  let y := y - (if m <=? 2 then 1 else 0) in
  let era := y / 400 in
  let yoe := y mod 400 in
  let doy := (153 * (if 2 <? m then m - 3 else m + 9) + 2) / 5 + d - 1 in
  let doe := yoe * 365 + yoe / 4 - yoe / 100 + doy in
  era * 146097 + doe - 719468.

Definition ymd_opt (y m d : Z) : option Z :=
  let z := days_from_civil y m d in
  if decide (civil_from_days z = (y, m, d)) then Some z else None.

Definition hms_opt (h m s : Z) : option Z :=
  if (h <? 24) && (m <? 60) && (s <? 60) then Some (h * 3600 + m * 60 + s) else None.

(** *** One 400-year era: day of the era to year of the era *)
Definition year_of_era (doe : Z) : Z := (doe - doe / 1460 + doe / 36524 - doe / 146096) / 365.

(** Days of the era before its year [y]. *)
Definition days_before (y : Z) : Z := 365 * y + y / 4 - y / 100.

Definition year_ok (y : nat) : bool :=
  let y := Z.of_nat y in
  let last := if y =? 399 then 146096 else days_before (y + 1) - 1 in
  (year_of_era (days_before y) =? y) && (year_of_era last =? y)
  && (days_before y <=? last) && (last <=? days_before y + 365).

Lemma years_ok : forallb year_ok (seq 0 400) = true.
Proof. eval_done. Qed.

Lemma year_of_era_mono d1 d2 : 0 <= d1 <= d2 → year_of_era d1 <= year_of_era d2.
Proof.
  intros Hd. unfold year_of_era. apply Z.div_le_mono; [lia|].
  pose proof (Z.div_mod d1 36524 ltac:(lia)). pose proof (Z.mod_pos_bound d1 36524 ltac:(lia)).
  pose proof (Z.div_mod d2 36524 ltac:(lia)). pose proof (Z.mod_pos_bound d2 36524 ltac:(lia)).
  replace 146096 with (36524 * 4) by lia. rewrite <- !Z.div_div by lia.
  set (q1 := d1 / 36524) in *. set (q2 := d2 / 36524) in *.
  assert (q1 - q1 / 4 <= q2 - q2 / 4) by (assert (q1 <= q2) by nia; Z.to_euclidean_division_equations; lia).
  assert (d1 - d1 / 1460 <= d2 - d2 / 1460) by (Z.to_euclidean_division_equations; lia).
  lia.
Qed.

(** Every day of the era is within the year that [year_of_era] gives. *)
Lemma year_of_era_spec doe :
  0 <= doe < 146097 →
  0 <= year_of_era doe < 400 ∧ 0 <= doe - days_before (year_of_era doe) <= 365.
Proof.
  intros Hd.
  assert (Hy : ∀ y, 0 <= y < 400 → year_ok (Z.to_nat y) = true).
  { intros y Hy. pose proof years_ok as Ha. rewrite forallb_forall in Ha. apply Ha, in_seq. lia. }
  assert (Hr : 0 <= year_of_era doe < 400).
  { split.
    - change 0 with (year_of_era 0). apply year_of_era_mono. lia.
    - enough (year_of_era doe <= 399) by lia. change 399 with (year_of_era 146096). apply year_of_era_mono. lia. }
  split; [done|]. set (y := year_of_era doe) in *.
  pose proof (Hy y Hr) as Hok. unfold year_ok in Hok. rewrite Z2Nat.id in Hok by lia.
  rewrite !andb_true_iff, !Z.leb_le, !Z.eqb_eq in Hok.
  destruct Hok as (((Hf & Hl) & Hle) & Hlast).
  split.
  - destruct (decide (days_before y <= doe)) as [|Hlt]; [lia|]. exfalso.
    assert (0 < y) by (destruct (decide (y = 0)) as [Hz|]; [rewrite Hz in Hlt; change (days_before 0) with 0 in Hlt; lia|lia]).
    pose proof (Hy (y - 1) ltac:(lia)) as Hp. unfold year_ok in Hp. rewrite Z2Nat.id in Hp by lia.
    replace (y - 1 + 1) with y in Hp by lia. destruct (Z.eqb_spec (y - 1) 399); [lia|].
    rewrite !andb_true_iff, !Z.leb_le, !Z.eqb_eq in Hp.
    pose proof (year_of_era_mono doe (days_before y - 1)). lia.
  - destruct (Z.eqb_spec y 399); [lia|].
    destruct (decide (doe <= days_before (y + 1) - 1)); [lia|].
    pose proof (Hy (y + 1) ltac:(lia)) as Hp. unfold year_ok in Hp. rewrite Z2Nat.id in Hp by lia.
    rewrite !andb_true_iff, !Z.leb_le, !Z.eqb_eq in Hp.
    assert (days_before y <= days_before (y + 1)) by lia.
    pose proof (year_of_era_mono (days_before (y + 1)) doe) as Hm.
    unfold days_before in Hm at 1. unfold days_before in *.
    pose proof (Z.div_pos (y + 1) 4). pose proof (Z.div_le_mono (y+1) (y+1) 4).
    assert (0 <= 365 * (y + 1) + (y + 1) / 4 - (y + 1) / 100) by (Z.to_euclidean_division_equations; lia).
    lia.
Qed.

(** *** Day of the year to month and day *)
Definition doy_ok (doy : nat) : bool :=
  let doy := Z.of_nat doy in
  let mp := (5 * doy + 2) / 153 in
  let d := doy - (153 * mp + 2) / 5 + 1 in
  let m := if mp <? 10 then mp + 3 else mp - 9 in
  (1 <=? m) && (m <=? 12) && (1 <=? d) && (d <=? 31)
  && ((153 * (if 2 <? m then m - 3 else m + 9) + 2) / 5 + d - 1 =? doy).

Lemma doys_ok : forallb doy_ok (seq 0 366) = true.
Proof. eval_done. Qed.

Lemma doy_spec doy : 0 <= doy <= 365 → doy_ok (Z.to_nat doy) = true.
Proof.
  intros Hd. pose proof doys_ok as Ha. rewrite forallb_forall in Ha. apply Ha, in_seq. lia.
Qed.

Lemma civil_spec z :
  match civil_from_days z with
  | (y, m, d) => 1 <= m <= 12 ∧ 1 <= d <= 31 ∧ days_from_civil y m d = z ∧
      (z + 719468) / 146097 * 400 <= y <= (z + 719468) / 146097 * 400 + 400
  end.
Proof.
  unfold civil_from_days. set (era := (z + 719468) / 146097). set (doe := (z + 719468) mod 146097).
  destruct (year_of_era_spec doe ltac:(apply Z.mod_pos_bound; lia)) as [Hyoe Hdoy].
  fold (year_of_era doe). set (yoe := year_of_era doe) in *. fold (days_before yoe).
  pose proof (doy_spec _ Hdoy) as Hd. unfold doy_ok in Hd. rewrite Z2Nat.id in Hd by lia.
  set (doy := doe - days_before yoe) in *.
  set (mp := (5 * doy + 2) / 153) in *.
  set (m := if mp <? 10 then mp + 3 else mp - 9) in *.
  set (d := doy - (153 * mp + 2) / 5 + 1) in *.
  rewrite !andb_true_iff, !Z.leb_le, Z.eqb_eq in Hd.
  destruct Hd as ((((Hm0 & Hm1) & Hd0) & Hd1) & Hmd).
  assert (Hdoe : yoe * 365 + yoe / 4 - yoe / 100
     + ((153 * (if 2 <? m then m - 3 else m + 9) + 2) / 5 + d - 1) = doe).
  { rewrite Hmd. unfold doy, days_before. lia. }
  split; [done|]. split; [done|]. split; [|destruct (m <=? 2); lia].
  unfold days_from_civil.
  replace (yoe + era * 400 + (if m <=? 2 then 1 else 0) - (if m <=? 2 then 1 else 0))
    with (yoe + era * 400) by lia.
  rewrite Z.div_add, Z.div_small, Z.mod_add, Z.mod_small by lia.
  cbn zeta. rewrite Hdoe. pose proof (Z.div_mod (z + 719468) 146097 ltac:(lia)). lia.
Qed.

#[export] Program Instance gregorian : ChronoCrate := {|
  civil := civil_from_days;
  from_ymd_opt := ymd_opt;
  from_hms_opt := hms_opt;
  from_timestamp := λ s n, Some (s * ns_per_s + n)
|}.
Next Obligation.
  intros z Hz. pose proof (civil_spec z) as Hs.
  destruct (civil_from_days z) as [[y m] d]. destruct Hs as (Hm & Hd & _ & Hy). unfold day_ok in Hz.
  split; [|done].
  pose proof (Z.div_pos (z + 719468) 146097 ltac:(lia) ltac:(lia)).
  pose proof (Z.div_le_mono (z + 719468) 91000000 146097 ltac:(lia) ltac:(lia)).
  change (91000000 / 146097) with 622 in *. lia.
Qed.
Next Obligation.
  intros z Hz. pose proof (civil_spec z) as Hs.
  destruct (civil_from_days z) as [[y m] d] eqn:Hc. destruct Hs as (_ & _ & Hdays & _).
  unfold ymd_opt. rewrite Hdays, Hc. by rewrite decide_True.
Qed.
Next Obligation.
  intros h m s Hh Hm Hs. unfold hms_opt.
  destruct (Z.ltb_spec h 24), (Z.ltb_spec m 60), (Z.ltb_spec s 60); (done || lia).
Qed.
Next Obligation.
  intros h m s Hv. unfold hms_opt.
  destruct (Z.ltb_spec h 24), (Z.ltb_spec m 60), (Z.ltb_spec s 60); (done || lia).
Qed.
Next Obligation. done. Qed.
End gregorian.
