(* ===== verification/Scheduler.v ===== *)
(** * The scheduler

    Model of [src/scheduler/scheduler.rs] and [src/scheduler/schedule.rs]: the
    time-bucket algorithm, the wake-up jobs and their bookkeeping in the
    database. The job scheduler ([tokio-cron-scheduler]) is the class
    [JobCrate], [chrono] the class [ChronoCrate]; the clock readings
    ([Utc::now()]) are arguments. Instants are nanoseconds since 1970. *)

From S2P Require Import Prelude Bytes Net Float32 Node Database Calendar.

Local Open Scope Z_scope.
Local Open Scope hes_scope.

(** ** Jobs

    What [create_wakeup_job] hands to the job scheduler: the instant that is
    formatted into the cron expression, the device the closure captures and
    whether it captured a reschedule channel. *)
Record WakeupJob := mkJob {
  wj_time : Z;
  wj_device : Uuid;
  wj_tx : bool
}.

(** The job scheduler: [add] (with [Job::new_async_tz]) answers the new job's
    identifier or fails, [remove] succeeds or fails. *)
Class JobCrate (JS : Type) := {
  js_new : JS;
  js_jobs : JS → gmap Z WakeupJob;
  js_add : WakeupJob → JS → option Uuid * JS;
  js_remove : Uuid → JS → bool * JS;
  js_new_jobs : js_jobs js_new = ∅;
  js_add_ok j s id s' : js_add j s = (Some id, s') →
    js_jobs s !! id = None ∧ js_jobs s' = <[id := j]> (js_jobs s);
  js_add_fail j s s' : js_add j s = (None, s') → js_jobs s' = js_jobs s;
  js_remove_ok id s s' : js_remove id s = (true, s') → js_jobs s' = delete id (js_jobs s);
  js_remove_fail id s s' : js_remove id s = (false, s') → js_jobs s' = js_jobs s
}.

(** A concrete job scheduler: identifiers are fresh, every call succeeds. *)
Record JobTable := mkJobTable { jt_jobs : gmap Z WakeupJob }.

#[export] Program Instance job_table : JobCrate JobTable := {|
  js_new := mkJobTable ∅;
  js_jobs := jt_jobs;
  js_add := λ j s, let id := fresh (dom (jt_jobs s)) in (Some id, mkJobTable (<[id := j]> (jt_jobs s)));
  js_remove := λ id s, (true, mkJobTable (delete id (jt_jobs s)))
|}.
Next Obligation. done. Qed.
Next Obligation.
  intros j s id s' [= <- <-]. split; [|done]. apply not_elem_of_dom, is_fresh.
Qed.
Next Obligation. done. Qed.
Next Obligation. by intros id s s' [= <-]. Qed.
Next Obligation. done. Qed.

(** ** The schedule of a bucket *)
Record Schedule := mkSchedule {
  sch_sec : Z; sch_min : Z; sch_hour : Z; sch_day : Z; sch_mon : Z; sch_year : Z
}.

Definition slash : list Z := str "/".

(** [NaiveDateTime::try_from(&Schedule)]; the casts are [as i32] and [as u32]. *)
Definition schedule_to_datetime `{ChronoCrate} (s : Schedule) : outcome (list Z) Z :=
  let! date := ok_or (from_ymd_opt (wrap_i32 (sch_year s)) (wrap_u32 (sch_mon s)) (wrap_u32 (sch_day s)))
    (str "invalid date: " ++ dec (sch_day s) ++ slash ++ dec (sch_mon s) ++ slash ++ dec (sch_year s)) in
  let! time := ok_or (from_hms_opt (wrap_u32 (sch_hour s)) (wrap_u32 (sch_min s)) (wrap_u32 (sch_sec s)))
    (str "invalid time: " ++ dec (sch_hour s) ++ str ":" ++ dec (sch_min s) ++ str ":" ++ dec (sch_sec s)) in
  Ok (date * ns_per_day + time * ns_per_s).

Definition date_as_usize `{ChronoCrate} (t : Z) : Z * Z * Z :=
  match civil (day_of t) with (y, m, d) => (d, m, wrap_u64 y) end.

(** [get_date_from_hour]: [(day, month, year)]. *)
Definition get_date_from_hour `{ChronoCrate} (now hour : Z) : Z * Z * Z :=
  let tomorrow := now + ns_per_day in
  if hour_of now + 1 <? hour then date_as_usize now else date_as_usize tomorrow.

(** [(seconds, minutes, hours)] of a bucket; division by zero panics, the product wraps. *)
Definition get_time_from_bucket_number (buckets_i32 bucket : Z) : outcome SchedulerError (Z * Z * Z) :=
  let total_buckets := wrap_u64 buckets_i32 in
  if total_buckets =? 0 then Panic
  else
    let secs_per_bucket := secs_per_day / total_buckets in
    let slot_in_secs := wrap_u64 (secs_per_bucket * bucket) in
    Ok (slot_in_secs mod 3600 mod 60, slot_in_secs mod 3600 / 60, slot_in_secs / 3600).

Definition get_next_schedule `{ChronoCrate} (now buckets_i32 bucket : Z) : outcome SchedulerError Schedule :=
  let! (sec, min, hour) := get_time_from_bucket_number buckets_i32 bucket in
  let '(day, mon, year) := get_date_from_hour now hour in
  Ok (mkSchedule sec min hour day mon year).

Definition TEST_MODE_WAKEUP_SECS : Z := 150.

(** ** The scheduler's state and operations *)
Section scheduler.
Context `{ChronoCrate} {JS DB : Type} `{JobCrate JS} `{Engine DB}.

(** [reschedule_tx] records whether the sender is set; [active_tasks] is the
    shared table of running wake-up tasks. *)
Record Scheduler := mkScheduler {
  bucket_number : Z;
  job_scheduler : JS;
  sch_owned : option (gset Z);
  sch_local_node_id : Uuid;
  reschedule_tx : bool;
  test_mode : bool;
  active_tasks : gset Z
}.

Definition set_job_scheduler (js : JS) (s : Scheduler) : Scheduler :=
  mkScheduler (bucket_number s) js (sch_owned s) (sch_local_node_id s) (reschedule_tx s)
    (test_mode s) (active_tasks s).
Definition set_sch_owned (o : option (gset Z)) (s : Scheduler) : Scheduler :=
  mkScheduler (bucket_number s) (job_scheduler s) o (sch_local_node_id s) (reschedule_tx s)
    (test_mode s) (active_tasks s).
Definition set_reschedule_sender (s : Scheduler) : Scheduler :=
  mkScheduler (bucket_number s) (job_scheduler s) (sch_owned s) (sch_local_node_id s) true
    (test_mode s) (active_tasks s).
Definition set_active_tasks (a : gset Z) (s : Scheduler) : Scheduler :=
  mkScheduler (bucket_number s) (job_scheduler s) (sch_owned s) (sch_local_node_id s) (reschedule_tx s)
    (test_mode s) a.

(** [Scheduler::new(bucket_number: usize, ..)]. *)
Definition scheduler_new (bucket_number : Z) (local_node_id : Uuid) (test_mode : bool) : Scheduler :=
  mkScheduler (wrap_i32 bucket_number) js_new None local_node_id false test_mode ∅.

(** The scheduler with the database it holds a handle of. *)
Record SchedState := mkSchedState { ss_sched : Scheduler; ss_db : DB }.

Definition set_ss_sched (s : Scheduler) (st : SchedState) : SchedState := mkSchedState s (ss_db st).
Definition set_ss_db (d : DB) (st : SchedState) : SchedState := mkSchedState (ss_sched st) d.

(** [self.database.<op>.await?]. *)
Definition in_db {A} (m : SE DB DatabaseError A) : SE SchedState SchedulerError A :=
  szoom ss_db set_ss_db SchedDatabaseError m.

Definition next_wakeup (now bucket : Z) : SE SchedState SchedulerError Z := λ st,
  if test_mode (ss_sched st) then (Ok (now + TEST_MODE_WAKEUP_SECS * ns_per_s), st)
  else
    (let! schedule := get_next_schedule now (bucket_number (ss_sched st)) bucket in
     omap_err ParseError (schedule_to_datetime schedule), st).

(** [.unwrap_or(0) as usize]. *)
Definition scheduler_get_bucket_number : SE SchedState SchedulerError Z :=
  do! total <- sget (λ st, bucket_number (ss_sched st)) ;
  do! r <- sresult (in_db (get_bucket_with_less_devices total)) ;
  sret (wrap_u64 (match r with Ok b => b | _ => 0 end)).

Definition scheduler_register_device (now : Z) (device : Device) : SE SchedState SchedulerError Z :=
  do! bucket <- scheduler_get_bucket_number ;
  do! next_wake_up <- next_wakeup now bucket ;
  do! node <- sget (λ st, sch_local_node_id (ss_sched st)) ;
  do! _ <- in_db (add_device_to_bucket (dev_id device) (wrap_i32 bucket) node) ;
  sret next_wake_up.

Definition create_wakeup_job (device_id : Uuid) (next_wake_up : Z) : SE SchedState SchedulerError Uuid :=
  λ st,
  let s := ss_sched st in
  match js_add (mkJob next_wake_up device_id (reschedule_tx s)) (job_scheduler s) with
  | (Some job_id, js) => (Ok job_id, set_ss_sched (set_job_scheduler js s) st)
  | (None, js) => (Err JobSchedulerError, set_ss_sched (set_job_scheduler js s) st)
  end.

Definition scheduler_owns_device (s : Scheduler) (device_id : Uuid) : bool :=
  match sch_owned s with
  | None => true
  | Some owned => bool_decide (device_id ∈ owned)
  end.

Definition RELOAD_MARGIN : Z := 300 * ns_per_s.

(** [connection.status = Lost; renewable = false; job_id = None]. *)
Definition mark_lost (c : ScheduledConnection) : ScheduledConnection :=
  mkScheduledConnection (fk_device c) (schedule_time c) (connection_time c) Lost None false
    (last_battery_read c).
Definition set_job_id (j : option Uuid) (c : ScheduledConnection) : ScheduledConnection :=
  mkScheduledConnection (fk_device c) (schedule_time c) (connection_time c) (sc_status c) j
    (renewable c) (last_battery_read c).
Definition clear_job (c : ScheduledConnection) : ScheduledConnection :=
  mkScheduledConnection (fk_device c) (schedule_time c) (connection_time c) (sc_status c) None
    false (last_battery_read c).

(** The loop body of [reload_active_connections]; [now] is the clock when it runs. *)
Definition reload_connection (p : Z * ScheduledConnection) : SE SchedState SchedulerError unit :=
  let (now, connection) := p in
  do! owned <- sget (λ st, scheduler_owns_device (ss_sched st) (fk_device connection)) ;
  if negb owned then sret tt
  else if schedule_time connection <? now + RELOAD_MARGIN then
    in_db (update_scheduled_connection (mark_lost connection))
  else
    do! job <- create_wakeup_job (fk_device connection) (schedule_time connection) ;
    in_db (update_scheduled_connection (set_job_id (Some job) connection)).

(** [clock i] is the clock reading of the [i]-th iteration. *)
Definition scheduler_reload_active_connections (clock : nat → Z) : SE SchedState SchedulerError unit :=
  do! conns <- in_db get_scheduled_connections ;
  sfor (imap (λ i c, (clock i, c)) conns) reload_connection.

Definition scheduler_cancel_wakeup_job (device_id : Uuid) : SE SchedState SchedulerError bool :=
  do! conn <- in_db (get_scheduled_connection device_id) ;
  match job_id conn with
  | None => sret false
  | Some job => λ st,
      match js_remove job (job_scheduler (ss_sched st)) with
      | (true, js) =>
          (do! _ <- in_db (update_scheduled_connection (clear_job conn)) ; sret true)
            (set_ss_sched (set_job_scheduler js (ss_sched st)) st)
      | (false, js) =>
          (Err JobSchedulerError, set_ss_sched (set_job_scheduler js (ss_sched st)) st)
      end
  end.

Definition schedule_next_wakeup_job (now : Z) (device_id : Uuid) : SE SchedState SchedulerError unit :=
  do! bucket <- in_db (Database.get_bucket_number device_id) ;
  do! next_wake_up <- next_wakeup now (wrap_u64 bucket) ;
  do! job <- create_wakeup_job device_id next_wake_up ;
  in_db (schedule_connection device_id next_wake_up job).

Definition scheduler_get_scheduled_connections : SE SchedState SchedulerError (list ScheduledConnection) :=
  in_db get_scheduled_connections.

(** [set_owned_devices] and [enable_cluster_mode]. *)
Definition scheduler_enable_cluster_mode (owned : gset Z) (s : Scheduler) : Scheduler :=
  set_sch_owned (Some owned) s.
Definition scheduler_add_owned_device (device_id : Uuid) (s : Scheduler) : Scheduler :=
  set_sch_owned (union {[device_id]} <$> sch_owned s) s.
Definition scheduler_remove_owned_device (device_id : Uuid) (s : Scheduler) : Scheduler :=
  set_sch_owned ((λ o, o ∖ {[device_id]}) <$> sch_owned s) s.

Definition scheduler_schedule_delegated_device (device_id : Uuid) (t : Z)
  : SE SchedState SchedulerError unit :=
  do! job <- create_wakeup_job device_id t ;
  do! _ <- in_db (schedule_connection device_id t job) ;
  smod (λ st, set_ss_sched (scheduler_add_owned_device device_id (ss_sched st)) st).

(** Whether a running task was aborted. *)
Definition scheduler_abort_active_wakeup (device_id : Uuid) (s : Scheduler) : bool * Scheduler :=
  if decide (device_id ∈ active_tasks s)
  then (true, set_active_tasks (active_tasks s ∖ {[device_id]}) s)
  else (false, s).

(** The closure of a job: when it fires the task is spawned and recorded; when
    the task ends ([TaskResult], [TaskFailed]) or is gone ([TaskCancelled],
    [TaskPanicked]) the record is dropped and a failure marks the connection. *)
Inductive TaskEnd := TaskResult | TaskFailed | TaskCancelled | TaskPanicked.

Definition job_fired (job : WakeupJob) (s : Scheduler) : Scheduler :=
  set_active_tasks ({[wj_device job]} ∪ active_tasks s) s.

Definition job_ended (job : WakeupJob) (e : TaskEnd) : SE SchedState SchedulerError unit :=
  do! _ <- smod (λ st, set_ss_sched
      (set_active_tasks (active_tasks (ss_sched st) ∖ {[wj_device job]}) (ss_sched st)) st) ;
  match e with
  | TaskFailed =>
      do! r <- sresult (in_db (get_scheduled_connection (wj_device job))) ;
      match r with
      | Ok conn =>
          do! _ <- sresult (E := SchedulerError) (in_db (update_scheduled_connection (mark_lost conn))) ; sret tt
      | _ => sret tt
      end
  | _ => sret tt
  end.
End scheduler.
Arguments Scheduler JS : clear implicits.
Arguments SchedState JS DB : clear implicits.
