(* ===== verification/SchedulerFacts.v ===== *)
(** * Facts about the scheduler

    The slots of the buckets, the next wake-up of a bucket, the balance of the
    buckets under registrations, the recovery of connections after a restart
    and the life of a wake-up job. The theorems on registration hold for any
    engine with the contract [OwnershipEngine]. *)

From S2P Require Import Prelude Bytes Net Float32 Node Database DatabaseFacts Calendar Scheduler.

Local Open Scope Z_scope.
Local Open Scope hes_scope.

(** ** Slots *)

(** Offset of a bucket from midnight, in seconds. *)
Definition slot (total b : Z) : Z := secs_per_day / total * b.

Lemma slot_lt_day total b : 0 < total → 0 <= b < total → 0 <= slot total b < secs_per_day.
Proof.
  intros Ht Hb. unfold slot, secs_per_day.
  pose proof (Z.mul_div_le (24 * 60 * 60) total Ht). pose proof (Z.div_pos (24 * 60 * 60) total ltac:(lia) Ht).
  nia.
Qed.

Lemma get_time_slot total b :
  0 < total < 2 ^ 31 → 0 <= b < total →
  get_time_from_bucket_number total b
  = Ok (slot total b mod 3600 mod 60, slot total b mod 3600 / 60, slot total b / 3600).
Proof.
  intros Ht Hb. unfold get_time_from_bucket_number, wrap_u64.
  rewrite (Z.mod_small total) by lia. destruct (Z.eqb_spec total 0); [lia|].
  fold (slot total b). pose proof (slot_lt_day total b ltac:(lia) Hb) as Hs. unfold secs_per_day in Hs.
  by rewrite (Z.mod_small (slot total b)) by lia.
Qed.

(** ** The next wake-up *)
Section wakeup.
Context `{ChronoCrate}.

Lemma wrap_u32_small z : 0 <= z < 2 ^ 32 → wrap_u32 z = z.
Proof. apply Z.mod_small. Qed.

Lemma civil_date_roundtrip t sec min hour :
  day_ok (day_of t) → 0 <= hour < 24 → 0 <= min < 60 → 0 <= sec < 60 →
  (let '(day, mon, year) := date_as_usize t in schedule_to_datetime (mkSchedule sec min hour day mon year))
  = Ok (day_of t * ns_per_day + (hour * 3600 + min * 60 + sec) * ns_per_s).
Proof.
  intros Hd Hh Hm Hs. unfold date_as_usize. pose proof (civil_range _ Hd) as Hr.
  pose proof (from_ymd_civil _ Hd) as Hf. destruct (civil (day_of t)) as [[y mo] d].
  destruct Hr as (Hy & Hmo & Hdd). unfold schedule_to_datetime. simpl.
  rewrite !wrap_u32_small by lia. unfold wrap_u64. rewrite (Z.mod_small y) by lia.
  unfold wrap_i32, wrap_signed. rewrite (Z.mod_small y) by lia.
  destruct (Z.ltb_spec y (2 ^ (32 - 1))); [|lia].
  by rewrite Hf, from_hms_valid by lia.
Qed.

Lemma day_of_tomorrow now : day_of (now + ns_per_day) = day_of now + 1.
Proof. unfold day_of, ns_per_day, secs_per_day, ns_per_s. rewrite <- (Z.mul_1_l (24 * 60 * 60 * 1000000000)) at 1. apply Z.div_add. lia. Qed.

(** The instant of a slot on the day chosen for it. *)
Definition wake_instant (now total b : Z) : Z :=
  (if hour_of now + 1 <? slot total b / 3600 then day_of now else day_of now + 1) * ns_per_day
  + slot total b * ns_per_s.

Lemma schedule_instant now total b :
  0 < total < 2 ^ 31 → 0 <= b < total → day_ok (day_of now) → day_ok (day_of now + 1) →
  (let! s := get_next_schedule now total b in omap_err ParseError (schedule_to_datetime s))
  = Ok (wake_instant now total b).
Proof.
  intros Ht Hb Hd Hd'. unfold get_next_schedule. rewrite get_time_slot by done. cbn [obind].
  pose proof (slot_lt_day total b ltac:(lia) Hb) as Hs. unfold secs_per_day in Hs.
  set (x := slot total b) in *.
  assert (Hx : x / 3600 * 3600 + x mod 3600 / 60 * 60 + x mod 3600 mod 60 = x)
    by (Z.to_euclidean_division_equations; lia).
  assert (0 <= x / 3600 < 24 ∧ 0 <= x mod 3600 / 60 < 60 ∧ 0 <= x mod 3600 mod 60 < 60)
    as (Hh & Hm & Hsec) by (Z.to_euclidean_division_equations; lia).
  unfold get_date_from_hour, wake_instant. fold x.
  destruct (hour_of now + 1 <? x / 3600).
  - pose proof (civil_date_roundtrip now _ _ _ Hd Hh Hm Hsec) as Hr.
    destruct (date_as_usize now) as [[? ?] ?]. cbn [obind]. rewrite Hr, Hx. done.
  - rewrite <- day_of_tomorrow in Hd'.
    pose proof (civil_date_roundtrip (now + ns_per_day) _ _ _ Hd' Hh Hm Hsec) as Hr.
    destruct (date_as_usize (now + ns_per_day)) as [[? ?] ?]. cbn [obind].
    by rewrite Hr, Hx, day_of_tomorrow.
Qed.

Definition hour_ns : Z := 3600 * ns_per_s.

Lemma wake_instant_bounds now total b :
  0 < total → 0 <= b < total →
  now < wake_instant now total b < now + 26 * hour_ns ∧
  wake_instant now total b mod ns_per_day = slot total b * ns_per_s.
Proof.
  intros Ht Hb. pose proof (slot_lt_day total b Ht Hb) as Hs.
  unfold wake_instant. set (x := slot total b) in *.
  assert (Hnow : now = day_of now * ns_per_day + now mod ns_per_day).
  { unfold day_of. pose proof (Z.div_mod now ns_per_day ltac:(vm_compute; discriminate)). lia. }
  pose proof (Z.mod_pos_bound now ns_per_day ltac:(vm_compute; reflexivity)) as Hr.
  assert (Hhour : hour_of now * hour_ns <= now mod ns_per_day < (hour_of now + 1) * hour_ns).
  { unfold hour_of, hour_ns, ns_per_s. Z.to_euclidean_division_equations. lia. }
  assert (Hx : x / 3600 * 3600 <= x < (x / 3600 + 1) * 3600) by (Z.to_euclidean_division_equations; lia).
  set (d := day_of now) in *. set (r := now mod ns_per_day) in *.
  split.
  - unfold hour_ns, ns_per_day, secs_per_day, ns_per_s in *.
    destruct (Z.ltb_spec (hour_of now + 1) (x / 3600)); lia.
  - rewrite Z.add_comm, Z.mod_add by (vm_compute; discriminate). apply Z.mod_small.
    unfold ns_per_day, secs_per_day, ns_per_s in *. lia.
Qed.
End wakeup.

(** With 1 to 86400 buckets every bucket has its own second of the day: bucket [b] is
    at offset [b * (86400 / total)] from midnight, a valid time of day, and two
    buckets are at least [86400 / total] seconds apart. *)
Theorem bucket_slots_disjoint (total b b' : Z) (Ht : 0 < total <= 86400) (Hb : 0 <= b) (Hlt : b < b' < total) :
  ∃ s m h s' m' h',
    get_time_from_bucket_number total b = Ok (s, m, h) ∧
    get_time_from_bucket_number total b' = Ok (s', m', h') ∧
    0 <= s < 60 ∧ 0 <= m < 60 ∧ 0 <= h < 24 ∧ h * 3600 + m * 60 + s = 86400 / total * b ∧
    1 <= 86400 / total <= (h' * 3600 + m' * 60 + s') - (h * 3600 + m * 60 + s).
Proof.
  rewrite !get_time_slot by lia.
  pose proof (slot_lt_day total b ltac:(lia) ltac:(lia)) as Hs.
  do 6 eexists. split; [reflexivity|]. split; [reflexivity|].
  assert (Hdec : ∀ x, x / 3600 * 3600 + x mod 3600 / 60 * 60 + x mod 3600 mod 60 = x)
    by (intros; Z.to_euclidean_division_equations; lia).
  rewrite !Hdec. unfold slot, secs_per_day in *. change (24 * 60 * 60) with 86400 in *.
  assert (1 <= 86400 / total) by (apply Z.div_le_lower_bound; lia).
  set (x := 86400 / total * b) in *.
  split; [Z.to_euclidean_division_equations; lia|]. split; [Z.to_euclidean_division_equations; lia|].
  split; [Z.to_euclidean_division_equations; lia|]. split; [done|]. unfold x. nia.
Qed.

Lemma bucket_slots_disjoint_witness :
  ∃ s m h s' m' h',
    get_time_from_bucket_number 48 1 = Ok (s, m, h) ∧ get_time_from_bucket_number 48 2 = Ok (s', m', h') ∧
    0 <= s < 60 ∧ 0 <= m < 60 ∧ 0 <= h < 24 ∧ h * 3600 + m * 60 + s = 86400 / 48 * 1 ∧
    1 <= 86400 / 48 <= (h' * 3600 + m' * 60 + s') - (h * 3600 + m * 60 + s).
Proof. apply (bucket_slots_disjoint 48 1 2); lia. Defined.

(** C27: Outside test mode the next wake-up of a bucket always exists, is strictly in the
    future, less than 26 hours away, and at the bucket's time of day; the scheduler
    and the database are left as they were. *)
Theorem next_wakeup_in_future `{ChronoCrate} {JS DB : Type} (st : SchedState JS DB) (now b : Z)
    (Hmode : test_mode (ss_sched st) = false)
    (Ht : 0 < bucket_number (ss_sched st) < 2 ^ 31) (Hb : 0 <= b < bucket_number (ss_sched st))
    (Hd : day_ok (day_of now)) (Hd' : day_ok (day_of now + 1)) :
  ∃ t, next_wakeup now b st = (Ok t, st) ∧ now < t < now + 26 * hour_ns ∧
    t mod ns_per_day = slot (bucket_number (ss_sched st)) b * ns_per_s.
Proof.
  exists (wake_instant now (bucket_number (ss_sched st)) b). split.
  - unfold next_wakeup. by rewrite Hmode, schedule_instant.
  - apply wake_instant_bounds; lia.
Qed.

(** 2024-01-01 at 23:59:59, and a state with 48 buckets. *)
Definition new_year : Z := (19723 * 86400 + 86399) * ns_per_s.
Definition sched48 : SchedState JobTable InnerDB := mkSchedState (scheduler_new 48 7 false) empty_db.

Lemma next_wakeup_in_future_witness :
  ∃ t, next_wakeup (H := gregorian.gregorian) new_year 5 sched48 = (Ok t, sched48) ∧
    new_year < t < new_year + 26 * hour_ns ∧ t mod ns_per_day = slot 48 5 * ns_per_s.
Proof.
  apply (next_wakeup_in_future (H := gregorian.gregorian) sched48 new_year 5);
    first [reflexivity | split; vm_compute; (reflexivity || discriminate) ].
Defined.

(** The margin of one hour is not kept across midnight: at 23:59:59 the device of
    bucket 0 is told to wake one second later. *)
Theorem midnight_margin_is_one_second :
  next_wakeup (H := gregorian.gregorian) new_year 0 sched48 = (Ok (new_year + ns_per_s), sched48).
Proof. eval_done. Qed.

(** ** Registration *)
Definition balanced (m : gmap Z (Z * Uuid)) (total : Z) : Prop :=
  ∀ b b', 0 <= b < total → 0 <= b' < total → table_load m b <= table_load m b' + 1.

Lemma balanced_insert m total b id node :
  m !! id = None → balanced m total → least_bucket (table_load m) total b →
  balanced (<[id := (b, node)]> m) total.
Proof.
  intros Hid Hbal (Hr & Hmin & _) b1 b2 H1 H2. rewrite !table_load_insert by done.
  pose proof (Hbal b1 b2 H1 H2). pose proof (Hmin b2 H2). repeat case_decide; subst; lia.
Qed.

Section registration.
Context `{ChronoCrate} {JS DB : Type} `{JobCrate JS} `{OwnershipEngine DB}.
Implicit Types (st : SchedState JS DB).

(** A scheduler with a usable number of buckets, at an instant of the calendar. *)
Definition can_schedule (s : Scheduler JS) (now : Z) : Prop :=
  0 < bucket_number s < 2 ^ 31 ∧ day_ok (day_of now) ∧ day_ok (day_of now + 1).

(** The instant [next_wakeup] answers. *)
Definition wake_time (s : Scheduler JS) (now b : Z) : Z :=
  if test_mode s then now + TEST_MODE_WAKEUP_SECS * ns_per_s else wake_instant now (bucket_number s) b.

Lemma next_wakeup_time st now b :
  can_schedule (ss_sched st) now → 0 <= b < bucket_number (ss_sched st) →
  next_wakeup now b st = (Ok (wake_time (ss_sched st) now b), st) ∧ now < wake_time (ss_sched st) now b.
Proof.
  intros (Ht & Hd & Hd') Hb. unfold next_wakeup, wake_time. destruct (test_mode (ss_sched st)).
  - split; [done|]. unfold TEST_MODE_WAKEUP_SECS, ns_per_s. lia.
  - rewrite schedule_instant by done. split; [done|]. apply wake_instant_bounds; lia.
Qed.

Lemma next_wakeup_ok st now b :
  can_schedule (ss_sched st) now → 0 <= b < bucket_number (ss_sched st) →
  ∃ t, next_wakeup now b st = (Ok t, st) ∧ now < t.
Proof. intros Hs Hb. eexists. by apply next_wakeup_time. Qed.

Lemma in_db_ok {A} (m : SE DB DatabaseError A) st a db' :
  m (ss_db st) = (Ok a, db') → in_db (JS := JS) m st = (Ok a, set_ss_db db' st).
Proof. intros Hm. unfold in_db, szoom. by rewrite Hm. Qed.

Lemma set_ss_db_same st : set_ss_db (ss_db st) st = st.
Proof. by destruct st. Qed.

Lemma register_device_ok st now d :
  can_schedule (ss_sched st) now → assignments (ss_db st) !! dev_id d = None →
  ∃ b t db', scheduler_register_device now d st = (Ok t, set_ss_db db' st) ∧
    now < t ∧ next_wakeup now b st = (Ok t, st) ∧
    least_bucket (table_load (assignments (ss_db st))) (bucket_number (ss_sched st)) b ∧
    assignments db' = <[dev_id d := (b, sch_local_node_id (ss_sched st))]> (assignments (ss_db st)).
Proof.
  intros Hs Hid. destruct Hs as (Ht & Hs).
  destruct (least_loaded (bucket_number (ss_sched st)) (ss_db st) ltac:(lia)) as (b & Hb & Hleast).
  destruct (next_wakeup_ok st now b (conj Ht Hs) ltac:(apply Hleast)) as (t & Hw & Hlt).
  destruct (assign_new (dev_id d) b (sch_local_node_id (ss_sched st)) (ss_db st) Hid) as (db' & Ha & Hm).
  exists b, t, db'. split; [|done].
  pose proof (proj1 Hleast).
  assert (Hg : scheduler_get_bucket_number st = (Ok b, st)).
  { unfold scheduler_get_bucket_number. rewrite sbind_get.
    unfold sbind, sresult. rewrite (in_db_ok _ _ _ _ Hb), set_ss_db_same. unfold sret. do 2 f_equal.
    apply Z.mod_small. lia. }
  unfold scheduler_register_device. sstep Hg. sstep Hw.
  rewrite sbind_get.
  replace (wrap_i32 b) with b.
  2: { unfold wrap_i32, wrap_signed. rewrite Z.mod_small by lia. case_match; lia. }
  by sstep (in_db_ok _ _ _ _ Ha).
Qed.

(** A sequence of registrations, each at its own instant. *)
Definition register_all (l : list (Z * Device)) : SE (SchedState JS DB) SchedulerError unit :=
  sfor l (λ p, do! _ <- scheduler_register_device p.1 p.2 ; sret tt).

(** C26: Registering any sequence of new devices succeeds and keeps the buckets balanced:
    at no time do two buckets differ by more than one device. Every device of the
    sequence ends up in one of the buckets, tagged with this node as its owner, and
    the devices assigned before keep their assignment. *)
Theorem registrations_balanced (l : list (Z * Device)) st
    (Hnow : ∀ p, p ∈ l → can_schedule (ss_sched st) p.1)
    (Hnodup : NoDup ((dev_id ∘ snd) <$> l))
    (Hnew : ∀ p, p ∈ l → assignments (ss_db st) !! dev_id p.2 = None)
    (Hbal : balanced (assignments (ss_db st)) (bucket_number (ss_sched st))) :
  ∃ db', register_all l st = (Ok tt, set_ss_db db' st) ∧
    balanced (assignments db') (bucket_number (ss_sched st)) ∧
    (∀ p, p ∈ l → ∃ b, 0 <= b < bucket_number (ss_sched st) ∧
        assignments db' !! dev_id p.2 = Some (b, sch_local_node_id (ss_sched st))) ∧
    (∀ id, id ∉ (dev_id ∘ snd) <$> l → assignments db' !! id = assignments (ss_db st) !! id).
Proof.
  revert st Hnow Hnodup Hnew Hbal. induction l as [|[now d] l IH]; intros st Hnow Hnodup Hnew Hbal.
  { exists (ss_db st). rewrite set_ss_db_same. set_solver. }
  destruct (register_device_ok st now d) as (b & t & db1 & Hreg & _ & _ & Hleast & Hdb1).
  { apply (Hnow (now, d)). set_solver. }
  { apply (Hnew (now, d)). set_solver. }
  rewrite fmap_cons in Hnodup. apply NoDup_cons in Hnodup as [Hd Hnodup]. simpl in Hd.
  destruct (IH (set_ss_db db1 st)) as (db' & Hall & Hbal' & Hin & Hout); simpl.
  - intros p Hp. apply (Hnow p). set_solver.
  - done.
  - intros p Hp. rewrite Hdb1, lookup_insert_ne.
    + apply (Hnew p). set_solver.
    + intros Heq. apply Hd. apply list_elem_of_fmap. by exists p.
  - rewrite Hdb1. apply balanced_insert; [|done..]. apply (Hnew (now, d)). set_solver.
  - exists db'. split; [|split; [done|split]].
    + unfold register_all. cbn [sfor]. unfold sbind at 1. cbn [fst snd].
      sstep Hreg. cbn. exact Hall.
    + intros p [->|Hp]%elem_of_cons; [|by apply Hin]. exists b. split; [apply Hleast|].
      rewrite Hout by done. simpl. by rewrite Hdb1, lookup_insert_eq.
    + intros id Hid. simpl in Hid. rewrite Hout by set_solver. simpl.
      rewrite Hdb1, lookup_insert_ne; [done|]. set_solver.
Qed.
End registration.

Lemma registrations_balanced_witness :
  ∃ db', register_all (H := gregorian.gregorian)
      [(new_year, mkDevice 1 None None None); (new_year, mkDevice 2 None None None)] sched48
      = (Ok tt, set_ss_db db' sched48) ∧
    balanced (assignments db') 48 ∧
    (∀ p, p ∈ [(new_year, mkDevice 1 None None None); (new_year, mkDevice 2 None None None)] →
       ∃ b, 0 <= b < 48 ∧ assignments db' !! dev_id p.2 = Some (b, 7)) ∧
    (∀ id, id ∉ [1; 2] → assignments db' !! id = assignments empty_db !! id).
Proof.
  apply (registrations_balanced (H := gregorian.gregorian)
    [(new_year, mkDevice 1 None None None); (new_year, mkDevice 2 None None None)] sched48).
  - intros p [->|[->|[]%elem_of_nil]%elem_of_cons]%elem_of_cons;
      (split; [|split]; split; vm_compute; (reflexivity || discriminate)).
  - apply (bool_decide_unpack _). vm_compute. exact I.
  - done.
  - intros b b' _ _. vm_compute. discriminate.
Defined.

(** ** Wake-up jobs, on the in-memory engine *)
Section jobs.
Context `{ChronoCrate} `{HashOrder} {JS : Type} `{JobCrate JS}.
Implicit Types (st : SchedState JS InnerDB).

Definition conns st : gmap Z ScheduledConnection := scheduled_connections (ss_db st).
Definition jobs st : gmap Z WakeupJob := js_jobs (job_scheduler (ss_sched st)).

(** Each row is stored under its device. *)
Definition keyed (m : gmap Z ScheduledConnection) : Prop := ∀ id c, m !! id = Some c → fk_device c = id.

(** The job scheduler accepts every job. *)
Definition accepts_jobs : Prop := ∀ j (s : JS), ∃ id s', js_add j s = (Some id, s').

(** Same configuration: everything but the jobs. *)
Definition same_config (s s' : Scheduler JS) : Prop :=
  bucket_number s' = bucket_number s ∧ sch_owned s' = sch_owned s ∧
  sch_local_node_id s' = sch_local_node_id s ∧ reschedule_tx s' = reschedule_tx s ∧
  test_mode s' = test_mode s ∧ active_tasks s' = active_tasks s.

#[global] Instance same_config_preorder : PreOrder same_config.
Proof.
  split; [done|].
  intros x y z (?&?&?&?&?&?) (?&?&?&?&?&?). repeat split; congruence.
Qed.

Lemma create_wakeup_job_ok st id t :
  accepts_jobs → ∃ j s', create_wakeup_job id t st = (Ok j, set_ss_sched s' st) ∧
    same_config (ss_sched st) s' ∧ jobs st !! j = None ∧
    js_jobs (job_scheduler s') = <[j := mkJob t id (reschedule_tx (ss_sched st))]> (jobs st).
Proof.
  intros Hacc. unfold create_wakeup_job.
  destruct (Hacc (mkJob t id (reschedule_tx (ss_sched st))) (job_scheduler (ss_sched st))) as (j & js & Hadd).
  rewrite Hadd. exists j, (set_job_scheduler js (ss_sched st)). split; [done|]. split; [done|].
  by destruct (js_add_ok _ _ _ _ Hadd).
Qed.

(** What the recovery makes of one connection read at [now]. *)
Definition recovered st st' (now : Z) (c : ScheduledConnection) : Prop :=
  let row := conns st' !! fk_device c in
  if scheduler_owns_device (ss_sched st) (fk_device c) then
    if schedule_time c <? now + RELOAD_MARGIN then row = Some (mark_lost c)
    else ∃ j, row = Some (set_job_id (Some j) c) ∧
      jobs st' !! j = Some (mkJob (schedule_time c) (fk_device c) (reschedule_tx (ss_sched st)))
  else row = conns st !! fk_device c.

Definition reload_frame st st' (touched : list Z) : Prop :=
  same_config (ss_sched st) (ss_sched st') ∧ jobs st ⊆ jobs st' ∧
  ∀ id, id ∉ touched → conns st' !! id = conns st !! id.

Lemma reload_connection_ok st now c :
  accepts_jobs → ∃ st', reload_connection (now, c) st = (Ok tt, st') ∧
    recovered st st' now c ∧ reload_frame st st' [fk_device c].
Proof.
  intros Hacc. unfold reload_connection. rewrite sbind_get. unfold recovered.
  destruct (scheduler_owns_device (ss_sched st) (fk_device c)) eqn:Hown; simpl.
  2: { exists st. split; [done|]. split; [done|]. split; [reflexivity|]. done. }
  destruct (schedule_time c <? now + RELOAD_MARGIN).
  - eexists. split; [done|]. unfold conns. simpl. split; [apply lookup_insert_eq|].
    split; [reflexivity|]. split; [done|]. intros id Hid. unfold conns. simpl.
    apply lookup_insert_ne. set_solver.
  - destruct (create_wakeup_job_ok st (fk_device c) (schedule_time c) Hacc) as (j & s' & Hjob & Hcfg & Hfresh & Hjobs).
    sstep Hjob. eexists. split; [done|]. split.
    + exists j. split; [apply lookup_insert_eq|]. unfold jobs. simpl. by rewrite Hjobs, lookup_insert_eq.
    + split; [done|]. split.
      * unfold jobs at 2. simpl. rewrite Hjobs. by apply insert_subseteq.
      * intros id Hid. unfold conns. simpl. apply lookup_insert_ne. set_solver.
Qed.

Lemma reload_loop_ok l st :
  accepts_jobs → NoDup ((fk_device ∘ snd) <$> l) →
  ∃ st', sfor l reload_connection st = (Ok tt, st') ∧
    (∀ now c, (now, c) ∈ l → recovered st st' now c) ∧ reload_frame st st' ((fk_device ∘ snd) <$> l).
Proof.
  intros Hacc. revert st. induction l as [|[now c] l IH]; intros st Hnd.
  { exists st. split; [done|]. split; [set_solver|]. split; [reflexivity|]. done. }
  rewrite fmap_cons in Hnd. apply NoDup_cons in Hnd as [Hc Hnd]. simpl in Hc.
  destruct (reload_connection_ok st now c Hacc) as (st1 & Hstep & Hrec & Hcfg & Hsub & Hout).
  destruct (IH st1 Hnd) as (st' & Hloop & Hall & Hcfg' & Hsub' & Hout').
  assert (Howns : ∀ id, scheduler_owns_device (ss_sched st1) id = scheduler_owns_device (ss_sched st) id).
  { intros id. unfold scheduler_owns_device. by destruct Hcfg as (_ & -> & _). }
  exists st'. split; [cbn [sfor]; by sstep Hstep|]. split.
  - intros now' c' [Heq|Hin]%elem_of_cons.
    + simplify_eq. revert Hrec. unfold recovered. rewrite (Hout' (fk_device c)) by done.
      repeat case_match; [done| |done]. intros (j & -> & Hj). exists j. split; [done|].
      by eapply lookup_weaken.
    + specialize (Hall _ _ Hin). revert Hall. unfold recovered. rewrite Howns.
      destruct Hcfg as (_ & _ & _ & -> & _). repeat case_match; [done..|].
      intros ->. apply Hout. simpl. intros Heq%list_elem_of_singleton.
      apply Hc, list_elem_of_fmap. by exists (now', c').
  - split; [by etrans|]. split; [by etrans|]. intros id Hid. simpl in Hid.
    rewrite Hout' by set_solver. apply Hout. set_solver.
Qed.

(** Reading back the connections, on the in-memory engine. With the clock between [t0] and [t1] while it runs, reading
    back the connections succeeds and, for every stored connection: one the node does not
    own is left alone; an owned one due before [t0] plus five minutes becomes lost, not
    renewable and without job; an owned one due at or after [t1] plus five minutes keeps
    its time and status and gets a new wake-up job of the job scheduler at that time, whose
    identifier is stored in the row. Jobs already present stay. *)
Theorem reload_recovers_connections (clock : nat → Z) (t0 t1 : Z) st
    (Hacc : accepts_jobs) (Hkeyed : keyed (conns st)) (Hclock : ∀ i, t0 <= clock i <= t1) :
  ∃ st', scheduler_reload_active_connections clock st = (Ok tt, st') ∧ jobs st ⊆ jobs st' ∧
    ∀ id c, conns st !! id = Some c →
      (scheduler_owns_device (ss_sched st) id = false → conns st' !! id = Some c) ∧
      (scheduler_owns_device (ss_sched st) id = true → schedule_time c < t0 + RELOAD_MARGIN →
         conns st' !! id = Some (mark_lost c)) ∧
      (scheduler_owns_device (ss_sched st) id = true → t1 + RELOAD_MARGIN <= schedule_time c →
         ∃ j, conns st' !! id = Some (set_job_id (Some j) c) ∧
           jobs st' !! j = Some (mkJob (schedule_time c) id (reschedule_tx (ss_sched st)))).
Proof.
  unfold scheduler_reload_active_connections.
  set (cs := (hash_iter (scheduled_connections (ss_db st))).*2).
  assert (Hcs : ∀ id c, conns st !! id = Some c → fk_device c = id ∧ ∃ i, imap (λ i c, (clock i, c)) cs !! i = Some (clock i, c)).
  { intros id c Hc. split; [by apply Hkeyed|].
    assert (c ∈ cs) as [i Hi]%list_elem_of_lookup.
    { unfold cs. rewrite hash_iter_perm. apply list_elem_of_fmap. exists (id, c).
      split; [done|]. by apply elem_of_map_to_list. }
    exists i. by rewrite list_lookup_imap, Hi. }
  assert (Hnd : NoDup ((fk_device ∘ snd) <$> imap (λ i c, (clock i, c)) cs)).
  { replace ((fk_device ∘ snd) <$> imap (λ i c, (clock i, c)) cs) with (fk_device <$> cs)
      by (rewrite fmap_imap; symmetry; apply imap_const).
    assert (Hp : fk_device <$> cs ≡ₚ (map_to_list (conns st)).*1); [|rewrite Hp; apply NoDup_fst_map_to_list].
    unfold cs. rewrite hash_iter_perm. rewrite <- list_fmap_compose.
    erewrite list_fmap_ext; [reflexivity|]. intros i [id c] Hi%list_elem_of_lookup_2.
    apply elem_of_map_to_list in Hi. by apply Hkeyed. }
  destruct (reload_loop_ok _ st Hacc Hnd) as (st' & Hloop & Hall & _ & Hsub & _).
  exists st'. split; [|split; [done|]].
  { assert (Hget : in_db get_scheduled_connections st = (Ok cs, st)).
    { by rewrite (in_db_ok _ _ cs (ss_db st)), set_ss_db_same. }
    by sstep Hget. }
  intros id c Hc. destruct (Hcs id c Hc) as (Hid & i & Hi). apply list_elem_of_lookup_2 in Hi.
  specialize (Hall _ _ Hi). pose proof (Hclock i). unfold recovered in Hall. rewrite Hid in Hall.
  split; [|split]; intros Hown; rewrite Hown in Hall; [by rewrite Hall| |]; intros Htime;
    destruct (Z.ltb_spec (schedule_time c) (clock i + RELOAD_MARGIN)); (done || lia).
Qed.

(** The job scheduler finds and removes every job it is asked to. *)
Definition removes_jobs : Prop := ∀ id (s : JS), ∃ s', js_remove id s = (true, s').

Lemma schedule_next_ok st now id b node :
  accepts_jobs → can_schedule (ss_sched st) now →
  buckets (ss_db st) !! id = Some (b, node) → 0 <= b < bucket_number (ss_sched st) →
  ∃ t j st', schedule_next_wakeup_job now id st = (Ok tt, st') ∧ now < t ∧
    next_wakeup now b st = (Ok t, st) ∧
    same_config (ss_sched st) (ss_sched st') ∧
    ss_db st' = set_connections
      (<[id := mkScheduledConnection id t None Awaiting (Some j) true None]> (conns st)) (ss_db st) ∧
    jobs st !! j = None ∧ jobs st' = <[j := mkJob t id (reschedule_tx (ss_sched st))]> (jobs st).
Proof.
  intros Hacc Hs Hb Hr. destruct (next_wakeup_ok st now b Hs Hr) as (t & Hw & Hlt).
  destruct (create_wakeup_job_ok st id t Hacc) as (j & s' & Hjob & Hcfg & Hfresh & Hjobs).
  unfold schedule_next_wakeup_job.
  sstep (in_db_ok (JS := JS) _ st _ _ (bucket_known id b node (ss_db st) Hb)). rewrite set_ss_db_same.
  replace (wrap_u64 b) with b by (symmetry; apply Z.mod_small; destruct Hs; lia).
  sstep Hw. sstep Hjob. exists t, j. eexists. split; [done|]. split; [done|]. split; [done|].
  split; [done|]. split; [|done].
  unfold conns. simpl. by rewrite insert_delete_eq.
Qed.

Lemma cancel_ok st id c j :
  removes_jobs → conns st !! id = Some c → fk_device c = id → job_id c = Some j →
  ∃ st', scheduler_cancel_wakeup_job id st = (Ok true, st') ∧
    jobs st' = delete j (jobs st) ∧ conns st' = <[id := clear_job c]> (conns st).
Proof.
  intros Hrem Hc Hk Hj. unfold scheduler_cancel_wakeup_job.
  assert (Hget : in_db (get_scheduled_connection id) st = (Ok c, st)).
  { rewrite (in_db_ok _ _ c (ss_db st)), set_ss_db_same; [done|].
    simpl. unfold mem_get_scheduled_connection. unfold conns in Hc. by rewrite Hc. }
  sstep Hget. rewrite Hj. destruct (Hrem j (job_scheduler (ss_sched st))) as [js Hjs]. rewrite Hjs.
  eexists. split; [done|]. unfold jobs, conns. simpl. rewrite Hk. split; [|done].
  by apply js_remove_ok.
Qed.

(** The life of a wake-up job. Scheduling the next wake-up of a device of bucket [b] adds
    exactly one job, for that device at the bucket's next instant, and stores its
    identifier in an awaiting connection; cancelling it removes that job and only that
    one, clears the identifier and makes the connection not renewable; a second
    cancellation finds nothing to do. *)
Theorem schedule_then_cancel st now id b node
    (Hacc : accepts_jobs) (Hrem : removes_jobs) (Hs : can_schedule (ss_sched st) now)
    (Hb : buckets (ss_db st) !! id = Some (b, node)) (Hr : 0 <= b < bucket_number (ss_sched st)) :
  ∃ t j st1 st2,
    schedule_next_wakeup_job now id st = (Ok tt, st1) ∧ now < t ∧
    jobs st1 = <[j := mkJob t id (reschedule_tx (ss_sched st))]> (jobs st) ∧ jobs st !! j = None ∧
    conns st1 !! id = Some (mkScheduledConnection id t None Awaiting (Some j) true None) ∧
    scheduler_cancel_wakeup_job id st1 = (Ok true, st2) ∧ jobs st2 = jobs st ∧
    conns st2 !! id = Some (mkScheduledConnection id t None Awaiting None false None) ∧
    scheduler_cancel_wakeup_job id st2 = (Ok false, st2).
Proof.
  destruct (schedule_next_ok st now id b node Hacc Hs Hb Hr)
    as (t & j & st1 & Hsch & Hlt & _ & _ & Hdb & Hfresh & Hjobs).
  assert (Hconns : conns st1 = <[id := mkScheduledConnection id t None Awaiting (Some j) true None]> (conns st))
    by (unfold conns; by rewrite Hdb).
  destruct (cancel_ok st1 id (mkScheduledConnection id t None Awaiting (Some j) true None) j Hrem)
    as (st2 & Hcan & Hjobs2 & Hconns2); [rewrite Hconns; apply lookup_insert_eq|done..|].
  exists t, j, st1, st2. split; [done|]. split; [done|]. split; [done|]. split; [done|].
  split; [rewrite Hconns; apply lookup_insert_eq|]. split; [done|].
  split; [by rewrite Hjobs2, Hjobs, delete_insert_id|].
  assert (Hrow : conns st2 !! id = Some (mkScheduledConnection id t None Awaiting None false None))
    by (rewrite Hconns2; apply lookup_insert_eq).
  split; [done|]. unfold scheduler_cancel_wakeup_job.
  assert (Hget : in_db (get_scheduled_connection id) st2
    = (Ok (mkScheduledConnection id t None Awaiting None false None), st2)).
  { erewrite (in_db_ok _ _ _ (ss_db st2)), set_ss_db_same; [done|].
    simpl. unfold mem_get_scheduled_connection. unfold conns in Hrow. by rewrite Hrow. }
  by sstep Hget.
Qed.

(** How a fired job ends. However its task ends, the device is no longer listed as
    running and no job changes. A failed task makes the device's connection lost, not
    renewable and without job; a finished, aborted or panicked task leaves the database
    as it was, and so does a failed one when the connection no longer exists. *)
Theorem job_end_effects st job e :
  ∃ st', job_ended job e st = (Ok tt, st') ∧
    wj_device job ∉ active_tasks (ss_sched st') ∧ jobs st' = jobs st ∧
    match e, conns st !! wj_device job with
    | TaskFailed, Some c => conns st' = <[fk_device c := mark_lost c]> (conns st)
    | _, _ => ss_db st' = ss_db st
    end.
Proof.
  unfold job_ended. rewrite sbind_mod.
  set (st1 := set_ss_sched _ st).
  assert (Hrun : wj_device job ∉ active_tasks (ss_sched st1)) by (simpl; set_solver).
  destruct e.
  1, 3, 4: by exists st1.
  unfold sbind, sresult, in_db, szoom. simpl. unfold mem_get_scheduled_connection, conns. simpl.
  destruct (scheduled_connections (ss_db st) !! wj_device job) as [c|]; simpl; eexists; done.
Qed.
End jobs.

(** A node owning device 1 only, and stored connections of devices 1, 2 and 3. *)
Definition row (id t : Z) : ScheduledConnection := mkScheduledConnection id t None Awaiting None true None.
Definition restart : SchedState JobTable InnerDB :=
  mkSchedState (scheduler_enable_cluster_mode {[ 1; 2 ]} (scheduler_new 48 7 false))
    (set_connections {[ 1 := row 1 (new_year + hour_ns); 2 := row 2 new_year; 3 := row 3 new_year ]}
      (set_buckets {[ 1 := (5, 7) ]} empty_db)).

Lemma job_table_accepts : accepts_jobs (JS := JobTable).
Proof. intros j s. by do 2 eexists. Defined.
Lemma job_table_removes : removes_jobs (JS := JobTable).
Proof. intros j s. by eexists. Defined.

Lemma reload_recovers_connections_witness :
  ∃ st', scheduler_reload_active_connections (λ _, new_year) restart = (Ok tt, st') ∧
    conns st' !! 2 = Some (mark_lost (row 2 new_year)) ∧ conns st' !! 3 = Some (row 3 new_year) ∧
    ∃ j, jobs st' !! j = Some (mkJob (new_year + hour_ns) 1 false).
Proof.
  destruct (reload_recovers_connections (λ _, new_year) new_year new_year restart)
    as (st' & Hr & _ & Hall).
  - exact job_table_accepts.
  - intros id c Hc. unfold conns, restart in Hc. simpl in Hc.
    repeat (rewrite lookup_insert_Some in Hc || rewrite lookup_singleton_Some in Hc). naive_solver.
  - intros _. split; reflexivity.
  - exists st'. split; [done|].
    destruct (Hall 1 (row 1 (new_year + hour_ns)) eq_refl) as (_ & _ & H1).
    destruct (Hall 2 (row 2 new_year) eq_refl) as (_ & H2 & _).
    destruct (Hall 3 (row 3 new_year) eq_refl) as (H3 & _ & _).
    split; [apply H2; reflexivity|]. split; [apply H3; reflexivity|].
    destruct (H1 eq_refl) as (j & _ & Hj); [vm_compute; discriminate|]. by exists j.
Defined.

Lemma schedule_then_cancel_witness :
  ∃ t j st1 st2,
    schedule_next_wakeup_job (H := gregorian.gregorian) new_year 1 restart = (Ok tt, st1) ∧ new_year < t ∧
    jobs st1 = <[j := mkJob t 1 false]> (jobs restart) ∧ jobs restart !! j = None ∧
    conns st1 !! 1 = Some (mkScheduledConnection 1 t None Awaiting (Some j) true None) ∧
    scheduler_cancel_wakeup_job 1 st1 = (Ok true, st2) ∧ jobs st2 = jobs restart ∧
    conns st2 !! 1 = Some (mkScheduledConnection 1 t None Awaiting None false None) ∧
    scheduler_cancel_wakeup_job 1 st2 = (Ok false, st2).
Proof.
  apply (schedule_then_cancel (H := gregorian.gregorian) restart new_year 1 5 7).
  - exact job_table_accepts.
  - exact job_table_removes.
  - split; [|split]; split; vm_compute; (reflexivity || discriminate).
  - reflexivity.
  - split; vm_compute; (reflexivity || discriminate).
Defined.
