(* ===== verification/DeviceManager.v ===== *)
(** * The device manager

    Model of [src/device_manager/device_manager.rs]: which devices this node
    owns, kept both in memory and as the owner column of the bucket table,
    and the operations that move devices between nodes. The manager owns the
    scheduler; the database is shared. *)

From S2P Require Import Prelude Bytes Net Float32 Node Database Calendar Scheduler.

Local Open Scope Z_scope.
Local Open Scope hes_scope.

(** [usize::div_ceil]. *)
Definition div_ceil (a b : Z) : Z := (a + b - 1) / b.

(** Stable [sort_by] with a comparison; [before x y] is "not greater". *)
Fixpoint insert_cmp {A} (before : A → A → bool) (x : A) (l : list A) : list A :=
  match l with
  | [] => [x]
  | y :: l' => if before x y then x :: l else y :: insert_cmp before x l'
  end.
Definition sort_cmp {A} (before : A → A → bool) (l : list A) : list A := foldr (insert_cmp before) [] l.

Section device_manager.
Context `{ChronoCrate} `{HashOrder} {JS DB : Type} `{JobCrate JS} `{Engine DB}.

Record DeviceManager := mkDeviceManager {
  dm_local_node_id : Uuid;
  dm_local_bucket_count : Z;
  owned_devices : gset Z;
  dm_scheduler : Scheduler JS
}.

Definition set_owned (o : gset Z) (dm : DeviceManager) : DeviceManager :=
  mkDeviceManager (dm_local_node_id dm) (dm_local_bucket_count dm) o (dm_scheduler dm).
Definition set_dm_scheduler (s : Scheduler JS) (dm : DeviceManager) : DeviceManager :=
  mkDeviceManager (dm_local_node_id dm) (dm_local_bucket_count dm) (owned_devices dm) s.

(** [DeviceManager::new]. *)
Definition device_manager_new (local_node_id : Uuid) (local_bucket_count : Z) (s : Scheduler JS) : DeviceManager :=
  mkDeviceManager local_node_id local_bucket_count ∅ s.

(** The manager with the database. *)
Record DmState := mkDmState { dm : DeviceManager; dm_db : DB }.
Definition set_dm (m : DeviceManager) (st : DmState) : DmState := mkDmState m (dm_db st).
Definition set_dm_db (d : DB) (st : DmState) : DmState := mkDmState (dm st) d.

Definition DM (A : Type) : Type := SE DmState DeviceManagerError A.

(** [self.database.<op>.await?] and [self.scheduler.<op>.await?]. *)
Definition dm_in_db {A} (m : SE DB DatabaseError A) : DM A := szoom dm_db set_dm_db DmDatabase m.
Definition dm_in_sched {A} (m : SE (SchedState JS DB) SchedulerError A) : DM A :=
  szoom (λ st, mkSchedState (dm_scheduler (dm st)) (dm_db st))
    (λ t st, mkDmState (set_dm_scheduler (ss_sched t) (dm st)) (ss_db t)) DmScheduler m.
Definition dm_sched_mod (f : Scheduler JS → Scheduler JS) : DM unit :=
  smod (λ st, set_dm (set_dm_scheduler (f (dm_scheduler (dm st))) (dm st)) st).

Definition local_id : DM Uuid := sget (λ st, dm_local_node_id (dm st)).
Definition owned_count (st : DmState) : Z := Z.of_nat (size (owned_devices (dm st))).
(** [self.owned_devices.insert(id)] and [.remove(&id)]. *)
Definition own (id : Uuid) : DM unit := smod (λ st, set_dm (set_owned ({[id]} ∪ owned_devices (dm st)) (dm st)) st).
Definition disown (id : Uuid) : DM unit := smod (λ st, set_dm (set_owned (owned_devices (dm st) ∖ {[id]}) (dm st)) st).

Definition dm_owns_device (id : Uuid) (st : DmState) : bool := bool_decide (id ∈ owned_devices (dm st)).

(** ** Scheduler wrappers *)
Definition dm_register_device (now : Z) (device : Device) : DM Z :=
  do! next_wake <- dm_in_sched (scheduler_register_device now device) ;
  do! _ <- own (dev_id device) ;
  sret next_wake.

Definition dm_cancel_wakeup_job (id : Uuid) : DM bool := dm_in_sched (scheduler_cancel_wakeup_job id).

Definition dm_abort_active_wakeup (id : Uuid) : DM bool := λ st,
  let (b, s) := scheduler_abort_active_wakeup id (dm_scheduler (dm st)) in
  (Ok b, set_dm (set_dm_scheduler s (dm st)) st).

Definition schedule_next_wakeup (now : Z) (id : Uuid) : DM unit := dm_in_sched (schedule_next_wakeup_job now id).

Definition dm_schedule_delegated_device (id : Uuid) (t : Z) : DM unit :=
  dm_in_sched (scheduler_schedule_delegated_device id t).

Definition remove_scheduled_device (id : Uuid) : DM unit := dm_sched_mod (scheduler_remove_owned_device id).
Definition dm_enable_cluster_mode (owned : gset Z) : DM unit := dm_sched_mod (scheduler_enable_cluster_mode owned).
Definition dm_set_reschedule_sender : DM unit := dm_sched_mod set_reschedule_sender.
Definition dm_reload_active_connections (clock : nat → Z) : DM unit :=
  dm_in_sched (scheduler_reload_active_connections clock).
Definition dm_get_scheduled_connections : DM (list ScheduledConnection) :=
  dm_in_sched scheduler_get_scheduled_connections.

(** ** Ownership *)
Definition dm_add_owned_device (id : Uuid) : DM unit := own id.

Definition load_from_database : DM unit :=
  do! me <- local_id ;
  do! devices <- dm_in_db (get_devices_by_owner me) ;
  do! _ <- smod (λ st, set_dm (set_owned ∅ (dm st)) st) ;
  sfor devices own.

(** [set_device_owner(id, local)?; owned_devices.insert(id)]. *)
Definition claim (id : Uuid) : DM unit :=
  do! me <- local_id ;
  do! _ <- dm_in_db (set_device_owner id me) ;
  own id.

Definition claim_unassigned_devices : DM (list Uuid) :=
  do! all_devices <- dm_in_db (get_devices_by_owner uuid_nil) ;
  if decide (all_devices = []) then sret []
  else do! _ <- sfor all_devices claim ; sret all_devices.

Definition claim_all_devices : DM (list Uuid) :=
  do! all_devices <- dm_in_db get_all_device_ids ;
  if decide (all_devices = []) then sret all_devices
  else do! _ <- sfor all_devices claim ; sret all_devices.

(** The body shared by [get_devices_for_delegation] and the shutdown delegation: the
    device with its schedule, or [now] plus a day when it has none. *)
Definition delegated_of (now : Z) (id : Uuid) : DM DelegatedDevice :=
  do! device <- dm_in_db (get_device id) ;
  do! conn <- sresult (dm_in_db (get_scheduled_connection id)) ;
  sret (mkDelegated (dev_id device) (dev_ipv4 device) (dev_ipv6 device)
    (match conn with Ok c => schedule_time c | _ => now + ns_per_day end)).

Definition get_devices_for_delegation (now : Z) (active_node_count : Z) : DM (list DelegatedDevice) := λ st,
  if active_node_count <=? 1 then (Ok [], st)
  else
    let current_count := owned_count st in
    let fair_share := current_count / active_node_count in
    let to_give := sat_sub current_count fair_share in
    if to_give =? 0 then (Ok [], st)
    else
      let ids := take (Z.to_nat to_give) (set_iter (owned_devices (dm st))) in
      scollect ids (delegated_of now) st.

Definition accept_delegation (devices : list DelegatedDevice) : DM (list Uuid) :=
  scollect devices (λ d,
    do! _ <- claim (dd_device_id d) ;
    do! _ <- dm_schedule_delegated_device (dd_device_id d) (dd_schedule_time d) ;
    sret (dd_device_id d)).

Definition release_devices (ids : list Uuid) : DM unit := sfor ids disown.

Definition devices_for_shutdown (st : DmState) : list Uuid := set_iter (owned_devices (dm st)).

(** The loop body of [redistribute_from_failed]. *)
Definition reassign (nodes : list (Uuid * Z)) (p : nat * Uuid) : DM unit :=
  let (i, id) := p in
  match nodes !! (i mod length nodes)%nat with
  | None => spanic
  | Some (target, _) =>
      do! _ <- dm_in_db (set_device_owner id target) ;
      do! me <- local_id ;
      if target =? me then own id else sret tt
  end.

Definition redistribute_from_failed (failed : Uuid) (other_active_nodes : list (Uuid * Z)) : DM unit :=
  do! orphaned <- dm_in_db (get_devices_by_owner failed) ;
  if decide (orphaned = []) then sret tt
  else
    do! me <- local_id ;
    do! count <- sget owned_count ;
    let all_nodes := sort_by_key snd (other_active_nodes ++ [(me, count)]) in
    if decide (all_nodes = []) then serr DmNoNodesAvailable
    else sfor (imap pair orphaned) (reassign all_nodes).

(** ** Rebalancing by load *)
Record PeerLoad := mkPeerLoad { pl_id : Uuid; pl_count : Z; pl_load : f32; pl_max : Z }.

Definition average_load (peers : list PeerLoad) (local_load : f32) : f32 :=
  let total_load := fold_left f32_add (pl_load <$> peers) f32_zero in
  f32_div (f32_add total_load local_load) (f32_of_Z (Z.of_nat (length peers) + 1)).

Definition underloaded_peers (avg : f32) (peers : list PeerLoad) : list PeerLoad :=
  sort_cmp (λ a b, negb (f32_lt (pl_load b) (pl_load a)))
    (filter (λ p, f32_lt (pl_load p) avg = true) peers).

Definition devices_to_shed (avg : f32) (my_count local_max : Z) : Z :=
  if 0 <? local_max then
    sat_sub my_count (f32_to_usize (f32_mul (f32_div avg f32_100) (f32_of_Z local_max)))
  else 0.

Definition peer_capacity (avg : f32) (per_node : Z) (p : PeerLoad) : Z :=
  let max_acceptable :=
    if 0 <? pl_max p then f32_to_u32 (f32_mul (f32_div avg f32_100) (f32_of_Z (pl_max p)))
    else wrap_u32 (pl_count p + wrap_u32 per_node) in
  Z.min (sat_sub max_acceptable (pl_count p)) per_node.

(** [for _ in 0..can_take { if device_idx >= len { break } .. }]; returns what is left. *)
Fixpoint give_devices (node : Uuid) (can_take : nat) (devices : list Uuid) : DM (list Uuid) :=
  match can_take, devices with
  | S n, id :: rest =>
      do! _ <- dm_in_db (set_device_owner id node) ;
      do! _ <- disown id ;
      give_devices node n rest
  | _, _ => sret devices
  end.

Fixpoint shed_to (avg : f32) (per_node : Z) (peers : list PeerLoad) (devices : list Uuid) : DM unit :=
  match peers with
  | [] => sret tt
  | p :: peers' =>
      do! rest <- give_devices (pl_id p) (Z.to_nat (peer_capacity avg per_node p)) devices ;
      if decide (rest = []) then sret tt else shed_to avg per_node peers' rest
  end.

Definition rebalance_cluster (peers : list PeerLoad) (local_load : f32) (local_max : Z) : DM unit := λ st,
  if decide (peers = []) then (Ok tt, st)
  else
    let avg := average_load peers local_load in
    let under := underloaded_peers avg peers in
    if decide (under = []) then (Ok tt, st)
    else
      let to_shed := devices_to_shed avg (owned_count st) local_max in
      if to_shed =? 0 then (Ok tt, st)
      else
        let devices := take (Z.to_nat to_shed) (set_iter (owned_devices (dm st))) in
        shed_to avg (div_ceil to_shed (Z.of_nat (length under))) under devices st.
End device_manager.
Arguments DeviceManager JS : clear implicits.
Arguments DmState JS DB : clear implicits.
Arguments DM JS DB A : clear implicits.
