(* ===== verification/DeviceManagerFacts.v ===== *)
(** * Facts about the device manager

    The ownership invariant (the set in memory is the set of devices whose
    owner column names this node), kept by every operation whatever its
    outcome; the exact effect of the redistribution after a failure; the
    limits of rebalancing. Proved for any engine with the contract
    [OwnershipEngine]. *)

From S2P Require Import Prelude Bytes Net Float32 Node Database DatabaseFacts Calendar Scheduler SchedulerFacts DeviceManager.

Local Open Scope Z_scope.
Local Open Scope hes_scope.

Section facts.
Context `{ChronoCrate} `{HashOrder} {JS DB : Type} `{JobCrate JS} `{OwnershipEngine DB}.
Implicit Types (st : DmState JS DB) (id node : Uuid).

(** The table of assignments as the manager sees it, and its own identifier. *)
Definition table st : gmap Z (Z * Uuid) := assignments (dm_db st).
Definition me st : Uuid := dm_local_node_id (dm st).
Definition owned st : gset Z := owned_devices (dm st).

(** [owner := node] in the row of [id], if there is one. *)
Definition assign_owner (node id : Z) (m : gmap Z (Z * Uuid)) : gmap Z (Z * Uuid) := alter (λ e, (e.1, node)) id m.

Definition ownership_inv st : Prop := ∀ id, id ∈ owned st ↔ ∃ b, table st !! id = Some (b, me st).

Lemma assign_owner_eq node id m : assign_owner node id m !! id = (λ e, (e.1, node)) <$> m !! id.
Proof. apply lookup_alter_eq. Qed.
Lemma assign_owner_ne node id id' m : id ≠ id' → assign_owner node id m !! id' = m !! id'.
Proof. apply lookup_alter_ne. Qed.
Lemma assign_owner_dom node id m : dom (assign_owner node id m) = dom m.
Proof. apply dom_alter_L. Qed.

(** ** Effect of the primitive steps *)
Lemma set_owner_ok id node st :
  ∃ st', dm_in_db (set_device_owner id node) st = (Ok tt, st') ∧
    dm st' = dm st ∧ table st' = assign_owner node id (table st).
Proof.
  destruct (owner_update id node (dm_db st)) as (db' & Hset & Hm).
  exists (set_dm_db db' st). unfold dm_in_db, szoom. by rewrite Hset.
Qed.

Lemma query_ok node st :
  ∃ l, dm_in_db (get_devices_by_owner node) st = (Ok l, st) ∧ NoDup l ∧
    ∀ id, id ∈ l ↔ ∃ b, table st !! id = Some (b, node).
Proof.
  destruct (owner_query node (dm_db st)) as (l & Hq & Hl). exists l.
  unfold dm_in_db, szoom. rewrite Hq. split; [by destruct st|done].
Qed.

Lemma claim_ok id st :
  ∃ st', claim id st = (Ok tt, st') ∧ dm st' = set_owned ({[id]} ∪ owned st) (dm st) ∧
    table st' = assign_owner (me st) id (table st).
Proof.
  destruct (set_owner_ok id (me st) st) as (st1 & Hset & Hdm & Htab).
  unfold claim, local_id. rewrite sbind_get. sstep Hset.
  eexists. split; [done|]. unfold owned. by rewrite <- Hdm.
Qed.

Lemma claim_inv id st :
  ownership_inv st → id ∈ dom (table st) → ownership_inv (claim id st).2 ∧
  dom (table (claim id st).2) = dom (table st).
Proof.
  intros Hinv [e He]%elem_of_dom. destruct (claim_ok id st) as (st' & -> & Hdm & Htab).
  split; [|simpl; by rewrite Htab, assign_owner_dom].
  intros id'. simpl. unfold owned, me in *. rewrite Htab, Hdm. simpl.
  destruct (decide (id' = id)) as [->|Hne].
  - rewrite assign_owner_eq, He. simpl. split; [by eauto|set_solver].
  - rewrite assign_owner_ne by done. specialize (Hinv id'). unfold owned, me in Hinv. set_solver.
Qed.

(** Operations of the scheduler on jobs and connections change neither ownership nor the table. *)
Lemma schedule_delegated_frame id t st r st' :
  dm_schedule_delegated_device id t st = (r, st') →
  me st' = me st ∧ owned st' = owned st ∧ table st' = table st.
Proof.
  unfold dm_schedule_delegated_device, dm_in_sched, szoom, scheduler_schedule_delegated_device,
    sbind, create_wakeup_job. simpl.
  destruct (js_add _ _) as [[j|] js]; [|by intros [= <- <-]].
  destruct (schedule_frame id t j (dm_db st)) as (db' & Hs & Ha).
  unfold in_db, szoom. simpl. rewrite Hs. by intros [= <- <-].
Qed.

(** ** The operations *)
Lemma load_inv st : ownership_inv (load_from_database st).2 ∧ table (load_from_database st).2 = table st
  ∧ ∃ st', load_from_database st = (Ok tt, st').
Proof.
  unfold load_from_database, local_id. rewrite sbind_get.
  destruct (query_ok (me st) st) as (l & Hq & _ & Hl). sstep Hq. rewrite sbind_mod.
  set (st0 := set_dm (set_owned ∅ (dm st)) st).
  assert (Hloop : ∀ l s, ∃ s', sfor l own s = (Ok tt, s') ∧ table s' = table s ∧ me s' = me s ∧
    owned s' = list_to_set l ∪ owned s).
  { clear. intros l. induction l as [|x l IH]; intros s.
    { exists s. simpl. by rewrite union_empty_l_L. }
    destruct (IH (set_dm (set_owned ({[x]} ∪ owned s) (dm s)) s)) as (s' & Hs & Ht & Hm & Ho).
    exists s'. split; [exact Hs|]. split; [done|]. split; [done|]. rewrite Ho. unfold owned. simpl. by rewrite (assoc_L (∪)), (comm_L (∪) (list_to_set l)). }
  destruct (Hloop l st0) as (s' & -> & Ht & Hm & Ho). simpl. split; [|split; [done|by eexists]].
  intros id. rewrite Ho, Ht, Hm. unfold st0, owned, me, table. simpl.
  rewrite elem_of_union, elem_of_list_to_set, Hl. set_solver.
Qed.

Lemma claim_list_inv l st :
  ownership_inv st → (∀ id, id ∈ l → id ∈ dom (table st)) → ownership_inv (sfor l claim st).2.
Proof.
  intros Hinv Hl.
  apply (sfor_inv (λ s, ownership_inv s ∧ dom (table s) = dom (table st))); [|done].
  intros id s Hid [Hs Hd]. rewrite <- Hd. apply claim_inv; [done|]. rewrite Hd. by apply Hl.
Qed.

Lemma claim_unassigned_inv st : ownership_inv st → ownership_inv (claim_unassigned_devices st).2.
Proof.
  intros Hinv. unfold claim_unassigned_devices.
  destruct (query_ok uuid_nil st) as (l & Hq & _ & Hl). sstep Hq.
  case_decide; [done|]. apply sbind_keeps.
  - apply claim_list_inv; [done|]. intros id [b Hb]%Hl. by apply elem_of_dom.
  - by intros [] s1 _ Hs.
Qed.

Lemma accept_inv devices st :
  ownership_inv st → (∀ d, d ∈ devices → dd_device_id d ∈ dom (table st)) →
  ownership_inv (accept_delegation devices st).2.
Proof.
  intros Hinv Hd. unfold accept_delegation.
  apply (scollect_inv (λ s, ownership_inv s ∧ dom (table s) = dom (table st))); [|done].
  intros d s Hin [Hs Hdom].
  apply (sbind_keeps (λ s, ownership_inv s ∧ dom (table s) = dom (table st))).
  { rewrite <- Hdom. apply claim_inv; [done|]. rewrite Hdom. by apply Hd. }
  intros [] s1 _ Hs1. apply (sbind_keeps (λ s, ownership_inv s ∧ dom (table s) = dom (table st))).
  - destruct (dm_schedule_delegated_device _ _ s1) as [r s2] eqn:Hsch.
    apply schedule_delegated_frame in Hsch as (Hm & Ho & Ht). destruct Hs1 as [Hs1 Hdom1].
    simpl. split; [|by rewrite Ht]. intros id. rewrite Ho, Ht, Hm. apply Hs1.
  - by intros [] s2 _ Hs2.
Qed.

Lemma register_inv now d st :
  ownership_inv st → can_schedule (dm_scheduler (dm st)) now → table st !! dev_id d = None →
  sch_local_node_id (dm_scheduler (dm st)) = me st →
  ownership_inv (dm_register_device now d st).2.
Proof.
  intros Hinv Hs Hnew Hid. unfold dm_register_device, dm_in_sched, szoom, sbind at 1.
  destruct (register_device_ok (mkSchedState (dm_scheduler (dm st)) (dm_db st)) now d Hs Hnew)
    as (b & t & db' & -> & _ & _ & _ & Hdb'). simpl in *.
  intros id. unfold owned, table, me in *. simpl. rewrite Hdb', Hid.
  destruct (decide (id = dev_id d)) as [->|Hne].
  - rewrite lookup_insert_eq. split; [by eauto|set_solver].
  - rewrite lookup_insert_ne by done. specialize (Hinv id). set_solver.
Qed.

(** ** Delegation *)

(** The jobs of the manager's scheduler. *)
Definition dm_jobs st : gmap Z WakeupJob := js_jobs (job_scheduler (dm_scheduler (dm st))).

Lemma schedule_delegated_ok id t st :
  accepts_jobs (JS := JS) → ∃ j st', dm_schedule_delegated_device id t st = (Ok tt, st') ∧
    me st' = me st ∧ owned st' = owned st ∧ table st' = table st ∧ dm_jobs st !! j = None ∧
    dm_jobs st' = <[j := mkJob t id (reschedule_tx (dm_scheduler (dm st)))]> (dm_jobs st) ∧
    reschedule_tx (dm_scheduler (dm st')) = reschedule_tx (dm_scheduler (dm st)).
Proof.
  intros Hacc. unfold dm_schedule_delegated_device, dm_in_sched, szoom, scheduler_schedule_delegated_device,
    sbind, create_wakeup_job. simpl.
  destruct (Hacc (mkJob t id (reschedule_tx (dm_scheduler (dm st)))) (job_scheduler (dm_scheduler (dm st))))
    as (j & js & Hadd). rewrite Hadd.
  destruct (schedule_frame id t j (dm_db st)) as (db' & Hs & Ha). apply js_add_ok in Hadd as [Hfresh Hjobs].
  unfold in_db, szoom. simpl. rewrite Hs. exists j. eexists. split; [done|]. done.
Qed.

(** Accepting devices gives them to this node and adds a job per device at the requested time. *)
Lemma accept_ok devices st :
  accepts_jobs (JS := JS) → ∃ st', accept_delegation devices st = (Ok (dd_device_id <$> devices), st') ∧
    me st' = me st ∧ owned st' = list_to_set (dd_device_id <$> devices) ∪ owned st ∧
    (∀ id, table st' !! id = if decide (id ∈ dd_device_id <$> devices)
                             then (λ e, (e.1, me st)) <$> table st !! id else table st !! id) ∧
    dm_jobs st ⊆ dm_jobs st' ∧
    (∀ d, d ∈ devices → ∃ j, dm_jobs st' !! j
       = Some (mkJob (dd_schedule_time d) (dd_device_id d) (reschedule_tx (dm_scheduler (dm st))))).
Proof.
  intros Hacc. revert st. induction devices as [|d devices IH]; intros st.
  { exists st. split; [done|]. split; [done|]. split; [simpl; by rewrite union_empty_l_L|].
    split; [done|]. split; [done|]. set_solver. }
  destruct (claim_ok (dd_device_id d) st) as (st1 & Hclaim & Hdm1 & Htab1).
  destruct (schedule_delegated_ok (dd_device_id d) (dd_schedule_time d) st1 Hacc)
    as (j & st2 & Hsch & Hme2 & Ho2 & Ht2 & Hfresh & Hjobs2 & Htx2).
  destruct (IH st2) as (st' & Hacc' & Hme' & Ho' & Ht' & Hsub & Hd).
  assert (Hme1 : me st1 = me st) by (unfold me; by rewrite Hdm1).
  assert (Hj1 : dm_jobs st1 = dm_jobs st) by (unfold dm_jobs; by rewrite Hdm1).
  assert (Htx1 : reschedule_tx (dm_scheduler (dm st1)) = reschedule_tx (dm_scheduler (dm st))) by (by rewrite Hdm1).
  exists st'. split.
  { unfold accept_delegation in *. cbn [scollect]. unfold sbind at 1. sstep Hclaim. sstep Hsch. cbn.
    sstep Hacc'. done. }
  split; [congruence|]. split; [|split; [|split]].
  - rewrite Ho', Ho2. unfold owned at 1. rewrite Hdm1. simpl.
    by rewrite (assoc_L (∪)), (comm_L (∪) (list_to_set _)).
  - intros id. rewrite Ht', Ht2, Htab1, Hme2, Hme1. rewrite fmap_cons.
    destruct (decide (id = dd_device_id d)) as [->|Hne].
    + rewrite assign_owner_eq. rewrite (decide_True (P := dd_device_id d ∈ dd_device_id d :: _)) by set_solver.
      case_decide; [|done]. by destruct (table st !! dd_device_id d).
    + rewrite assign_owner_ne by done. apply decide_ext. set_solver.
  - rewrite <- Hj1. etrans; [|done]. rewrite Hjobs2. by apply insert_subseteq.
  - intros x [->|Hx]%elem_of_cons.
    + exists j. eapply lookup_weaken; [|done]. by rewrite Hjobs2, lookup_insert_eq, Htx1.
    + destruct (Hd x Hx) as [j' Hj']. exists j'. by rewrite Hj', Htx2, Htx1.
Qed.

Lemma release_ok ids st :
  ∃ st', release_devices ids st = (Ok tt, st') ∧ dm_db st' = dm_db st ∧ me st' = me st ∧
    owned st' = owned st ∖ list_to_set ids ∧ dm_scheduler (dm st') = dm_scheduler (dm st).
Proof.
  revert st. induction ids as [|id ids IH]; intros st.
  { exists st. split; [done|]. split; [done|]. split; [done|]. split; [simpl; by rewrite difference_empty_L|done]. }
  destruct (IH (set_dm (set_owned (owned st ∖ {[id]}) (dm st)) st)) as (st' & Hr & Hdb & Hm & Ho & Hs).
  exists st'. split; [exact Hr|]. split; [done|]. split; [done|]. split; [|done].
  rewrite Ho. unfold owned. simpl. by rewrite difference_difference_l_L.
Qed.

Lemma unschedule_ok ids st :
  ∃ st', sfor ids remove_scheduled_device st = (Ok tt, st') ∧ dm_db st' = dm_db st ∧ me st' = me st ∧
    owned st' = owned st ∧ dm_jobs st' = dm_jobs st.
Proof.
  apply (sfor_ok (λ s, dm_db s = dm_db st ∧ me s = me st ∧ owned s = owned st ∧ dm_jobs s = dm_jobs st)); [|done].
  intros id s _ (Hdb & Hm & Ho & Hj). by eexists.
Qed.

(** ** Redistribution *)
Lemma reassign_ok nodes i id st n c :
  nodes !! (i mod length nodes)%nat = Some (n, c) →
  ∃ st', reassign nodes (i, id) st = (Ok tt, st') ∧ me st' = me st ∧
    table st' = assign_owner n id (table st) ∧
    owned st' = if n =? me st then {[id]} ∪ owned st else owned st.
Proof.
  intros Hn. unfold reassign. rewrite Hn.
  destruct (set_owner_ok id n st) as (st1 & Hset & Hdm & Htab). sstep Hset.
  unfold local_id. rewrite sbind_get. rewrite Hdm. fold (me st).
  destruct (n =? me st); (eexists; split; [done|]; unfold me, owned; simpl; by rewrite Hdm).
Qed.

(** [nodes] in turn, starting with the [k]-th. *)
Definition turn (nodes : list (Uuid * Z)) (k i : nat) (n : Uuid) : Prop :=
  ∃ c, nodes !! ((k + i) mod length nodes)%nat = Some (n, c).

Lemma reassign_loop nodes l k st :
  nodes ≠ [] → NoDup l →
  ∃ st', sfor (imap (λ i id, ((k + i)%nat, id)) l) (reassign nodes) st = (Ok tt, st') ∧ me st' = me st ∧
    (∀ id, id ∉ l → table st' !! id = table st !! id) ∧
    (∀ i id, l !! i = Some id → ∃ n, turn nodes k i n ∧
        table st' !! id = (λ e, (e.1, n)) <$> table st !! id) ∧
    (∀ id, id ∈ owned st' ↔ id ∈ owned st ∨ ∃ i, l !! i = Some id ∧ turn nodes k i (me st)).
Proof.
  intros Hne. revert k st. induction l as [|id l IH]; intros k st Hnd.
  { exists st. split; [done|]. split; [done|]. split; [done|]. split; [done|]. naive_solver. }
  apply NoDup_cons in Hnd as [Hid Hnd].
  assert (Hturn : ∃ n c, nodes !! ((k + 0) mod length nodes)%nat = Some (n, c)).
  { assert (length nodes ≠ 0)%nat by (by destruct nodes).
    destruct (lookup_lt_is_Some_2 nodes ((k + 0) mod length nodes)%nat) as [[n c] Hn]; [|eauto].
    by apply Nat.mod_upper_bound. }
  destruct Hturn as (n & c & Hn).
  destruct (reassign_ok nodes (k + 0) id st n c Hn) as (st1 & Hstep & Hme & Htab & Hown).
  destruct (IH (S k) st1 Hnd) as (st' & Hloop & Hme' & Hout & Hin & Hown').
  assert (Hshift : ∀ i m, turn nodes (S k) i m ↔ turn nodes k (S i) m).
  { intros i m. unfold turn. by replace (S k + i)%nat with (k + S i)%nat by lia. }
  exists st'. split; [|split; [congruence|split; [|split]]].
  - rewrite imap_cons. cbn [sfor]. sstep Hstep. rewrite <- Hloop. f_equal.
    apply imap_ext. intros i x _. simpl. f_equal. lia.
  - intros id' Hid'. rewrite Hout by set_solver. rewrite Htab. apply assign_owner_ne. set_solver.
  - intros [|i] id' Hi; simpl in Hi.
    + simplify_eq. exists n. split; [by exists c|]. by rewrite Hout, Htab, assign_owner_eq.
    + destruct (Hin i id' Hi) as (m & Hm & Hrow). exists m. split; [by apply Hshift|].
      rewrite Hrow, Htab, assign_owner_ne; [done|]. intros ->. by apply Hid, (list_elem_of_lookup_2 _ i).
  - intros id'. rewrite Hown', Hme, Hown. split.
    + intros [Ho|(i & Hi & Ht)]; [|right; exists (S i); split; [done|by apply Hshift]].
      destruct (Z.eqb_spec n (me st)) as [->|]; [|by left].
      apply elem_of_union in Ho as [->%elem_of_singleton|Ho]; [|by left].
      right. exists 0%nat. split; [done|]. by exists c.
    + intros [Ho|([|i] & Hi & Ht)].
      * left. destruct (n =? me st); set_solver.
      * simpl in Hi. simplify_eq. destruct Ht as [c' Hc']. rewrite Hn in Hc'. simplify_eq.
        left. rewrite Z.eqb_refl. set_solver.
      * right. exists i. split; [done|]. by apply Hshift.
Qed.

(** The nodes that take over, by increasing number of devices. *)
Definition takers (others : list (Uuid * Z)) st : list (Uuid * Z) :=
  sort_by_key snd (others ++ [(me st, Z.of_nat (size (owned st)))]).

Lemma takers_nonempty others st : takers others st ≠ [].
Proof.
  unfold takers. intros Hnil. pose proof (sort_by_key_perm snd (others ++ [(me st, Z.of_nat (size (owned st)))])) as Hp.
  rewrite Hnil in Hp. apply Permutation_nil_l in Hp. by destruct others.
Qed.

Lemma elem_of_takers others st n c :
  (n, c) ∈ takers others st → n = me st ∨ n ∈ others.*1.
Proof.
  unfold takers. rewrite sort_by_key_perm, elem_of_app, list_elem_of_singleton.
  intros [Hin|[= -> _]]; [right|by left]. apply list_elem_of_fmap. by exists (n, c).
Qed.

Lemma redistribute_ok failed others st :
  ∃ l st', redistribute_from_failed failed others st = (Ok tt, st') ∧ me st' = me st ∧ NoDup l ∧
    (∀ id, id ∈ l ↔ ∃ b, table st !! id = Some (b, failed)) ∧
    (∀ id, id ∉ l → table st' !! id = table st !! id) ∧
    (∀ i id b, l !! i = Some id → table st !! id = Some (b, failed) →
       ∃ n, turn (takers others st) 0 i n ∧ table st' !! id = Some (b, n)) ∧
    (∀ id, id ∈ owned st' ↔ id ∈ owned st ∨ ∃ i, l !! i = Some id ∧ turn (takers others st) 0 i (me st)).
Proof.
  unfold redistribute_from_failed. destruct (query_ok failed st) as (l & Hq & Hnd & Hl).
  exists l. sstep Hq. case_decide as Hnil.
  { subst l. exists st. split; [done|]. split; [done|]. split; [done|]. split; [done|].
    split; [done|]. split; [done|]. naive_solver. }
  unfold local_id. rewrite !sbind_get. fold (takers others st).
  rewrite decide_False by apply takers_nonempty.
  destruct (reassign_loop (takers others st) l 0 st (takers_nonempty _ _) Hnd)
    as (st' & Hloop & Hme & Hout & Hin & Hown).
  exists st'. split; [exact Hloop|]. split; [done|]. split; [done|]. split; [done|]. split; [done|].
  split; [|done]. intros i id b Hi Hb. destruct (Hin i id Hi) as (n & Hn & Hrow).
  exists n. split; [done|]. by rewrite Hrow, Hb.
Qed.

Lemma redistribute_clears failed others st id b :
  failed ≠ me st → failed ∉ others.*1 →
  table (redistribute_from_failed failed others st).2 !! id ≠ Some (b, failed).
Proof.
  intros Hme Hothers Hb. destruct (redistribute_ok failed others st) as (l & st' & Hrun & _ & _ & Hl & Hout & Hin & _).
  rewrite Hrun in Hb. simpl in Hb. destruct (decide (id ∈ l)) as [Hid|Hid].
  - pose proof Hid as [b0 Hb0]%Hl. apply list_elem_of_lookup in Hid as [i Hi].
    destruct (Hin i id b0 Hi Hb0) as (n & [c Hc] & Hrow). rewrite Hrow in Hb. simplify_eq.
    apply list_elem_of_lookup_2, elem_of_takers in Hc as [?|?]; done.
  - rewrite Hout in Hb by done. apply Hid, Hl. by exists b.
Qed.

(** A node that is offered nothing and owns nothing gets nothing. *)
Lemma redistribute_unowned failed others st x id b :
  x ≠ me st → x ∉ others.*1 → (∀ id b, table st !! id ≠ Some (b, x)) →
  table (redistribute_from_failed failed others st).2 !! id ≠ Some (b, x).
Proof.
  intros Hme Hothers Hfree Hb. destruct (redistribute_ok failed others st) as (l & st' & Hrun & _ & _ & Hl & Hout & Hin & _).
  rewrite Hrun in Hb. simpl in Hb. destruct (decide (id ∈ l)) as [Hid|Hid].
  - pose proof Hid as [b0 Hb0]%Hl. apply list_elem_of_lookup in Hid as [i Hi].
    destruct (Hin i id b0 Hi Hb0) as (n & [c Hc] & Hrow). rewrite Hrow in Hb. simplify_eq.
    apply list_elem_of_lookup_2, elem_of_takers in Hc as [?|?]; done.
  - rewrite Hout in Hb by done. by apply Hfree in Hb.
Qed.

Lemma redistribute_inv failed others st :
  failed ≠ me st → ownership_inv st → ownership_inv (redistribute_from_failed failed others st).2.
Proof.
  intros Hne Hinv. destruct (redistribute_ok failed others st)
    as (l & st' & -> & Hme & Hnd & Hl & Hout & Hin & Hown). simpl.
  intros id. rewrite Hown, Hme. destruct (decide (id ∈ l)) as [Hid|Hid].
  - pose proof Hid as [b Hb]%Hl. apply list_elem_of_lookup in Hid as [i Hi].
    destruct (Hin i id b Hi Hb) as (n & Hn & Hrow). rewrite Hrow.
    assert (id ∉ owned st) by (intros [b' Hb']%Hinv; congruence).
    split; [|intros [b' [= -> ->]]; right; by exists i].
    intros [?|(j & Hj & Ht)]; [done|].
    rewrite (NoDup_lookup l j i id) in Ht by done.
    destruct Hn as [c Hc], Ht as [c' Hc']. rewrite Hc in Hc'. simplify_eq. by exists b.
  - rewrite Hout by done. rewrite (Hinv id). split; [|by left].
    intros [?|(i & Hi & _)]; [done|]. by apply list_elem_of_lookup_2 in Hi.
Qed.

(** ** Rebalancing *)

(** [given] left this node for the nodes of [targets]; nothing else moved. *)
Definition moved (targets : list Uuid) (given : list Uuid) st st' : Prop :=
  me st' = me st ∧ owned st' = owned st ∖ list_to_set given ∧
  (∀ id, id ∉ given → table st' !! id = table st !! id) ∧
  (∀ id, id ∈ given → ∃ n, n ∈ targets ∧ table st' !! id = (λ e, (e.1, n)) <$> table st !! id).

Lemma moved_none targets st : moved targets [] st st.
Proof. split; [done|]. split; [|set_solver]. by rewrite list_to_set_nil, difference_empty_L. Qed.

Lemma moved_trans targets1 targets2 g1 g2 st st1 st2 :
  (∀ id, id ∈ g1 → id ∉ g2) → moved targets1 g1 st st1 → moved targets2 g2 st1 st2 →
  moved (targets1 ++ targets2) (g1 ++ g2) st st2.
Proof.
  intros Hdis (Hm1 & Ho1 & Hout1 & Hin1) (Hm2 & Ho2 & Hout2 & Hin2).
  split; [congruence|]. split; [by rewrite Ho2, Ho1, list_to_set_app_L, difference_difference_l_L|]. split.
  - intros id [Hn1 Hn2]%not_elem_of_app. by rewrite Hout2, Hout1.
  - intros id [Hi|Hi]%elem_of_app.
    + destruct (Hin1 id Hi) as (n & Hn & Hrow). exists n. rewrite Hout2 by auto. set_solver.
    + destruct (Hin2 id Hi) as (n & Hn & Hrow). exists n. split; [set_solver|].
      rewrite Hrow, Hout1; [done|]. intros Hi1. by apply (Hdis id).
Qed.

Lemma give_devices_ok node k devices st :
  NoDup devices → ∃ given rest st', give_devices node k devices st = (Ok rest, st') ∧
    devices = given ++ rest ∧ moved [node] given st st'.
Proof.
  revert k st. induction devices as [|id devices IH]; intros k st Hnd.
  { exists [], [], st. split; [by destruct k|]. split; [done|]. apply moved_none. }
  destruct k as [|k].
  { exists [], (id :: devices), st. split; [done|]. split; [done|]. apply moved_none. }
  apply NoDup_cons in Hnd as [Hid Hnd].
  destruct (set_owner_ok id node st) as (st1 & Hset & Hdm & Htab).
  set (st2 := set_dm (set_owned (owned st1 ∖ {[id]}) (dm st1)) st1).
  destruct (IH k st2 Hnd) as (given & rest & st' & Hgive & -> & Hmoved).
  exists (id :: given), rest, st'. split; [cbn [give_devices]; by sstep Hset|]. split; [done|].
  apply (moved_trans [node] [node] [id] given st st2 st') in Hmoved.
  - destruct Hmoved as (Hm & Ho & Hout & Hin). split; [done|]. split; [done|]. split; [done|].
    intros x Hx. destruct (Hin x Hx) as (n & Hn & Hrow). exists n. set_solver.
  - set_solver.
  - split; [unfold st2, me; simpl; by rewrite Hdm|]. split.
    { unfold st2, owned. simpl. rewrite Hdm. f_equal. by rewrite union_empty_r_L. }
    split; intros x Hx; change (table st2) with (table st1); rewrite Htab.
    + apply assign_owner_ne. set_solver.
    + apply list_elem_of_singleton in Hx as ->. exists node. split; [set_solver|]. apply assign_owner_eq.
Qed.

Lemma shed_to_ok avg per peers devices st :
  NoDup devices → ∃ given rest st', shed_to avg per peers devices st = (Ok tt, st') ∧
    devices = given ++ rest ∧ moved (pl_id <$> peers) given st st'.
Proof.
  revert devices st. induction peers as [|p peers IH]; intros devices st Hnd.
  { exists [], devices, st. split; [done|]. split; [done|]. apply moved_none. }
  destruct (give_devices_ok (pl_id p) (Z.to_nat (peer_capacity avg per p)) devices st Hnd)
    as (g1 & rest1 & st1 & Hgive & Hsplit & Hmoved).
  cbn [shed_to]. sstep Hgive. case_decide as Hrest.
  - exists g1, [], st1. split; [done|]. subst rest1. split; [done|].
    pose proof (moved_trans _ _ _ _ _ _ _ (λ _ _, not_elem_of_nil _) Hmoved (moved_none (pl_id <$> peers) st1)) as Hm.
    by rewrite app_nil_r in Hm.
  - rewrite Hsplit in Hnd. apply NoDup_app in Hnd as (_ & Hdis & Hnd).
    destruct (IH rest1 st1 Hnd) as (g2 & rest & st' & Hshed & -> & Hmoved').
    exists (g1 ++ g2), rest, st'. split; [done|]. split; [by rewrite Hsplit, (assoc_L (++))|].
    rewrite fmap_cons. apply (moved_trans [pl_id p] (pl_id <$> peers) g1 g2 st st1 st'); [|done..].
    intros id Hin1 Hin2. apply (Hdis id Hin1). set_solver.
Qed.

Lemma insert_cmp_perm {A} (before : A → A → bool) x l : insert_cmp before x l ≡ₚ x :: l.
Proof.
  induction l as [|y l IH]; simpl; [done|]. case_match; [done|]. rewrite IH. apply Permutation_swap.
Qed.
Lemma sort_cmp_perm {A} (before : A → A → bool) l : sort_cmp before l ≡ₚ l.
Proof. induction l as [|x l IH]; simpl; [done|]. by rewrite insert_cmp_perm, IH. Qed.

Lemma elem_of_underloaded avg peers p :
  p ∈ underloaded_peers avg peers ↔ f32_lt (pl_load p) avg = true ∧ p ∈ peers.
Proof. unfold underloaded_peers. by rewrite sort_cmp_perm, list_elem_of_filter. Qed.

Lemma rebalance_ok peers load maxd st :
  ∃ given st', rebalance_cluster peers load maxd st = (Ok tt, st') ∧
    moved (pl_id <$> underloaded_peers (average_load peers load) peers) given st st' ∧
    NoDup given ∧ (∀ id, id ∈ given → id ∈ owned st) ∧
    Z.of_nat (length given) <= devices_to_shed (average_load peers load) (owned_count st) maxd.
Proof.
  assert (Hstay : ∃ given, moved (pl_id <$> underloaded_peers (average_load peers load) peers) given st st ∧
    NoDup given ∧ (∀ id, id ∈ given → id ∈ owned st) ∧
    Z.of_nat (length given) <= devices_to_shed (average_load peers load) (owned_count st) maxd).
  { exists []. split; [apply moved_none|]. split; [by apply NoDup_nil_2|]. split; [set_solver|].
    unfold devices_to_shed, sat_sub. simpl. case_match; lia. }
  unfold rebalance_cluster. case_decide; [destruct Hstay as [g Hg]; by exists g, st|].
  case_decide; [destruct Hstay as [g Hg]; by exists g, st|].
  destruct (devices_to_shed _ _ _ =? 0); [destruct Hstay as [g Hg]; by exists g, st|].
  set (shed := devices_to_shed _ _ _). set (devices := take (Z.to_nat shed) (set_iter (owned_devices (dm st)))).
  assert (Hnd : NoDup devices).
  { apply (sublist_NoDup _ (set_iter (owned_devices (dm st)))); [apply set_iter_NoDup|apply sublist_take]. }
  destruct (shed_to_ok (average_load peers load) (div_ceil shed (Z.of_nat (length (underloaded_peers (average_load peers load) peers)))) (underloaded_peers (average_load peers load) peers) devices st Hnd)
    as (given & rest & st' & Hshed & Hsplit & Hmoved).
  exists given, st'. split; [done|]. split; [done|].
  rewrite Hsplit in Hnd. apply NoDup_app in Hnd as (Hnd & _ & _). split; [done|]. split.
  - intros id Hid. unfold owned. rewrite <- elem_of_set_iter. apply (elem_of_sublist devices).
    + rewrite Hsplit. set_solver.
    + apply sublist_take.
  - assert (length given ≤ length devices)%nat by (rewrite Hsplit, length_app; lia).
    unfold devices in *. rewrite length_take in *.
    assert (0 <= shed) by (unfold shed, devices_to_shed, sat_sub; case_match; lia). lia.
Qed.

Lemma rebalance_inv peers load maxd st :
  me st ∉ pl_id <$> peers → ownership_inv st → ownership_inv (rebalance_cluster peers load maxd st).2.
Proof.
  intros Hme Hinv. destruct (rebalance_ok peers load maxd st)
    as (given & st' & -> & (Hm & Ho & Hout & Hin) & _ & Hgiven & _). simpl.
  intros id. rewrite Ho, Hm. destruct (decide (id ∈ given)) as [Hid|Hid].
  - split; [set_solver|]. intros [b Hb]. destruct (Hin id Hid) as (n & Hn & Hrow). rewrite Hrow in Hb.
    apply fmap_Some in Hb as (e & _ & [= _ Heq]). subst n.
    apply list_elem_of_fmap in Hn as (p & Hp & Hin'). apply elem_of_underloaded in Hin' as [_ Hin'].
    exfalso. apply Hme, list_elem_of_fmap. by exists p.
  - rewrite Hout by done. rewrite <- (Hinv id). set_solver.
Qed.

(** ** Claims *)

(** What happens to the manager and to the table it shares: each operation that changes who
    owns what, with the arguments it is called with, and the rest of the system. *)
Inductive DmOp :=
| OpLoad
| OpClaimUnassigned
| OpClaimAll
| OpRegister (now : Z) (device : Device)
| OpAccept (devices : list DelegatedDevice)
| OpRelease (ids : list Uuid) (db : DB)
| OpAddOwned (id : Uuid)
| OpRedistribute (failed : Uuid) (others : list (Uuid * Z))
| OpRebalance (peers : list PeerLoad) (load : f32) (max : Z)
| OpOther (s : Scheduler JS) (db : DB).

(** The state an operation leaves behind, whether it succeeded or not. A release happens
    on the answer of the node that took the devices over and wrote [db]; [OpOther] is
    anything else that changes the jobs of this node or writes to the database. *)
Definition run_op (op : DmOp) st : DmState JS DB :=
  match op with
  | OpLoad => (load_from_database st).2
  | OpClaimUnassigned => (claim_unassigned_devices st).2
  | OpClaimAll => (claim_all_devices st).2
  | OpRegister now d => (dm_register_device now d st).2
  | OpAccept ds => (accept_delegation ds st).2
  | OpRelease ids db => (release_devices ids (set_dm_db db st)).2
  | OpAddOwned id => (dm_add_owned_device id st).2
  | OpRedistribute failed others => (redistribute_from_failed failed others st).2
  | OpRebalance peers load maxd => (rebalance_cluster peers load maxd st).2
  | OpOther s db => mkDmState (set_dm_scheduler s (dm st)) db
  end.

(** The row of [id] in [m] names [node]. *)
Definition names (node id : Uuid) (m : gmap Z (Z * Uuid)) : Prop := ∃ b, m !! id = Some (b, node).

(** The conditions on the steps: a device registers once and on this node's scheduler;
    devices that are delegated, and the ones claimed as "all", have a row; what is released
    is what the taker took, and what is added by hand is this node's; the failed node and the
    peers are other nodes; the rest of the system neither gives this node a row nor takes
    one from it. *)
Definition op_allowed (op : DmOp) st : Prop :=
  match op with
  | OpLoad | OpClaimUnassigned => True
  | OpClaimAll => ∃ l, dm_in_db get_all_device_ids st = (Ok l, st) ∧ ∀ id, id ∈ l → id ∈ dom (table st)
  | OpRegister now d => can_schedule (dm_scheduler (dm st)) now ∧ table st !! dev_id d = None ∧
      sch_local_node_id (dm_scheduler (dm st)) = me st
  | OpAccept ds => ∀ d, d ∈ ds → dd_device_id d ∈ dom (table st)
  | OpRelease ids db => ∀ id, names (me st) id (assignments db) ↔ id ∉ ids ∧ names (me st) id (table st)
  | OpAddOwned id => names (me st) id (table st)
  | OpRedistribute failed _ => failed ≠ me st
  | OpRebalance peers _ _ => me st ∉ pl_id <$> peers
  | OpOther _ db => ∀ id, names (me st) id (assignments db) ↔ names (me st) id (table st)
  end.

Lemma claim_all_inv st : ownership_inv st → op_allowed OpClaimAll st → ownership_inv (claim_all_devices st).2.
Proof.
  intros Hinv (l & Hq & Hl). unfold claim_all_devices. sstep Hq. case_decide; [done|].
  apply sbind_keeps; [by apply claim_list_inv|]. by intros [] s1 _ Hs.
Qed.

Lemma release_inv ids db st :
  ownership_inv st → op_allowed (OpRelease ids db) st → ownership_inv (release_devices ids (set_dm_db db st)).2.
Proof.
  intros Hinv Hop. destruct (release_ok ids (set_dm_db db st)) as (st' & -> & Hdb & Hm & Ho & _).
  intros id. cbn [snd]. rewrite Ho, Hm. unfold table. rewrite Hdb. specialize (Hinv id). specialize (Hop id).
  change (owned (set_dm_db db st)) with (owned st). change (dm_db (set_dm_db db st)) with db.
  change (me (set_dm_db db st)) with (me st). unfold names in Hop.
  rewrite elem_of_difference, elem_of_list_to_set. tauto.
Qed.

(** A run of the manager from its start, when it loads its devices. *)
Inductive dm_reachable (st0 : DmState JS DB) : DmState JS DB → Prop :=
| reach_start : dm_reachable st0 (run_op OpLoad st0)
| reach_step st op : dm_reachable st0 st → op_allowed op st → dm_reachable st0 (run_op op st).

(** C2: The set of owned devices kept in memory stays exact. After loading at startup and any
    sequence of loads, claims (of the unassigned devices or of all), registrations, accepted
    delegations, releases, additions, redistributions, rebalancings and writes of other
    tasks and nodes, each under its condition [op_allowed], a device is in the set exactly
    when the owner column of its row names this node. The conditions are: the database
    answers; a device registers once; claimed and delegated devices have a row; a release is
    of the devices the taker took; the failed node and the peers are not this node; and no
    other node gives this node a row or takes one from it except by a delegation it answers
    or is answered. *)
Theorem owned_set_is_exact (st0 st : DmState JS DB) (Hreach : dm_reachable st0 st) : ownership_inv st.
Proof.
  induction Hreach as [|st op _ IH Hop]; [apply load_inv|]. destruct op; cbn [run_op].
  - apply load_inv.
  - by apply claim_unassigned_inv.
  - by apply claim_all_inv.
  - destruct Hop as (? & ? & ?). by apply register_inv.
  - by apply accept_inv.
  - by apply release_inv.
  - intros x. specialize (IH x). simpl in Hop. unfold owned, table, me, names in *. simpl.
    destruct (decide (x = id)) as [->|Hne]; set_solver.
  - by apply redistribute_inv.
  - by apply rebalance_inv.
  - intros x. specialize (IH x). specialize (Hop x). unfold owned, table, me, names in *. simpl in *. tauto.
Qed.

(** C12: Redistribution after the failure of another node. It succeeds; every device of the
    failed node is handed, keeping its bucket, to one of the surviving nodes, dealt in
    turn to the nodes (this one included) ordered by their number of devices; afterwards
    no device belongs to the failed node, no other row has changed, and this node's set
    gained exactly the devices dealt to it. *)
Theorem redistribution_deals_all (st : DmState JS DB) (failed : Uuid) (others : list (Uuid * Z))
    (Hme : failed ≠ me st) (Hothers : failed ∉ others.*1) :
  ∃ orphans st', redistribute_from_failed failed others st = (Ok tt, st') ∧
    NoDup orphans ∧ (∀ id, id ∈ orphans ↔ ∃ b, table st !! id = Some (b, failed)) ∧
    (∀ i id b, orphans !! i = Some id → table st !! id = Some (b, failed) →
       ∃ n c, takers others st !! (i mod length (takers others st))%nat = Some (n, c) ∧
         table st' !! id = Some (b, n)) ∧
    (∀ id b, table st' !! id ≠ Some (b, failed)) ∧
    (∀ id, id ∉ orphans → table st' !! id = table st !! id) ∧
    (∀ id, id ∈ owned st' ↔ id ∈ owned st ∨ (id ∈ orphans ∧ ∃ b, table st' !! id = Some (b, me st))).
Proof.
  destruct (redistribute_ok failed others st) as (l & st' & Hrun & Hm & Hnd & Hl & Hout & Hin & Hown).
  exists l, st'. split; [done|]. split; [done|]. split; [done|].
  split; [intros i id b Hi Hb; destruct (Hin i id b Hi Hb) as (n & [c Hc] & Hrow); by exists n, c|].
  assert (Hnew : ∀ i id, l !! i = Some id → ∃ b n, turn (takers others st) 0 i n ∧ table st' !! id = Some (b, n)).
  { intros i id Hi. pose proof (list_elem_of_lookup_2 _ _ _ Hi) as [b Hb]%Hl.
    destruct (Hin i id b Hi Hb) as (n & ? & ?). by exists b, n. }
  split; [|split; [done|]].
  - intros id b. pose proof (redistribute_clears failed others st id b Hme Hothers) as Hc. by rewrite Hrun in Hc.
  - intros id. rewrite Hown. f_equiv. split.
    + intros (i & Hi & [c Hc]). split; [by eapply list_elem_of_lookup_2|].
      destruct (Hnew i id Hi) as (b & n & [c' Hc'] & Hrow). rewrite Hc in Hc'. simplify_eq. by exists b.
    + intros ([i Hi]%list_elem_of_lookup & b & Hb). exists i. split; [done|].
      destruct (Hnew i id Hi) as (b' & n & Hn & Hrow). rewrite Hrow in Hb. by simplify_eq.
Qed.

(** When a failure has been handled by one node, every other node that handles it after
    that finds nothing to do: its redistribution changes nothing, and devices the first
    node dealt to it do not enter its set of owned devices. *)
Theorem second_redistribution_changes_nothing (st peer : DmState JS DB) (failed : Uuid)
    (others others' : list (Uuid * Z)) (Hme : failed ≠ me st) (Hothers : failed ∉ others.*1)
    (Hdb : dm_db peer = dm_db (redistribute_from_failed failed others st).2) :
  redistribute_from_failed failed others' peer = (Ok tt, peer).
Proof.
  unfold redistribute_from_failed at 1. destruct (query_ok failed peer) as (l' & Hq & _ & Hl').
  sstep Hq. rewrite decide_True; [done|]. apply elem_of_nil_inv. intros id [b Hb]%Hl'.
  unfold table in Hb. rewrite Hdb in Hb. by apply redistribute_clears in Hb.
Qed.

(** C35: Rebalancing only gives devices of this node away, to peers whose load is below the
    average, and at most as many as its surplus over the average load; every other row,
    and the buckets, stay as they were. *)
Theorem rebalance_sheds_surplus (st : DmState JS DB) (peers : list PeerLoad) (load : f32) (max : Z) :
  ∃ given st', rebalance_cluster peers load max st = (Ok tt, st') ∧
    NoDup given ∧ (∀ id, id ∈ given → id ∈ owned st) ∧
    Z.of_nat (length given) <= devices_to_shed (average_load peers load) (owned_count st) max ∧
    owned st' = owned st ∖ list_to_set given ∧
    (∀ id, id ∉ given → table st' !! id = table st !! id) ∧
    (∀ id, id ∈ given → ∃ p, p ∈ peers ∧ f32_lt (pl_load p) (average_load peers load) = true ∧
       table st' !! id = (λ e, (e.1, pl_id p)) <$> table st !! id).
Proof.
  destruct (rebalance_ok peers load max st) as (given & st' & Hrun & (_ & Ho & Hout & Hin) & Hnd & Hg & Hlen).
  exists given, st'. split; [done|]. split; [done|]. split; [done|]. split; [done|]. split; [done|].
  split; [done|]. intros id Hid. destruct (Hin id Hid) as (n & Hn & Hrow).
  apply list_elem_of_fmap in Hn as (p & -> & Hp). apply elem_of_underloaded in Hp as [Hlt Hp].
  by exists p.
Qed.
End facts.

(** ** A cluster of nodes 7, 8 and 9

    Node 7 sees device 1 as its own, devices 2 and 3 of node 9 and device 4 of node 8. *)
#[local] Existing Instance gregorian.gregorian.

Definition cluster_db : InnerDB :=
  set_buckets {[ 1 := (0, 7); 2 := (1, 9); 3 := (2, 9); 4 := (0, 8) ]} empty_db.
Definition node7 : DmState JobTable InnerDB :=
  run_op OpLoad (mkDmState (device_manager_new 7 48 (scheduler_new 48 7 false)) cluster_db).
Definition node8 (db : InnerDB) : DmState JobTable InnerDB :=
  mkDmState (set_owned {[ 4 ]} (device_manager_new 8 48 (scheduler_new 48 8 false))) db.

Lemma owned_set_is_exact_witness :
  ownership_inv (run_op (OpRedistribute 9 [(8, 1)]) node7) ∧
  owned (run_op (OpRedistribute 9 [(8, 1)]) node7) = {[ 1; 2 ]}.
Proof.
  split; [|apply (bool_decide_unpack _); vm_compute; exact I].
  apply (owned_set_is_exact
    (mkDmState (device_manager_new 7 48 (scheduler_new 48 7 false)) cluster_db)).
  apply reach_step; [apply reach_start|]. simpl. vm_compute. discriminate.
Defined.

Lemma redistribution_deals_all_witness :
  ∃ (orphans : list Uuid) st', redistribute_from_failed (JS := JobTable) 9 [(8, 1)] node7 = (Ok tt, st') ∧
    (∀ id, id ∈ orphans ↔ ∃ b, table node7 !! id = Some (b, 9)) ∧
    (∀ id b, table st' !! id ≠ Some (b, 9)).
Proof.
  destruct (redistribution_deals_all node7 9 [(8, 1)]) as (l & st' & Hrun & _ & Hl & _ & Hnone & _).
  - vm_compute. discriminate.
  - apply (bool_decide_unpack _). vm_compute. exact I.
  - by exists l, st'.
Defined.

(** Node 7 deals device 3 to node 8, whose own redistribution leaves it out of its set. *)
Lemma second_redistribution_witness :
  let db' := dm_db (redistribute_from_failed (JS := JobTable) 9 [(8, 1)] node7).2 in
  redistribute_from_failed 9 [(7, 1)] (node8 db') = (Ok tt, node8 db') ∧
  buckets db' !! 3 = Some (2, 8) ∧ 3 ∉ owned (node8 db').
Proof.
  split; [|split; [vm_compute; reflexivity|apply (bool_decide_unpack _); vm_compute; exact I]].
  apply (second_redistribution_changes_nothing node7 _ 9 [(8, 1)] [(7, 1)]).
  - vm_compute. discriminate.
  - apply (bool_decide_unpack _). vm_compute. exact I.
  - reflexivity.
Defined.

(** A node that handles its own failure (a NODE_DEAD message that names it) deals some of
    its devices to its peers but keeps them in its own set: from a state where the set is
    exact it reaches one where it is not. *)
Theorem own_failure_breaks_ownership :
  ∃ (st : DmState JobTable InnerDB) others,
    ownership_inv st ∧ ¬ ownership_inv (redistribute_from_failed (me st) others st).2.
Proof.
  exists node7, [(8, 0)]. split; [apply (load_inv (JS := JobTable))|].
  intros Hinv. specialize (Hinv 1).
  assert (Ho : 1 ∈ owned (redistribute_from_failed (me node7) [(8, 0)] node7).2)
    by (apply (bool_decide_unpack _); vm_compute; exact I).
  apply Hinv in Ho as [b Hb].
  assert (Hr : table (redistribute_from_failed (me node7) [(8, 0)] node7).2 !! 1 = Some (0, 8)) by eval_done.
  rewrite Hr in Hb. assert (Hm : me (redistribute_from_failed (me node7) [(8, 0)] node7).2 = 7) by eval_done.
  rewrite Hm in Hb. discriminate.
Qed.
