(* ===== verification/Rlp.v ===== *)
(** * The [rlp] crate

    What the device messages use of the third-party [rlp] crate. A stream
    built with [new_list], [begin_list] and [append] is a tree of items;
    [rlp_out] is what its [out()] returns. [RlpCrate] states the documented
    behaviour of the reader on such output; [rlp_format] is the RLP format
    itself. Errors carry no text here, it is only logged. *)

From S2P Require Import Prelude Bytes.

Local Open Scope Z_scope.

(** An item: a string of bytes, an unsigned integer, or a list. *)
Inductive RlpItem :=
| RBytes (b : list Z)
| RUint (v : Z)
| RList (l : list RlpItem).

(** Bytes are bytes and integers fit in 64 bits. *)
Fixpoint rlp_wf (x : RlpItem) : Prop :=
  match x with
  | RBytes b => Forall is_byte b
  | RUint v => 0 <= v < 2 ^ 64
  | RList l => foldr (λ y P, rlp_wf y ∧ P) True l
  end.

Class RlpCrate := {
  rlp_out : RlpItem → list Z;
  (** [Rlp::item_count], [Rlp::at] (the bytes of the item), and [as_val] as [Vec<u8>]
      and as an integer of [w] bytes. *)
  rlp_item_count : list Z → option nat;
  rlp_at : nat → list Z → option (list Z);
  rlp_bytes : list Z → option (list Z);
  rlp_uint : nat → list Z → option Z;
  rlp_count_out l : rlp_wf (RList l) → Z.of_nat (length (rlp_out (RList l))) < 2 ^ 64 →
    rlp_item_count (rlp_out (RList l)) = Some (length l);
  rlp_at_out l i x : rlp_wf (RList l) → Z.of_nat (length (rlp_out (RList l))) < 2 ^ 64 → l !! i = Some x →
    rlp_at i (rlp_out (RList l)) = Some (rlp_out x);
  rlp_bytes_out b : Forall is_byte b → Z.of_nat (length (rlp_out (RBytes b))) < 2 ^ 64 →
    rlp_bytes (rlp_out (RBytes b)) = Some b;
  rlp_uint_out w v : (w <= 8)%nat → 0 <= v < 256 ^ Z.of_nat w → rlp_uint w (rlp_out (RUint v)) = Some v;
  rlp_out_part l x : x ∈ l → (length (rlp_out x) <= length (rlp_out (RList l)))%nat
}.

Lemma rlp_wf_list l : rlp_wf (RList l) ↔ Forall rlp_wf l.
Proof. simpl. induction l as [|x l IH]; simpl; [by split|]. rewrite IH. by rewrite Forall_cons. Qed.

Lemma rlp_at_out_size `{RlpCrate} l i x :
  Z.of_nat (length (rlp_out (RList l))) < 2 ^ 64 → l !! i = Some x → Z.of_nat (length (rlp_out x)) < 2 ^ 64.
Proof. intros Hl Hx. pose proof (rlp_out_part l x (list_elem_of_lookup_2 _ _ _ Hx)). lia. Qed.

(** The size of an item: its content and a header, of one byte when the content has at most
    55 and of at most nine otherwise; an integer below 128 is its own encoding, others have
    at most eight bytes. *)
Definition header_size (n : Z) : Z := if n <=? 55 then 1 else 9.
Fixpoint item_size (x : RlpItem) : Z :=
  match x with
  | RBytes b => header_size (Z.of_nat (length b)) + Z.of_nat (length b)
  | RUint v => if v <? 128 then 1 else 9
  | RList l => let n := foldr (λ y n, item_size y + n) 0 l in header_size n + n
  end.
Class RlpSize `{RlpCrate} := {
  rlp_out_size x : rlp_wf x → item_size x < 2 ^ 64 → Z.of_nat (length (rlp_out x)) <= item_size x
}.

(** ** The format *)
Module rlp_format.
Import big_endian.

(** Number of bytes of a non-negative integer, and its shortest big-endian form. *)
Definition nbytes (v : Z) : nat := if v =? 0 then 0 else Z.to_nat (Z.log2 v / 8 + 1).
Definition be_min (v : Z) : list Z := be_put (nbytes v) v.

Definition header (base n : Z) : list Z :=
  if n <=? 55 then [base + n] else base + 55 + Z.of_nat (nbytes n) :: be_min n.

Definition encode_bytes (b : list Z) : list Z :=
  match b with
  | [x] => if x <? 128 then [x] else header 128 1 ++ [x]
  | _ => header 128 (Z.of_nat (length b)) ++ b
  end.

Fixpoint encode (x : RlpItem) : list Z :=
  match x with
  | RBytes b => encode_bytes b
  | RUint v => encode_bytes (be_min v)
  | RList l =>
      let body := foldr (λ y r, encode y ++ r) [] l in
      header 192 (Z.of_nat (length body)) ++ body
  end.

(** Whether an item is a list, and the lengths of its header and body. *)
Definition read_header (l : list Z) : option (bool * nat * nat) :=
  match l with
  | [] => None
  | p :: r =>
      let long (base : Z) (k : bool) :=
        let n := Z.to_nat (p - base) in
        if (length r <? n)%nat then None else Some (k, S n, Z.to_nat (be_val (take n r))) in
      if p <? 128 then Some (false, 0%nat, 1%nat)
      else if p <? 184 then Some (false, 1%nat, Z.to_nat (p - 128))
      else if p <? 192 then long 183 false
      else if p <? 248 then Some (true, 1%nat, Z.to_nat (p - 192))
      else long 247 true
  end.

(** The items of a body; [fuel] is its length, each item takes a byte at least. *)
Fixpoint split_items (fuel : nat) (l : list Z) : option (list (list Z)) :=
  match fuel, l with
  | _, [] => Some []
  | O, _ => None
  | S f, _ =>
      match read_header l with
      | None => None
      | Some (_, h, n) => if (length l <? h + n)%nat then None
          else cons (take (h + n) l) <$> split_items f (drop (h + n) l)
      end
  end.

Definition list_items (l : list Z) : option (list (list Z)) :=
  match read_header l with
  | Some (true, h, n) => let body := take n (drop h l) in split_items (length body) body
  | _ => None
  end.

Definition read_bytes (l : list Z) : option (list Z) :=
  match read_header l with
  | Some (false, h, n) => if (length l <? h + n)%nat then None else Some (take n (drop h l))
  | _ => None
  end.

Definition read_uint (w : nat) (l : list Z) : option Z :=
  match read_bytes l with
  | None => None
  | Some [] => Some 0
  | Some (b :: r) => if (b =? 0) || (w <? S (length r))%nat then None else Some (be_val (b :: r))
  end.

(** *** Integers *)
Lemma nbytes_bound v : 0 <= v → v < 256 ^ Z.of_nat (nbytes v).
Proof.
  intros Hv. unfold nbytes. destruct (Z.eqb_spec v 0) as [->|Hne]; [done|].
  pose proof (Z.log2_spec v ltac:(lia)) as [_ Hlog]. pose proof (Z.log2_nonneg v).
  rewrite Z2Nat.id by (pose proof (Z.div_pos (Z.log2 v) 8); lia).
  replace 256 with (2 ^ 8) by done. rewrite <- Z.pow_mul_r by (pose proof (Z.div_pos (Z.log2 v) 8); lia).
  eapply Z.lt_le_trans; [exact Hlog|]. apply Z.pow_le_mono_r; [lia|]. Z.to_euclidean_division_equations. lia.
Qed.

Lemma nbytes_le v (w : nat) : 0 <= v < 256 ^ Z.of_nat w → (nbytes v <= w)%nat.
Proof.
  intros Hv. unfold nbytes. destruct (Z.eqb_spec v 0) as [->|Hne]; [lia|].
  replace 256 with (2 ^ 8) in Hv by done. rewrite <- Z.pow_mul_r in Hv by lia.
  assert (Z.log2 v < 8 * Z.of_nat w) by (apply Z.log2_lt_pow2; lia).
  pose proof (Z.log2_nonneg v). Z.to_euclidean_division_equations. lia.
Qed.

Lemma be_min_val v : 0 <= v → be_val (be_min v) = v.
Proof. intros Hv. unfold be_min. rewrite be_val_put. apply Z.mod_small. split; [done|by apply nbytes_bound]. Qed.

Lemma be_min_length v : length (be_min v) = nbytes v.
Proof. apply be_put_length. Qed.

(** The first byte of the shortest form is not zero. *)
Lemma be_min_head v b r : 0 < v → be_min v = b :: r → b ≠ 0.
Proof.
  intros Hv Hb ->. assert (Hl : length (be_min v) = S (length r)) by (by rewrite Hb).
  rewrite be_min_length in Hl.
  pose proof (be_min_val v ltac:(lia)) as Hval. rewrite Hb in Hval. rewrite be_val_cons in Hval.
  assert (Hr : Forall is_byte r) by (pose proof (be_put_byte (nbytes v) v) as Hall; fold (be_min v) in Hall;
    rewrite Hb in Hall; by inversion Hall).
  pose proof (be_val_range r Hr). pose proof (nbytes_le v (length r) ltac:(lia)). lia.
Qed.

(** *** Headers *)
Lemma read_header_ok (base : Z) (k : bool) n r :
  (base, k) = (128, false) ∨ (base, k) = (192, true) → 0 <= n < 2 ^ 64 →
  read_header (header base n ++ r) = Some (k, length (header base n), Z.to_nat n).
Proof.
  intros Hb Hn. unfold header. destruct (Z.leb_spec n 55) as [Hs|Hl].
  - unfold read_header. simpl. destruct Hb as [[= -> ->]|[= -> ->]].
    + destruct (Z.ltb_spec (128 + n) 128); [lia|]. destruct (Z.ltb_spec (128 + n) 184); [|lia]. repeat f_equal. lia.
    + destruct (Z.ltb_spec (192 + n) 128); [lia|]. destruct (Z.ltb_spec (192 + n) 184); [lia|].
      destruct (Z.ltb_spec (192 + n) 192); [lia|]. destruct (Z.ltb_spec (192 + n) 248); [|lia]. repeat f_equal. lia.
  - pose proof (nbytes_le n 8 ltac:(lia)) as H8.
    assert (H1 : (0 < nbytes n)%nat).
    { pose proof (nbytes_bound n ltac:(lia)). destruct (nbytes n); [simpl in *; lia|lia]. }
    assert (Hread : ∀ b, b = base + 55 →
      (if (length (be_min n ++ r) <? Z.to_nat (b + Z.of_nat (nbytes n) - (base + 55)))%nat then None
       else Some (k, S (Z.to_nat (b + Z.of_nat (nbytes n) - (base + 55))),
         Z.to_nat (be_val (take (Z.to_nat (b + Z.of_nat (nbytes n) - (base + 55))) (be_min n ++ r)))))
      = Some (k, S (nbytes n), Z.to_nat n)).
    { intros b ->. replace (Z.to_nat _) with (nbytes n) by lia.
      destruct (Nat.ltb_spec (length (be_min n ++ r)) (nbytes n)) as [Hx|_];
        [rewrite length_app, be_min_length in Hx; lia|].
      rewrite take_app_length' by (by rewrite be_min_length). by rewrite be_min_val by lia. }
    unfold read_header. simpl length. rewrite be_min_length. cbn [app].
    destruct Hb as [[= -> ->]|[= -> ->]]; simpl in Hread.
    + destruct (Z.ltb_spec (128 + 55 + Z.of_nat (nbytes n)) 128); [lia|].
      destruct (Z.ltb_spec (128 + 55 + Z.of_nat (nbytes n)) 184); [lia|].
      destruct (Z.ltb_spec (128 + 55 + Z.of_nat (nbytes n)) 192); [|lia]. by apply Hread.
    + destruct (Z.ltb_spec (192 + 55 + Z.of_nat (nbytes n)) 128); [lia|].
      destruct (Z.ltb_spec (192 + 55 + Z.of_nat (nbytes n)) 184); [lia|].
      destruct (Z.ltb_spec (192 + 55 + Z.of_nat (nbytes n)) 192); [lia|].
      destruct (Z.ltb_spec (192 + 55 + Z.of_nat (nbytes n)) 248); [lia|]. by apply Hread.
Qed.

(** A string is a header (empty for a single small byte) followed by its bytes. *)
Lemma encode_bytes_ok b r :
  Forall is_byte b → Z.of_nat (length (encode_bytes b)) < 2 ^ 64 →
  ∃ hd, encode_bytes b = hd ++ b ∧ read_header (encode_bytes b ++ r) = Some (false, length hd, length b).
Proof.
  intros Hb Hsize.
  assert (Hgen : encode_bytes b = header 128 (Z.of_nat (length b)) ++ b → ∃ hd, encode_bytes b = hd ++ b ∧
    read_header (encode_bytes b ++ r) = Some (false, length hd, length b)).
  { intros Heq. eexists. split; [exact Heq|]. rewrite Heq in *. rewrite <- app_assoc, (read_header_ok 128 false).
    - by rewrite Nat2Z.id.
    - by left.
    - rewrite length_app in Hsize. lia. }
  destruct b as [|x [|y b]]; [by apply Hgen| |by apply Hgen].
  destruct (Z.ltb_spec x 128) as [Hx|Hx].
  - exists []. assert (Heq : encode_bytes [x] = [x]) by (simpl; by destruct (Z.ltb_spec x 128); [|lia]).
    rewrite Heq. split; [done|]. simpl. by destruct (Z.ltb_spec x 128); [|lia].
  - apply Hgen. simpl. by destruct (Z.ltb_spec x 128); [lia|].
Qed.

Lemma be_min_byte v : Forall is_byte (be_min v).
Proof. apply be_put_byte. Qed.

Definition body (l : list RlpItem) : list Z := foldr (λ y r, encode y ++ r) [] l.

Lemma encode_list_ok l r :
  Z.of_nat (length (encode (RList l))) < 2 ^ 64 →
  ∃ hd, encode (RList l) = hd ++ body l ∧
    read_header (encode (RList l) ++ r) = Some (true, length hd, length (body l)).
Proof.
  intros Hsize. cbn [encode] in *. fold (body l) in *. eexists. split; [done|].
  rewrite <- app_assoc, (read_header_ok 192 true).
  - by rewrite Nat2Z.id.
  - by right.
  - rewrite length_app in Hsize. lia.
Qed.

(** Every item announces its own length. *)
Lemma encode_length x r :
  rlp_wf x → Z.of_nat (length (encode x)) < 2 ^ 64 →
  ∃ k h n, read_header (encode x ++ r) = Some (k, h, n) ∧ (h + n = length (encode x))%nat.
Proof.
  intros Hx Hsize. destruct x as [b|v|l].
  - destruct (encode_bytes_ok b r Hx Hsize) as (hd & Heq & Hr). do 3 eexists. split; [exact Hr|].
    cbn [encode]. by rewrite Heq, length_app.
  - destruct (encode_bytes_ok (be_min v) r (be_min_byte v) Hsize) as (hd & Heq & Hr). do 3 eexists. split; [exact Hr|].
    cbn [encode]. by rewrite Heq, length_app.
  - destruct (encode_list_ok l r Hsize) as (hd & Heq & Hr). do 3 eexists. split; [exact Hr|]. by rewrite Heq, length_app.
Qed.

Lemma encode_nonempty x : rlp_wf x → Z.of_nat (length (encode x)) < 2 ^ 64 → (0 < length (encode x))%nat.
Proof.
  intros Hx Hsize. destruct (encode_length x [] Hx Hsize) as (k & h & n & Hr & Hlen).
  destruct (encode x); [done|simpl; lia].
Qed.

Lemma split_body l (fuel : nat) :
  Forall rlp_wf l → Z.of_nat (length (body l)) < 2 ^ 64 → (length (body l) <= fuel)%nat →
  split_items fuel (body l) = Some (encode <$> l).
Proof.
  revert fuel. induction l as [|x l IH]; intros fuel Hwf Hsize Hfuel; [by destruct fuel|].
  apply Forall_cons in Hwf as [Hx Hwf]. change (body (x :: l)) with (encode x ++ body l) in *.
  rewrite length_app in Hsize, Hfuel. pose proof (encode_nonempty x Hx ltac:(lia)) as Hne.
  destruct fuel as [|f]; [lia|].
  destruct (encode_length x (body l) Hx ltac:(lia)) as (k & h & n & Hr & Hlen).
  destruct (encode x ++ body l) as [|p q] eqn:Heq; [by destruct (encode x)|]. cbn [split_items].
  rewrite Hr, <- Heq. destruct (Nat.ltb_spec (length (encode x ++ body l)) (h + n)) as [Hlt|_];
    [rewrite length_app in Hlt; lia|].
  rewrite Hlen, take_app_length, drop_app_length, IH by (done || lia). done.
Qed.

Lemma list_items_ok l :
  rlp_wf (RList l) → Z.of_nat (length (encode (RList l))) < 2 ^ 64 → list_items (encode (RList l)) = Some (encode <$> l).
Proof.
  intros Hwf Hsize. apply rlp_wf_list in Hwf. destruct (encode_list_ok l [] Hsize) as (hd & Heq & Hr).
  rewrite app_nil_r in Hr. unfold list_items. rewrite Hr, Heq, drop_app_length, take_ge by done.
  apply split_body; [done| |done]. rewrite Heq, length_app in Hsize. lia.
Qed.

Lemma read_bytes_ok b :
  Forall is_byte b → Z.of_nat (length (encode_bytes b)) < 2 ^ 64 → read_bytes (encode_bytes b) = Some b.
Proof.
  intros Hb Hsize. destruct (encode_bytes_ok b [] Hb Hsize) as (hd & Heq & Hr). rewrite app_nil_r in Hr.
  unfold read_bytes. rewrite Hr, Heq. destruct (Nat.ltb_spec (length (hd ++ b)) (length hd + length b)) as [Hx|_];
    [rewrite length_app in Hx; lia|]. by rewrite drop_app_length, take_ge.
Qed.

Lemma body_part l x : x ∈ l → (length (encode x) <= length (body l))%nat.
Proof.
  induction 1 as [x l|x y l _ IH].
  - change (body (x :: l)) with (encode x ++ body l). rewrite length_app. lia.
  - change (body (y :: l)) with (encode y ++ body l). rewrite length_app. lia.
Qed.

Definition item_at (i : nat) (l : list Z) : option (list Z) :=
  match list_items l with Some items => items !! i | None => None end.

Lemma item_count_ok l : rlp_wf (RList l) → Z.of_nat (length (encode (RList l))) < 2 ^ 64 →
  length <$> list_items (encode (RList l)) = Some (length l).
Proof. intros Hwf Hs. rewrite list_items_ok by done. simpl. by rewrite length_fmap. Qed.

Lemma item_at_ok l i x : rlp_wf (RList l) → Z.of_nat (length (encode (RList l))) < 2 ^ 64 → l !! i = Some x →
  item_at i (encode (RList l)) = Some (encode x).
Proof. intros Hwf Hs Hx. unfold item_at. rewrite list_items_ok by done. by rewrite list_lookup_fmap, Hx. Qed.

Lemma read_uint_ok w v : (w <= 8)%nat → 0 <= v < 256 ^ Z.of_nat w → read_uint w (encode (RUint v)) = Some v.
Proof.
  intros Hw Hv. cbn [encode]. pose proof (nbytes_le v w Hv) as Hn. unfold read_uint. rewrite read_bytes_ok.
  - destruct (be_min v) as [|b r] eqn:Hb.
    + pose proof (be_min_val v ltac:(lia)) as Hval. rewrite Hb in Hval. by rewrite <- Hval.
    + assert (Hpos : 0 < v).
      { destruct (decide (v = 0)) as [->|]; [by vm_compute in Hb|lia]. }
      pose proof (be_min_head v b r Hpos Hb) as Hnz. apply Z.eqb_neq in Hnz. rewrite Hnz. cbn [orb].
      pose proof (be_min_length v) as Hlen. rewrite Hb in Hlen. simpl in Hlen.
      destruct (Nat.ltb_spec w (S (length r))); [lia|]. rewrite <- Hb, be_min_val by lia. done.
  - apply be_min_byte.
  - assert (Hl : (length (encode_bytes (be_min v)) <= 1 + length (be_min v))%nat).
    { pose proof (be_min_length v). unfold encode_bytes, header.
      destruct (be_min v) as [|x [|y b]]; [simpl; lia|destruct (x <? 128); simpl; lia|].
      destruct (Z.leb_spec (Z.of_nat (length (x :: y :: b))) 55); [simpl; lia|lia]. }
    rewrite be_min_length in Hl. lia.
Qed.

Lemma encode_part l x : x ∈ l → (length (encode x) <= length (encode (RList l)))%nat.
Proof.
  intros Hx. pose proof (body_part l x Hx). cbn [encode]. fold (body l). rewrite length_app. lia.
Qed.

#[export] Instance rlp_format : RlpCrate := {|
  rlp_out := encode;
  rlp_item_count := λ l, length <$> list_items l;
  rlp_at := item_at;
  rlp_bytes := read_bytes;
  rlp_uint := read_uint;
  rlp_count_out := item_count_ok;
  rlp_at_out := item_at_ok;
  rlp_bytes_out := read_bytes_ok;
  rlp_uint_out := read_uint_ok;
  rlp_out_part := encode_part
|}.

(** Headers and sizes. *)
Lemma header_length base n m : 0 <= n <= m → m < 2 ^ 64 → Z.of_nat (length (header base n)) <= header_size m.
Proof.
  intros Hn Hm. unfold header, header_size. destruct (Z.leb_spec n 55), (Z.leb_spec m 55); try (cbn [length]; lia).
  cbn [length]. rewrite be_min_length. pose proof (nbytes_le n 8 ltac:(change (256 ^ Z.of_nat 8) with (2 ^ 64); lia)). lia.
Qed.
Lemma header_size_pos n : 1 <= header_size n.
Proof. unfold header_size. case_match; lia. Qed.
Lemma encode_bytes_size b : Z.of_nat (length b) < 2 ^ 64 →
  Z.of_nat (length (encode_bytes b)) <= header_size (Z.of_nat (length b)) + Z.of_nat (length b).
Proof.
  intros Hb. pose proof (header_length 128 (Z.of_nat (length b)) _ ltac:(split; [lia|reflexivity]) Hb) as Hh.
  unfold encode_bytes. destruct b as [|x [|y b]]; try (rewrite length_app; lia).
  pose proof (header_size_pos (Z.of_nat (length [x]))).
  destruct (x <? 128); [|change 1 with (Z.of_nat (length [x])); rewrite length_app]; cbn [length] in *; lia.
Qed.
Lemma encode_uint_size v : 0 <= v < 2 ^ 64 → Z.of_nat (length (encode_bytes (be_min v))) <= if v <? 128 then 1 else 9.
Proof.
  intros Hv. destruct (Z.ltb_spec v 128) as [Hs|_].
  - destruct (Z.eq_dec v 0) as [->|Hz]; [done|]. pose proof (nbytes_le v 1 ltac:(change (256 ^ Z.of_nat 1) with 256; lia)) as Hn.
    pose proof (encode_bytes_size (be_min v)) as Hb. rewrite be_min_length in Hb.
    destruct (be_min v) as [|x [|y l]] eqn:Hm; [done| |apply (f_equal length) in Hm; rewrite be_min_length in Hm; simpl in Hm; lia].
    assert (Hx : x = v).
    { pose proof (be_min_length v) as Hl. rewrite Hm in Hl. simpl in Hl. unfold be_min in Hm. rewrite <- Hl in Hm. simpl in Hm.
      injection Hm as <-. rewrite ?Z.div_1_r. apply Z.mod_small. lia. }
    subst x. simpl. destruct (Z.ltb_spec v 128); [simpl|]; lia.
  - pose proof (nbytes_le v 8 ltac:(change (256 ^ Z.of_nat 8) with (2 ^ 64); lia)) as Hn.
    pose proof (encode_bytes_size (be_min v)) as Hb. rewrite be_min_length in Hb. unfold header_size in Hb.
    destruct (Z.leb_spec (Z.of_nat (nbytes v)) 55); lia.
Qed.

Fixpoint item_size_nonneg (x : RlpItem) : 0 <= item_size x.
Proof.
  destruct x as [b|v|l]; cbn [item_size]; [pose proof (header_size_pos (Z.of_nat (length b))); lia|case_match; lia|].
  cbv zeta. pose proof (header_size_pos (foldr (λ y n, item_size y + n) 0 l)).
  enough (0 <= foldr (λ y n, item_size y + n) 0 l) by lia. clear -item_size_nonneg.
  induction l as [|y l IH]; cbn [foldr]; [lia|]. pose proof (item_size_nonneg y). lia.
Qed.
Lemma items_size_nonneg l : 0 <= foldr (λ y n, item_size y + n) 0 l.
Proof. induction l as [|y l IH]; cbn [foldr]; [lia|]. pose proof (item_size_nonneg y). lia. Qed.

Fixpoint encode_size (x : RlpItem) {struct x} :
  rlp_wf x → item_size x < 2 ^ 64 → Z.of_nat (length (encode x)) <= item_size x.
Proof.
  destruct x as [b|v|l]; cbn [rlp_wf item_size encode]; intros Hwf Hs.
  - apply encode_bytes_size. pose proof (header_size_pos (Z.of_nat (length b))). lia.
  - by apply encode_uint_size.
  - cbv zeta in *. set (n := foldr (λ y n, item_size y + n) 0 l) in *. pose proof (header_size_pos n).
    assert (Hbody : Z.of_nat (length (foldr (λ y r, encode y ++ r) [] l)) <= n).
    { assert (Hlt : n < 2 ^ 64) by lia. clear Hs H. subst n. revert Hwf Hlt.
      induction l as [|y l IHl]; cbn [foldr]; intros Hwf Hlt; [simpl; lia|].
      destruct Hwf as [Hy Hl]. pose proof (item_size_nonneg y). pose proof (items_size_nonneg l). rewrite length_app.
      pose proof (encode_size y Hy ltac:(lia)). pose proof (IHl Hl ltac:(lia)). lia. }
    rewrite length_app. pose proof (header_length 192 (Z.of_nat (length (foldr (λ y r, encode y ++ r) [] l))) n ltac:(lia) ltac:(lia)).
    lia.
Qed.

#[export] Instance rlp_format_size : RlpSize (H := rlp_format) := {| rlp_out_size := encode_size |}.
End rlp_format.
