(* ===== verification/DeviceMessage.v ===== *)
(** * Messages exchanged with devices

    Model of [src/common/messages/message.rs] and the payload records of its
    sibling files: the message types with their wire codes, the message
    constructors and the reading of a message's timestamp. [now_s] is the
    system clock in Unix seconds. *)

From S2P Require Import Prelude Bytes Net Float32 Node Database Calendar.

Local Open Scope Z_scope.
Local Open Scope hes_scope.

Definition CURRENT_PROTOCOL_VERSION : Z := 1.

Inductive MsgType :=
| THandshake | THandshakeResponse | TRegisterRequest | TRegisterResponse
| TReadRequest | TReadResponse | TWriteRequest | TWriteResponse
| TExecuteRequest | TExecuteResponse | TActionRequest | TActionResponse
| TAck | TNack | TSessionStartRequest.

#[export] Instance MsgType_eq_dec : EqDecision MsgType.
Proof. solve_decision. Defined.

(** The text of a payload error is only logged and left out. *)
Inductive MsgCodecError :=
| MsgInvalidLength
| UnknownMsgType
| MsgIoError
| PayloadDecodeError.

Inductive MessageError :=
| MeInvalidLength
| MeUnknownMsgType
| MeIoError
| SystemTimeError
| MeInvalidTimeStamp.

Definition msg_code (t : MsgType) : Z :=
  match t with
  | THandshake => 0x00
  | THandshakeResponse => 0x01
  | TRegisterRequest => 0x02
  | TRegisterResponse => 0x03
  | TReadRequest => 0x0A
  | TReadResponse => 0x0B
  | TWriteRequest => 0x14
  | TWriteResponse => 0x15
  | TExecuteRequest => 0x1E
  | TExecuteResponse => 0x1F
  | TActionRequest => 0x28
  | TActionResponse => 0x29
  | TAck => 0xFF
  | TNack => 0xFE
  | TSessionStartRequest => 0xF0
  end.

Definition msg_from_code (code : Z) : outcome MsgCodecError MsgType :=
  match code with
  | 0x00 => Ok THandshake
  | 0x01 => Ok THandshakeResponse
  | 0x02 => Ok TRegisterRequest
  | 0x03 => Ok TRegisterResponse
  | 0x0A => Ok TReadRequest
  | 0x0B => Ok TReadResponse
  | 0x14 => Ok TWriteRequest
  | 0x15 => Ok TWriteResponse
  | 0x1E => Ok TExecuteRequest
  | 0x1F => Ok TExecuteResponse
  | 0x28 => Ok TActionRequest
  | 0x29 => Ok TActionResponse
  | 0xFE => Ok TNack
  | 0xFF => Ok TAck
  | 0xF0 => Ok TSessionStartRequest
  | _ => Err UnknownMsgType
  end.

(** ** Payloads *)
Record ObisValue := mkObis { obis_code : list Z; obis_value : list Z }.
Record WriteParameter := mkWriteParameter { wp_code : list Z; wp_value : list Z }.
Record RegistryRequestMessage := mkRegistryRequest { rr_imei : list Z; rr_ipv6 : list Z }.
Record RegistryResponseMessage := mkRegistryResponse { rs_flag : Z; rs_next_wake_time : Z }.

Inductive MessagePayload :=
| PayHandshake (nonce : list Z)
| PayHandshakeResponse (status : Z)
| PayRegistryRequest (m : RegistryRequestMessage)
| PayRegistryResponse (m : RegistryResponseMessage)
| PayReadRequest (obis_codes : list (list Z))
| PayReadResponse (values : list ObisValue)
| PayWriteRequest (parameters : list WriteParameter)
| PayWriteResponse (success : bool) (written_codes : list (list Z))
| PayExecuteRequest
| PayExecuteResponse
| PayActionRequest
| PayActionResponse
| PayAck
| PayNack (error_code : Z)
| PaySessionStartRequest.

Definition NACK_DEVICE_NOT_FOUND : Z := 1.
Definition NACK_INTERNAL_ERROR : Z := 2.

Record Message := mkMessage {
  d_version : Z;
  d_type : MsgType;
  d_device_id : Z;
  d_seq : Z;
  d_timestamp : Z;
  d_payload : MessagePayload;
  d_mac : Z
}.

(** What every constructor does: version, clock in seconds, and a MAC of zero
    ([calculate_mac] is a placeholder). A clock before 1970 is the only error. *)
Definition build_message (now_s : Z) (t : MsgType) (device_id seq : Z) (p : MessagePayload)
  : outcome MessageError Message :=
  if now_s <? 0 then Err SystemTimeError
  else Ok (mkMessage CURRENT_PROTOCOL_VERSION t device_id seq (wrap_u64 now_s) p 0).

Definition new_register_request_message (now_s : Z) (imei ipv6 : list Z) : outcome MessageError Message :=
  build_message now_s TRegisterRequest 0 0 (PayRegistryRequest (mkRegistryRequest imei ipv6)).
Definition new_register_response_message (now_s id seq flag next_wake : Z) : outcome MessageError Message :=
  build_message now_s TRegisterResponse id seq (PayRegistryResponse (mkRegistryResponse flag next_wake)).
Definition new_handshake_message (now_s id seq : Z) (nonce : list Z) : outcome MessageError Message :=
  build_message now_s THandshake id seq (PayHandshake nonce).
Definition new_nack_message (now_s id seq code : Z) : outcome MessageError Message :=
  build_message now_s TNack id seq (PayNack code).
Definition new_ack_message (now_s id seq : Z) : outcome MessageError Message :=
  build_message now_s TAck id seq PayAck.
Definition new_handshake_response_message (now_s id seq status : Z) : outcome MessageError Message :=
  build_message now_s THandshakeResponse id seq (PayHandshakeResponse status).
Definition new_read_response_message (now_s id seq : Z) (values : list ObisValue) : outcome MessageError Message :=
  build_message now_s TReadResponse id seq (PayReadResponse values).
Definition new_write_response_message (now_s id seq : Z) (ok : bool) (codes : list (list Z))
  : outcome MessageError Message :=
  build_message now_s TWriteResponse id seq (PayWriteResponse ok codes).
Definition new_read_request_message (now_s id seq : Z) (codes : list (list Z)) : outcome MessageError Message :=
  build_message now_s TReadRequest id seq (PayReadRequest codes).
Definition new_write_request_message (now_s id seq : Z) (ps : list WriteParameter) : outcome MessageError Message :=
  build_message now_s TWriteRequest id seq (PayWriteRequest ps).

(** [Message::get_timestamp]: reads the field as milliseconds. *)
Definition get_timestamp `{ChronoCrate} (m : Message) : outcome MessageError Z :=
  let secs := wrap_i64 (d_timestamp m / 1000) in
  let nanos := wrap_u32 (d_timestamp m mod 1000 * 1000000) in
  ok_or (from_timestamp secs nanos) MeInvalidTimeStamp.

(** ** Codes *)
Lemma msg_code_from t : msg_from_code (msg_code t) = Ok t.
Proof. by destruct t. Qed.

Lemma msg_from_code_inv c t : msg_from_code c = Ok t → msg_code t = c.
Proof. intros H. unfold msg_from_code in H. repeat (case_match; simplify_eq; try done). Qed.

Section timestamps.
Context `{ChronoCrate}.

Lemma get_timestamp_ok m :
  0 <= d_timestamp m < 2 ^ 63 → day_ok (d_timestamp m / 1000 / secs_per_day) →
  get_timestamp m = Ok (d_timestamp m * ns_per_ms).
Proof.
  intros Hr Hd. unfold get_timestamp.
  assert (Hs : wrap_i64 (d_timestamp m / 1000) = d_timestamp m / 1000).
  { unfold wrap_i64, wrap_signed. rewrite Z.mod_small by (Z.to_euclidean_division_equations; lia).
    destruct (Z.ltb_spec (d_timestamp m / 1000) (2 ^ (64 - 1))) as [|Hge]; [done|].
    Z.to_euclidean_division_equations; lia. }
  assert (Hn : wrap_u32 (d_timestamp m mod 1000 * 1000000) = d_timestamp m mod 1000 * 1000000).
  { apply Z.mod_small. pose proof (Z.mod_pos_bound (d_timestamp m) 1000). lia. }
  rewrite Hs, Hn, from_timestamp_ok; [|done|unfold ns_per_s; pose proof (Z.mod_pos_bound (d_timestamp m) 1000); lia].
  simpl. f_equal. unfold ns_per_s, ns_per_ms. pose proof (Z.div_mod (d_timestamp m) 1000). lia.
Qed.

(** The unit of message timestamps is confused: the constructors stamp a message with
    Unix seconds, [get_timestamp] reads milliseconds. A message created at second [now_s]
    is read as created [now_s] milliseconds after the epoch, a thousand times too early. *)
Theorem timestamp_read_as_milliseconds (now_s id seq : Z) (m : Message)
    (Hnow : 0 <= now_s < 2 ^ 63) (Hday : day_ok (now_s / 1000 / secs_per_day))
    (Hm : new_ack_message now_s id seq = Ok m) :
  get_timestamp m = Ok (now_s * ns_per_ms).
Proof.
  unfold new_ack_message, build_message in Hm. destruct (Z.ltb_spec now_s 0); [lia|]. injection Hm as <-.
  assert (Hw : wrap_u64 now_s = now_s) by (apply Z.mod_small; lia).
  rewrite get_timestamp_ok; simpl; by rewrite Hw.
Qed.
End timestamps.

Lemma timestamp_read_as_milliseconds_witness :
  ∃ m, new_ack_message 1700000000 7 1 = Ok m ∧
    get_timestamp (H := gregorian.gregorian) m = Ok (1700000000 * ns_per_ms).
Proof.
  eexists. split; [reflexivity|].
  apply (timestamp_read_as_milliseconds (H := gregorian.gregorian) 1700000000 7 1).
  - lia.
  - split; vm_compute; (reflexivity || discriminate).
  - reflexivity.
Defined.
