(* ===== verification/DeviceCodec.v ===== *)
(** * The wire format of device messages

    Model of the payload files of [src/common/messages/] (encoders and
    decoders over the [rlp] crate), [MessagePayload::encode] and [decode] of
    [message.rs], and [MessageCodec] of [codec.rs]. *)

From S2P Require Import Prelude Bytes Net Float32 Node Database Calendar Rlp DeviceMessage.

Local Open Scope Z_scope.
Local Open Scope hes_scope.

Section codec.
Context `{BytesCrate} `{RlpCrate}.

(** [.map_err(|e| PayloadDecodeError(e.to_string()))]. *)
Definition or_payload_error {A} (o : option A) : outcome MsgCodecError A := ok_or o PayloadDecodeError.

(** [rlp.val_at(i)] as [Vec<u8>] and as an integer of [w] bytes, and [rlp.at(i)]. *)
Definition at_item (i : nat) (data : list Z) : outcome MsgCodecError (list Z) := or_payload_error (rlp_at i data).
Definition val_at_bytes (i : nat) (data : list Z) : outcome MsgCodecError (list Z) :=
  let! item := at_item i data in or_payload_error (rlp_bytes item).
Definition val_at_uint (w i : nat) (data : list Z) : outcome MsgCodecError Z :=
  let! item := at_item i data in or_payload_error (rlp_uint w item).
Definition string_from_utf8 (b : list Z) : outcome MsgCodecError (list Z) := or_payload_error (from_utf8 b).
Definition val_at_string (i : nat) (data : list Z) : outcome MsgCodecError (list Z) :=
  let! b := val_at_bytes i data in string_from_utf8 b.

(** [for i in 0..count { v.push(f(i)?) }], from [i] on. *)
Fixpoint for_items {A} (count i : nat) (f : nat → outcome MsgCodecError A) : outcome MsgCodecError (list A) :=
  match count with
  | O => Ok []
  | S c => let! x := f i in let! xs := for_items c (S i) f in Ok (x :: xs)
  end.

(** ** Payloads *)
Definition handshake_message_encode (nonce : list Z) : list Z := rlp_out (RList [RBytes nonce]).
Definition handshake_message_decode (data : list Z) : outcome MsgCodecError MessagePayload :=
  let! nonce := val_at_bytes 0 data in Ok (PayHandshake nonce).

Definition handshake_response_encode (status : Z) : list Z := rlp_out (RList [RUint status]).
Definition handshake_response_decode (data : list Z) : outcome MsgCodecError MessagePayload :=
  let! status := val_at_uint 1 0 data in Ok (PayHandshakeResponse status).

Definition registry_request_encode (m : RegistryRequestMessage) : list Z :=
  rlp_out (RList [RBytes (rr_imei m); RBytes (rr_ipv6 m)]).
Definition registry_request_decode (data : list Z) : outcome MsgCodecError MessagePayload :=
  let! imei_bytes := val_at_bytes 0 data in
  let! ipv6_bytes := val_at_bytes 1 data in
  let! imei := string_from_utf8 imei_bytes in
  let! ipv6 := string_from_utf8 ipv6_bytes in
  Ok (PayRegistryRequest (mkRegistryRequest imei ipv6)).

Definition registry_response_encode (m : RegistryResponseMessage) : list Z :=
  rlp_out (RList [RUint (rs_flag m); RUint (rs_next_wake_time m)]).
Definition registry_response_decode (data : list Z) : outcome MsgCodecError MessagePayload :=
  let! flag := val_at_uint 1 0 data in
  let! next_wake_time := val_at_uint 8 1 data in
  Ok (PayRegistryResponse (mkRegistryResponse flag next_wake_time)).

Definition read_request_encode (codes : list (list Z)) : list Z := rlp_out (RList (RBytes <$> codes)).
Definition read_request_decode (data : list Z) : outcome MsgCodecError MessagePayload :=
  let! count := or_payload_error (rlp_item_count data) in
  let! obis_codes := for_items count 0 (λ i, val_at_string i data) in
  Ok (PayReadRequest obis_codes).

Definition read_response_encode (values : list ObisValue) : list Z :=
  rlp_out (RList ((λ v, RList [RBytes (obis_code v); RBytes (obis_value v)]) <$> values)).
Definition read_response_decode (data : list Z) : outcome MsgCodecError MessagePayload :=
  let! count := or_payload_error (rlp_item_count data) in
  let! values := for_items count 0 (λ i,
    let! item := at_item i data in
    let! code := val_at_string 0 item in
    let! value := val_at_bytes 1 item in
    Ok (mkObis code value)) in
  Ok (PayReadResponse values).

Definition write_request_encode (parameters : list WriteParameter) : list Z :=
  rlp_out (RList ((λ p, RList [RBytes (wp_code p); RBytes (wp_value p)]) <$> parameters)).
Definition write_request_decode (data : list Z) : outcome MsgCodecError MessagePayload :=
  let! count := or_payload_error (rlp_item_count data) in
  let! parameters := for_items count 0 (λ i,
    let! item := at_item i data in
    let! code := val_at_string 0 item in
    let! value := val_at_bytes 1 item in
    Ok (mkWriteParameter code value)) in
  Ok (PayWriteRequest parameters).

Definition write_response_encode (success : bool) (codes : list (list Z)) : list Z :=
  rlp_out (RList [RUint (if success then 1 else 0); RList (RBytes <$> codes)]).
Definition write_response_decode (data : list Z) : outcome MsgCodecError MessagePayload :=
  let! success_byte := val_at_uint 1 0 data in
  let success := negb (success_byte =? 0) in
  let! codes_list := at_item 1 data in
  let! count := or_payload_error (rlp_item_count codes_list) in
  let! written_codes := for_items count 0 (λ i, val_at_string i codes_list) in
  Ok (PayWriteResponse success written_codes).

Definition nack_encode (error_code : Z) : list Z := rlp_out (RList [RUint error_code]).
Definition nack_decode (data : list Z) : outcome MsgCodecError MessagePayload :=
  let! error_code := val_at_uint 1 0 data in Ok (PayNack error_code).

(** [MessagePayload::encode]; it cannot fail. *)
Definition message_payload_encode (p : MessagePayload) : list Z :=
  match p with
  | PayHandshake nonce => handshake_message_encode nonce
  | PayHandshakeResponse status => handshake_response_encode status
  | PayRegistryRequest m => registry_request_encode m
  | PayRegistryResponse m => registry_response_encode m
  | PayReadRequest codes => read_request_encode codes
  | PayReadResponse values => read_response_encode values
  | PayWriteRequest ps => write_request_encode ps
  | PayWriteResponse ok codes => write_response_encode ok codes
  | PayNack code => nack_encode code
  | PayExecuteRequest | PayExecuteResponse | PayActionRequest | PayActionResponse | PayAck
  | PaySessionStartRequest => []
  end.

(** [MessagePayload::decode]. *)
Definition message_payload_decode (code : Z) (data : list Z) : outcome MsgCodecError MessagePayload :=
  match code with
  | 0x00 => handshake_message_decode data
  | 0x01 => handshake_response_decode data
  | 0x02 => registry_request_decode data
  | 0x03 => registry_response_decode data
  | 0x0A => read_request_decode data
  | 0x0B => read_response_decode data
  | 0x14 => write_request_decode data
  | 0x15 => write_response_decode data
  | 0x1E => Ok PayExecuteRequest
  | 0x1F => Ok PayExecuteResponse
  | 0x28 => Ok PayActionRequest
  | 0x29 => Ok PayActionResponse
  | 0xFE => nack_decode data
  | 0xFF => Ok PayAck
  | 0xF0 => Ok PaySessionStartRequest
  | _ => Err UnknownMsgType
  end.

(** ** The codec *)
Definition HEADER_SIZE : Z := 30.
Definition MAC_SIZE : Z := 16.
Definition MIN_MSG_LEN : Z := HEADER_SIZE + MAC_SIZE.

(** [MessageCodec::decode] of one datagram. *)
Definition message_decode (buf : list Z) : outcome MsgCodecError (option Message) :=
  if remaining buf <? MIN_MSG_LEN then
    if (0 <? length buf)%nat then Err MsgInvalidLength else Ok None
  else
    let! (version, buf) := get_u8 buf in
    let! (msg_type_code, buf) := get_u8 buf in
    let! (device_id, buf) := get_u128 buf in
    let! (seq, buf) := get_u32 buf in
    let! (timestamp, buf) := get_u64 buf in
    if remaining buf <? MAC_SIZE then Err MsgInvalidLength
    else
      let! (payload_data, buf) := copy_to_slice (remaining buf - MAC_SIZE) buf in
      let! (mac, buf) := get_u128 buf in
      let! msg_type := msg_from_code msg_type_code in
      let! payload := message_payload_decode msg_type_code payload_data in
      Ok (Some (mkMessage version msg_type device_id seq timestamp payload mac)).

(** [MessageCodec::encode] into an empty buffer. *)
Definition message_encode (m : Message) : list Z :=
  put_u8 (d_version m) ++ put_u8 (msg_code (d_type m)) ++ put_u128 (d_device_id m) ++ put_u32 (d_seq m) ++
  put_u64 (d_timestamp m) ++ message_payload_encode (d_payload m) ++ put_u128 (d_mac m).
End codec.

(** ** Well-formed messages *)

(** The type of the messages that carry a payload. *)
Definition payload_type (p : MessagePayload) : MsgType :=
  match p with
  | PayHandshake _ => THandshake
  | PayHandshakeResponse _ => THandshakeResponse
  | PayRegistryRequest _ => TRegisterRequest
  | PayRegistryResponse _ => TRegisterResponse
  | PayReadRequest _ => TReadRequest
  | PayReadResponse _ => TReadResponse
  | PayWriteRequest _ => TWriteRequest
  | PayWriteResponse _ _ => TWriteResponse
  | PayExecuteRequest => TExecuteRequest
  | PayExecuteResponse => TExecuteResponse
  | PayActionRequest => TActionRequest
  | PayActionResponse => TActionResponse
  | PayAck => TAck
  | PayNack _ => TNack
  | PaySessionStartRequest => TSessionStartRequest
  end.

(** A Rust string: valid UTF-8 bytes. *)
Definition text_ok (s : list Z) : Prop := Forall is_byte s ∧ utf8_valid s = true.

(** The values fit the Rust types. *)
Definition device_payload_ok (p : MessagePayload) : Prop :=
  match p with
  | PayHandshake nonce => Forall is_byte nonce
  | PayHandshakeResponse status => 0 <= status < 2 ^ 8
  | PayRegistryRequest m => text_ok (rr_imei m) ∧ text_ok (rr_ipv6 m)
  | PayRegistryResponse m => 0 <= rs_flag m < 2 ^ 8 ∧ 0 <= rs_next_wake_time m < 2 ^ 64
  | PayReadRequest codes | PayWriteResponse _ codes => Forall text_ok codes
  | PayReadResponse values => Forall (λ v, text_ok (obis_code v) ∧ Forall is_byte (obis_value v)) values
  | PayWriteRequest ps => Forall (λ p, text_ok (wp_code p) ∧ Forall is_byte (wp_value p)) ps
  | PayNack code => 0 <= code < 2 ^ 8
  | _ => True
  end.

Definition device_message_ok (m : Message) : Prop :=
  0 <= d_version m < 2 ^ 8 ∧ d_type m = payload_type (d_payload m) ∧ 0 <= d_device_id m < 2 ^ 128 ∧
  0 <= d_seq m < 2 ^ 32 ∧ 0 <= d_timestamp m < 2 ^ 64 ∧ device_payload_ok (d_payload m) ∧ 0 <= d_mac m < 2 ^ 128.

Section facts.
Context `{BytesCrate} `{RlpCrate}.

(** ** Reading the items of an encoded list *)
Definition list_ok (l : list RlpItem) : Prop :=
  rlp_wf (RList l) ∧ Z.of_nat (length (rlp_out (RList l))) < 2 ^ 64.

Lemma at_item_ok l i x : list_ok l → l !! i = Some x → at_item i (rlp_out (RList l)) = Ok (rlp_out x).
Proof. intros [Hwf Hs] Hx. unfold at_item. by rewrite (rlp_at_out l i x). Qed.

Lemma sublist_ok l i l' : list_ok l → l !! i = Some (RList l') → list_ok l'.
Proof.
  intros [Hwf Hs] Hx. split; [|by eapply rlp_at_out_size].
  apply rlp_wf_list in Hwf. by apply (Forall_lookup_1 _ _ _ _ Hwf Hx).
Qed.

Lemma val_at_bytes_ok l i b : list_ok l → l !! i = Some (RBytes b) → val_at_bytes i (rlp_out (RList l)) = Ok b.
Proof.
  intros Hl Hx. unfold val_at_bytes. rewrite (at_item_ok l i (RBytes b)) by done. simpl.
  destruct Hl as [Hwf Hs]. rewrite rlp_bytes_out; [done| |by eapply rlp_at_out_size].
  apply rlp_wf_list in Hwf. by apply (Forall_lookup_1 _ _ _ _ Hwf Hx).
Qed.

Lemma val_at_uint_ok w l i v : list_ok l → l !! i = Some (RUint v) → (w <= 8)%nat → 0 <= v < 256 ^ Z.of_nat w →
  val_at_uint w i (rlp_out (RList l)) = Ok v.
Proof. intros Hl Hx Hw Hv. unfold val_at_uint. rewrite (at_item_ok l i (RUint v)) by done. simpl. by rewrite rlp_uint_out. Qed.

Lemma string_from_utf8_ok s : text_ok s → string_from_utf8 s = Ok s.
Proof. intros [_ Hu]. unfold string_from_utf8, from_utf8. by rewrite Hu. Qed.

Lemma val_at_string_ok l i s : list_ok l → l !! i = Some (RBytes s) → text_ok s →
  val_at_string i (rlp_out (RList l)) = Ok s.
Proof.
  intros Hl Hx Hs. unfold val_at_string. rewrite (val_at_bytes_ok l i s) by done. by apply string_from_utf8_ok.
Qed.

Lemma for_items_ok {A} (xs : list A) k f :
  (∀ i x, xs !! i = Some x → f (k + i)%nat = Ok x) → for_items (length xs) k f = Ok xs.
Proof.
  revert k. induction xs as [|x xs IH]; intros k Hf; [done|]. simpl.
  rewrite <- (Nat.add_0_r k), (Hf 0%nat x) by done. simpl.
  rewrite IH; [done|]. intros i y Hy. rewrite <- (Hf (S i) y Hy). f_equal. lia.
Qed.

(** The list that [for_items] reads back item by item. *)
Lemma count_items_ok {A} (enc : A → RlpItem) xs f (k : list A → MessagePayload) :
  list_ok (enc <$> xs) → (∀ i x, xs !! i = Some x → f i = Ok x) →
  (let! count := or_payload_error (rlp_item_count (rlp_out (RList (enc <$> xs)))) in
   let! ys := for_items count 0 f in Ok (k ys)) = Ok (k xs).
Proof.
  intros [Hwf Hs] Hf. rewrite rlp_count_out by done. cbn [or_payload_error ok_or obind].
  rewrite length_fmap, for_items_ok; [done|]. exact Hf.
Qed.

(** A list of pairs of a text and bytes, as read values and write parameters are. *)
Lemma pair_item_ok {A} (code value : A → list Z) (mk : list Z → list Z → A) xs i x :
  list_ok ((λ v, RList [RBytes (code v); RBytes (value v)]) <$> xs) →
  Forall (λ v, text_ok (code v) ∧ Forall is_byte (value v)) xs →
  (∀ v, mk (code v) (value v) = v) → xs !! i = Some x →
  (let! item := at_item i (rlp_out (RList ((λ v, RList [RBytes (code v); RBytes (value v)]) <$> xs))) in
   let! c := val_at_string 0 item in let! v := val_at_bytes 1 item in Ok (mk c v)) = Ok x.
Proof.
  intros Hl Hall Hmk Hx. set (enc := λ v, RList [RBytes (code v); RBytes (value v)]) in *.
  assert (Hi : (enc <$> xs) !! i = Some (enc x)) by (by rewrite list_lookup_fmap, Hx).
  rewrite (at_item_ok _ _ _ Hl Hi). cbn [obind]. pose proof (sublist_ok _ _ _ Hl Hi) as Hsub.
  destruct (Forall_lookup_1 _ _ _ _ Hall Hx) as [Hc _].
  unfold enc. rewrite (val_at_string_ok _ 0 (code x)) by done. cbn [obind].
  rewrite (val_at_bytes_ok _ 1 (value x)) by done. cbn [obind]. by rewrite Hmk.
Qed.

Lemma texts_ok codes : Forall text_ok codes → Forall rlp_wf (RBytes <$> codes).
Proof. intros Hc. apply Forall_fmap. eapply Forall_impl; [exact Hc|]. by intros s []. Qed.

Lemma pairs_ok {A} (code value : A → list Z) xs :
  Forall (λ v, text_ok (code v) ∧ Forall is_byte (value v)) xs →
  Forall rlp_wf ((λ v, RList [RBytes (code v); RBytes (value v)]) <$> xs).
Proof. intros Hx. apply Forall_fmap. eapply Forall_impl; [exact Hx|]. by intros v [[] ?]. Qed.

Lemma payload_roundtrip p :
  device_payload_ok p → Z.of_nat (length (message_payload_encode p)) < 2 ^ 64 →
  message_payload_decode (msg_code (payload_type p)) (message_payload_encode p) = Ok p.
Proof.
  intros Hp Hs.
  destruct p as [nonce|status|[imei ipv6]|[flag t]|codes|values|ps|ok codes| | | | | |code|]; try done;
    cbn [message_payload_encode payload_type msg_code message_payload_decode] in *; simpl in Hp.
  - unfold handshake_message_decode, handshake_message_encode. by rewrite (val_at_bytes_ok _ 0 nonce).
  - unfold handshake_response_decode, handshake_response_encode.
    rewrite (val_at_uint_ok 1 _ 0 status); [done| |done|lia|done]. split; [|done]. simpl. lia.
  - unfold registry_request_decode, registry_request_encode. simpl. destruct Hp as [Hi H6].
    assert (Hl : list_ok [RBytes imei; RBytes ipv6]) by (by destruct Hi, H6).
    rewrite (val_at_bytes_ok _ 0 imei), (val_at_bytes_ok _ 1 ipv6) by done. simpl.
    by rewrite !string_from_utf8_ok.
  - unfold registry_response_decode, registry_response_encode. simpl. destruct Hp as [Hf Ht].
    assert (Hl : list_ok [RUint flag; RUint t]) by (split; [simpl in *; lia|done]).
    rewrite (val_at_uint_ok 1 _ 0 flag), (val_at_uint_ok 8 _ 1 t) by (done || lia). done.
  - unfold read_request_decode, read_request_encode. assert (Hl : list_ok (RBytes <$> codes)).
    { split; [|done]. by apply rlp_wf_list, texts_ok. }
    apply (count_items_ok RBytes codes); [done|]. intros i s Hi.
    apply val_at_string_ok; [done|by rewrite list_lookup_fmap, Hi|by apply (Forall_lookup_1 _ _ _ _ Hp Hi)].
  - unfold read_response_decode, read_response_encode.
    set (enc := λ v, RList [RBytes (obis_code v); RBytes (obis_value v)]) in *.
    assert (Hl : list_ok (enc <$> values)) by (split; [by apply rlp_wf_list, pairs_ok|done]).
    apply (count_items_ok enc); [done|]. intros i v Hi.
    apply (pair_item_ok obis_code obis_value mkObis); [done..|by intros []|done].
  - unfold write_request_decode, write_request_encode.
    set (enc := λ v, RList [RBytes (wp_code v); RBytes (wp_value v)]) in *.
    assert (Hl : list_ok (enc <$> ps)) by (split; [by apply rlp_wf_list, pairs_ok|done]).
    apply (count_items_ok enc); [done|]. intros i v Hi.
    apply (pair_item_ok wp_code wp_value mkWriteParameter); [done..|by intros []|done].
  - unfold write_response_decode, write_response_encode.
    assert (Hl : list_ok [RUint (if ok then 1 else 0); RList (RBytes <$> codes)]).
    { split; [|done]. apply rlp_wf_list. constructor; [by destruct ok|]. constructor; [|done].
      by apply rlp_wf_list, texts_ok. }
    rewrite (val_at_uint_ok 1 _ 0 (if ok then 1 else 0)); [|done|done|lia|by destruct ok]. cbn [obind].
    rewrite (at_item_ok _ 1 (RList (RBytes <$> codes))) by done. cbn [obind].
    rewrite (count_items_ok RBytes codes _ (PayWriteResponse (negb ((if ok then 1 else 0) =? 0)))).
    + by destruct ok.
    + by eapply (sublist_ok _ 1).
    + intros i s Hi. apply val_at_string_ok; [by eapply (sublist_ok _ 1)|by rewrite list_lookup_fmap, Hi|].
      by apply (Forall_lookup_1 _ _ _ _ Hp Hi).
  - unfold nack_decode, nack_encode. rewrite (val_at_uint_ok 1 _ 0 code); [done| |done|lia|done].
    split; [|done]. simpl. lia.
Qed.

(** ** The whole message *)
Lemma msg_code_range t : 0 <= msg_code t < 2 ^ 8.
Proof. by destruct t. Qed.

Lemma message_encode_length m :
  length (message_encode m) = (46 + length (message_payload_encode (d_payload m)))%nat.
Proof. unfold message_encode, put_u8, put_u128, put_u32, put_u64. rewrite !length_app, !put_uint_length. lia. Qed.

Lemma message_roundtrip m :
  device_message_ok m → Z.of_nat (length (message_encode m)) < 2 ^ 64 → message_decode (message_encode m) = Ok (Some m).
Proof.
  intros Hm Hsize.
  rewrite message_encode_length in Hsize. destruct Hm as (Hv & Ht & Hid & Hseq & Hts & Hp & Hmac).
  unfold message_decode.
  destruct (Z.ltb_spec (remaining (message_encode m)) MIN_MSG_LEN) as [Hlt|_].
  { unfold remaining in Hlt. rewrite message_encode_length in Hlt. unfold MIN_MSG_LEN, HEADER_SIZE, MAC_SIZE in Hlt. lia. }
  unfold message_encode. rewrite get_u8_put by done. cbn [obind]. rewrite get_u8_put by apply msg_code_range.
  cbn [obind]. rewrite get_u128_put by done. cbn [obind]. rewrite get_u32_put by done. cbn [obind].
  rewrite get_u64_put by done. cbn [obind].
  assert (Hr : remaining (message_payload_encode (d_payload m) ++ put_u128 (d_mac m))
    = remaining (message_payload_encode (d_payload m)) + 16) by (rewrite remaining_app; unfold put_u128; by rewrite remaining_put).
  rewrite Hr. pose proof (remaining_nonneg (message_payload_encode (d_payload m))) as Hnn.
  destruct (Z.ltb_spec (remaining (message_payload_encode (d_payload m)) + 16) MAC_SIZE) as [Hx|_];
    [unfold MAC_SIZE in Hx; lia|].
  rewrite copy_to_slice_app by (unfold MAC_SIZE, remaining; lia). cbn [obind].
  rewrite <- (app_nil_r (put_u128 _)), get_u128_put by done. cbn [obind].
  rewrite msg_code_from. cbn [obind]. rewrite Ht, payload_roundtrip by (done || lia). cbn [obind].
  rewrite <- Ht. by destruct m.
Qed.

(** C24: Device messages survive the wire: a well-formed message is decoded from its own encoding,
    whatever its type, for every implementation of the [bytes] and [rlp] crates. *)
Theorem device_message_roundtrip m
    (Hm : device_message_ok m) (Hsize : Z.of_nat (length (message_encode m)) < 2 ^ 64) :
  message_decode (message_encode m) = Ok (Some m).
Proof. by apply message_roundtrip. Qed.

(** ** Any datagram *)
Lemma or_payload_error_safe {A} (o : option A) : or_payload_error o ≠ Panic.
Proof. by destruct o. Qed.

Lemma obind_safe {E A B} (m : outcome E A) (k : A → outcome E B) : m ≠ Panic → (∀ a, k a ≠ Panic) → obind m k ≠ Panic.
Proof. destruct m; simpl; [auto|done|done]. Qed.

Lemma for_items_safe {A} count i (f : nat → outcome MsgCodecError A) : (∀ i, f i ≠ Panic) → for_items count i f ≠ Panic.
Proof.
  intros Hf. revert i. induction count as [|c IH]; intros i; simpl; [done|]. apply obind_safe; [done|]. intros x.
  apply obind_safe; [apply IH|done].
Qed.

(** Unfolds a payload decoder into its reads, none of which panics. *)
Ltac safe := repeat first [apply obind_safe; [|intros] | apply for_items_safe; intros | apply or_payload_error_safe | done].

Lemma payload_decode_safe code data p :
  message_payload_decode code data ≠ Panic ∧
  (message_payload_decode code data = Ok p → ∀ t, msg_from_code code = Ok t → t = payload_type p).
Proof.
  split.
  - unfold message_payload_decode, handshake_message_decode, handshake_response_decode, registry_request_decode,
      registry_response_decode, read_request_decode, read_response_decode, write_request_decode, write_response_decode,
      nack_decode, val_at_string, val_at_bytes, val_at_uint, at_item, string_from_utf8.
    repeat case_match; safe.
  - intros Hd t Ht. apply msg_from_code_inv in Ht. subst code.
    destruct t; cbn [msg_code message_payload_decode] in Hd; try (by injection Hd as <-);
      unfold handshake_message_decode, handshake_response_decode, registry_request_decode, registry_response_decode,
        read_request_decode, read_response_decode, write_request_decode, write_response_decode, nack_decode in Hd;
      by repeat (apply obind_Ok in Hd as (? & _ & Hd)); injection Hd as <-.
Qed.

(** What the decoder does on a datagram, by its outcome. *)
Lemma message_decode_spec buf : Forall is_byte buf →
  match message_decode buf with
  | Panic => False
  | Ok None => buf = []
  | Err e => buf ≠ [] ∧ ((length buf < 46)%nat → e = MsgInvalidLength)
  | Ok (Some m) => (46 <= length buf)%nat ∧ d_type m = payload_type (d_payload m) ∧
      0 <= d_version m < 2 ^ 8 ∧ 0 <= d_device_id m < 2 ^ 128 ∧ 0 <= d_seq m < 2 ^ 32 ∧ 0 <= d_timestamp m < 2 ^ 64
  end.
Proof.
  intros Hbuf.
  unfold message_decode, MIN_MSG_LEN, HEADER_SIZE, MAC_SIZE.
  destruct (Z.ltb_spec (remaining buf) (30 + 16)) as [Hlt|Hge].
  { destruct buf; simpl; [done|]. split; [done|auto]. }
  unfold remaining in Hge. assert (Hlen : (46 <= length buf)%nat) by lia.
  assert (Hne : buf ≠ []) by (by destruct buf).
  assert (Hget : ∀ n l, (n <= length l)%nat → Forall is_byte l →
    ∃ v, @get_n _ MsgCodecError n l = Ok (v, drop n l) ∧ 0 <= v < 256 ^ Z.of_nat n).
  { intros n l Hn Hl. destruct (get_uint_long n l Hn) as [v Hv]. exists v. unfold get_n. rewrite Hv.
    split; [done|]. by eapply get_uint_range. }
  destruct (Hget 1%nat buf) as (v & Hv & Rv); [lia|done|]. unfold get_u8, get_u128, get_u32, get_u64. rewrite Hv. cbn [obind].
  destruct (Hget 1%nat (drop 1 buf)) as (c & Hc & Rc); [rewrite length_drop; lia|by apply Forall_drop|].
  rewrite Hc, drop_drop. cbn [obind Nat.add].
  destruct (Hget 16%nat (drop 2 buf)) as (id & Hi & Ri); [rewrite length_drop; lia|by apply Forall_drop|].
  rewrite Hi, drop_drop. cbn [obind Nat.add].
  destruct (Hget 4%nat (drop 18 buf)) as (seq & Hs & Rs); [rewrite length_drop; lia|by apply Forall_drop|].
  rewrite Hs, drop_drop. cbn [obind Nat.add].
  destruct (Hget 8%nat (drop 22 buf)) as (ts & Ht & Rt); [rewrite length_drop; lia|by apply Forall_drop|].
  rewrite Ht, drop_drop. cbn [obind Nat.add]. set (rest := drop 30 buf).
  assert (Hrest : length rest = (length buf - 30)%nat) by apply length_drop.
  destruct (Z.ltb_spec (remaining rest) 16) as [Hx|_]; [unfold remaining in Hx; lia|].
  rewrite copy_to_slice_ok by (unfold remaining; lia). cbn [obind].
  destruct (Hget 16%nat (drop (Z.to_nat (remaining rest - 16)) rest)) as (mac & Hm & _);
    [unfold remaining; rewrite length_drop; lia|by apply Forall_drop, Forall_drop|].
  rewrite Hm. cbn [obind].
  destruct (msg_from_code c) as [t|e|] eqn:Hty; cbn [obind].
  - destruct (message_payload_decode c _) as [p|e|] eqn:Hp; cbn [obind].
    + destruct (payload_decode_safe c (take (Z.to_nat (remaining rest - 16)) rest) p) as [_ Hmatch].
      by rewrite (Hmatch Hp t Hty).
    + split; [done|lia].
    + by destruct (payload_decode_safe c (take (Z.to_nat (remaining rest - 16)) rest) PayAck).
  - split; [done|lia].
  - unfold msg_from_code in Hty. by repeat case_match.
Qed.

(** C33: The decoder of device messages is total: on every datagram it returns. An empty one is no
    message, one of fewer than 46 bytes is rejected, and a decoded message carries the
    payload of its type and header fields that fit their widths. *)
Theorem device_decode_total buf
    (Hbuf : Forall is_byte buf) :
  match message_decode buf with
  | Panic => False
  | Ok None => buf = []
  | Err e => buf ≠ [] ∧ ((length buf < 46)%nat → e = MsgInvalidLength)
  | Ok (Some m) => (46 <= length buf)%nat ∧ d_type m = payload_type (d_payload m) ∧
      0 <= d_version m < 2 ^ 8 ∧ 0 <= d_device_id m < 2 ^ 128 ∧ 0 <= d_seq m < 2 ^ 32 ∧ 0 <= d_timestamp m < 2 ^ 64
  end.
Proof. by apply message_decode_spec. Qed.
End facts.

(** ** An exchange on the wire *)
Definition read_answer : Message :=
  mkMessage 1 TReadResponse 5000 3 1704099601
    (PayReadResponse [mkObis (str "1.0.1") [0; 0; 1; 200]; mkObis (str "0.9.4") []]) 0.

Lemma device_message_roundtrip_witness :
  message_decode (H := big_endian.big_endian) (H0 := rlp_format.rlp_format)
    (message_encode (H := big_endian.big_endian) (H0 := rlp_format.rlp_format) read_answer) = Ok (Some read_answer).
Proof.
  apply (device_message_roundtrip (H := big_endian.big_endian) (H0 := rlp_format.rlp_format) read_answer).
  - repeat split; try done; repeat constructor; done.
  - vm_compute. reflexivity.
Defined.

(** The type byte is missing: 45 bytes are rejected. *)
Lemma device_decode_total_witness :
  message_decode (H := big_endian.big_endian) (H0 := rlp_format.rlp_format) (replicate 45 1) = Err MsgInvalidLength ∧
  replicate 45 1 ≠ [].
Proof.
  assert (Hb : Forall is_byte (replicate 45 1)) by (apply Forall_replicate; split; lia).
  pose proof (device_decode_total (H := big_endian.big_endian) (H0 := rlp_format.rlp_format) (replicate 45 1) Hb) as Ht.
  assert (He : message_decode (H := big_endian.big_endian) (H0 := rlp_format.rlp_format) (replicate 45 1)
    = Err MsgInvalidLength) by (vm_compute; reflexivity).
  rewrite He in Ht. split; [exact He|apply Ht].
Defined.
