(* ===== verification/Backdoor.v ===== *)
(** * The backdoor: device registration

    Model of [src/backdoor/backdoor.rs]: the UDP server that registers new
    devices, completes the registration on their ACK, times out the ones that
    never answer and records address changes. The decoded message is the
    input; what [send_msg] hands to the socket is appended to [bd_sent]. Clock
    readings ([now] in nanoseconds for the scheduler, [now_s] in seconds for
    the messages) and the new device's UUID are arguments. *)

From S2P Require Import Prelude Bytes Net Float32 Node Database Calendar Scheduler DeviceManager DeviceMessage.

Local Open Scope Z_scope.
Local Open Scope hes_scope.

Inductive BackdoorError :=
| DeviceManagerErr (e : DeviceManagerError)
| TcpError
| BdMessageError (e : MessageError)
| RegisterRequestInvalidId
| BdDatabaseError (e : DatabaseError)
| BdParseError (msg : list Z)
| InvalidIp
| BdInvalidTimeStamp.

Definition ACK_TIMEOUT_DURATION_MS : Z := 300000.

(** [t.and_utc().timestamp() as u64]. *)
Definition timestamp_u64 (t : Z) : Z := wrap_u64 (t / ns_per_s).

(** [msg.seq + 1] on [u32]. *)
Definition reply_seq (msg : Message) : Z := wrap_u32 (d_seq msg + 1).

Section backdoor.
Context `{ChronoCrate} `{HashOrder} {JS DB : Type} `{JobCrate JS} `{Engine DB}.

(** What the tasks of the backdoor share: the device manager with the
    database, the datagrams sent, and the sleeping ACK-timeout tasks with
    their duration in milliseconds. *)
Record Backdoor := mkBackdoor {
  bd_dm : DmState JS DB;
  bd_sent : list (SocketAddr * Message);
  bd_timeouts : list (Z * Uuid)
}.

Definition set_bd_dm (m : DmState JS DB) (st : Backdoor) : Backdoor :=
  mkBackdoor m (bd_sent st) (bd_timeouts st).
Definition set_bd_timeouts (l : list (Z * Uuid)) (st : Backdoor) : Backdoor :=
  mkBackdoor (bd_dm st) (bd_sent st) l.

Definition BD (A : Type) : Type := SE Backdoor BackdoorError A.

(** [database.<op>.await?], [device_manager.write().await.<op>.await?], [Message::<op>?]. *)
Definition bd_in_db {A} (m : SE DB DatabaseError A) : BD A :=
  szoom (λ st, dm_db (bd_dm st)) (λ d st, set_bd_dm (set_dm_db d (bd_dm st)) st) BdDatabaseError m.
Definition bd_in_dm {A} (m : DM JS DB A) : BD A := szoom bd_dm set_bd_dm DeviceManagerErr m.
Definition bd_message {A} (o : outcome MessageError A) : BD A := slift (omap_err BdMessageError o).

Definition send_msg (msg : Message) (addr : SocketAddr) : BD unit :=
  smod (λ st, mkBackdoor (bd_dm st) (bd_sent st ++ [(addr, msg)]) (bd_timeouts st)).

(** [if let Ok(m) = .. { send_msg(..) }]. *)
Definition send_if_ok (o : outcome MessageError Message) (addr : SocketAddr) : BD unit :=
  match o with Ok m => send_msg m addr | _ => sret tt end.

Definition spawn_ack_timeout_task (duration : Z) (id : Uuid) : BD unit :=
  smod (λ st, set_bd_timeouts (bd_timeouts st ++ [(duration, id)]) st).

(** The [k]-th sleeping task wakes; its outcome is only logged. *)
Definition ack_timeout_task (k : nat) (now : Z) : BD unit := λ st,
  match bd_timeouts st !! k with
  | None => (Ok tt, st)
  | Some (_, id) =>
      (do! _ <- sresult (E := BackdoorError) (bd_in_db (registration_timeout id now)) ; sret tt)
        (set_bd_timeouts (delete k (bd_timeouts st)) st)
  end.

(** ** Registration *)
Definition handle_backdoor_register_msg (fresh : Uuid) (now now_s : Z) (msg : Message) (socket_addr : SocketAddr)
    (ack_timeout_duration : Z) : BD unit :=
  if negb (d_device_id msg =? 0) then serr RegisterRequestInvalidId
  else
    let imei := match d_payload msg with PayRegistryRequest req => Some (rr_imei req) | _ => None end in
    let device := device_new fresh socket_addr imei in
    do! _ <- bd_in_db (add_device device) ;
    do! next_wake_up <- bd_in_dm (dm_register_device now device) ;
    do! received <- bd_message (get_timestamp msg) ;
    do! _ <- bd_in_db (register_device (dev_id device) received) ;
    do! response <- bd_message
      (new_register_response_message now_s (dev_id device) (reply_seq msg) 0 (timestamp_u64 next_wake_up)) ;
    do! _ <- send_msg response socket_addr ;
    spawn_ack_timeout_task ack_timeout_duration (dev_id device).

(** ** ACK

    The handler reads the device and its registration, then acts on what it
    read. Other tasks can run in between, so the two parts are definitions of
    their own. *)
Definition ack_read (msg : Message) (socket_addr : SocketAddr) : BD (Device * DeviceRegistration) :=
  do! device <- bd_in_db (get_device (d_device_id msg)) ;
  if decide (Some (ip_to_string (sock_ip socket_addr)) ≠ dev_ipv4 device) then serr InvalidIp
  else
    do! registration <- bd_in_db (get_device_registration (dev_id device)) ;
    sret (device, registration).

Definition ack_act (now now_s : Z) (msg : Message) (socket_addr : SocketAddr) (device : Device)
    (registration : DeviceRegistration) : BD unit :=
  match registration_status registration with
  | AckTimeout =>
      send_if_ok (new_nack_message now_s (d_device_id msg) (reply_seq msg) NACK_INTERNAL_ERROR) socket_addr
  | Registered =>
      send_if_ok (new_ack_message now_s (d_device_id msg) (reply_seq msg)) socket_addr
  | PendingAck =>
      do! received <- bd_message (get_timestamp msg) ;
      do! _ <- bd_in_db (update_device_registration (dev_id device) (Some Registered) (Some received)) ;
      do! _ <- bd_in_dm (schedule_next_wakeup now (dev_id device)) ;
      send_if_ok (new_ack_message now_s (d_device_id msg) (reply_seq msg)) socket_addr
  end.

Definition handle_backdoor_ack_msg (now now_s : Z) (msg : Message) (socket_addr : SocketAddr) : BD unit :=
  do! p <- ack_read msg socket_addr ;
  ack_act now now_s msg socket_addr p.1 p.2.

(** ** Address change *)
Definition get_next_wake_time (now : Z) (id : Uuid) : BD Z :=
  do! r <- sresult (bd_in_db (get_scheduled_connection id)) ;
  match r with
  | Ok conn => sret (timestamp_u64 (schedule_time conn))
  | _ =>
      do! _ <- bd_in_dm (schedule_next_wakeup now id) ;
      do! conn <- bd_in_db (get_scheduled_connection id) ;
      sret (timestamp_u64 (schedule_time conn))
  end.

(** The device with the address the message came from. *)
Definition with_address (addr : SocketAddr) (d : Device) : Device :=
  match addr with
  | SockV4 _ _ _ _ _ => mkDevice (dev_id d) (Some (ip_to_string (sock_ip addr))) None (dev_imei d)
  | SockV6 _ _ _ _ => mkDevice (dev_id d) None (Some (ip_to_string (sock_ip addr))) (dev_imei d)
  end.

(** Runs [m]; on an error answers NACK [code] and returns the error. *)
Definition or_nack {A} (now_s : Z) (msg : Message) (addr : SocketAddr) (code : Z) (m : BD A) : BD A :=
  do! r <- sresult m ;
  match r with
  | Ok a => sret a
  | Err e =>
      do! _ <- send_if_ok (new_nack_message now_s (d_device_id msg) (reply_seq msg) code) addr ;
      serr e
  | Panic => spanic
  end.

Definition handle_backdoor_ip_update_msg (now now_s : Z) (msg : Message) (socket_addr : SocketAddr) : BD unit :=
  let device_id := d_device_id msg in
  do! device <- or_nack now_s msg socket_addr NACK_DEVICE_NOT_FOUND (bd_in_db (get_device device_id)) ;
  do! _ <- or_nack now_s msg socket_addr NACK_INTERNAL_ERROR
    (bd_in_db (modify_device (with_address socket_addr device))) ;
  do! next_wake_time <- or_nack now_s msg socket_addr NACK_INTERNAL_ERROR (get_next_wake_time now device_id) ;
  send_if_ok (new_register_response_message now_s device_id (reply_seq msg) 0 next_wake_time) socket_addr.

(** ** The server

    The dispatch of the receive loop on a decoded message; a handler's error is only logged. *)
Definition backdoor_dispatch (fresh : Uuid) (now now_s : Z) (timeout : Z) (addr : SocketAddr) (msg : Message)
  : BD unit :=
  match d_type msg with
  | TRegisterRequest =>
      if d_device_id msg =? 0 then handle_backdoor_register_msg fresh now now_s msg addr timeout
      else handle_backdoor_ip_update_msg now now_s msg addr
  | TAck => handle_backdoor_ack_msg now now_s msg addr
  | _ => sret tt
  end.
End backdoor.
Arguments Backdoor JS DB : clear implicits.
Arguments BD JS DB A : clear implicits.
