(* ===== verification/BackdoorFacts.v ===== *)
(** * Theorems on device registration

    The backdoor over the in-memory engine: the registration handshake, the
    hour in which it goes wrong, IPv6 devices, address changes, and what holds
    of the registrations under every interleaving of the handlers. *)

From S2P Require Import Prelude Bytes Net Float32 Node Database DatabaseFacts Calendar Scheduler SchedulerFacts DeviceManager DeviceManagerFacts DeviceMessage Backdoor.

Local Open Scope Z_scope.
Local Open Scope hes_scope.

Section facts.
Context `{ChronoCrate} `{HashOrder} {JS : Type} `{JobCrate JS}.
Implicit Types (st : Backdoor JS InnerDB).

Definition bd_db st : InnerDB := dm_db (bd_dm st).
Definition bd_sched st : Scheduler JS := dm_scheduler (dm (bd_dm st)).
Definition bd_jobs st : gmap Z WakeupJob := dm_jobs (bd_dm st).
Definition registrations st : gmap Z (RegistrationStatus * Z) := device_registration (bd_db st).
Definition bd_owned st : gset Z := owned (bd_dm st).

Definition set_bd_db (db : InnerDB) st : Backdoor JS InnerDB := set_bd_dm (set_dm_db db (bd_dm st)) st.
Definition sending (l : list (SocketAddr * Message)) st : Backdoor JS InnerDB :=
  mkBackdoor (bd_dm st) (bd_sent st ++ l) (bd_timeouts st).

(** The message every constructor builds at second [now_s]. *)
Definition stamped (now_s : Z) (t : MsgType) (id seq : Z) (p : MessagePayload) : Message :=
  mkMessage CURRENT_PROTOCOL_VERSION t id seq (wrap_u64 now_s) p 0.

Lemma build_message_ok now_s t id seq p :
  0 <= now_s → build_message now_s t id seq p = Ok (stamped now_s t id seq p).
Proof. intros Hn. unfold build_message. by destruct (Z.ltb_spec now_s 0); [lia|]. Qed.

(** ** One operation at a time *)
Lemma bd_in_db_ok {A} (m : SE InnerDB DatabaseError A) st a db' :
  m (bd_db st) = (Ok a, db') → bd_in_db m st = (Ok a, set_bd_db db' st).
Proof. intros Hm. unfold bd_in_db, szoom. unfold bd_db in Hm. by rewrite Hm. Qed.

Lemma bd_in_dm_ok {A} (m : DM JS InnerDB A) st a d :
  m (bd_dm st) = (Ok a, d) → bd_in_dm m st = (Ok a, set_bd_dm d st).
Proof. intros Hm. unfold bd_in_dm, szoom. by rewrite Hm. Qed.

Lemma set_bd_db_same st : set_bd_db (bd_db st) st = st.
Proof. by destruct st as [[]]. Qed.

Lemma bd_read_ok {A} (m : SE InnerDB DatabaseError A) st a :
  m (bd_db st) = (Ok a, bd_db st) → bd_in_db m st = (Ok a, st).
Proof. intros Hm. by rewrite (bd_in_db_ok _ _ _ _ Hm), set_bd_db_same. Qed.

Lemma bd_message_ok {A B} (o : outcome MessageError A) (k : A → BD JS InnerDB B) st a :
  o = Ok a → sbind (bd_message o) k st = k a st.
Proof. by intros ->. Qed.

(** Registering with the device manager: the least-loaded bucket, and this node as owner. *)
Lemma dm_register_ok now d (ds : DmState JS InnerDB) :
  can_schedule (dm_scheduler (dm ds)) now → buckets (dm_db ds) !! dev_id d = None →
  ∃ b, least_bucket (bucket_load (dm_db ds)) (bucket_number (dm_scheduler (dm ds))) b ∧
    dm_register_device now d ds
    = (Ok (wake_time (dm_scheduler (dm ds)) now b),
       mkDmState (set_owned ({[dev_id d]} ∪ owned ds) (dm ds))
         (set_buckets (<[dev_id d := (b, sch_local_node_id (dm_scheduler (dm ds)))]> (buckets (dm_db ds))) (dm_db ds))).
Proof.
  intros Hs Hnew. set (ss := mkSchedState (dm_scheduler (dm ds)) (dm_db ds)).
  destruct (register_device_ok ss now d) as (b & t & db' & Hr & _ & Hw & Hleast & Hm); [done|done|].
  destruct (next_wakeup_time ss now b Hs ltac:(apply Hleast)) as [Hw' _].
  rewrite Hw in Hw'. injection Hw' as ->.
  exists b. split; [done|].
  assert (Hdb : db' = set_buckets (buckets db') (dm_db ds)).
  { clear Hm. unfold scheduler_register_device in Hr.
    apply sbind_inv in Hr as (b' & s1 & Hb & Hr). apply sbind_inv in Hr as (t' & s2 & Ht & Hr).
    apply sbind_inv in Hr as (n & s3 & [= <- <-] & Hr). apply sbind_inv in Hr as (u & s4 & Ha & Hr).
    unfold scheduler_get_bucket_number in Hb. rewrite sbind_get in Hb.
    unfold sbind, sresult, in_db, szoom in Hb. simpl in Hb. unfold mem_get_bucket_with_less_devices in Hb.
    assert (Hs1 : ss_db s1 = dm_db ds) by (destruct (_ <? 0) in Hb; simpl in Hb; by injection Hb as _ <-).
    assert (Hs2 : s2 = s1).
    { unfold next_wakeup in Ht. destruct (test_mode (ss_sched s1)); by injection Ht as _ <-. }
    unfold in_db, szoom in Ha. simpl in Ha. injection Ha as _ <-. injection Hr as _ _ Hr.
    by rewrite <- Hr, Hs2, Hs1. }
  simpl in Hm. rewrite Hm in Hdb.
  unfold dm_register_device, dm_in_sched, szoom, sbind, own, smod, sret. fold ss. rewrite Hr. simpl.
  rewrite Hdb. by destruct ds as [[]].
Qed.

(** The connection that scheduling the next wake-up stores. *)
Definition awaiting_row (id t j : Z) : ScheduledConnection :=
  mkScheduledConnection id t None Awaiting (Some j) true None.

Lemma dm_schedule_ok (ds : DmState JS InnerDB) now id b node :
  accepts_jobs (JS := JS) → can_schedule (dm_scheduler (dm ds)) now →
  buckets (dm_db ds) !! id = Some (b, node) → 0 <= b < bucket_number (dm_scheduler (dm ds)) →
  ∃ j s', let t := wake_time (dm_scheduler (dm ds)) now b in
    schedule_next_wakeup now id ds
    = (Ok tt, mkDmState (set_dm_scheduler s' (dm ds))
         (set_connections (<[id := awaiting_row id t j]> (scheduled_connections (dm_db ds))) (dm_db ds))) ∧
    same_config (dm_scheduler (dm ds)) s' ∧ dm_jobs ds !! j = None ∧
    js_jobs (job_scheduler s') = <[j := mkJob t id (reschedule_tx (dm_scheduler (dm ds)))]> (dm_jobs ds).
Proof.
  intros Hacc Hs Hb Hr. set (ss := mkSchedState (dm_scheduler (dm ds)) (dm_db ds)).
  destruct (schedule_next_ok ss now id b node Hacc Hs Hb Hr)
    as (t & j & [s' db'] & Hrun & _ & Hw & Hcfg & Hdb & Hfresh & Hjobs).
  destruct (next_wakeup_time ss now b Hs Hr) as [Hw' _]. rewrite Hw in Hw'. injection Hw' as ->.
  exists j, s'. simpl in *. split; [|done].
  unfold schedule_next_wakeup, dm_in_sched, szoom. fold ss. rewrite Hrun. simpl. by rewrite Hdb.
Qed.

Lemma bd_schedule_ok st now id b node :
  accepts_jobs (JS := JS) → can_schedule (bd_sched st) now →
  buckets (bd_db st) !! id = Some (b, node) → 0 <= b < bucket_number (bd_sched st) →
  ∃ j s', let t := wake_time (bd_sched st) now b in
    bd_in_dm (schedule_next_wakeup now id) st
    = (Ok tt, set_bd_dm (mkDmState (set_dm_scheduler s' (dm (bd_dm st)))
         (set_connections (<[id := awaiting_row id t j]> (scheduled_connections (bd_db st))) (bd_db st))) st) ∧
    same_config (bd_sched st) s' ∧ bd_jobs st !! j = None ∧
    js_jobs (job_scheduler s') = <[j := mkJob t id (reschedule_tx (bd_sched st))]> (bd_jobs st).
Proof.
  intros Hacc Hs Hb Hr. destruct (dm_schedule_ok (bd_dm st) now id b node Hacc Hs Hb Hr) as (j & s' & Hrun & Hrest).
  exists j, s'. split; [|done]. by apply bd_in_dm_ok.
Qed.

(** ** The handlers *)
Lemma device_new_id fresh addr imei : dev_id (device_new fresh addr imei) = fresh.
Proof. by destruct addr. Qed.

(** The device a registration request creates. *)
Definition new_device (fresh : Uuid) (msg : Message) (addr : SocketAddr) : Device :=
  device_new fresh addr (match d_payload msg with PayRegistryRequest req => Some (rr_imei req) | _ => None end).

(** The answer to it. *)
Definition register_answer st (fresh now now_s : Z) (msg : Message) (b : Z) : Message :=
  stamped now_s TRegisterResponse fresh (reply_seq msg)
    (PayRegistryResponse (mkRegistryResponse 0 (timestamp_u64 (wake_time (bd_sched st) now b)))).

(** The state after a registration request: the device waits for the ACK. *)
Definition pending st (fresh now now_s : Z) (msg : Message) (addr : SocketAddr) (timeout b received : Z)
  : Backdoor JS InnerDB :=
  mkBackdoor
    (mkDmState (set_owned ({[fresh]} ∪ bd_owned st) (dm (bd_dm st)))
       (mkInnerDB (<[fresh := new_device fresh msg addr]> (devices (bd_db st)))
          (<[fresh := (PendingAck, received)]> (registrations st))
          (<[fresh := (b, sch_local_node_id (bd_sched st))]> (buckets (bd_db st)))
          (scheduled_connections (bd_db st))))
    (bd_sent st ++ [(addr, register_answer st fresh now now_s msg b)])
    (bd_timeouts st ++ [(timeout, fresh)]).

Lemma register_ok st fresh now now_s msg addr timeout received :
  d_device_id msg = 0 → buckets (bd_db st) !! fresh = None → can_schedule (bd_sched st) now →
  get_timestamp msg = Ok received → 0 <= now_s →
  ∃ b, least_bucket (bucket_load (bd_db st)) (bucket_number (bd_sched st)) b ∧
    handle_backdoor_register_msg fresh now now_s msg addr timeout st
    = (Ok tt, pending st fresh now now_s msg addr timeout b received).
Proof.
  intros Hid Hnew Hs Ht Hn. unfold handle_backdoor_register_msg. rewrite Hid. simpl. fold (new_device fresh msg addr).
  assert (Hdev : dev_id (new_device fresh msg addr) = fresh) by apply device_new_id.
  sstep (bd_in_db_ok (mem_add_device (new_device fresh msg addr)) st _ _ eq_refl). rewrite Hdev.
  set (st1 := set_bd_db _ st).
  destruct (dm_register_ok now (new_device fresh msg addr) (bd_dm st1)) as (b & Hleast & Hr);
    [done|by rewrite Hdev|]. rewrite Hdev in Hr.
  exists b. split; [done|]. sstep (bd_in_dm_ok _ _ _ _ Hr).
  rewrite (bd_message_ok _ _ _ _ Ht).
  erewrite sbind_ok by (apply bd_in_db_ok; reflexivity).
  unfold new_register_response_message. rewrite build_message_ok by done.
  rewrite (bd_message_ok _ _ _ _ eq_refl). unfold send_msg. rewrite sbind_mod. done.
Qed.

(** What an ACK of a waiting device leaves: [s'] is the scheduler with the new job [j]. *)
Definition registered st (now now_s : Z) (msg : Message) (addr : SocketAddr) (b received j : Z) (s' : Scheduler JS)
  : Backdoor JS InnerDB :=
  let id := d_device_id msg in
  mkBackdoor
    (mkDmState (set_dm_scheduler s' (dm (bd_dm st)))
       (mkInnerDB (devices (bd_db st)) (<[id := (Registered, received)]> (registrations st)) (buckets (bd_db st))
          (<[id := awaiting_row id (wake_time (bd_sched st) now b) j]> (scheduled_connections (bd_db st)))))
    (bd_sent st ++ [(addr, stamped now_s TAck id (reply_seq msg) PayAck)]) (bd_timeouts st).

Lemma ack_act_pending_ok st now now_s msg addr d t0 received b node :
  accepts_jobs (JS := JS) → can_schedule (bd_sched st) now → dev_id d = d_device_id msg →
  is_Some (registrations st !! d_device_id msg) → get_timestamp msg = Ok received →
  buckets (bd_db st) !! d_device_id msg = Some (b, node) → 0 <= b < bucket_number (bd_sched st) → 0 <= now_s →
  ∃ j s', ack_act now now_s msg addr d (mkDeviceRegistration (d_device_id msg) PendingAck t0) st
      = (Ok tt, registered st now now_s msg addr b received j s') ∧
    same_config (bd_sched st) s' ∧ bd_jobs st !! j = None ∧
    js_jobs (job_scheduler s')
    = <[j := mkJob (wake_time (bd_sched st) now b) (d_device_id msg) (reschedule_tx (bd_sched st))]> (bd_jobs st).
Proof.
  intros Hacc Hs Hd [[st0 t1] Hreg] Ht Hb Hr Hn. unfold ack_act. simpl. rewrite Hd.
  rewrite (bd_message_ok _ _ _ _ Ht).
  set (db1 := set_registrations (<[d_device_id msg := (Registered, received)]> (registrations st)) (bd_db st)).
  assert (Hup : mem_update_device_registration (d_device_id msg) (Some Registered) (Some received) (bd_db st)
    = (Ok tt, db1)).
  { unfold mem_update_device_registration. unfold registrations in Hreg. by rewrite Hreg. }
  sstep (bd_in_db_ok _ st _ _ Hup).
  destruct (bd_schedule_ok (set_bd_db db1 st) now (d_device_id msg) b node Hacc Hs Hb Hr)
    as (j & s' & Hrun & Hcfg & Hfresh & Hjobs).
  exists j, s'. split; [|done]. sstep Hrun. unfold new_ack_message. by rewrite build_message_ok.
Qed.

Lemma ack_read_ok msg addr st d reg :
  devices (bd_db st) !! d_device_id msg = Some d → dev_id d = d_device_id msg →
  dev_ipv4 d = Some (ip_to_string (sock_ip addr)) → registrations st !! d_device_id msg = Some reg →
  ack_read msg addr st = (Ok (d, mkDeviceRegistration (d_device_id msg) reg.1 reg.2), st).
Proof.
  intros Hd Hid Hip Hreg. unfold ack_read.
  assert (Hg : mem_get_device (d_device_id msg) (bd_db st) = (Ok d, bd_db st)) by (unfold mem_get_device; by rewrite Hd).
  sstep (bd_read_ok _ st _ Hg). rewrite Hip, decide_False by naive_solver. rewrite Hid.
  assert (Hg' : mem_get_device_registration (d_device_id msg) (bd_db st)
    = (Ok (mkDeviceRegistration (d_device_id msg) reg.1 reg.2), bd_db st)).
  { unfold mem_get_device_registration. unfold registrations in Hreg. rewrite Hreg. by destruct reg. }
  by sstep (bd_read_ok _ st _ Hg').
Qed.

(** ** The timeout task *)
Definition timed_out st (id now : Z) : Backdoor JS InnerDB :=
  match registrations st !! id with
  | Some (PendingAck, _) =>
      set_bd_db (set_registrations (<[id := (AckTimeout, now)]> (registrations st)) (bd_db st)) st
  | _ => st
  end.

Lemma timeout_ok st k duration id now :
  bd_timeouts st !! k = Some (duration, id) →
  ack_timeout_task k now st = (Ok tt, timed_out (set_bd_timeouts (delete k (bd_timeouts st)) st) id now).
Proof.
  intros Hk. unfold ack_timeout_task. rewrite Hk. destruct st as [[m db] sent l].
  unfold sbind, sresult, bd_in_db, szoom, timed_out, registrations, bd_db. simpl.
  unfold mem_registration_timeout. by destruct (device_registration db !! id) as [[[] t]|].
Qed.

(** The task spawned last. *)
Lemma timeout_last_ok st l duration id now :
  bd_timeouts st = l ++ [(duration, id)] →
  ack_timeout_task (length l) now st = (Ok tt, timed_out (set_bd_timeouts l st) id now).
Proof.
  intros Hl. rewrite (timeout_ok _ _ duration id) by (by rewrite Hl, lookup_app_r, Nat.sub_diag).
  by rewrite Hl, delete_middle, app_nil_r.
Qed.

(** ** Address changes *)
Lemma with_address_id addr d : dev_id (with_address addr d) = dev_id d.
Proof. by destruct addr. Qed.

Definition is_v4 (addr : SocketAddr) : bool := match addr with SockV4 _ _ _ _ _ => true | SockV6 _ _ _ _ => false end.

Lemma or_nack_ok {A B} now_s msg addr code (m : BD JS InnerDB A) (k : A → BD JS InnerDB B) st st' a :
  m st = (Ok a, st') → sbind (or_nack now_s msg addr code m) k st = k a st'.
Proof. intros Hm. unfold or_nack, sbind, sresult. by rewrite Hm. Qed.

(** The device row after an address change. *)
Definition moved_device (addr : SocketAddr) (d : Device) st : Backdoor JS InnerDB :=
  set_bd_db (set_devices (<[dev_id d := with_address addr d]> (devices (bd_db st))) (bd_db st)) st.

Definition ip_update_answer (now_s : Z) (msg : Message) (t : Z) : Message :=
  stamped now_s TRegisterResponse (d_device_id msg) (reply_seq msg)
    (PayRegistryResponse (mkRegistryResponse 0 (timestamp_u64 t))).

(** Whatever [get_next_wake_time] answers decides the rest of the handler. *)
Lemma ip_update_ok st now now_s msg addr d t st' :
  devices (bd_db st) !! d_device_id msg = Some d → dev_id d = d_device_id msg → 0 <= now_s →
  get_next_wake_time now (d_device_id msg) (moved_device addr d st) = (Ok (timestamp_u64 t), st') →
  handle_backdoor_ip_update_msg now now_s msg addr st = (Ok tt, sending [(addr, ip_update_answer now_s msg t)] st').
Proof.
  intros Hd Hid Hn Hnext. unfold handle_backdoor_ip_update_msg.
  assert (Hg : mem_get_device (d_device_id msg) (bd_db st) = (Ok d, bd_db st)) by (unfold mem_get_device; by rewrite Hd).
  rewrite (or_nack_ok _ _ _ _ _ _ _ _ _ (bd_read_ok _ st _ Hg)).
  assert (Hm : mem_modify_device (with_address addr d) (bd_db st) = (Ok tt, bd_db (moved_device addr d st))).
  { unfold mem_modify_device. by rewrite with_address_id, Hid, Hd, <- Hid. }
  rewrite (or_nack_ok _ _ _ _ _ _ _ _ _ (bd_in_db_ok _ st _ _ Hm)).
  rewrite (or_nack_ok _ _ _ _ _ _ _ _ _ Hnext).
  unfold new_register_response_message. by rewrite build_message_ok.
Qed.

Lemma next_wake_known st now id c :
  scheduled_connections (bd_db st) !! id = Some c →
  get_next_wake_time now id st = (Ok (timestamp_u64 (schedule_time c)), st).
Proof.
  intros Hc. unfold get_next_wake_time, sbind, sresult.
  rewrite (bd_read_ok _ st c); [done|]. simpl. unfold mem_get_scheduled_connection. by rewrite Hc.
Qed.

(** The state after scheduling the next wake-up of [id]. *)
Definition scheduled st (id t j : Z) (s' : Scheduler JS) : Backdoor JS InnerDB :=
  set_bd_dm (mkDmState (set_dm_scheduler s' (dm (bd_dm st)))
    (set_connections (<[id := awaiting_row id t j]> (scheduled_connections (bd_db st))) (bd_db st))) st.

Lemma next_wake_unknown st now id b node :
  accepts_jobs (JS := JS) → can_schedule (bd_sched st) now →
  scheduled_connections (bd_db st) !! id = None →
  buckets (bd_db st) !! id = Some (b, node) → 0 <= b < bucket_number (bd_sched st) →
  ∃ j s', let t := wake_time (bd_sched st) now b in
    get_next_wake_time now id st = (Ok (timestamp_u64 t), scheduled st id t j s') ∧
    same_config (bd_sched st) s' ∧ bd_jobs st !! j = None ∧
    js_jobs (job_scheduler s') = <[j := mkJob t id (reschedule_tx (bd_sched st))]> (bd_jobs st).
Proof.
  intros Hacc Hs Hc Hb Hr. destruct (bd_schedule_ok st now id b node Hacc Hs Hb Hr) as (j & s' & Hrun & Hrest).
  exists j, s'. split; [|done]. fold (scheduled st id (wake_time (bd_sched st) now b) j s') in Hrun.
  unfold get_next_wake_time.
  assert (Hg : sresult (F := BackdoorError) (bd_in_db (get_scheduled_connection id)) st
    = (Ok (Err (BdDatabaseError NoDataFound)), st)).
  { unfold sresult, bd_in_db, szoom. simpl. unfold mem_get_scheduled_connection. unfold bd_db in Hc.
    rewrite Hc. simpl. f_equal. apply set_bd_db_same. }
  sstep Hg. sstep Hrun. erewrite sbind_ok; [|apply bd_read_ok; simpl; unfold mem_get_scheduled_connection; simpl;
    by rewrite lookup_insert_eq]. done.
Qed.

(** Without a bucket the device cannot be scheduled. *)
Lemma next_wake_error st now id :
  scheduled_connections (bd_db st) !! id = None → buckets (bd_db st) !! id = None →
  get_next_wake_time now id st = (Err (DeviceManagerErr (DmScheduler (SchedDatabaseError NoDataFound))), st).
Proof.
  destruct st as [[[] db] sent l]. unfold bd_db. simpl. intros Hc Hb.
  unfold get_next_wake_time, sbind, sresult, bd_in_db, szoom. simpl. unfold mem_get_scheduled_connection. rewrite Hc. simpl.
  unfold bd_in_dm, schedule_next_wakeup, dm_in_sched, szoom, schedule_next_wakeup_job, sbind, in_db, szoom. simpl.
  unfold mem_get_bucket_number. by rewrite Hb.
Qed.

(** ** Claims on the handshake *)
Section handshake.
Variables (st : Backdoor JS InnerDB) (fresh now now_s timeout received : Z) (msg : Message) (addr : SocketAddr).
Hypothesis (Hs : can_schedule (bd_sched st) now) (Hnew : buckets (bd_db st) !! fresh = None).
Hypothesis (Hmsg : d_device_id msg = 0) (Hts : get_timestamp msg = Ok received) (Hn : 0 <= now_s).

Lemma handshake_ok now2 now2_s ack addr2 received2 :
  is_v4 addr = true → accepts_jobs (JS := JS) → can_schedule (bd_sched st) now2 → d_device_id ack = fresh →
  sock_ip addr2 = sock_ip addr → get_timestamp ack = Ok received2 → 0 <= now2_s →
  ∃ b j s', let st1 := pending st fresh now now_s msg addr timeout b received in
    let t := wake_time (bd_sched st) now2 b in
    least_bucket (bucket_load (bd_db st)) (bucket_number (bd_sched st)) b ∧
    handle_backdoor_register_msg fresh now now_s msg addr timeout st = (Ok tt, st1) ∧
    handle_backdoor_ack_msg now2 now2_s ack addr2 st1
    = (Ok tt, registered st1 now2 now2_s ack addr2 b received2 j s') ∧
    bd_jobs st !! j = None ∧
    js_jobs (job_scheduler s') = <[j := mkJob t fresh (reschedule_tx (bd_sched st))]> (bd_jobs st) ∧
    same_config (bd_sched st) s'.
Proof.
  intros Hv4 Hacc Hs2 Hack Hip Hts2 Hn2.
  destruct (register_ok st fresh now now_s msg addr timeout received) as (b & Hleast & Hrun); [done..|].
  exists b. set (st1 := pending st fresh now now_s msg addr timeout b received) in *.
  set (d := new_device fresh msg addr).
  assert (Hread : ack_read ack addr2 st1 = (Ok (d, mkDeviceRegistration fresh PendingAck received), st1)).
  { rewrite (ack_read_ok ack addr2 st1 d (PendingAck, received)); [by rewrite Hack| | | |]; try rewrite Hack.
    - apply lookup_insert_eq.
    - apply device_new_id.
    - unfold d, new_device, device_new. rewrite Hip. by destruct addr.
    - apply lookup_insert_eq. }
  destruct (ack_act_pending_ok st1 now2 now2_s ack addr2 d received received2 b
      (sch_local_node_id (bd_sched st))) as (j & s' & Hact & Hcfg & Hfresh & Hjobs);
    [done|done| | |done| | |done|]; rewrite ?Hack.
  - apply device_new_id.
  - unfold registrations. simpl. by rewrite lookup_insert_eq.
  - apply lookup_insert_eq.
  - apply Hleast.
  - exists j, s'. rewrite Hack in Hact, Hjobs. split; [done|]. split; [done|]. split; [|split; [exact Hfresh|split; [exact Hjobs|exact Hcfg]]].
    unfold handle_backdoor_ack_msg. by sstep Hread.
Qed.

(** C7: The registration handshake. A new IPv4 device that sends a RegisterRequest and then an
    ACK from the same IP ends up registered: it is in a least-loaded bucket and owned by
    this node; the answers are the time of its next wake-up and an ACK; exactly one
    wake-up job is added, for the bucket's next instant after the ACK, and the device's
    connection names it. From then on a repeated ACK is only answered, and the timeout
    task of the registration does nothing. *)
Theorem registration_handshake now2 now2_s ack addr2 received2
    (Hv4 : is_v4 addr = true) (Hacc : accepts_jobs (JS := JS)) (Hs2 : can_schedule (bd_sched st) now2)
    (Hack : d_device_id ack = fresh) (Hip : sock_ip addr2 = sock_ip addr)
    (Hts2 : get_timestamp ack = Ok received2) (Hn2 : 0 <= now2_s) :
  ∃ b j st1 st2,
    handle_backdoor_register_msg fresh now now_s msg addr timeout st = (Ok tt, st1) ∧
    handle_backdoor_ack_msg now2 now2_s ack addr2 st1 = (Ok tt, st2) ∧
    registrations st1 = <[fresh := (PendingAck, received)]> (registrations st) ∧
    registrations st2 = <[fresh := (Registered, received2)]> (registrations st) ∧
    least_bucket (bucket_load (bd_db st)) (bucket_number (bd_sched st)) b ∧
    buckets (bd_db st2) = <[fresh := (b, sch_local_node_id (bd_sched st))]> (buckets (bd_db st)) ∧
    bd_owned st2 = {[fresh]} ∪ bd_owned st ∧
    bd_sent st2 = bd_sent st ++ [(addr, register_answer st fresh now now_s msg b);
                                 (addr2, stamped now2_s TAck fresh (reply_seq ack) PayAck)] ∧
    bd_jobs st !! j = None ∧
    bd_jobs st2 = <[j := mkJob (wake_time (bd_sched st) now2 b) fresh (reschedule_tx (bd_sched st))]> (bd_jobs st) ∧
    scheduled_connections (bd_db st2) !! fresh = Some (awaiting_row fresh (wake_time (bd_sched st) now2 b) j) ∧
    (∀ now3 now3_s, 0 <= now3_s → handle_backdoor_ack_msg now3 now3_s ack addr2 st2
      = (Ok tt, sending [(addr2, stamped now3_s TAck fresh (reply_seq ack) PayAck)] st2)) ∧
    (∀ now3, ack_timeout_task (length (bd_timeouts st)) now3 st2 = (Ok tt, set_bd_timeouts (bd_timeouts st) st2)).
Proof.
  destruct (handshake_ok now2 now2_s ack addr2 received2)
    as (b & j & s' & Hleast & Hreg & Hrun & Hfresh & Hjobs & _); [done..|].
  set (st1 := pending _ _ _ _ _ _ _ _ _) in *.
  set (st2 := registered st1 now2 now2_s ack addr2 b received2 j s') in *.
  assert (Hr2 : registrations st2 = <[fresh := (Registered, received2)]> (registrations st)).
  { unfold registrations. simpl. unfold registrations. simpl. by rewrite Hack, insert_insert_eq. }
  exists b, j, st1, st2. do 3 (split; [done|]). split; [done|]. do 3 (split; [done|]).
  split; [unfold st2, registered; simpl; by rewrite Hack, <- app_assoc|].
  split; [done|]. split; [done|].
  split; [unfold st2, registered; simpl; rewrite Hack; apply lookup_insert_eq|]. split.
  - intros now3 now3_s Hn3. unfold handle_backdoor_ack_msg.
    rewrite (sbind_ok _ _ _ _ _ (ack_read_ok ack addr2 st2 (new_device fresh msg addr) (Registered, received2)
      ltac:(rewrite Hack; apply lookup_insert_eq) ltac:(rewrite Hack; apply device_new_id)
      ltac:(unfold new_device, device_new; rewrite Hip; by destruct addr)
      ltac:(rewrite Hr2, Hack; apply lookup_insert_eq))).
    unfold ack_act. simpl. unfold new_ack_message. by rewrite build_message_ok, Hack.
  - intros now3. rewrite (timeout_last_ok _ _ timeout fresh) by done. unfold timed_out.
    replace (registrations (set_bd_timeouts (bd_timeouts st) st2) !! fresh) with (Some (Registered, received2)); [done|].
    unfold registrations in *. simpl in *. by rewrite Hr2, lookup_insert_eq.
Qed.

(** The device can be told a wake-up that will not happen. When the clock passes into the
    hour before the bucket's hour between the request and the ACK, the response announces
    the instant [T] of today while the only job is set for [T] one day later, although [T]
    may still lie ahead. *)
Theorem announced_wakeup_missed now2 now2_s ack addr2 received2 b
    (Hv4 : is_v4 addr = true) (Hacc : accepts_jobs (JS := JS)) (Hs2 : can_schedule (bd_sched st) now2)
    (Hack : d_device_id ack = fresh) (Hip : sock_ip addr2 = sock_ip addr)
    (Hts2 : get_timestamp ack = Ok received2) (Hn2 : 0 <= now2_s)
    (Hmode : test_mode (bd_sched st) = false)
    (Hb : least_bucket (bucket_load (bd_db st)) (bucket_number (bd_sched st)) b)
    (Hday : day_of now2 = day_of now)
    (Hhour : hour_of now + 1 < slot (bucket_number (bd_sched st)) b / 3600 <= hour_of now2 + 1) :
  ∃ T j st1 st2,
    handle_backdoor_register_msg fresh now now_s msg addr timeout st = (Ok tt, st1) ∧
    handle_backdoor_ack_msg now2 now2_s ack addr2 st1 = (Ok tt, st2) ∧
    bd_sent st1 = bd_sent st ++ [(addr, stamped now_s TRegisterResponse fresh (reply_seq msg)
      (PayRegistryResponse (mkRegistryResponse 0 (timestamp_u64 T))))] ∧
    bd_jobs st2 = <[j := mkJob (T + ns_per_day) fresh (reschedule_tx (bd_sched st))]> (bd_jobs st) ∧
    bd_jobs st !! j = None ∧ day_of T = day_of now ∧
    (hour_of now2 < slot (bucket_number (bd_sched st)) b / 3600 → now2 < T).
Proof.
  destruct (handshake_ok now2 now2_s ack addr2 received2)
    as (b' & j & s' & Hleast & Hreg & Hrun & Hfresh & Hjobs & _); [done..|].
  assert (b' = b) as -> by (by eapply least_bucket_unique).
  pose proof (slot_lt_day (bucket_number (bd_sched st)) b ltac:(apply Hs) ltac:(apply Hb)) as Hslot.
  set (x := slot (bucket_number (bd_sched st)) b) in *.
  exists (day_of now * ns_per_day + x * ns_per_s), j. do 2 eexists. split; [exact Hreg|]. split; [exact Hrun|].
  assert (HT1 : wake_time (bd_sched st) now b = day_of now * ns_per_day + x * ns_per_s).
  { unfold wake_time, wake_instant. rewrite Hmode. fold x. destruct (Z.ltb_spec (hour_of now + 1) (x / 3600)); lia. }
  assert (HT2 : wake_time (bd_sched st) now2 b = day_of now * ns_per_day + x * ns_per_s + ns_per_day).
  { unfold wake_time, wake_instant. rewrite Hmode. fold x. destruct (Z.ltb_spec (hour_of now2 + 1) (x / 3600)); lia. }
  split; [simpl; unfold register_answer; by rewrite HT1|]. split; [by rewrite <- HT2|]. split; [done|].
  unfold secs_per_day in Hslot. split.
  - unfold day_of at 1. rewrite Z.add_comm, Z.div_add by (vm_compute; discriminate).
    rewrite (Z.div_small (x * ns_per_s)); [lia|]. unfold ns_per_day, secs_per_day, ns_per_s. lia.
  - intros Hlt. unfold day_of, hour_of in *. unfold ns_per_day, secs_per_day, ns_per_s in *.
    Z.to_euclidean_division_equations. lia.
Qed.

(** An IPv6 device never completes its registration. The request succeeds and is answered,
    but every ACK for the device, from whatever address, is rejected as an invalid IP and
    changes nothing; when the timeout task runs the registration is timed out. *)
Theorem ipv6_device_never_registers
    (Hv6 : is_v4 addr = false) :
  ∃ b st1,
    handle_backdoor_register_msg fresh now now_s msg addr timeout st = (Ok tt, st1) ∧
    bd_sent st1 = bd_sent st ++ [(addr, register_answer st fresh now now_s msg b)] ∧
    (∀ now2 now2_s ack addr2, d_device_id ack = fresh →
      handle_backdoor_ack_msg now2 now2_s ack addr2 st1 = (Err InvalidIp, st1)) ∧
    (∀ now3, ∃ st2, ack_timeout_task (length (bd_timeouts st)) now3 st1 = (Ok tt, st2) ∧
      registrations st2 = <[fresh := (AckTimeout, now3)]> (registrations st)).
Proof.
  destruct (register_ok st fresh now now_s msg addr timeout received) as (b & Hleast & Hrun); [done..|].
  exists b. set (st1 := pending _ _ _ _ _ _ _ _ _) in *. exists st1. split; [done|]. split; [done|]. split.
  - intros now2 now2_s ack addr2 Hack. unfold handle_backdoor_ack_msg, ack_read.
    assert (Hg : mem_get_device (d_device_id ack) (bd_db st1) = (Ok (new_device fresh msg addr), bd_db st1)).
    { unfold mem_get_device. simpl. by rewrite Hack, lookup_insert_eq. }
    unfold sbind at 1. rewrite (sbind_ok _ _ _ _ _ (bd_read_ok _ st1 _ Hg)).
    rewrite decide_True; [done|]. unfold new_device, device_new. by destruct addr.
  - intros now3. rewrite (timeout_last_ok _ _ timeout fresh) by done. eexists. split; [done|].
    unfold timed_out, registrations. simpl. rewrite lookup_insert_eq. simpl. apply insert_insert_eq.
Qed.
End handshake.

(** An address change during registration doubles the wake-up job. When a device that has not
    acknowledged yet and has no connection reports a new address, the handler schedules its
    wake-up; its ACK then schedules another one. Two jobs for the device stay in the job
    scheduler, and its connection names only the second. *)
Theorem ip_update_before_ack_doubles_job st id d t0 b node upd addr now now_s ack addr2 now2 now2_s received2
    (Hacc : accepts_jobs (JS := JS)) (Hs : can_schedule (bd_sched st) now) (Hs2 : can_schedule (bd_sched st) now2)
    (Hd : devices (bd_db st) !! id = Some d) (Hid : dev_id d = id)
    (Hreg : registrations st !! id = Some (PendingAck, t0))
    (Hnone : scheduled_connections (bd_db st) !! id = None)
    (Hb : buckets (bd_db st) !! id = Some (b, node)) (Hr : 0 <= b < bucket_number (bd_sched st))
    (Hupd : d_device_id upd = id) (Hv4 : is_v4 addr = true) (Hn : 0 <= now_s)
    (Hack : d_device_id ack = id) (Hip : sock_ip addr2 = sock_ip addr)
    (Hts2 : get_timestamp ack = Ok received2) (Hn2 : 0 <= now2_s) :
  ∃ j1 j2 st1 st2,
    handle_backdoor_ip_update_msg now now_s upd addr st = (Ok tt, st1) ∧
    handle_backdoor_ack_msg now2 now2_s ack addr2 st1 = (Ok tt, st2) ∧ j1 ≠ j2 ∧
    bd_jobs st2 !! j1 = Some (mkJob (wake_time (bd_sched st) now b) id (reschedule_tx (bd_sched st))) ∧
    bd_jobs st2 !! j2 = Some (mkJob (wake_time (bd_sched st) now2 b) id (reschedule_tx (bd_sched st))) ∧
    scheduled_connections (bd_db st2) !! id = Some (awaiting_row id (wake_time (bd_sched st) now2 b) j2).
Proof.
  set (m := moved_device addr d st).
  destruct (next_wake_unknown m now id b node) as (j1 & s1 & Hnext & Hcfg & Hfresh & Hjobs1); [done..|].
  assert (Hup := ip_update_ok st now now_s upd addr d (wake_time (bd_sched st) now b)
    (scheduled m id (wake_time (bd_sched st) now b) j1 s1)). rewrite Hupd in Hup. specialize (Hup Hd Hid Hn Hnext).
  set (st1 := sending _ _) in Hup.
  destruct Hcfg as (Hbn & Ho & Hl & Htx & Hmode & Ha).
  destruct (ack_act_pending_ok st1 now2 now2_s ack addr2 (with_address addr d) t0 received2 b node)
    as (j2 & s2 & Hact & _ & Hfresh2 & Hjobs2); rewrite ?Hack; try done.
  - unfold can_schedule, bd_sched in *. simpl in *. by rewrite Hbn.
  - by rewrite with_address_id.
  - unfold bd_sched in *. simpl in *. by rewrite Hbn.
  - exists j1, j2, st1. eexists. split; [exact Hup|]. split.
    { unfold handle_backdoor_ack_msg.
      rewrite (sbind_ok _ _ _ _ _ (ack_read_ok ack addr2 st1 (with_address addr d) (PendingAck, t0)
        ltac:(rewrite Hack, <- Hid; apply lookup_insert_eq) ltac:(by rewrite with_address_id, Hack)
        ltac:(unfold with_address; rewrite Hip; by destruct addr) ltac:(by rewrite Hack))). by rewrite Hack. }
    assert (Hw : wake_time (bd_sched st1) now2 b = wake_time (bd_sched st) now2 b).
    { unfold wake_time, bd_sched in *. simpl in *. by rewrite Hmode, Hbn. }
    assert (Hj1 : bd_jobs st1 = <[j1 := mkJob (wake_time (bd_sched st) now b) id (reschedule_tx (bd_sched st))]> (bd_jobs st))
      by exact Hjobs1.
    assert (Hj2 : bd_jobs (registered st1 now2 now2_s ack addr2 b received2 j2 s2)
      = <[j2 := mkJob (wake_time (bd_sched st) now2 b) id (reschedule_tx (bd_sched st))]> (bd_jobs st1)).
    { rewrite <- Hw. transitivity (js_jobs (job_scheduler s2)); [done|]. rewrite Hjobs2.
      unfold bd_sched in *. simpl in *. by rewrite Htx, Hack. }
    assert (Hne : j1 ≠ j2).
    { intros ->. by rewrite Hj1, lookup_insert_eq in Hfresh2. }
    split; [done|]. rewrite Hj2, lookup_insert_ne, Hj1 by done. rewrite !lookup_insert_eq.
    do 2 (split; [done|]). simpl. by rewrite Hack, lookup_insert_eq, Hw.
Qed.

(** ** Every interleaving of the handlers *)
Implicit Types (ds : DmState JS InnerDB).

(** The device's connection names a job of the job scheduler that will wake it at the
    connection's time. *)
Definition has_job ds (id : Z) : Prop :=
  ∃ c j tx, scheduled_connections (dm_db ds) !! id = Some c ∧ job_id c = Some j ∧
    dm_jobs ds !! j = Some (mkJob (schedule_time c) id tx).

Record reg_inv ds : Prop := mkRegInv {
  inv_devices id d : devices (dm_db ds) !! id = Some d → dev_id d = id;
  inv_buckets id b n : buckets (dm_db ds) !! id = Some (b, n) → 0 <= b < bucket_number (dm_scheduler (dm ds));
  inv_registration id : is_Some (device_registration (dm_db ds) !! id) → is_Some (buckets (dm_db ds) !! id);
  inv_registered id t : device_registration (dm_db ds) !! id = Some (Registered, t) → has_job ds id
}.

(** What no step undoes: registrations stay, [Registered] is final, the buckets' number is fixed. *)
Definition grows ds ds' : Prop :=
  (∀ id, is_Some (device_registration (dm_db ds) !! id) → is_Some (device_registration (dm_db ds') !! id)) ∧
  (∀ id t, device_registration (dm_db ds) !! id = Some (Registered, t) →
    ∃ t', device_registration (dm_db ds') !! id = Some (Registered, t')) ∧
  bucket_number (dm_scheduler (dm ds')) = bucket_number (dm_scheduler (dm ds)).

#[global] Instance grows_preorder : PreOrder grows.
Proof.
  split; [by intros ds; repeat split; eauto|].
  intros x y z (Hxy & Rxy & Bxy) (Hyz & Ryz & Byz). split; [auto|]. split; [|congruence].
  intros id t Ht. destruct (Rxy _ _ Ht) as [t' Ht']. eauto.
Qed.

(** The states that registration can leave, timestamp readable or not. *)
Lemma register_cases st fresh now now_s msg addr timeout r st' :
  can_schedule (bd_sched st) now → buckets (bd_db st) !! fresh = None → 0 <= now_s →
  handle_backdoor_register_msg fresh now now_s msg addr timeout st = (r, st') →
  bd_dm st' = bd_dm st ∨ ∃ b regs, 0 <= b < bucket_number (bd_sched st) ∧
    (regs = registrations st ∨ ∃ t, regs = <[fresh := (PendingAck, t)]> (registrations st)) ∧
    bd_dm st' = mkDmState (set_owned ({[fresh]} ∪ bd_owned st) (dm (bd_dm st)))
      (mkInnerDB (<[fresh := new_device fresh msg addr]> (devices (bd_db st))) regs
         (<[fresh := (b, sch_local_node_id (bd_sched st))]> (buckets (bd_db st)))
         (scheduled_connections (bd_db st))).
Proof.
  intros Hs Hnew Hn Hrun. destruct (decide (d_device_id msg = 0)) as [Hid|Hid].
  2: { left. unfold handle_backdoor_register_msg in Hrun. apply Z.eqb_neq in Hid. rewrite Hid in Hrun. by injection Hrun as _ <-. }
  right. destruct (get_timestamp msg) as [t|e|] eqn:Ht.
  1: { destruct (register_ok st fresh now now_s msg addr timeout t) as (b & Hleast & Hok); [done..|].
    rewrite Hok in Hrun. injection Hrun as _ <-. exists b. eexists. split; [apply Hleast|]. split; [by right; eexists|done]. }
  all: unfold handle_backdoor_register_msg in Hrun; rewrite Hid in Hrun; simpl in Hrun; fold (new_device fresh msg addr) in Hrun.
  all: assert (Hdev : dev_id (new_device fresh msg addr) = fresh) by apply device_new_id.
  all: rewrite (sbind_ok _ _ _ _ _ (bd_in_db_ok (mem_add_device (new_device fresh msg addr)) st _ _ eq_refl)) in Hrun.
  all: rewrite Hdev in Hrun; set (st1 := set_bd_db _ st) in Hrun.
  all: destruct (dm_register_ok now (new_device fresh msg addr) (bd_dm st1)) as (b & Hleast & Hr);
    [done|by rewrite Hdev|]; rewrite Hdev in Hr.
  all: rewrite (sbind_ok _ _ _ _ _ (bd_in_dm_ok _ _ _ _ Hr)) in Hrun.
  all: unfold bd_message in Hrun; rewrite Ht in Hrun; injection Hrun as _ <-.
  all: exists b, (registrations st); split; [apply Hleast|]; split; [by left|done].
Qed.

Lemma register_grows st fresh now now_s msg addr timeout r st' :
  can_schedule (bd_sched st) now → buckets (bd_db st) !! fresh = None → 0 <= now_s →
  handle_backdoor_register_msg fresh now now_s msg addr timeout st = (r, st') →
  reg_inv (bd_dm st) → reg_inv (bd_dm st') ∧ grows (bd_dm st) (bd_dm st').
Proof.
  intros Hs Hnew Hn Hrun Hinv.
  destruct (register_cases _ _ _ _ _ _ _ _ _ Hs Hnew Hn Hrun) as [->|(b & regs & Hb & Hregs & ->)]; [done|].
  destruct Hinv as [Id Ib Ir Ij].
  assert (Hfresh : registrations st !! fresh = None).
  { destruct (registrations st !! fresh) eqn:E; [|done].
    destruct (Ir fresh) as [? Hx]; [by unfold registrations, bd_db in E; rewrite E|]. unfold bd_db in Hnew. by rewrite Hnew in Hx. }
  assert (Hsub : ∀ id p, regs !! id = Some p → (id = fresh ∧ p.1 = PendingAck) ∨ registrations st !! id = Some p).
  { destruct Hregs as [->|[t ->]]; [by right|]. intros id p [[<- <-]|[_ Hp]]%lookup_insert_Some; [by left|by right]. }
  assert (Hsup : ∀ id p, registrations st !! id = Some p → regs !! id = Some p).
  { destruct Hregs as [->|[t ->]]; [done|]. intros id p Hp. rewrite lookup_insert_ne; [done|congruence]. }
  split; [split|split; [|split]]; simpl.
  - intros id d [[<- <-]|[_ Hd]]%lookup_insert_Some; [apply device_new_id|by eapply Id].
  - intros id b' n [[_ [= <- <-]]|[_ Hx]]%lookup_insert_Some; [done|by eapply Ib].
  - intros id [p Hp]. destruct (Hsub _ _ Hp) as [[-> _]|Hold]; [rewrite lookup_insert_eq; eauto|].
    destruct (decide (fresh = id)) as [->|]; [by rewrite lookup_insert_eq|]. rewrite lookup_insert_ne by done. eauto.
  - intros id t Ht. destruct (Hsub _ _ Ht) as [[_ [=]]|Hold]. exact (Ij _ _ Hold).
  - intros id [p Hp]. exists p. by apply Hsup.
  - intros id t Ht. exists t. by apply Hsup.
  - done.
Qed.

(** A new job and the connection that names it, for a known device. *)
Lemma scheduled_grows ds regs id t j tx s' :
  reg_inv ds → is_Some (buckets (dm_db ds) !! id) →
  (∀ id', id' ≠ id → regs !! id' = device_registration (dm_db ds) !! id') → is_Some (regs !! id) ∨ regs = device_registration (dm_db ds) →
  (∀ t, device_registration (dm_db ds) !! id = Some (Registered, t) → ∃ t', regs !! id = Some (Registered, t')) →
  same_config (dm_scheduler (dm ds)) s' → dm_jobs ds !! j = None →
  js_jobs (job_scheduler s') = <[j := mkJob t id tx]> (dm_jobs ds) →
  let ds' := mkDmState (set_dm_scheduler s' (dm ds))
    (mkInnerDB (devices (dm_db ds)) regs (buckets (dm_db ds))
       (<[id := awaiting_row id t j]> (scheduled_connections (dm_db ds)))) in
  reg_inv ds' ∧ grows ds ds'.
Proof.
  intros [Id Ib Ir Ij] Hbk Hother Hsome Hfin (Hbn & _) Hfresh Hjobs ds'.
  assert (Hjob : ∀ id', id' ≠ id → has_job ds id' → has_job ds' id').
  { intros id' Hne (c & j' & tx' & Hc & Hj' & Hw). exists c, j', tx'. simpl. rewrite lookup_insert_ne by done.
    split; [done|]. split; [done|]. unfold dm_jobs at 1. simpl. rewrite Hjobs, lookup_insert_ne; [done|congruence]. }
  assert (Hid : has_job ds' id).
  { exists (awaiting_row id t j), j, tx. simpl. rewrite lookup_insert_eq. split; [done|]. split; [done|].
    unfold dm_jobs. simpl. by rewrite Hjobs, lookup_insert_eq. }
  split; [split|split; [|split]]; simpl.
  - exact Id.
  - intros id' b n Hx. rewrite Hbn. by eapply Ib.
  - intros id' Hx. destruct (decide (id' = id)) as [->|Hne]; [done|]. rewrite Hother in Hx by done. by apply Ir.
  - intros id' t' Hx. destruct (decide (id' = id)) as [->|Hne]; [done|]. rewrite Hother in Hx by done.
    apply Hjob; [done|by eapply Ij].
  - intros id' Hx. destruct (decide (id' = id)) as [->|Hne]; [|by rewrite Hother]. by destruct Hsome as [Hx2| ->].
  - intros id' t' Hx. destruct (decide (id' = id)) as [->|Hne]; [by eapply Hfin|]. rewrite Hother by done. eauto.
  - done.
Qed.

Lemma moved_device_grows st addr d :
  reg_inv (bd_dm st) → reg_inv (bd_dm (moved_device addr d st)) ∧ grows (bd_dm st) (bd_dm (moved_device addr d st)).
Proof.
  intros [Id Ib Ir Ij]. split; [|repeat split; eauto]. split; simpl; [|done..].
  intros id d' [[<- <-]|[_ Hd]]%lookup_insert_Some; [apply with_address_id|by eapply Id].
Qed.

Lemma timed_out_grows st id now :
  reg_inv (bd_dm st) → reg_inv (bd_dm (timed_out st id now)) ∧ grows (bd_dm st) (bd_dm (timed_out st id now)).
Proof.
  intros [Id Ib Ir Ij]. unfold timed_out. destruct (registrations st !! id) as [[[] t0]|] eqn:Hreg; try done.
  unfold registrations, bd_db in Hreg. split; [split|split; [|split]]; simpl.
  - exact Id.
  - exact Ib.
  - intros id' Hx. apply Ir. destruct (decide (id = id')) as [->|Hne]; [by rewrite Hreg|].
    by rewrite lookup_insert_ne in Hx.
  - intros id' t [[_ [=]]|[_ Hx]]%lookup_insert_Some. exact (Ij _ _ Hx).
  - intros id' Hx. destruct (decide (id = id')) as [->|Hne]; [by rewrite lookup_insert_eq|].
    by rewrite lookup_insert_ne.
  - intros id' t Hx. exists t. rewrite lookup_insert_ne; [done|congruence].
  - done.
Qed.

Lemma send_if_ok_dm o addr st : (send_if_ok (JS := JS) (DB := InnerDB) o addr st).1 = Ok tt ∧
  bd_dm (send_if_ok o addr st).2 = bd_dm st.
Proof. by destruct o. Qed.

(** A NACK leaves the state that the failed operation left. *)
Lemma or_nack_dm {A B} now_s msg addr code (m : BD JS InnerDB A) (k : A → BD JS InnerDB B) st r st' :
  sbind (or_nack now_s msg addr code m) k st = (r, st') →
  (∃ a st1, m st = (Ok a, st1) ∧ k a st1 = (r, st')) ∨ bd_dm st' = bd_dm (m st).2.
Proof.
  unfold or_nack, sbind, sresult. destruct (m st) as [[a|e|] st1]; simpl; [by left; eauto| |by intros [= <- <-]; right].
  destruct (send_if_ok_dm (new_nack_message now_s (d_device_id msg) (reply_seq msg) code) addr st1) as [Ho Hd].
  destruct (send_if_ok _ addr st1) as [o s]. simpl in *. subst o. intros [= <- <-]. by right.
Qed.

Lemma ip_update_grows st now now_s msg addr r st' :
  accepts_jobs (JS := JS) → can_schedule (bd_sched st) now →
  handle_backdoor_ip_update_msg now now_s msg addr st = (r, st') →
  reg_inv (bd_dm st) → reg_inv (bd_dm st') ∧ grows (bd_dm st) (bd_dm st').
Proof.
  intros Hacc Hs Hrun Hinv. unfold handle_backdoor_ip_update_msg in Hrun.
  assert (Hget : ∀ id, bd_in_db (get_device id) st
    = (omap_err BdDatabaseError (ok_or (devices (bd_db st) !! id) NoDataFound), st)).
  { intros id. unfold bd_in_db, szoom. simpl. unfold mem_get_device. f_equal. apply set_bd_db_same. }
  apply or_nack_dm in Hrun as [(d & st1 & Hg & Hrun)|Hdm]; [|rewrite Hget in Hdm; by rewrite Hdm].
  rewrite Hget in Hg. injection Hg as Hd <-.
  destruct (devices (bd_db st) !! d_device_id msg) as [d'|] eqn:Hdev; [|done]. injection Hd as ->.
  assert (Hid : dev_id d = d_device_id msg) by (by eapply inv_devices).
  assert (Hm : bd_in_db (modify_device (with_address addr d)) st = (Ok tt, moved_device addr d st)).
  { rewrite (bd_in_db_ok _ _ tt (bd_db (moved_device addr d st))); [done|]. simpl. unfold mem_modify_device.
    by rewrite with_address_id, Hid, Hdev, <- Hid. }
  rewrite (or_nack_ok _ _ _ _ _ _ _ _ _ Hm) in Hrun.
  destruct (moved_device_grows st addr d Hinv) as [Hinv1 Hg1]. set (m := moved_device addr d st) in *.
  cut (reg_inv (bd_dm st') ∧ grows (bd_dm m) (bd_dm st')).
  { intros [? ?]. split; [done|]. by etrans. }
  assert (Hnext : reg_inv (bd_dm (get_next_wake_time now (d_device_id msg) m).2) ∧
    grows (bd_dm m) (bd_dm (get_next_wake_time now (d_device_id msg) m).2)).
  { destruct (scheduled_connections (bd_db m) !! d_device_id msg) as [c|] eqn:Hc.
    - by rewrite (next_wake_known m now _ c).
    - destruct (buckets (bd_db m) !! d_device_id msg) as [[b node]|] eqn:Hb.
      + destruct (next_wake_unknown m now (d_device_id msg) b node) as (j & s' & Hn & Hcfg & Hfr & Hj);
          [done..|by eapply inv_buckets|]. rewrite Hn. eapply scheduled_grows; try done; eauto.
      + by rewrite next_wake_error. }
  apply or_nack_dm in Hrun as [(t & st2 & Hn & Hrun)|Hdm]; [|by rewrite Hdm].
  rewrite Hn in Hnext. simpl in Hnext. destruct (send_if_ok_dm (new_register_response_message now_s (d_device_id msg)
    (reply_seq msg) 0 t) addr st2) as [_ Hd2]. rewrite Hrun in Hd2. simpl in Hd2. by rewrite Hd2.
Qed.

Lemma ack_act_grows st now now_s msg addr d reg r st' :
  accepts_jobs (JS := JS) → can_schedule (bd_sched st) now → 0 <= now_s →
  dev_id d = d_device_id msg → reg_fk_device reg = d_device_id msg → is_Some (registrations st !! d_device_id msg) →
  ack_act now now_s msg addr d reg st = (r, st') →
  reg_inv (bd_dm st) → reg_inv (bd_dm st') ∧ grows (bd_dm st) (bd_dm st').
Proof.
  intros Hacc Hs Hn Hd Hfk Hreg Hrun Hinv. destruct reg as [fk status t0]. simpl in Hfk. subst fk.
  assert (Hsend : ∀ o, send_if_ok o addr st = (r, st') → bd_dm st' = bd_dm st).
  { intros o Ho. destruct (send_if_ok_dm o addr st) as [_ Hx]. by rewrite Ho in Hx. }
  destruct status; [by rewrite (Hsend _ Hrun)| |by rewrite (Hsend _ Hrun)].
  destruct (get_timestamp msg) as [t|e|] eqn:Ht.
  2, 3: unfold ack_act in Hrun; simpl in Hrun; unfold bd_message in Hrun; rewrite Ht in Hrun; by injection Hrun as _ <-.
  destruct (inv_registration _ Hinv _ Hreg) as [[b node] Hb].
  destruct (ack_act_pending_ok st now now_s msg addr d t0 t b node) as (j & s' & Hok & Hcfg & Hfr & Hj);
    [done..|by eapply inv_buckets|done|]. rewrite Hok in Hrun. injection Hrun as _ <-.
  eapply scheduled_grows; try done.
  - intros id' Hne. by rewrite lookup_insert_ne.
  - left. by rewrite lookup_insert_eq.
  - intros t1 _. exists t. apply lookup_insert_eq.
Qed.

(** An ACK handler between its reads and its writes. *)
Record InFlight := mkInFlight {
  fl_msg : Message; fl_addr : SocketAddr; fl_device : Device; fl_registration : DeviceRegistration
}.

(** One step of the backdoor: the handler of a message that is no ACK, either part of an ACK
    handler, or a timeout task. The clock is within the calendar and the UUID of a new
    device is new. *)
Inductive bd_step : Backdoor JS InnerDB * list InFlight → Backdoor JS InnerDB * list InFlight → Prop :=
| step_message st fl fresh now now_s timeout addr msg r st' :
    can_schedule (bd_sched st) now → 0 <= now_s → buckets (bd_db st) !! fresh = None → d_type msg ≠ TAck →
    backdoor_dispatch fresh now now_s timeout addr msg st = (r, st') → bd_step (st, fl) (st', fl)
| step_ack_read st fl msg addr d reg st' :
    ack_read msg addr st = (Ok (d, reg), st') → bd_step (st, fl) (st', mkInFlight msg addr d reg :: fl)
| step_ack_act st fl1 fl2 now now_s msg addr d reg r st' :
    can_schedule (bd_sched st) now → 0 <= now_s → ack_act now now_s msg addr d reg st = (r, st') →
    bd_step (st, fl1 ++ mkInFlight msg addr d reg :: fl2) (st', fl1 ++ fl2)
| step_timeout st fl k now r st' : ack_timeout_task k now st = (r, st') → bd_step (st, fl) (st', fl).

(** What a handler in flight has read is about its device, whose registration exists. *)
Definition flight_ok st (f : InFlight) : Prop :=
  dev_id (fl_device f) = d_device_id (fl_msg f) ∧ reg_fk_device (fl_registration f) = d_device_id (fl_msg f) ∧
  is_Some (registrations st !! d_device_id (fl_msg f)).

Lemma flight_grows st st' f : grows (bd_dm st) (bd_dm st') → flight_ok st f → flight_ok st' f.
Proof. intros (Hg & _) (? & ? & ?). by repeat split; [..|apply Hg]. Qed.

Lemma ack_read_inv st msg addr d reg st' :
  reg_inv (bd_dm st) → ack_read msg addr st = (Ok (d, reg), st') → st' = st ∧ flight_ok st (mkInFlight msg addr d reg).
Proof.
  intros Hinv Hrun. unfold ack_read in Hrun. apply sbind_inv in Hrun as (d' & st1 & Hd & Hrun).
  unfold bd_in_db, szoom in Hd. simpl in Hd. unfold mem_get_device in Hd.
  destruct (devices (dm_db (bd_dm st)) !! d_device_id msg) as [d0|] eqn:Hdev; [|done]. injection Hd as -> Hst1.
  rewrite (set_bd_db_same st : set_bd_dm (set_dm_db (dm_db (bd_dm st)) (bd_dm st)) st = st) in Hst1. subst st1.
  assert (Hid : dev_id d' = d_device_id msg) by (by eapply inv_devices).
  destruct (decide _); [done|]. apply sbind_inv in Hrun as (reg' & st1 & Hr & Hrun). injection Hrun as -> -> <-.
  unfold bd_in_db, szoom in Hr. simpl in Hr. unfold mem_get_device_registration in Hr. rewrite Hid in Hr.
  destruct (device_registration (dm_db (bd_dm st)) !! d_device_id msg) as [[s t]|] eqn:Hreg; [|done].
  injection Hr as <- Hst. split; [rewrite <- Hst; apply set_bd_db_same|]. repeat split; [done|].
  unfold registrations, bd_db. simpl. by rewrite Hreg.
Qed.

Lemma bd_step_grows p p' :
  accepts_jobs (JS := JS) → bd_step p p' → reg_inv (bd_dm p.1) → Forall (flight_ok p.1) p.2 →
  reg_inv (bd_dm p'.1) ∧ grows (bd_dm p.1) (bd_dm p'.1) ∧ Forall (flight_ok p'.1) p'.2.
Proof.
  intros Hacc Hstep Hinv Hfl.
  cut (reg_inv (bd_dm p'.1) ∧ grows (bd_dm p.1) (bd_dm p'.1) ∧ Forall (flight_ok p.1) p'.2).
  { intros (? & Hg & Hf). split; [done|]. split; [done|]. eapply Forall_impl; [exact Hf|]. intros f. by apply flight_grows. }
  destruct Hstep as [st fl fresh now now_s timeout addr msg r st' Hs Hn Hnew Hty Hrun
    |st fl msg addr d reg st' Hrun|st fl1 fl2 now now_s msg addr d reg r st' Hs Hn Hrun|st fl k now r st' Hrun]; simpl in *.
  - assert (Hg : reg_inv (bd_dm st') ∧ grows (bd_dm st) (bd_dm st')).
    { unfold backdoor_dispatch in Hrun. destruct (d_type msg); try (by injection Hrun as _ <-); [|done].
      destruct (_ =? 0); [by eapply register_grows|by eapply ip_update_grows]. }
    destruct Hg. done.
  - destruct (ack_read_inv st msg addr d reg st' Hinv Hrun) as [-> Hok]. split; [done|]. split; [done|]. by constructor.
  - apply Forall_app in Hfl as [Hf1 Hf2]. apply Forall_cons in Hf2 as [(Hd & Hfk & Hreg) Hf2]. simpl in *.
    destruct (ack_act_grows st now now_s msg addr d reg r st') as [? ?]; [done..|]. split; [done|]. split; [done|].
    by apply Forall_app.
  - destruct (bd_timeouts st !! k) as [[dur id]|] eqn:Hk.
    + rewrite (timeout_ok st k dur id now Hk) in Hrun. injection Hrun as _ <-.
      destruct (timed_out_grows (set_bd_timeouts (delete k (bd_timeouts st)) st) id now Hinv). done.
    + unfold ack_timeout_task in Hrun. rewrite Hk in Hrun. by injection Hrun as _ <-.
Qed.

(** Registered devices are always scheduled. From a consistent state, whatever messages
    arrive and however their handlers, the two parts of ACK handlers and timeout tasks
    interleave: every registered device has a connection that names an existing job, which
    will wake that device at the connection's time; and a registered device stays so. *)
Theorem registered_devices_have_jobs (st st' : Backdoor JS InnerDB) (fl' : list InFlight)
    (Hacc : accepts_jobs (JS := JS)) (Hinv : reg_inv (bd_dm st)) (Hsteps : rtc bd_step (st, []) (st', fl')) :
  (∀ id t, registrations st' !! id = Some (Registered, t) → has_job (bd_dm st') id) ∧
  (∀ id t, registrations st !! id = Some (Registered, t) → ∃ t', registrations st' !! id = Some (Registered, t')).
Proof.
  cut (reg_inv (bd_dm st') ∧ grows (bd_dm st) (bd_dm st') ∧ Forall (flight_ok st') fl').
  { intros ([] & (_ & Hr & _) & _). by split. }
  remember (st, []) as p eqn:Hp. remember (st', fl') as p' eqn:Hp'.
  replace st with p.1 in * by (by rewrite Hp). replace st' with p'.1 by (by rewrite Hp').
  replace fl' with p'.2 by (by rewrite Hp'). assert (Hfl : Forall (flight_ok p.1) p.2) by (by rewrite Hp).
  clear Hp Hp'. induction Hsteps as [p|p q p' Hstep _ IH]; [done|].
  destruct (bd_step_grows p q Hacc Hstep Hinv Hfl) as (Hi & Hg & Hf).
  destruct (IH Hi Hf) as (Hi' & Hg' & Hf'). split; [done|]. split; [by etrans|done].
Qed.
End facts.
