(* ===== verification/BackdoorExamples.v ===== *)
(** * A concrete registration server

    Node 7 with 24 buckets, one an hour, of which the first ten are taken: the
    instances on which the theorems on device registration are evaluated. *)

From S2P Require Import Prelude Bytes Net Float32 Node Database DatabaseFacts Calendar Scheduler SchedulerFacts DeviceManager DeviceManagerFacts DeviceMessage Backdoor BackdoorFacts.

Local Open Scope Z_scope.
Local Open Scope hes_scope.

#[local] Existing Instance gregorian.gregorian.

Definition taken : gmap Z (Z * Uuid) := list_to_map ((λ i : nat, (100 + Z.of_nat i, (Z.of_nat i, 7))) <$> seq 0 10).
Definition server_db : InnerDB := set_buckets taken empty_db.
Definition server : Backdoor JobTable InnerDB :=
  mkBackdoor (mkDmState (device_manager_new 7 48 (scheduler_new 24 7 false)) server_db) [] [].

(** The new device, its messages and the clock: 08:59:59 and 09:00:01 of a day of 2024. *)
Definition meter : Uuid := 5000.
Definition meter_v4 : SocketAddr := SockV4 10 0 0 5 4059.
Definition meter_v6 : SocketAddr := SockV6 [0x2001; 0xdb8; 0; 0; 0; 0; 0; 5] 4059 0 0.
Definition morning (s : Z) : Z := (19723 * 86400 + 9 * 3600 + s) * ns_per_s.
Definition request : Message :=
  stamped 1704099599 TRegisterRequest 0 0 (PayRegistryRequest (mkRegistryRequest (str "356938035643809") [])).
Definition meter_ack : Message := stamped 1704099601 TAck meter 2 PayAck.
Definition moved_request : Message :=
  stamped 1704099600 TRegisterRequest meter 1 (PayRegistryRequest (mkRegistryRequest (str "356938035643809") [])).

Ltac clock_ok := repeat split; vm_compute; (reflexivity || discriminate).

Lemma server_least : least_bucket (bucket_load (bd_db server)) (bucket_number (bd_sched server)) 10.
Proof.
  destruct (mem_bucket_choice 24 server_db ltac:(lia)) as (b & Hb & Hl).
  assert (Hx : mem_get_bucket_with_less_devices 24 server_db = (Ok 10, server_db)) by eval_done.
  rewrite Hx in Hb. by injection Hb as <-.
Qed.

Lemma registration_handshake_witness : ∃ st1 st2,
  handle_backdoor_register_msg meter (morning (-1)) 1704099599 request meter_v4 300000 server = (Ok tt, st1) ∧
  handle_backdoor_ack_msg (morning 1) 1704099601 meter_ack meter_v4 st1 = (Ok tt, st2) ∧
  registrations st2 !! meter = Some (Registered, 1704099601 * ns_per_ms) ∧ size (bd_jobs st2) = 1%nat.
Proof.
  destruct (registration_handshake server meter (morning (-1)) 1704099599 300000 (1704099599 * ns_per_ms) request meter_v4
    ltac:(clock_ok) ltac:(eval_done) ltac:(eval_done) ltac:(eval_done) ltac:(lia)
    (morning 1) 1704099601 meter_ack meter_v4 (1704099601 * ns_per_ms)
    ltac:(eval_done) job_table_accepts ltac:(clock_ok) ltac:(eval_done) ltac:(eval_done) ltac:(eval_done) ltac:(lia))
    as (b & j & st1 & st2 & H1 & H2 & _ & Hr & _ & _ & _ & _ & Hf & Hj & _).
  exists st1, st2. split; [done|]. split; [done|]. split; [by rewrite Hr, lookup_insert_eq|].
  rewrite Hj, map_size_insert_None by done. by assert (bd_jobs server = ∅) as -> by eval_done.
Defined.

(** Told to wake at 10:00 today, the meter has its job at 10:00 tomorrow. *)
Lemma announced_wakeup_missed_witness : ∃ T j st1 st2,
  handle_backdoor_register_msg meter (morning (-1)) 1704099599 request meter_v4 300000 server = (Ok tt, st1) ∧
  handle_backdoor_ack_msg (morning 1) 1704099601 meter_ack meter_v4 st1 = (Ok tt, st2) ∧
  bd_jobs st2 = <[j := mkJob (T + ns_per_day) meter false]> (bd_jobs server) ∧ morning 1 < T ∧ day_of T = 19723.
Proof.
  destruct (announced_wakeup_missed server meter (morning (-1)) 1704099599 300000 (1704099599 * ns_per_ms) request meter_v4
    ltac:(clock_ok) ltac:(eval_done) ltac:(eval_done) ltac:(eval_done) ltac:(lia)
    (morning 1) 1704099601 meter_ack meter_v4 (1704099601 * ns_per_ms) 10
    ltac:(eval_done) job_table_accepts ltac:(clock_ok) ltac:(eval_done) ltac:(eval_done) ltac:(eval_done) ltac:(lia)
    ltac:(eval_done) server_least ltac:(eval_done) ltac:(clock_ok))
    as (T & j & st1 & st2 & H1 & H2 & _ & Hj & _ & Hday & Hlate).
  exists T, j, st1, st2. split; [done|]. split; [done|]. split; [done|].
  split; [apply Hlate; eval_done|]. rewrite Hday. eval_done.
Defined.

Lemma ipv6_device_never_registers_witness : ∃ st1,
  handle_backdoor_register_msg meter (morning (-1)) 1704099599 request meter_v6 300000 server = (Ok tt, st1) ∧
  handle_backdoor_ack_msg (morning 1) 1704099601 meter_ack meter_v6 st1 = (Err InvalidIp, st1).
Proof.
  destruct (ipv6_device_never_registers server meter (morning (-1)) 1704099599 300000 (1704099599 * ns_per_ms) request meter_v6
    ltac:(clock_ok) ltac:(eval_done) ltac:(eval_done) ltac:(eval_done) ltac:(lia) ltac:(eval_done))
    as (b & st1 & H1 & _ & H2 & _).
  exists st1. split; [done|]. by apply H2.
Defined.

(** The server once the meter has registered and not acknowledged yet. *)
Definition waiting : Backdoor JobTable InnerDB :=
  (handle_backdoor_register_msg meter (morning (-1)) 1704099599 request meter_v4 300000 server).2.

Lemma ip_update_before_ack_doubles_job_witness : ∃ j1 j2 st1 st2,
  handle_backdoor_ip_update_msg (morning 0) 1704099600 moved_request meter_v4 waiting = (Ok tt, st1) ∧
  handle_backdoor_ack_msg (morning 1) 1704099601 meter_ack meter_v4 st1 = (Ok tt, st2) ∧ j1 ≠ j2 ∧
  is_Some (bd_jobs st2 !! j1) ∧ is_Some (bd_jobs st2 !! j2).
Proof.
  destruct (ip_update_before_ack_doubles_job waiting meter (new_device meter request meter_v4) (1704099599 * ns_per_ms)
    10 7 moved_request meter_v4 (morning 0) 1704099600 meter_ack meter_v4 (morning 1) 1704099601 (1704099601 * ns_per_ms)
    job_table_accepts ltac:(clock_ok) ltac:(clock_ok) ltac:(eval_done) ltac:(eval_done) ltac:(eval_done)
    ltac:(eval_done) ltac:(eval_done) ltac:(clock_ok) ltac:(eval_done) ltac:(eval_done) ltac:(lia)
    ltac:(eval_done) ltac:(eval_done) ltac:(eval_done) ltac:(lia))
    as (j1 & j2 & st1 & st2 & H1 & H2 & Hne & Hj1 & Hj2 & _).
  exists j1, j2, st1, st2. split; [done|]. split; [done|]. split; [done|]. split; eexists; [exact Hj1|exact Hj2].
Defined.

(** The race the handler's comment mentions: the timeout runs between the read of a waiting
    registration and its update. The update wins and the meter is scheduled. *)
Definition raced : Backdoor JobTable InnerDB := (ack_timeout_task 0 (morning 0) waiting).2.
Definition settled : Backdoor JobTable InnerDB :=
  (ack_act (morning 1) 1704099601 meter_ack meter_v4 (new_device meter request meter_v4)
     (mkDeviceRegistration meter PendingAck (1704099599 * ns_per_ms)) raced).2.

Lemma server_reg_inv : reg_inv (bd_dm server).
Proof.
  split; simpl; [done| |by intros id [? Hx]|done]. intros id b n Hx.
  apply (map_Forall_lookup_1 (λ _ (p : Z * Uuid), 0 <= p.1 < 24) taken id (b, n)); [|done].
  apply (bool_decide_unpack _). vm_compute. exact I.
Qed.

Lemma registered_devices_have_jobs_witness :
  registrations raced !! meter = Some (AckTimeout, morning 0) ∧
  registrations settled !! meter = Some (Registered, 1704099601 * ns_per_ms) ∧ has_job (bd_dm settled) meter.
Proof.
  split; [eval_done|].
  assert (Hreg : registrations settled !! meter = Some (Registered, 1704099601 * ns_per_ms)) by eval_done.
  split; [done|].
  refine (proj1 (registered_devices_have_jobs server settled [] job_table_accepts server_reg_inv _) meter _ Hreg).
  - eapply rtc_l.
    { eapply (step_message server [] meter (morning (-1)) 1704099599 300000 meter_v4 request (Ok tt) waiting);
        [clock_ok|lia|eval_done|done|eval_done]. }
    eapply rtc_l.
    { apply (step_ack_read waiting [] meter_ack meter_v4 (new_device meter request meter_v4)
        (mkDeviceRegistration meter PendingAck (1704099599 * ns_per_ms)) waiting). eval_done. }
    eapply rtc_l. { apply (step_timeout waiting _ 0 (morning 0) (Ok tt) raced). eval_done. }
    eapply rtc_l; [|apply rtc_refl].
    apply (step_ack_act raced [] [] (morning 1) 1704099601 meter_ack meter_v4 _ _ (Ok tt) settled);
      [clock_ok|lia|eval_done].
Defined.
