(* ===== verification/PostgresSystem.v ===== *)
(** * The system on the PostgreSQL engine

    What the scheduler and the backdoor do when their database is
    PostgreSQL: a node that is not in [T_NODES] cannot register devices;
    every reschedule adds a row of [T_SCHEDULED_CONNECTIONS]; a restart
    recovers the newest connection of each device, and two restarts turn the
    rows of a device into as many jobs. *)

From Stdlib Require Import Sorted.
From S2P Require Import Prelude Bytes Net Float32 Node Database DatabaseFacts Postgres PostgresFacts PostgresRefinement Calendar Scheduler SchedulerFacts DeviceManager DeviceMessage Backdoor.

Local Open Scope Z_scope.
Local Open Scope hes_scope.

(** The rows of a device in [T_SCHEDULED_CONNECTIONS], and its jobs. *)
Definition conn_rows (id : Uuid) (db : PostgresDB) : list ScheduledConnection :=
  where_rows (conn_of id) (t_connections (tables db)).

Definition device_jobs (id : Uuid) (m : gmap Z WakeupJob) : gmap Z WakeupJob :=
  filter (λ e, wj_device e.2 = id) m.

Section system.
Context `{PgServer} `{ChronoCrate} {JS : Type} `{JobCrate JS}.
Hypothesis link_up : ∀ n, pg_link n = Answered.
Implicit Types (st : SchedState JS PostgresDB).

Definition pg_jobs st : gmap Z WakeupJob := js_jobs (job_scheduler (ss_sched st)).

(** ** Rescheduling *)
Lemma in_pg_ok {A} (m : SE PostgresDB DatabaseError A) st a db' :
  m (ss_db st) = (Ok a, db') → in_db (JS := JS) m st = (Ok a, set_ss_db db' st).
Proof. intros Hm. unfold in_db, szoom. by rewrite Hm. Qed.

(** The row a reschedule adds. *)
Definition new_row (id t j : Z) : ScheduledConnection :=
  mkScheduledConnection id (pg_time t) None Awaiting (Some j) true None.

(** The device is assigned to a bucket and stored. *)
Definition assigned (id b : Z) (db : PostgresDB) : Prop :=
  pg_wf (tables db) ∧ (∃ node, map_buckets (tables db) !! id = Some (b, node)).

Lemma assigned_stored id b db : assigned id b db → has_device id (tables db) = true.
Proof.
  intros [Hwf [node Hb]]. apply has_device_elem, (wf_buckets_fk _ Hwf).
  apply dec_stable. intros Hn. apply (table_map_None b_device bucket_value) in Hn. unfold map_buckets in Hb. congruence.
Qed.

Lemma bucket_number_pg id b db :
  assigned id b db → pg_get_bucket_number id db = (Ok b, mkPg (tables db) (S (statements db))).
Proof.
  intros [Hwf [node Hb]]. unfold pg_get_bucket_number. rewrite (query_up link_up).
  pose proof (fetch_key b_device bucket_value (t_buckets (tables db)) id (statements db) (wf_buckets _ Hwf)) as Hf.
  unfold map_buckets in Hb. rewrite Hb in Hf. destruct Hf as (r & Hf & _ & _ & Hv).
  unfold bucket_of. rewrite Hf. simpl. by injection Hv as -> _.
Qed.

Lemma schedule_next_pg st now id b :
  accepts_jobs (JS := JS) → can_schedule (ss_sched st) now → assigned id b (ss_db st) →
  0 <= b < bucket_number (ss_sched st) →
  ∃ j st', schedule_next_wakeup_job now id st = (Ok tt, st') ∧ same_config (ss_sched st) (ss_sched st') ∧
    tables (ss_db st') = with_connections
      (t_connections (tables (ss_db st)) ++ [new_row id (wake_time (ss_sched st) now b) j]) (tables (ss_db st)).
Proof.
  intros Hacc Hs Ha Hb. unfold schedule_next_wakeup_job.
  sstep (in_pg_ok _ st _ _ (bucket_number_pg _ _ _ Ha)).
  set (st1 := set_ss_db _ st).
  destruct Hs as (Hn & Hd & Hd'). replace (wrap_u64 b) with b by (unfold wrap_u64; rewrite Z.mod_small; lia).
  destruct (next_wakeup_time st1 now b (conj Hn (conj Hd Hd')) Hb) as [Hw _]. sstep Hw.
  unfold create_wakeup_job.
  destruct (Hacc (mkJob (wake_time (ss_sched st1) now b) id (reschedule_tx (ss_sched st1))) (job_scheduler (ss_sched st1))) as (j & js & Hadd).
  unfold sbind at 1. rewrite Hadd.
  exists j. eexists. split; [|split].
  - apply in_pg_ok. apply (execute_up link_up). simpl. unfold has_device in *.
    pose proof (assigned_stored _ _ _ Ha) as Hst. unfold has_device in Hst. by rewrite Hst.
  - done.
  - done.
Qed.

Definition reschedules (id : Uuid) (nows : list Z) : SE (SchedState JS PostgresDB) SchedulerError unit :=
  sfor nows (λ now, schedule_next_wakeup_job now id).

Lemma conn_rows_app id (db db' : PostgresDB) l :
  t_connections (tables db') = t_connections (tables db) ++ l →
  conn_rows id db' = conn_rows id db ++ where_rows (conn_of id) l.
Proof. intros Hl. unfold conn_rows, where_rows. by rewrite Hl, filter_app. Qed.

(** The rows [n] reschedules leave. *)
Lemma reschedules_rows id b (nows : list Z) st :
  accepts_jobs (JS := JS) → (∀ now, now ∈ nows → can_schedule (ss_sched st) now) →
  assigned id b (ss_db st) → 0 <= b < bucket_number (ss_sched st) →
  ∃ new st', reschedules id nows st = (Ok tt, st') ∧ conn_rows id (ss_db st') = conn_rows id (ss_db st) ++ new ∧
    length new = length nows ∧ Forall (λ c, sc_status c = Awaiting ∧ renewable c = true) new.
Proof.
  intros Hacc. revert st. induction nows as [|now nows IH]; intros st Hnow Ha Hb.
  { exists [], st. by rewrite app_nil_r. }
  destruct (schedule_next_pg st now id b Hacc (Hnow now ltac:(constructor)) Ha Hb) as (j & st1 & Hrun & Hcfg & Ht).
  destruct (IH st1) as (new & st' & Hrest & Hrows & Hlen & Hall).
  - intros n Hn. unfold can_schedule. rewrite (proj1 Hcfg). apply Hnow. by constructor.
  - pose proof (assigned_stored _ _ _ Ha) as Hd%has_device_elem. destruct Ha as [[] Hbk].
    split; rewrite Ht; [|done]. constructor; simpl; try done. rewrite fmap_app. set_solver.
  - by rewrite (proj1 Hcfg).
  - exists (new_row id (wake_time (ss_sched st) now b) j :: new), st'. unfold reschedules. cbn [sfor]. sstep Hrun.
    split; [done|]. rewrite Hrows. rewrite (conn_rows_app id (ss_db st) (ss_db st1) [new_row id (wake_time (ss_sched st) now b) j]) by (by rewrite Ht).
    assert (Hw : where_rows (conn_of id) [new_row id (wake_time (ss_sched st) now b) j] = [new_row id (wake_time (ss_sched st) now b) j]).
    { unfold where_rows. apply filter_all. intros c ->%list_elem_of_singleton. apply Z.eqb_refl. }
    rewrite Hw, <- app_assoc. split; [done|]. split; [simpl; lia|]. by constructor.
Qed.

(** ** Reloading after a restart *)
Definition as_stored (c r : ScheduledConnection) : ScheduledConnection :=
  mkScheduledConnection (fk_device r) (pg_time (schedule_time c)) (pg_time <$> connection_time c)
    (sc_status c) (job_id c) (renewable c) (pg_time <$> last_battery_read c).

Lemma update_conn_rows id c (db : PostgresDB) :
  conn_rows id (pg_update_scheduled_connection c db).2 =
  (if id =? fk_device c then as_stored c <$> conn_rows id db else conn_rows id db).
Proof.
  unfold pg_update_scheduled_connection. rewrite (execute_up link_up _ _ _ eq_refl). unfold conn_rows, where_rows, update_where. simpl.
  fold (as_stored c). unfold conn_of. destruct (Z.eqb_spec id (fk_device c)) as [->|Hne];
    induction (t_connections (tables db)) as [|r l IH]; try done; rewrite fmap_cons, !filter_cons, IH;
    destruct (Z.eqb_spec (fk_device r) (fk_device c)) as [He|Hr]; simpl.
  - by rewrite !(decide_True (P := _ = true)) by lia.
  - by rewrite !(decide_False (P := _ = true)) by lia.
  - by rewrite !(decide_False (P := _ = true)) by lia.
  - done.
Qed.

Definition due (now : Z) (c : ScheduledConnection) : bool := schedule_time c <? now + RELOAD_MARGIN.

(** What one iteration leaves for the device [id] that the node owns. *)
Definition reload_effect (id : Z) st st' (now : Z) (c : ScheduledConnection) : Prop :=
  same_config (ss_sched st) (ss_sched st') ∧
  if fk_device c =? id then
    if due now c then pg_jobs st' = pg_jobs st ∧ conn_rows id (ss_db st') = as_stored (mark_lost c) <$> conn_rows id (ss_db st)
    else ∃ j, pg_jobs st !! j = None ∧
      pg_jobs st' = <[j := mkJob (schedule_time c) id (reschedule_tx (ss_sched st))]> (pg_jobs st) ∧
      conn_rows id (ss_db st') = as_stored (set_job_id (Some j) c) <$> conn_rows id (ss_db st)
  else device_jobs id (pg_jobs st') = device_jobs id (pg_jobs st) ∧ conn_rows id (ss_db st') = conn_rows id (ss_db st).

Lemma update_connection_in_db c st :
  ∃ st', in_db (JS := JS) (update_scheduled_connection c) st = (Ok tt, st') ∧ ss_sched st' = ss_sched st ∧
    ∀ id, conn_rows id (ss_db st') =
      (if id =? fk_device c then as_stored c <$> conn_rows id (ss_db st) else conn_rows id (ss_db st)).
Proof.
  pose proof (λ id, update_conn_rows id c (ss_db st)) as Hrows.
  unfold pg_update_scheduled_connection in Hrows. rewrite (execute_up link_up _ _ _ eq_refl) in Hrows.
  eexists. split; [apply in_pg_ok, (execute_up link_up); reflexivity|]. split; [done|exact Hrows].
Qed.

Lemma device_jobs_insert id j t id' tx (m : gmap Z WakeupJob) :
  m !! j = None →
  device_jobs id (<[j := mkJob t id' tx]> m) =
  (if id' =? id then <[j := mkJob t id' tx]> (device_jobs id m) else device_jobs id m).
Proof.
  intros Hj. unfold device_jobs. destruct (Z.eqb_spec id' id) as [->|Hne].
  - by rewrite map_filter_insert_True.
  - rewrite map_filter_insert_False by done. by rewrite delete_id.
Qed.

Lemma reload_connection_pg id st now c :
  accepts_jobs (JS := JS) → scheduler_owns_device (ss_sched st) id = true →
  ∃ st', reload_connection (now, c) st = (Ok tt, st') ∧ reload_effect id st st' now c.
Proof.
  intros Hacc Hown. unfold reload_connection, reload_effect. rewrite sbind_get. fold (due now c).
  destruct (scheduler_owns_device (ss_sched st) (fk_device c)) eqn:Ho; cbn [negb].
  2: { exists st. split; [done|]. split; [reflexivity|]. destruct (Z.eqb_spec (fk_device c) id); [congruence|done]. }
  destruct (due now c).
  - destruct (update_connection_in_db (mark_lost c) st) as (st' & Hu & Hsch & Hrows). exists st'. split; [done|].
    unfold pg_jobs. rewrite Hsch, Hrows. split; [reflexivity|]. rewrite Z.eqb_sym. simpl. by case_match.
  - destruct (Hacc (mkJob (schedule_time c) (fk_device c) (reschedule_tx (ss_sched st))) (job_scheduler (ss_sched st))) as (j & js & Hadd).
    destruct (js_add_ok _ _ _ _ Hadd) as [Hfresh Hjobs].
    assert (Hcj : create_wakeup_job (fk_device c) (schedule_time c) st = (Ok j, set_ss_sched (set_job_scheduler js (ss_sched st)) st))
      by (unfold create_wakeup_job; by rewrite Hadd).
    sstep Hcj.
    destruct (update_connection_in_db (set_job_id (Some j) c) (set_ss_sched (set_job_scheduler js (ss_sched st)) st)) as (st' & Hu & Hsch & Hrows).
    exists st'. split; [done|]. unfold pg_jobs. rewrite Hsch, Hrows. simpl. rewrite Hjobs. split; [done|].
    rewrite (Z.eqb_sym id). destruct (Z.eqb_spec (fk_device c) id) as [<-|Hne]; [by exists j|].
    split; [|done]. rewrite device_jobs_insert by done. apply Z.eqb_neq in Hne. by rewrite Hne.
Qed.

(** The connections of a device in a list being reloaded. *)
Definition of_device (id : Z) (l : list (Z * ScheduledConnection)) : list (Z * ScheduledConnection) :=
  filter (λ p, fk_device p.2 = id) l.

(** After the loop the device has one new job per connection that is not due, and its rows
    are all copies of the last connection reloaded for it. *)
Lemma reload_loop_pg id l st :
  accepts_jobs (JS := JS) → scheduler_owns_device (ss_sched st) id = true →
  ∃ st', sfor l reload_connection st = (Ok tt, st') ∧ same_config (ss_sched st) (ss_sched st') ∧
    length (conn_rows id (ss_db st')) = length (conn_rows id (ss_db st)) ∧
    size (device_jobs id (pg_jobs st')) =
      (size (device_jobs id (pg_jobs st)) + length (filter (λ p, due p.1 p.2 = false) (of_device id l)))%nat ∧
    match last (of_device id l) with
    | None => conn_rows id (ss_db st') = conn_rows id (ss_db st)
    | Some (now, c) => ∀ r, r ∈ conn_rows id (ss_db st') →
        schedule_time r = pg_time (schedule_time c) ∧ (due now c = false → sc_status r = sc_status c)
    end.
Proof.
  intros Hacc. revert st. induction l as [|[now c] l IH]; intros st Hown.
  { exists st. split_and!; done || (simpl; lia). }
  destruct (reload_connection_pg id st now c Hacc Hown) as (st1 & Hstep & Hcfg & Heff).
  destruct (IH st1) as (st' & Hrest & Hcfg' & Hlen & Hjobs & Hlast).
  { unfold scheduler_owns_device in *. by destruct Hcfg as (_ & -> & _). }
  exists st'. cbn [sfor]. sstep Hstep. split; [done|]. split; [by etrans|].
  rewrite Hlen, Hjobs. clear Hlen Hjobs. unfold of_device. rewrite filter_cons. simpl. fold (of_device id l).
  destruct (Z.eqb_spec (fk_device c) id) as [Hid|Hne].
  2: { rewrite decide_False by done. destruct Heff as [-> Hr]. rewrite Hr. rewrite Hr in Hlast. done. }
  rewrite decide_True by done. rewrite filter_cons. simpl.
  assert (Hrow : ∀ r0, schedule_time (as_stored (mark_lost c) r0) = pg_time (schedule_time c)) by done.
  destruct (due now c) eqn:Hdue.
  - destruct Heff as [-> Hr]. rewrite Hr. rewrite length_fmap. split; [done|]. split; [done|].
    rewrite last_cons. destruct (last (of_device id l)); [done|]. rewrite Hlast, Hr.
    intros r (r0 & -> & _)%list_elem_of_fmap. by rewrite Hdue.
  - destruct Heff as (j & Hfresh & -> & Hr). rewrite Hr, length_fmap. split; [done|].
    rewrite device_jobs_insert, Z.eqb_refl by done.
    rewrite map_size_insert_None; [|unfold device_jobs; apply map_lookup_filter_None; by left].
    split; [simpl; lia|]. rewrite last_cons. destruct (last (of_device id l)); [done|]. rewrite Hlast, Hr.
    intros r (r0 & -> & _)%list_elem_of_fmap. done.
Qed.

Lemma imap_snd {A} (clock : nat → Z) (l : list A) : snd <$> imap (λ i c, (clock i, c)) l = l.
Proof.
  revert clock. induction l as [|x l IH]; intros clock; [done|]. cbn. f_equal.
  rewrite <- (IH (clock ∘ S)) at 2. done.
Qed.

Lemma of_device_snd id l : snd <$> of_device id l = filter (λ c, fk_device c = id) (snd <$> l).
Proof. unfold of_device. by rewrite filter_fmap. Qed.

(** The connections a reload walks through, for one device whose rows all await. *)
Lemma reloaded_rows id (n : nat) (db : PostgresDB) :
  (∀ c, c ∈ conn_rows id db → sc_status c = Awaiting) →
  filter (λ c, fk_device c = id) (sort_by_key schedule_time (pg_order n (where_rows is_awaiting (t_connections (tables db)))))
  ≡ₚ conn_rows id db.
Proof.
  intros Hall. rewrite sort_by_key_perm, pg_order_perm. unfold conn_rows, where_rows in *.
  assert (Hf : ∀ l : list ScheduledConnection, (∀ c, c ∈ filter (λ r, conn_of id r = true) l → sc_status c = Awaiting) →
    filter (λ c, fk_device c = id) (filter (λ r, is_awaiting r = true) l) = filter (λ r, conn_of id r = true) l).
  { intros l Hl. rewrite list_filter_filter. induction l as [|c l IH]; [done|]. rewrite !filter_cons in *.
    unfold conn_of in *. destruct (Z.eqb_spec (fk_device c) id) as [Hid|Hne].
    - rewrite decide_True in Hl by done. unfold is_awaiting. rewrite (Hl c) by constructor.
      rewrite !decide_True by done. f_equal. apply IH. intros c' Hc'. apply Hl. by constructor.
    - rewrite decide_False in Hl by done. rewrite !decide_False by naive_solver. by apply IH. }
  by rewrite Hf.
Qed.

Lemma sorted_filter {A} (key : A → Z) (P : A → Prop) `{∀ x, Decision (P x)} l :
  StronglySorted (by_key key) l → StronglySorted (by_key key) (filter P l).
Proof.
  induction 1 as [|c l Hs IH Hc]; [constructor|]. rewrite filter_cons. case_decide; [|done].
  constructor; [done|]. rewrite Forall_forall in *. intros x [_ Hx]%list_elem_of_filter. auto.
Qed.

Lemma reload_pg id clock st :
  accepts_jobs (JS := JS) → scheduler_owns_device (ss_sched st) id = true →
  (∀ c, c ∈ conn_rows id (ss_db st) → sc_status c = Awaiting) →
  ∃ l st', scheduler_reload_active_connections clock st = (Ok tt, st') ∧
    same_config (ss_sched st) (ss_sched st') ∧
    snd <$> of_device id l ≡ₚ conn_rows id (ss_db st) ∧
    StronglySorted (by_key schedule_time) (snd <$> of_device id l) ∧
    (∀ p, p ∈ l → ∃ i, p.1 = clock i) ∧
    length (conn_rows id (ss_db st')) = length (conn_rows id (ss_db st)) ∧
    size (device_jobs id (pg_jobs st')) =
      (size (device_jobs id (pg_jobs st)) + length (filter (λ p, due p.1 p.2 = false) (of_device id l)))%nat ∧
    match last (of_device id l) with
    | None => conn_rows id (ss_db st') = conn_rows id (ss_db st)
    | Some (now, c) => ∀ r, r ∈ conn_rows id (ss_db st') →
        schedule_time r = pg_time (schedule_time c) ∧ (due now c = false → sc_status r = sc_status c)
    end.
Proof.
  intros Hacc Hown Hall. set (rows := sort_by_key schedule_time (pg_order (statements (ss_db st)) (where_rows is_awaiting (t_connections (tables (ss_db st)))))).
  set (st0 := set_ss_db (mkPg (tables (ss_db st)) (S (statements (ss_db st)))) st).
  destruct (reload_loop_pg id (imap (λ i c, (clock i, c)) rows) st0 Hacc Hown) as (st' & Hloop & Hcfg & Hlen & Hjobs & Hlast).
  exists (imap (λ i c, (clock i, c)) rows), st'. split.
  { unfold scheduler_reload_active_connections.
    assert (Hq : in_db (JS := JS) get_scheduled_connections st = (Ok rows, st0)).
    { apply in_pg_ok. simpl. unfold pg_get_scheduled_connections. rewrite (query_up link_up). simpl. by rewrite map_row_id. }
    by sstep Hq. }
  split; [done|]. rewrite of_device_snd, imap_snd. split; [by apply reloaded_rows|]. split.
  { apply sorted_filter, sort_by_key_sorted. }
  split; [|done]. intros p Hp. apply list_elem_of_lookup in Hp as [i Hi].
  rewrite list_lookup_imap in Hi. destruct (rows !! i); [|done]. injection Hi as <-. by exists i.
Qed.

(** The process is started again on the same database. *)
Definition restarted st : SchedState JS PostgresDB :=
  mkSchedState (set_job_scheduler js_new (ss_sched st)) (ss_db st).

Lemma sorted_last {A} (key : A → Z) (l : list A) x y :
  StronglySorted (by_key key) l → last l = Some y → x ∈ l → key x <= key y.
Proof.
  induction 1 as [|a l Hs IH Ha]; [done|]. rewrite last_cons. intros Hy Hx.
  destruct (last l) as [z|] eqn:Hl; simplify_eq.
  - apply elem_of_cons in Hx as [->|Hx]; [|by apply IH].
    rewrite Forall_forall in Ha. apply Ha. apply last_Some in Hl as [l' ->]. set_solver.
  - apply last_None in Hl as ->. apply list_elem_of_singleton in Hx as ->. lia.
Qed.

(** On PostgreSQL two restarts multiply the jobs of a device. Each wake-up leaves a row
    that stays awaiting; the first restart overwrites all rows of the device with the
    newest one, so the second restart finds as many rows due in the future as the device
    ever had wake-ups and creates a job for every one of them. *)
Theorem two_restarts_multiply_jobs id (clock1 clock2 : nat → Z) (T : Z) st
    (Hacc : accepts_jobs (JS := JS)) (Hown : scheduler_owns_device (ss_sched st) id = true)
    (Hrows : ∀ c, c ∈ conn_rows id (ss_db st) → sc_status c = Awaiting ∧ schedule_time c <= T)
    (HT : whole T) (Hnewest : ∃ c, c ∈ conn_rows id (ss_db st) ∧ schedule_time c = T)
    (Hc1 : ∀ i, clock1 i + RELOAD_MARGIN <= T) (Hc2 : ∀ i, clock2 i + RELOAD_MARGIN <= T) :
  ∃ st1 st2, scheduler_reload_active_connections clock1 st = (Ok tt, st1) ∧
    scheduler_reload_active_connections clock2 (restarted st1) = (Ok tt, st2) ∧
    size (device_jobs id (pg_jobs st2)) = length (conn_rows id (ss_db st)) ∧
    length (conn_rows id (ss_db st2)) = length (conn_rows id (ss_db st)).
Proof.
  destruct (reload_pg id clock1 st Hacc Hown ltac:(intros; by apply Hrows)) as (l & st1 & Hrun1 & Hcfg & Hperm & Hsort & Hclk & Hlen & _ & Hlast).
  assert (Hafter : ∀ c, c ∈ conn_rows id (ss_db st1) → sc_status c = Awaiting ∧ schedule_time c = T).
  { destruct Hnewest as (c0 & Hc0 & HT0). rewrite <- Hperm in Hc0.
    destruct (last (of_device id l)) as [[now c]|] eqn:Hl.
    2: { apply last_None in Hl. rewrite Hl in Hc0. inversion Hc0. }
    assert (Hin : c ∈ conn_rows id (ss_db st)).
    { rewrite <- Hperm. apply list_elem_of_fmap. exists (now, c). split; [done|]. apply last_Some in Hl as [? ->]. set_solver. }
    assert (Hct : schedule_time c = T).
    { assert (T <= schedule_time c); [|destruct (Hrows c Hin); lia]. rewrite <- HT0.
      apply (sorted_last schedule_time (snd <$> of_device id l)); [done| |done]. by rewrite fmap_last, Hl. }
    assert (Hpin : (now, c) ∈ l).
    { apply last_Some in Hl as [l' Hl]. assert (Hp : (now, c) ∈ of_device id l) by (rewrite Hl; set_solver).
      unfold of_device in Hp. by apply list_elem_of_filter in Hp as [_ Hp]. }
    destruct (Hclk _ Hpin) as [i Hi]. simpl in Hi.
    intros r Hr. destruct (Hlast r Hr) as [Htime Hst]. rewrite Htime, Hct, (pg_time_whole T HT). split; [|done].
    rewrite Hst; [by apply Hrows|]. unfold due. specialize (Hc1 i). lia. }
  destruct (reload_pg id clock2 (restarted st1) Hacc) as (l2 & st2 & Hrun2 & _ & Hperm2 & _ & Hclk2 & Hlen2 & Hjobs & _).
  { unfold scheduler_owns_device in *. simpl. by destruct Hcfg as (_ & -> & _). }
  { intros c Hc. by apply Hafter. }
  exists st1, st2. split; [done|]. split; [done|]. simpl in Hlen2. rewrite Hlen2, Hlen. split; [|done].
  rewrite Hjobs. unfold pg_jobs at 1. simpl. rewrite js_new_jobs. unfold device_jobs at 1. rewrite map_filter_empty, map_size_empty.
  rewrite filter_all.
  - rewrite <- Hlen, <- (length_fmap snd), Hperm2. done.
  - intros [now c] Hp. assert (Hc : c ∈ conn_rows id (ss_db st1)).
    { change (ss_db st1) with (ss_db (restarted st1)). rewrite <- Hperm2. apply list_elem_of_fmap. by exists (now, c). }
    unfold of_device in Hp. apply list_elem_of_filter in Hp as [_ Hp]. destruct (Hclk2 _ Hp) as [i Hi]. simpl in *.
    destruct (Hafter c Hc) as [_ HcT]. unfold due. specialize (Hc2 i). lia.
Qed.

(** ** What a restart recovers *)

(** One iteration, for all devices. *)
Definition reload_outcome st st' (now : Z) (c : ScheduledConnection) : Prop :=
  let rows_become c' := ∀ id, conn_rows id (ss_db st') =
    (if id =? fk_device c then as_stored c' <$> conn_rows id (ss_db st) else conn_rows id (ss_db st)) in
  if negb (scheduler_owns_device (ss_sched st) (fk_device c)) then st' = st
  else if due now c then pg_jobs st' = pg_jobs st ∧ rows_become (mark_lost c)
  else ∃ j, pg_jobs st !! j = None ∧
    pg_jobs st' = <[j := mkJob (schedule_time c) (fk_device c) (reschedule_tx (ss_sched st))]> (pg_jobs st) ∧
    rows_become (set_job_id (Some j) c).

Lemma reload_connection_outcome st now c :
  accepts_jobs (JS := JS) →
  ∃ st', reload_connection (now, c) st = (Ok tt, st') ∧ same_config (ss_sched st) (ss_sched st') ∧ reload_outcome st st' now c.
Proof.
  intros Hacc. unfold reload_connection, reload_outcome. rewrite sbind_get. fold (due now c).
  destruct (scheduler_owns_device (ss_sched st) (fk_device c)); cbn [negb]; [|by exists st]. destruct (due now c).
  - destruct (update_connection_in_db (mark_lost c) st) as (st' & Hu & Hsch & Hrows). exists st'. split; [done|].
    unfold pg_jobs. rewrite Hsch. done.
  - destruct (Hacc (mkJob (schedule_time c) (fk_device c) (reschedule_tx (ss_sched st))) (job_scheduler (ss_sched st))) as (j & js & Hadd).
    destruct (js_add_ok _ _ _ _ Hadd) as [Hfresh Hjobs].
    assert (Hcj : create_wakeup_job (fk_device c) (schedule_time c) st = (Ok j, set_ss_sched (set_job_scheduler js (ss_sched st)) st))
      by (unfold create_wakeup_job; by rewrite Hadd).
    sstep Hcj.
    destruct (update_connection_in_db (set_job_id (Some j) c) (set_ss_sched (set_job_scheduler js (ss_sched st)) st)) as (st' & Hu & Hsch & Hrows).
    exists st'. split; [done|]. unfold pg_jobs. rewrite Hsch. simpl. rewrite Hjobs. split; [done|]. by exists j.
Qed.

(** The rows of the device [id] after the last of its connections, [c], was reloaded. *)
Definition settled (id : Z) (tx : bool) st' (now : Z) (c : ScheduledConnection) : Prop :=
  if due now c then ∀ r, r ∈ conn_rows id (ss_db st') → ∃ r0, r = as_stored (mark_lost c) r0
  else ∃ j, pg_jobs st' !! j = Some (mkJob (schedule_time c) id tx) ∧
    ∀ r, r ∈ conn_rows id (ss_db st') → ∃ r0, r = as_stored (set_job_id (Some j) c) r0.

Lemma reload_loop_settles l st :
  accepts_jobs (JS := JS) →
  ∃ st', sfor l reload_connection st = (Ok tt, st') ∧ pg_jobs st ⊆ pg_jobs st' ∧
    ∀ id, length (conn_rows id (ss_db st')) = length (conn_rows id (ss_db st)) ∧
      if scheduler_owns_device (ss_sched st) id then
        match last (of_device id l) with
        | None => conn_rows id (ss_db st') = conn_rows id (ss_db st)
        | Some (now, c) => settled id (reschedule_tx (ss_sched st)) st' now c
        end
      else conn_rows id (ss_db st') = conn_rows id (ss_db st).
Proof.
  intros Hacc. revert st. induction l as [|[now c] l IH]; intros st.
  { exists st. split; [done|]. split; [done|]. intros id. by destruct (scheduler_owns_device _ _). }
  destruct (reload_connection_outcome st now c Hacc) as (st1 & Hstep & Hcfg & Hout).
  destruct (IH st1) as (st' & Hrest & Hsub & Hall). exists st'. cbn [sfor]. sstep Hstep. split; [done|].
  destruct Hcfg as (_ & Hown1 & _ & Htx1 & _).
  assert (Hown : ∀ id, scheduler_owns_device (ss_sched st1) id = scheduler_owns_device (ss_sched st) id)
    by (intros id; unfold scheduler_owns_device; by rewrite Hown1).
  assert (Hsub1 : pg_jobs st ⊆ pg_jobs st1).
  { unfold reload_outcome in Hout. destruct (negb _); [by subst|]. destruct (due now c); [by destruct Hout as [-> _]|].
    destruct Hout as (j & Hj & -> & _). by apply insert_subseteq. }
  split; [by etrans|]. intros id. destruct (Hall id) as [Hlen Hid]. rewrite Hown, Htx1 in Hid. unfold of_device. rewrite filter_cons. cbn [snd].
  fold (of_device id l). unfold reload_outcome in Hout.
  destruct (scheduler_owns_device (ss_sched st) (fk_device c)) eqn:Hoc; cbn [negb] in Hout.
  2: { subst st1. split; [done|]. destruct (scheduler_owns_device (ss_sched st) id) eqn:Hoi; [|done].
       rewrite decide_False by congruence. exact Hid. }
  destruct (decide (fk_device c = id)) as [<-|Hne].
  - rewrite Hoc in *. rewrite last_cons. destruct (due now c) eqn:Hdue.
    + destruct Hout as [_ Hrows]. specialize (Hrows (fk_device c)). rewrite Z.eqb_refl in Hrows.
      split; [by rewrite Hlen, Hrows, length_fmap|]. destruct (last (of_device (fk_device c) l)); [exact Hid|].
      unfold settled. rewrite Hdue, Hid, Hrows. intros r (r0 & -> & _)%list_elem_of_fmap. by exists r0.
    + destruct Hout as (j & _ & Hjobs & Hrows). specialize (Hrows (fk_device c)). rewrite Z.eqb_refl in Hrows.
      split; [by rewrite Hlen, Hrows, length_fmap|]. destruct (last (of_device (fk_device c) l)); [exact Hid|].
      unfold settled. rewrite Hdue. exists j. split; [eapply lookup_weaken; [|exact Hsub]; by rewrite Hjobs, lookup_insert_eq|].
      rewrite Hid, Hrows. intros r (r0 & -> & _)%list_elem_of_fmap. by exists r0.
  - assert (Hrows : conn_rows id (ss_db st1) = conn_rows id (ss_db st)).
    { assert (Hz : (id =? fk_device c) = false) by lia. destruct (due now c); [destruct Hout as [_ Hr]|destruct Hout as (j & _ & _ & Hr)];
        specialize (Hr id); by rewrite Hz in Hr. }
    by rewrite Hrows in Hlen, Hid.
Qed.

(** The awaiting connections of a device. *)
Definition awaiting_rows (id : Uuid) (db : PostgresDB) : list ScheduledConnection :=
  where_rows is_awaiting (conn_rows id db).

(** [c] is one of them, and none is later. *)
Definition newest (id : Uuid) (db : PostgresDB) (c : ScheduledConnection) : Prop :=
  c ∈ awaiting_rows id db ∧ ∀ c', c' ∈ awaiting_rows id db → schedule_time c' <= schedule_time c.

Lemma awaiting_reloaded id (n : nat) (db : PostgresDB) :
  filter (λ c, fk_device c = id) (sort_by_key schedule_time (pg_order n (where_rows is_awaiting (t_connections (tables db)))))
  ≡ₚ awaiting_rows id db.
Proof.
  rewrite sort_by_key_perm, pg_order_perm. unfold awaiting_rows, conn_rows, where_rows. rewrite !list_filter_filter.
  erewrite list_filter_iff; [done|]. intros c. unfold conn_of. rewrite Z.eqb_eq. tauto.
Qed.

(** C28: Recovery after a restart on PostgreSQL. With the clock between [t0] and [t1] while it
    runs, and a server that answers, reading back the connections succeeds, keeps the jobs
    there are and the number of rows of every device, and does to the rows of each device
    what its newest awaiting connection asks for. The rows of a device the node does not own,
    or without an awaiting connection, stay as they are. When the newest is due before [t0]
    plus five minutes, all rows of the device get its time, lost, not renewable and without
    job. When it is due at or after [t1] plus five minutes, all rows of the device get its
    time, awaiting, with the identifier of a job that will wake the device at that time. *)
Theorem restart_recovers_connections (clock : nat → Z) (t0 t1 : Z) st
    (Hacc : accepts_jobs (JS := JS)) (Hclock : ∀ i, t0 <= clock i <= t1) :
  ∃ st', scheduler_reload_active_connections clock st = (Ok tt, st') ∧ pg_jobs st ⊆ pg_jobs st' ∧
    ∀ id, length (conn_rows id (ss_db st')) = length (conn_rows id (ss_db st)) ∧
      (scheduler_owns_device (ss_sched st) id = false ∨ awaiting_rows id (ss_db st) = [] →
         conn_rows id (ss_db st') = conn_rows id (ss_db st)) ∧
      ∀ c, scheduler_owns_device (ss_sched st) id = true → newest id (ss_db st) c →
        (schedule_time c < t0 + RELOAD_MARGIN → ∀ r, r ∈ conn_rows id (ss_db st') →
           schedule_time r = pg_time (schedule_time c) ∧ sc_status r = Lost ∧ renewable r = false ∧ job_id r = None) ∧
        (t1 + RELOAD_MARGIN <= schedule_time c → ∃ j,
           pg_jobs st' !! j = Some (mkJob (schedule_time c) id (reschedule_tx (ss_sched st))) ∧
           ∀ r, r ∈ conn_rows id (ss_db st') →
             schedule_time r = pg_time (schedule_time c) ∧ sc_status r = Awaiting ∧ job_id r = Some j).
Proof.
  set (rows := sort_by_key schedule_time (pg_order (statements (ss_db st)) (where_rows is_awaiting (t_connections (tables (ss_db st)))))).
  set (st0 := set_ss_db (mkPg (tables (ss_db st)) (S (statements (ss_db st)))) st).
  set (l := imap (λ i c, (clock i, c)) rows).
  destruct (reload_loop_settles l st0 Hacc) as (st' & Hloop & Hsub & Hall). exists st'. split.
  { unfold scheduler_reload_active_connections.
    assert (Hq : in_db (JS := JS) get_scheduled_connections st = (Ok rows, st0)).
    { apply in_pg_ok. simpl. unfold pg_get_scheduled_connections. rewrite (query_up link_up). simpl. by rewrite map_row_id. }
    by sstep Hq. }
  split; [exact Hsub|]. intros id. destruct (Hall id) as [Hlen Hid]. split; [exact Hlen|].
  change (ss_sched st0) with (ss_sched st) in Hid. change (conn_rows id (ss_db st0)) with (conn_rows id (ss_db st)) in Hid.
  assert (Hperm : snd <$> of_device id l ≡ₚ awaiting_rows id (ss_db st)) by (unfold l; rewrite of_device_snd, imap_snd; apply awaiting_reloaded).
  split.
  - intros [Hown|Hnone]; [by rewrite Hown in Hid|]. destruct (scheduler_owns_device (ss_sched st) id); [|done].
    rewrite Hnone in Hperm. apply Permutation_nil_r, fmap_nil_inv in Hperm. by rewrite Hperm in Hid.
  - intros c Hown [Hc Hmax]. rewrite Hown in Hid. rewrite <- Hperm in Hc.
    destruct (last (of_device id l)) as [[now c1]|] eqn:Hl; [|apply last_None in Hl; rewrite Hl in Hc; by apply elem_of_nil in Hc].
    assert (Hin : (now, c1) ∈ of_device id l) by (apply last_Some in Hl as [? ->]; set_solver).
    assert (Hc1 : c1 ∈ awaiting_rows id (ss_db st)) by (rewrite <- Hperm; apply list_elem_of_fmap; by exists (now, c1)).
    assert (Ht : schedule_time c1 = schedule_time c).
    { apply Z.le_antisymm; [by apply Hmax|]. apply (sorted_last schedule_time (snd <$> of_device id l)); [|by rewrite fmap_last, Hl|done].
      unfold l. rewrite of_device_snd, imap_snd. apply sorted_filter, sort_by_key_sorted. }
    assert (Hst : sc_status c1 = Awaiting).
    { apply list_elem_of_filter in Hc1 as [Hp _]. unfold is_awaiting in Hp. by destruct (sc_status c1). }
    assert (Hnow : t0 <= now <= t1).
    { apply list_elem_of_filter in Hin as [_ Hin]. apply list_elem_of_lookup in Hin as [i Hi]. unfold l in Hi.
      rewrite list_lookup_imap in Hi. destruct (rows !! i); [|done]. injection Hi as <- _. apply Hclock. }
    unfold settled, due in Hid. rewrite <- Ht. split; intros Htime; destruct (Z.ltb_spec (schedule_time c1) (now + RELOAD_MARGIN)) as [Hdue|Hdue]; try lia.
    + intros r [r0 ->]%Hid. done.
    + destruct Hid as (j & Hj & Hr). exists j. split; [done|]. intros r [r0 ->]%Hr. done.
Qed.
End system.

(** ** A node that is not in [T_NODES]

    Only the cluster manager inserts its node; a single-node server never does. *)
Section unregistered.
Context `{PgServer} `{ChronoCrate} `{HashOrder} {JS : Type} `{JobCrate JS}.
Hypothesis link_up : ∀ n, pg_link n = Answered.

Lemma assign_unknown_node id b node (db : PostgresDB) :
  has_node node (tables db) = false →
  pg_add_device_to_bucket id b node db =
  (Err (QueryError (pg_message ForeignKeyViolation)),
   mkPg (with_buckets (delete_where (bucket_of id) (t_buckets (tables db))) (tables db)) (S (S (statements db)))).
Proof.
  intros Hn. unfold pg_add_device_to_bucket. erewrite sbind_ok by (by apply (execute_up link_up)).
  unfold bucket_insert, execute. rewrite (statement_up link_up). simpl.
  unfold has_device, has_node in *. simpl. rewrite Hn, andb_false_r. done.
Qed.

Lemma scheduler_register_unknown_node (st : SchedState JS PostgresDB) now d :
  pg_wf (tables (ss_db st)) → count_rows (t_buckets (tables (ss_db st))) < i64_max →
  can_schedule (ss_sched st) now → has_node (sch_local_node_id (ss_sched st)) (tables (ss_db st)) = false →
  ∃ n, scheduler_register_device now d st =
    (Err (SchedDatabaseError (QueryError (pg_message ForeignKeyViolation))),
     set_ss_db (mkPg (with_buckets (delete_where (bucket_of (dev_id d)) (t_buckets (tables (ss_db st)))) (tables (ss_db st))) n) st).
Proof.
  intros Hwf Hsize (Ht & Hd & Hd') Hn. set (total := bucket_number (ss_sched st)) in *.
  set (b := pg_get_bucket_with_less_devices (pg_order (statements (ss_db st)) (group_buckets (t_buckets (tables (ss_db st))))) total).
  assert (Hb : least_bucket (table_load (map_buckets (tables (ss_db st)))) total b).
  { apply pg_bucket_choice; [by apply group_buckets_answer| |lia]. intros b'.
    rewrite table_load_rows by done. unfold occ, count_rows in *. pose proof (length_filter (λ x, x = b') (b_bucket <$> t_buckets (tables (ss_db st)))) as Hl.
    rewrite length_fmap in Hl. lia. }
  set (st1 := set_ss_db (mkPg (tables (ss_db st)) (S (statements (ss_db st)))) st).
  assert (Hg : scheduler_get_bucket_number st = (Ok b, st1)).
  { unfold scheduler_get_bucket_number. rewrite sbind_get. unfold sbind at 1, sresult.
    rewrite (in_pg_ok _ _ b (mkPg (tables (ss_db st)) (S (statements (ss_db st))))).
    - unfold sret. do 2 f_equal. apply Z.mod_small. destruct Hb. lia.
    - simpl. unfold pg_bucket_with_less_devices. erewrite sbind_ok by (by rewrite (query_up link_up)). done. }
  destruct (next_wakeup_time st1 now b (conj Ht (conj Hd Hd')) ltac:(apply Hb)) as [Hw _].
  unfold scheduler_register_device. sstep Hg. sstep Hw. rewrite sbind_get. eexists.
  unfold sbind, in_db, szoom. simpl. rewrite assign_unknown_node by done. done.
Qed.

(** A server on PostgreSQL whose node has no row in [T_NODES] (single-node mode never
    inserts one) cannot register a device: the request of a new device fails on the
    reference to the node, nothing is sent to the device and it gets no bucket, yet its
    row stays in [T_DEVICES], one more for every request. *)
Theorem unlisted_node_cannot_register (st : Backdoor JS PostgresDB) fresh now now_s msg addr timeout
    (Hwf : pg_wf (tables (dm_db (bd_dm st))))
    (Hsize : count_rows (t_buckets (tables (dm_db (bd_dm st)))) < i64_max)
    (Hclock : can_schedule (dm_scheduler (dm (bd_dm st))) now)
    (Hnode : has_node (sch_local_node_id (dm_scheduler (dm (bd_dm st)))) (tables (dm_db (bd_dm st))) = false)
    (Hnew : d_device_id msg = 0) (Hfresh : has_device fresh (tables (dm_db (bd_dm st))) = false)
    (Hrow : ∃ d, device_row (device_new fresh addr
       (match d_payload msg with PayRegistryRequest req => Some (rr_imei req) | _ => None end)) = Ok d) :
  ∃ d st', handle_backdoor_register_msg fresh now now_s msg addr timeout st =
      (Err (DeviceManagerErr (DmScheduler (SchedDatabaseError (QueryError (pg_message ForeignKeyViolation))))), st') ∧
    bd_sent st' = bd_sent st ∧ bd_timeouts st' = bd_timeouts st ∧ dev_id d = fresh ∧
    t_devices (tables (dm_db (bd_dm st'))) = t_devices (tables (dm_db (bd_dm st))) ++ [d] ∧
    map_buckets (tables (dm_db (bd_dm st'))) !! fresh = None ∧ bd_dm st' = set_dm_db (dm_db (bd_dm st')) (bd_dm st).
Proof.
  destruct Hrow as [d Hrow]. set (device := device_new fresh addr _) in Hrow.
  assert (Hid : dev_id device = fresh) by (unfold device, device_new; by destruct addr).
  pose proof (device_row_id _ _ Hrow) as Hdid. rewrite Hid in Hdid. exists d.
  set (db := dm_db (bd_dm st)) in *. set (db1 := mkPg (with_devices (t_devices (tables db) ++ [d]) (tables db)) (S (statements db))).
  assert (Hadd : pg_add_device device db = (Ok tt, db1)).
  { apply (execute_up link_up). rewrite Hrow. simpl. by rewrite Hid, Hfresh. }
  assert (Hwf1 : pg_wf (tables db1)) by (pose proof (add_device_wf device db Hwf) as Hw; by rewrite Hadd in Hw).
  destruct (scheduler_register_unknown_node (mkSchedState (dm_scheduler (dm (bd_dm st))) db1) now device Hwf1 Hsize Hclock Hnode) as (n & Hreg).
  unfold handle_backdoor_register_msg. rewrite Hnew. simpl. fold device. unfold sbind, bd_in_db, bd_in_dm, dm_register_device, dm_in_sched, szoom, sbind.
  fold db. simpl. rewrite Hadd. simpl. fold db1. rewrite Hreg. simpl. eexists. split; [reflexivity|]. simpl.
  split_and!; try done; [|by destruct (bd_dm st) as [[] ?]].
  unfold map_buckets. simpl. rewrite Hid. apply table_map_None, (deleted_key b_device).
Qed.
End unregistered.

(** ** Concrete servers *)
#[local] Existing Instance plain_server.
#[local] Existing Instance gregorian.gregorian.

Definition noon : Z := (19723 * 86400 + 12 * 3600) * ns_per_s.
Definition day_after (n : Z) : Z := noon + n * ns_per_day.

(** Three days of wake-ups of the meter, assigned to node 1 at midnight. *)
Definition three_days : SchedState JobTable PostgresDB :=
  (reschedules 77 [day_after 0; day_after 1; day_after 2]
    (mkSchedState (scheduler_new 24 1 false)
      (mkPg (mkTables two_nodes [meter_row] [] [mkBucketRow 77 1 0] []) 0))).2.

Lemma forallb_elem {A} (f : A → bool) l : forallb f l = true → ∀ x, x ∈ l → f x = true.
Proof. intros Hl x Hx%list_elem_of_In. by eapply forallb_forall in Hl. Qed.
Lemma existsb_elem {A} (f : A → bool) l : existsb f l = true → ∃ x, x ∈ l ∧ f x = true.
Proof. intros (x & Hx%list_elem_of_In & Hf)%existsb_exists. by exists x. Qed.
Lemma awaiting_until t c : is_awaiting c && (schedule_time c <=? t) = true → sc_status c = Awaiting ∧ schedule_time c <= t.
Proof. unfold is_awaiting. destruct (sc_status c); [|done..]. intros Ht%Z.leb_le. done. Qed.

Lemma two_restarts_multiply_jobs_witness : ∃ st1 st2,
  scheduler_reload_active_connections (λ _, day_after 2) three_days = (Ok tt, st1) ∧
  scheduler_reload_active_connections (λ _, day_after 2) (restarted st1) = (Ok tt, st2) ∧
  size (device_jobs 77 (pg_jobs st2)) = 3%nat.
Proof.
  destruct (two_restarts_multiply_jobs (H := plain_server) (λ _, eq_refl) 77 (λ _, day_after 2) (λ _, day_after 2)
    ((19726 * 86400) * ns_per_s) three_days) as (st1 & st2 & Hr1 & Hr2 & Hsize & _).
  - exact job_table_accepts.
  - reflexivity.
  - assert (Hall : forallb (λ c, is_awaiting c && (schedule_time c <=? 19726 * 86400 * ns_per_s))
      (conn_rows 77 (ss_db three_days)) = true) by eval_done.
    intros c Hc. exact (awaiting_until _ _ (forallb_elem _ _ Hall c Hc)).
  - reflexivity.
  - assert (Hex : existsb (λ c, schedule_time c =? 19726 * 86400 * ns_per_s) (conn_rows 77 (ss_db three_days)) = true) by eval_done.
    destruct (existsb_elem _ _ Hex) as (c & Hc & Ht). exists c. split; [exact Hc|exact (proj1 (Z.eqb_eq _ _) Ht)].
  - intros _. vm_compute. discriminate.
  - intros _. vm_compute. discriminate.
  - exists st1, st2. split; [exact Hr1|]. split; [exact Hr2|]. rewrite Hsize. eval_done.
Defined.

(** A restart after these days: the meter has its job of tomorrow. *)
Lemma restart_recovers_connections_witness : ∃ st' j,
  scheduler_reload_active_connections (λ _, day_after 2) (restarted three_days) = (Ok tt, st') ∧
  pg_jobs st' !! j = Some (mkJob (19726 * 86400 * ns_per_s) 77 false) ∧
  ∀ r, r ∈ conn_rows 77 (ss_db st') → schedule_time r = 19726 * 86400 * ns_per_s ∧ sc_status r = Awaiting ∧ job_id r = Some j.
Proof.
  destruct (restart_recovers_connections (H := plain_server) (λ _, eq_refl) (λ _, day_after 2) (day_after 2) (day_after 2)
    (restarted three_days) job_table_accepts ltac:(intros i; split; reflexivity)) as (st' & Hrun & _ & Hall).
  destruct (Hall 77) as (_ & _ & Hnew).
  assert (Hex : existsb (λ c, schedule_time c =? 19726 * 86400 * ns_per_s) (awaiting_rows 77 (ss_db three_days)) = true) by eval_done.
  assert (Hmax : forallb (λ c, schedule_time c <=? 19726 * 86400 * ns_per_s) (awaiting_rows 77 (ss_db three_days)) = true) by eval_done.
  destruct (existsb_elem _ _ Hex) as (c & Hc & Ht). apply Z.eqb_eq in Ht.
  destruct (Hnew c) as [_ Hfuture].
  - reflexivity.
  - split; [exact Hc|]. intros c' Hc'. rewrite Ht. apply Z.leb_le. exact (forallb_elem _ _ Hmax c' Hc').
  - destruct Hfuture as (j & Hj & Hrows); [rewrite Ht; vm_compute; discriminate|].
    rewrite Ht in Hj, Hrows. exists st', j. split; [exact Hrun|]. split; [exact Hj|]. exact Hrows.
Defined.

(** A single-node server: no row in [T_NODES]. *)
Definition single_node : Backdoor JobTable PostgresDB :=
  mkBackdoor (mkDmState (device_manager_new 7 24 (scheduler_new 24 7 false)) (mkPg empty_tables 0)) [] [].
Definition new_meter_request : Message :=
  mkMessage CURRENT_PROTOCOL_VERSION TRegisterRequest 0 0 1704110400
    (PayRegistryRequest (mkRegistryRequest (str "356938035643809") [])) 0.

Lemma unlisted_node_cannot_register_witness : ∃ d st',
  handle_backdoor_register_msg 5000 noon 1704110400 new_meter_request (SockV4 10 0 0 5 4059) 300000 single_node =
    (Err (DeviceManagerErr (DmScheduler (SchedDatabaseError (QueryError (plain_message ForeignKeyViolation))))), st') ∧
  bd_sent st' = [] ∧ t_devices (tables (dm_db (bd_dm st'))) = [d].
Proof.
  destruct (unlisted_node_cannot_register (H := plain_server) (λ _, eq_refl) single_node 5000 noon 1704110400 new_meter_request
    (SockV4 10 0 0 5 4059) 300000) as (d & st' & Hrun & Hsent & _ & _ & Hdev & _).
  - constructor; simpl; (done || (apply (bool_decide_unpack _); vm_compute; exact I)).
  - reflexivity.
  - repeat split; vm_compute; (reflexivity || discriminate).
  - reflexivity.
  - reflexivity.
  - reflexivity.
  - eexists. vm_compute. reflexivity.
  - exists d, st'. split; [exact Hrun|]. split; [exact Hsent|exact Hdev].
Defined.
