(* ===== verification/WakeUp.v ===== *)
(** * The wake-up session

    Model of [src/scheduler/task/wake_up_device.rs], the task a job runs: the
    session HANDSHAKE, READ, WRITE, ACK with a device and its retries; and of
    the listener in [src/main.rs] that schedules the next wake-up. What the
    network does during one attempt is an [Attempt]. *)

From S2P Require Import Prelude Bytes Net Float32 Node Database Calendar Scheduler DeviceManager Rlp DeviceMessage DeviceCodec Backdoor.

Local Open Scope Z_scope.
Local Open Scope hes_scope.

(** [UnexpectedMsgType] names types by their text; here by the types. *)
Inductive TaskError :=
| TeDatabaseError (e : DatabaseError)
| DeviceWithNoIP
| TeIoError
| MaxRetriesExceeded
| TeMessageError (e : MessageError)
| TeMsgCodecError (e : MsgCodecError)
| UnexpectedMsgType (expected got : MsgType).

Definition DEVICE_UDP_PORT : Z := 6060.
Definition MAX_RETRIES : nat := 5.
Definition OBIS_WATER_VOLUME : list Z := str "1.0.1".
Definition OBIS_BATTERY : list Z := str "C.6.1".
Definition OBIS_CLOCK : list Z := str "0.9.4".
Definition OBIS_NEXT_WAKE : list Z := str "0.0.1".
Definition BATTERY_READ_INTERVAL_DAYS : Z := 7.

Section wake_up.
Context `{BytesCrate} `{RlpCrate} `{ChronoCrate} {DB : Type} `{Engine DB}.

(** One attempt: whether the socket can be bound and connected to an address, whether the
    [i]-th send succeeds, the datagram that the [i]-th receive gets before its timeout, the
    clock in nanoseconds at its [i]-th reading, and what other tasks did to the database
    before it. *)
Record Attempt := mkAttempt {
  at_bind : bool;
  at_connect : list Z → bool;
  at_send : nat → bool;
  at_recv : nat → option (list Z);
  at_clock : nat → Z;
  at_others : DB → DB
}.

(** The task's view: the database, the messages sent and the reschedule channel. *)
Record WakeState := mkWakeState {
  wk_db : DB;
  wk_sent : list Message;
  wk_channel : list Uuid
}.
Definition set_wk_db (d : DB) (st : WakeState) : WakeState := mkWakeState d (wk_sent st) (wk_channel st).

Definition WK (A : Type) : Type := SE WakeState TaskError A.
Definition wk_in_db {A} (m : SE DB DatabaseError A) : WK A := szoom wk_db set_wk_db TeDatabaseError m.
Definition wk_message {A} (o : outcome MessageError A) : WK A := slift (omap_err TeMessageError o).

(** [SystemTime::now()] in seconds at the [i]-th reading. *)
Definition clock_s (a : Attempt) (i : nat) : Z := at_clock a i / ns_per_s.

Definition wake_send_msg (a : Attempt) (i : nat) (msg : Message) : WK unit :=
  if at_send a i then smod (λ st, mkWakeState (wk_db st) (wk_sent st ++ [msg]) (wk_channel st)) else serr TeIoError.

Definition recv_msg (a : Attempt) (i : nat) : WK Message :=
  match at_recv a i with
  | None => serr TeIoError
  | Some datagram =>
      match message_decode (take 4096 datagram) with
      | Ok (Some msg) => sret msg
      | Ok None => serr TeIoError
      | Err e => serr (TeMsgCodecError e)
      | Panic => spanic
      end
  end.

(** Battery is read when there is no record of a read within seven days. *)
Definition needs_battery (now : Z) (id : Uuid) : WK bool :=
  do! r <- sresult (wk_in_db (get_scheduled_connection id)) ;
  sret (match r with
        | Ok conn =>
            match last_battery_read conn with
            | None => true
            | Some last => BATTERY_READ_INTERVAL_DAYS <=? Z.quot (now - last) ns_per_day
            end
        | _ => true
        end).

Definition run_session (a : Attempt) (id : Uuid) (remote_addr : list Z) : WK unit :=
  if negb (at_bind a) then serr TeIoError
  else if negb (at_connect a remote_addr) then serr TeIoError
  else
    do! battery <- needs_battery (at_clock a 0) id ;
    do! hello <- wk_message (new_handshake_message (clock_s a 1) id 0 (replicate 32 0)) ;
    do! _ <- wake_send_msg a 0 hello ;
    do! resp <- recv_msg a 0 ;
    match d_payload resp with
    | PayHandshakeResponse _ =>
        let obis_codes := [OBIS_WATER_VOLUME; OBIS_CLOCK] ++ (if (battery : bool) then [OBIS_BATTERY] else []) in
        do! read <- wk_message (new_read_request_message (clock_s a 2) id 1 obis_codes) ;
        do! _ <- wake_send_msg a 1 read ;
        do! resp <- recv_msg a 1 ;
        match d_payload resp with
        | PayReadResponse _ =>
            let next_wake_ts := timestamp_u64 (at_clock a 3 + ns_per_day) in
            let parameters := [mkWriteParameter OBIS_NEXT_WAKE (big_endian.be_put 8 next_wake_ts)] in
            do! write <- wk_message (new_write_request_message (clock_s a 4) id 2 parameters) ;
            do! _ <- wake_send_msg a 2 write ;
            do! resp <- recv_msg a 2 ;
            match d_payload resp with
            | PayWriteResponse _ _ =>
                do! ack <- wk_message (new_ack_message (clock_s a 5) id 3) ;
                do! _ <- wake_send_msg a 3 ack ;
                if (battery : bool) then
                  do! _ <- sresult (E := TaskError) (wk_in_db (update_last_battery_read id (at_clock a 6))) ; sret tt
                else sret tt
            | _ => serr (UnexpectedMsgType TWriteResponse (d_type resp))
            end
        | _ => serr (UnexpectedMsgType TReadResponse (d_type resp))
        end
    | _ => serr (UnexpectedMsgType THandshakeResponse (d_type resp))
    end.

(** Attempts [attempt .. attempt + left - 1]. *)
Fixpoint attempts (net : nat → Attempt) (id : Uuid) (remote_addr : list Z) (tx : bool) (left attempt : nat) : WK unit :=
  match left with
  | O => serr MaxRetriesExceeded
  | S left' =>
      do! _ <- smod (λ st, set_wk_db (at_others (net attempt) (wk_db st)) st) ;
      do! r <- sresult (run_session (net attempt) id remote_addr) ;
      match r with
      | Ok _ => if (tx : bool) then smod (λ st, mkWakeState (wk_db st) (wk_sent st) (wk_channel st ++ [id])) else sret tt
      | _ => attempts net id remote_addr tx left' (S attempt)
      end
  end.

Definition run_wake_up (net : nat → Attempt) (id : Uuid) (tx : bool) : WK unit :=
  do! device <- wk_in_db (get_device id) ;
  match dev_ipv4 device, dev_ipv6 device with
  | Some ip, None | None, Some ip =>
      attempts net id (ip ++ str ":" ++ dec DEVICE_UDP_PORT) tx MAX_RETRIES 1
  | _, _ => serr DeviceWithNoIP
  end.

(** [wake_up_device]: the rest of it is metrics. *)
Definition wake_up_device (net : nat → Attempt) (job_id id : Uuid) (tx : bool) : WK unit := run_wake_up net id tx.
End wake_up.
Arguments WakeState DB : clear implicits.
Arguments Attempt DB : clear implicits.

(** The listener of the reschedule channel, on one device. *)
Definition reschedule_device `{ChronoCrate} {JS DB : Type} `{JobCrate JS} `{Engine DB} (now : Z) (id : Uuid)
  : DM JS DB unit :=
  do! _ <- sresult (E := DeviceManagerError) (schedule_next_wakeup now id) ; sret tt.
