(* ===== verification/WakeUpFacts.v ===== *)
(** * Theorems on the wake-up session

    When a session succeeds and what it leaves, the retries, and how the next
    wake-up that the device is told relates to the job that is scheduled. The
    database is the in-memory engine. *)

From S2P Require Import Prelude Bytes Net Float32 Node Database DatabaseFacts Calendar Scheduler SchedulerFacts DeviceManager DeviceManagerFacts Rlp DeviceMessage DeviceCodec Backdoor BackdoorFacts WakeUp.

Local Open Scope Z_scope.
Local Open Scope hes_scope.

Section facts.
Context `{BytesCrate} `{RlpCrate} `{ChronoCrate} `{HashOrder}.
Implicit Types (a : Attempt InnerDB) (st : WakeState InnerDB).

(** The type of the message the [i]-th receive gets. *)
Definition reply_type a (i : nat) : option MsgType :=
  match at_recv a i with
  | None => None
  | Some dg => match message_decode (take 4096 dg) with
               | Ok (Some m) => Some (payload_type (d_payload m))
               | _ => None
               end
  end.

(** The network and the device do their part: the socket works and the three answers come. *)
Definition completes a (addr : list Z) : Prop :=
  at_bind a = true ∧ at_connect a addr = true ∧ (∀ i, (i < 4)%nat → at_send a i = true) ∧
  reply_type a 0 = Some THandshakeResponse ∧ reply_type a 1 = Some TReadResponse ∧ reply_type a 2 = Some TWriteResponse.

(** Datagrams are bytes and the clock is past 1970. *)
Definition attempt_ok a : Prop :=
  (∀ i dg, at_recv a i = Some dg → Forall is_byte dg) ∧ (∀ i, 0 <= at_clock a i).

(** What the proofs need of it: no datagram makes the decoder panic. *)
Definition attempt_safe a : Prop :=
  (∀ i dg, at_recv a i = Some dg → message_decode (take 4096 dg) ≠ Panic) ∧ (∀ i, 0 <= at_clock a i).

Lemma attempt_ok_safe a : attempt_ok a → attempt_safe a.
Proof.
  intros [Hb Hc]. split; [|done]. intros i dg Hr Hp.
  pose proof (message_decode_spec (take 4096 dg) ltac:(by apply Forall_take, (Hb i))) as Hd. by rewrite Hp in Hd.
Qed.

(** Whether a session at [now] reads the battery. *)
Definition reads_battery (db : InnerDB) (now id : Z) : bool :=
  match scheduled_connections db !! id with
  | Some c => match last_battery_read c with
              | None => true
              | Some last => BATTERY_READ_INTERVAL_DAYS <=? Z.quot (now - last) ns_per_day
              end
  | None => true
  end.

(** The time the device is told to wake next: a day after the clock is read. *)
Definition told_wake a : Z := timestamp_u64 (at_clock a 3 + ns_per_day).

(** The four messages of a session. *)
Definition session_messages a (id : Z) (battery : bool) : list Message :=
  [ stamped (clock_s a 1) THandshake id 0 (PayHandshake (replicate 32 0));
    stamped (clock_s a 2) TReadRequest id 1
      (PayReadRequest ([OBIS_WATER_VOLUME; OBIS_CLOCK] ++ (if battery then [OBIS_BATTERY] else [])));
    stamped (clock_s a 4) TWriteRequest id 2
      (PayWriteRequest [mkWriteParameter OBIS_NEXT_WAKE (big_endian.be_put 8 (told_wake a))]);
    stamped (clock_s a 5) TAck id 3 PayAck ].

(** The database after a session that read the battery. *)
Definition battery_noted (id now : Z) (db : InnerDB) : InnerDB := (mem_update_last_battery_read id now db).2.

(** ** Steps of a session *)
Lemma clock_s_nonneg a i : attempt_safe a → 0 <= clock_s a i.
Proof. intros [_ Hc]. unfold clock_s. apply Z.div_pos; [done|]. unfold ns_per_s. lia. Qed.

Lemma recv_cases a i st : attempt_safe a →
  (∃ m, recv_msg a i st = (Ok m, st) ∧ reply_type a i = Some (payload_type (d_payload m))) ∨
  (∃ e, recv_msg a i st = (Err e, st) ∧ reply_type a i = None).
Proof.
  intros [Hb _]. unfold recv_msg, reply_type. destruct (at_recv a i) as [dg|] eqn:Hr; [|right; by eexists].
  pose proof (Hb i dg Hr) as Hd.
  destruct (message_decode (take 4096 dg)) as [[m|]|e|]; [left|right..|done]; by eexists.
Qed.

Lemma needs_battery_ok now id st : needs_battery now id st = (Ok (reads_battery (wk_db st) now id), st).
Proof.
  destruct st as [db sent ch]. unfold needs_battery, sbind, sresult, wk_in_db, szoom, reads_battery. simpl.
  unfold mem_get_scheduled_connection. by destruct (scheduled_connections db !! id).
Qed.

Lemma wk_message_ok {A} (o : outcome MessageError Message) (k : Message → WK A) st m :
  o = Ok m → sbind (wk_message o) k st = k m st.
Proof. by intros ->. Qed.

Definition sent_more (l : list Message) st : WakeState InnerDB := mkWakeState (wk_db st) (wk_sent st ++ l) (wk_channel st).

Lemma sent_more_app l l' st : sent_more l' (sent_more l st) = sent_more (l ++ l') st.
Proof. unfold sent_more. simpl. by rewrite app_assoc. Qed.

Lemma wake_send_ok a i m st : at_send a i = true → wake_send_msg a i m st = (Ok tt, sent_more [m] st).
Proof. intros Hs. unfold wake_send_msg. by rewrite Hs. Qed.

Lemma wake_send_err a i m st : at_send a i = false → wake_send_msg a i m st = (Err TeIoError, st).
Proof. intros Hs. unfold wake_send_msg. by rewrite Hs. Qed.

(** How a session ends, in one state: completed, or failed after some of its messages. *)
Definition session_spec a (id : Z) (addr : list Z) st (res : outcome TaskError unit * WakeState InnerDB) : Prop :=
  let battery := reads_battery (wk_db st) (at_clock a 0) id in
  match res with
  | (Ok _, st') => completes a addr ∧ wk_channel st' = wk_channel st ∧
      wk_sent st' = wk_sent st ++ session_messages a id battery ∧
      wk_db st' = (if battery then battery_noted id (at_clock a 6) (wk_db st) else wk_db st)
  | (Err _, st') => ¬ completes a addr ∧ ∃ k, (k < 4)%nat ∧ st' = sent_more (take k (session_messages a id battery)) st
  | (Panic, _) => False
  end.

Lemma sent_none st : st = sent_more [] st.
Proof. destruct st as [db sent ch]. unfold sent_more. simpl. by rewrite app_nil_r. Qed.

(** Closes a branch that failed after [k] messages. *)
Ltac session_failed k :=
  split; [intros (Hb & Hc & Hs & Hr0 & Hr1 & Hr2);
            first [congruence | by rewrite Hs in * by lia | simpl in *; congruence]
         |exists k; split; [lia|]; rewrite ?sent_more_app; first [apply sent_none | reflexivity]].

(** Sends the next message [m], the [i]-th, of a session that has sent [i] so far. *)
Ltac session_send i Hok :=
  match goal with
  | |- context [wk_message (?f (clock_s ?a ?n) _ _ _)] =>
      unfold f; erewrite wk_message_ok by (apply build_message_ok, clock_s_nonneg, Hok)
  | |- context [wk_message (?f (clock_s ?a ?n) _ _)] =>
      unfold f; erewrite wk_message_ok by (apply build_message_ok, clock_s_nonneg, Hok)
  end;
  let Hs := fresh "Hsend" in
  match goal with |- context [wake_send_msg ?a i _] => destruct (at_send a i) eqn:Hs end;
  [rewrite (sbind_ok _ _ _ _ _ (wake_send_ok _ _ _ _ Hs)), ?sent_more_app
  |rewrite (sbind_err _ _ _ _ _ (wake_send_err _ _ _ _ Hs)); session_failed i].

(** Receives the [i]-th answer, which must be of the type that the branch [Hok] expects. *)
Ltac session_receive i Hok :=
  let m := fresh "m" in let Hm := fresh "Hm" in let Ht := fresh "Ht" in let Hp := fresh "Hp" in
  match goal with |- context [sbind (recv_msg ?a i) _ ?s] =>
    destruct (recv_cases a i s Hok) as [(m & Hm & Ht)|(m & Hm & Ht)];
      [rewrite (sbind_ok _ _ _ _ _ Hm); destruct (d_payload m) eqn:Hp; simpl in Ht;
         try (unfold serr; session_failed (S i))
      |rewrite (sbind_err _ _ _ _ _ Hm); session_failed (S i)]
  end.

Lemma run_session_spec a id addr st : attempt_safe a → session_spec a id addr st (run_session a id addr st).
Proof.
  intros Hok. unfold run_session, session_spec.
  destruct (at_bind a) eqn:Hbind; cbn [negb]; [|session_failed 0%nat].
  destruct (at_connect a addr) eqn:Hconn; cbn [negb]; [|session_failed 0%nat].
  rewrite (sbind_ok _ _ _ _ _ (needs_battery_ok (at_clock a 0) id st)).
  session_send 0%nat Hok. session_receive 0%nat Hok.
  session_send 1%nat Hok. session_receive 1%nat Hok.
  session_send 2%nat Hok. session_receive 2%nat Hok.
  session_send 3%nat Hok.
  assert (Hdone : completes a addr).
  { repeat split; try done. intros i Hi. destruct i as [|[|[|[|i]]]]; [done..|lia]. }
  destruct (reads_battery (wk_db st) (at_clock a 0) id) eqn:Hbat; [|done].
  unfold sbind, sresult, wk_in_db, szoom, battery_noted. simpl.
  unfold mem_update_last_battery_read. by destruct (scheduled_connections (wk_db st) !! id).
Qed.

(** ** Retries *)

(** What other tasks do before the [n] attempts from [k] on. *)
Fixpoint others (net : nat → Attempt InnerDB) (k n : nat) (db : InnerDB) : InnerDB :=
  match n with O => db | S n' => others net (S k) n' (at_others (net k) db) end.

(** The database after a completed attempt. *)
Definition session_db a (id : Z) (db : InnerDB) : InnerDB :=
  if reads_battery db (at_clock a 0) id then battery_noted id (at_clock a 6) db else db.

Lemma attempts_spec net id addr tx left k st :
  (∀ j, attempt_safe (net j)) →
  match attempts net id addr tx left k st with
  | (Ok _, st') => ∃ n, (n < left)%nat ∧ completes (net (k + n)%nat) addr ∧
      (∀ i, (i < n)%nat → ¬ completes (net (k + i)%nat) addr) ∧
      wk_channel st' = wk_channel st ++ (if tx then [id] else []) ∧
      wk_db st' = session_db (net (k + n)%nat) id (others net k (S n) (wk_db st))
  | (Err e, st') => e = MaxRetriesExceeded ∧ (∀ i, (i < left)%nat → ¬ completes (net (k + i)%nat) addr) ∧
      wk_channel st' = wk_channel st ∧ wk_db st' = others net k left (wk_db st)
  | (Panic, _) => False
  end.
Proof.
  intros Hok. revert k st. induction left as [|left IH]; intros k st.
  { simpl. split; [done|]. split; [lia|done]. }
  cbn [attempts]. rewrite sbind_mod. set (st0 := set_wk_db _ st).
  pose proof (run_session_spec (net k) id addr st0 (Hok k)) as Hrun. unfold session_spec in Hrun.
  unfold sbind, sresult. destruct (run_session (net k) id addr st0) as [[[]|e|] st1]; [| |done].
  - destruct Hrun as (Hc & Hch & _ & Hdb).
    destruct tx; exists 0%nat; rewrite Nat.add_0_r; (split; [lia|]); (split; [done|]); (split; [lia|]).
    + unfold smod. cbn [wk_channel wk_db]. by rewrite Hch.
    + unfold sret. by rewrite Hch, app_nil_r.
  - destruct Hrun as (Hc & q & _ & ->). specialize (IH (S k) (sent_more (take q (session_messages (net k) id
      (reads_battery (wk_db st0) (at_clock (net k) 0) id))) st0)).
    assert (Hnot : ∀ n, (∀ i, (i < n)%nat → ¬ completes (net (S k + i)%nat) addr) →
      ∀ i, (i < S n)%nat → ¬ completes (net (k + i)%nat) addr).
    { intros n Hall i Hi. destruct i as [|i]; [by rewrite Nat.add_0_r|].
      rewrite <- Nat.add_succ_comm. apply Hall. lia. }
    destruct (attempts net id addr tx left (S k) _) as [[[]|e'|] st2]; [| |done].
    + destruct IH as (n & Hn & Hcn & Hfirst & Hch & Hdb). exists (S n). rewrite <- Nat.add_succ_comm.
      split; [lia|]. split; [done|]. split; [by apply Hnot|done].
    + destruct IH as (He & Hall & Hch & Hdb). split; [done|]. split; [by apply Hnot|done].
Qed.

(** A wake-up session succeeds exactly when the network and the device do their part. Then it
    has sent HANDSHAKE, READ, WRITE and ACK numbered from 0, asked for the battery only when
    its last read is a week old or unknown, and noted the read. Otherwise it has sent a
    proper prefix of these messages and left the database as it was. *)
Theorem session_outcome a id addr st
    (Hok : attempt_ok a) :
  let battery := reads_battery (wk_db st) (at_clock a 0) id in
  match run_session a id addr st with
  | (Ok _, st') => completes a addr ∧ wk_channel st' = wk_channel st ∧
      wk_sent st' = wk_sent st ++ session_messages a id battery ∧
      wk_db st' = (if battery then battery_noted id (at_clock a 6) (wk_db st) else wk_db st)
  | (Err _, st') => ¬ completes a addr ∧ ∃ k, (k < 4)%nat ∧ st' = sent_more (take k (session_messages a id battery)) st
  | (Panic, _) => False
  end.
Proof. by apply run_session_spec, attempt_ok_safe. Qed.

Lemma wake_up_spec net job_id id tx st d ip
    (Hok : ∀ j, attempt_safe (net j)) (Hd : devices (wk_db st) !! id = Some d)
    (Hip : (dev_ipv4 d, dev_ipv6 d) = (Some ip, None) ∨ (dev_ipv4 d, dev_ipv6 d) = (None, Some ip)) :
  let addr := ip ++ str ":6060" in
  match wake_up_device net job_id id tx st with
  | (Ok _, st') => ∃ k, (1 <= k <= 5)%nat ∧ completes (net k) addr ∧
      (∀ i, (1 <= i < k)%nat → ¬ completes (net i) addr) ∧
      wk_channel st' = wk_channel st ++ (if tx then [id] else []) ∧
      wk_db st' = session_db (net k) id (others net 1 k (wk_db st))
  | (Err e, st') => e = MaxRetriesExceeded ∧ (∀ i, (1 <= i <= 5)%nat → ¬ completes (net i) addr) ∧
      wk_channel st' = wk_channel st ∧ wk_db st' = others net 1 5 (wk_db st)
  | (Panic, _) => False
  end.
Proof.
  intros addr. unfold wake_up_device, run_wake_up.
  assert (Hget : wk_in_db (get_device id) st = (Ok d, st)).
  { destruct st as [db sent ch]. unfold wk_in_db, szoom. simpl in *. unfold mem_get_device. by rewrite Hd. }
  sstep Hget. change (ip ++ str ":" ++ dec DEVICE_UDP_PORT) with addr.
  assert (Hm : ∀ e, match dev_ipv4 d, dev_ipv6 d with
    | Some ip', None | None, Some ip' => attempts net id (ip' ++ str ":" ++ dec DEVICE_UDP_PORT) tx MAX_RETRIES 1
    | _, _ => e end = attempts net id addr tx 5 1) by (intros e; by destruct Hip as [[= -> ->]|[= -> ->]]).
  rewrite Hm. pose proof (attempts_spec net id addr tx 5 1 st Hok) as Hspec.
  destruct (attempts net id addr tx 5 1 st) as [[[]|e|] st']; [| |done].
  - destruct Hspec as (n & Hn & Hc & Hfirst & Hch & Hdb). exists (S n). split; [lia|]. split; [done|]. split; [|done].
    intros i Hi. destruct i as [|i]; [lia|]. apply (Hfirst i). lia.
  - destruct Hspec as (He & Hall & Hch & Hdb). split; [done|]. split; [|done].
    intros i Hi. destruct i as [|i]; [lia|]. apply (Hall i). lia.
Qed.

(** C23: The wake-up task tries at most five times and stops at the first session that completes;
    it then signals the device for rescheduling once, if it has a channel. Only when all
    five attempts fail does it report that the retries are exhausted, without a signal. *)
Theorem wake_up_outcome net job_id id tx st d ip
    (Hok : ∀ j, attempt_ok (net j)) (Hd : devices (wk_db st) !! id = Some d)
    (Hip : (dev_ipv4 d, dev_ipv6 d) = (Some ip, None) ∨ (dev_ipv4 d, dev_ipv6 d) = (None, Some ip)) :
  let addr := ip ++ str ":6060" in
  match wake_up_device net job_id id tx st with
  | (Ok _, st') => ∃ k, (1 <= k <= 5)%nat ∧ completes (net k) addr ∧
      (∀ i, (1 <= i < k)%nat → ¬ completes (net i) addr) ∧
      wk_channel st' = wk_channel st ++ (if tx then [id] else []) ∧
      wk_db st' = session_db (net k) id (others net 1 k (wk_db st))
  | (Err e, st') => e = MaxRetriesExceeded ∧ (∀ i, (1 <= i <= 5)%nat → ¬ completes (net i) addr) ∧
      wk_channel st' = wk_channel st ∧ wk_db st' = others net 1 5 (wk_db st)
  | (Panic, _) => False
  end.
Proof. eapply wake_up_spec; [intros j; by apply attempt_ok_safe|done..]. Qed.

(** ** After the session *)
Section reschedule.
Context {JS : Type} `{JobCrate JS}.
Implicit Types (ds : DmState JS InnerDB).

(** The instant of a bucket's slot on the day of [t]. *)
Definition slot_today (s : Scheduler JS) (t b : Z) : Z := day_of t * ns_per_day + slot (bucket_number s) b * ns_per_s.

Lemma wake_time_after_slot (s : Scheduler JS) now b :
  test_mode s = false → 0 < bucket_number s → 0 <= b < bucket_number s → slot_today s now b <= now →
  wake_time s now b = slot_today s now b + ns_per_day.
Proof.
  intros Hmode Ht Hb Hle. unfold wake_time, wake_instant, slot_today in *. rewrite Hmode.
  pose proof (slot_lt_day (bucket_number s) b Ht Hb) as Hs. set (x := slot (bucket_number s) b) in *.
  destruct (Z.ltb_spec (hour_of now + 1) (x / 3600)) as [Hlt|]; [exfalso|lia].
  unfold hour_of, day_of, ns_per_day, secs_per_day, ns_per_s in *. Z.to_euclidean_division_equations. lia.
Qed.

Lemma reschedule_ok ds now id b node :
  accepts_jobs (JS := JS) → can_schedule (dm_scheduler (dm ds)) now →
  buckets (dm_db ds) !! id = Some (b, node) → 0 <= b < bucket_number (dm_scheduler (dm ds)) →
  ∃ j ds', let t := wake_time (dm_scheduler (dm ds)) now b in
    reschedule_device now id ds = (Ok tt, ds') ∧
    scheduled_connections (dm_db ds') !! id = Some (awaiting_row id t j) ∧ dm_jobs ds !! j = None ∧
    dm_jobs ds' = <[j := mkJob t id (reschedule_tx (dm_scheduler (dm ds)))]> (dm_jobs ds).
Proof.
  intros Hacc Hs Hb Hr. destruct (dm_schedule_ok ds now id b node Hacc Hs Hb Hr) as (j & s' & Hrun & _ & Hfr & Hj).
  exists j. eexists. split; [unfold reschedule_device, sbind, sresult; by rewrite Hrun|].
  split; [apply lookup_insert_eq|]. by split.
Qed.

(** The wake-up time drifts. When the session's clock reading [w] is past the bucket's slot of
    that day, the device is told to wake a day after [w], but the job that rescheduling adds
    is a day after the slot: a session that needed retries makes the device oversleep
    tomorrow's job by the same delay. *)
Theorem told_wakeup_drifts a addr st st' ds id b node r
    (Hok : attempt_ok a) (Hrun : run_session a id addr st = (Ok tt, st'))
    (Hacc : accepts_jobs (JS := JS)) (Hs : can_schedule (dm_scheduler (dm ds)) r)
    (Hmode : test_mode (dm_scheduler (dm ds)) = false)
    (Hb : buckets (dm_db ds) !! id = Some (b, node)) (Hr : 0 <= b < bucket_number (dm_scheduler (dm ds)))
    (Hw : slot_today (dm_scheduler (dm ds)) r b <= at_clock a 3 <= r) :
  let job := slot_today (dm_scheduler (dm ds)) r b + ns_per_day in
  ∃ j ds' m, reschedule_device r id ds = (Ok tt, ds') ∧
    dm_jobs ds' = <[j := mkJob job id (reschedule_tx (dm_scheduler (dm ds)))]> (dm_jobs ds) ∧ dm_jobs ds !! j = None ∧
    m ∈ wk_sent st' ∧ d_payload m = PayWriteRequest [mkWriteParameter OBIS_NEXT_WAKE
      (big_endian.be_put 8 (timestamp_u64 (job + (at_clock a 3 - slot_today (dm_scheduler (dm ds)) r b))))].
Proof.
  intros job. destruct (reschedule_ok ds r id b node Hacc Hs Hb Hr) as (j & ds' & Hre & _ & Hfr & Hj).
  rewrite wake_time_after_slot in Hj by (done || lia || apply Hs).
  pose proof (run_session_spec a id addr st (attempt_ok_safe a Hok)) as Hspec. rewrite Hrun in Hspec. destruct Hspec as (_ & _ & Hsent & _).
  exists j, ds'. eexists. split; [done|]. split; [done|]. split; [done|]. split.
  - rewrite Hsent. apply elem_of_app. right. do 2 right. by left.
  - simpl. unfold told_wake.
    by replace (at_clock a 3 + ns_per_day) with (job + (at_clock a 3 - slot_today (dm_scheduler (dm ds)) r b)) by (unfold job; lia).
Qed.

(** The week between battery reads is never observed. Rescheduling replaces the connection by one
    without a battery read, so the next session reads the battery, whenever it is and
    whenever the battery was last read. *)
Theorem battery_read_every_session ds id b node r
    (Hacc : accepts_jobs (JS := JS)) (Hs : can_schedule (dm_scheduler (dm ds)) r)
    (Hb : buckets (dm_db ds) !! id = Some (b, node)) (Hr : 0 <= b < bucket_number (dm_scheduler (dm ds))) :
  ∃ ds', reschedule_device r id ds = (Ok tt, ds') ∧
    ∀ now sent ch, needs_battery now id (mkWakeState (dm_db ds') sent ch) = (Ok true, mkWakeState (dm_db ds') sent ch).
Proof.
  destruct (reschedule_ok ds r id b node Hacc Hs Hb Hr) as (j & ds' & Hre & Hc & _).
  exists ds'. split; [done|]. intros now sent ch. rewrite needs_battery_ok. unfold reads_battery. simpl. by rewrite Hc.
Qed.

(** A lost device is not scheduled again. After a wake-up task failed, the device's connection
    is lost; when the device then reports its address, the backdoor answers with the time of
    that connection, which has passed, and adds no job. *)
Theorem lost_device_not_rescheduled (ss ss' : SchedState JS InnerDB) (job : WakeupJob) (c : ScheduledConnection)
    (bd : Backdoor JS InnerDB) d now now_s msg addr
    (Hc : scheduled_connections (ss_db ss) !! wj_device job = Some c) (Hk : fk_device c = wj_device job)
    (Hend : job_ended job TaskFailed ss = (Ok tt, ss'))
    (Hbd : bd_dm bd = mkDmState (set_dm_scheduler (ss_sched ss') (dm (bd_dm bd))) (ss_db ss'))
    (Hmsg : d_device_id msg = wj_device job) (Hn : 0 <= now_s)
    (Hd : devices (ss_db ss) !! wj_device job = Some d) (Hid : dev_id d = wj_device job) :
  ∃ bd', handle_backdoor_ip_update_msg now now_s msg addr bd = (Ok tt, bd') ∧
    bd_sent bd' = bd_sent bd ++ [(addr, ip_update_answer now_s msg (schedule_time c))] ∧
    bd_jobs bd' = bd_jobs bd ∧
    scheduled_connections (bd_db bd') !! wj_device job = Some (mark_lost c).
Proof.
  assert (Hdb : ss_db ss' = set_connections (<[wj_device job := mark_lost c]> (scheduled_connections (ss_db ss))) (ss_db ss)).
  { unfold job_ended in Hend. rewrite sbind_mod in Hend. unfold sbind, sresult, in_db, szoom in Hend. simpl in Hend.
    unfold mem_get_scheduled_connection in Hend. rewrite Hc in Hend. simpl in Hend. rewrite Hk in Hend.
    by injection Hend as <-. }
  assert (Hbdb : bd_db bd = ss_db ss') by (unfold bd_db; by rewrite Hbd).
  assert (Hdev : devices (bd_db bd) !! d_device_id msg = Some d) by (by rewrite Hbdb, Hdb, Hmsg).
  assert (Hconn : scheduled_connections (bd_db bd) !! d_device_id msg = Some (mark_lost c))
    by (rewrite Hbdb, Hdb, Hmsg; apply lookup_insert_eq).
  eexists. split; [|split; [|split]].
  - apply (ip_update_ok bd now now_s msg addr d (schedule_time c)); [done|by rewrite Hmsg|done|].
    apply (next_wake_known (moved_device addr d bd) now _ (mark_lost c) Hconn).
  - done.
  - done.
  - by rewrite <- Hmsg.
Qed.
End reschedule.
End facts.
