(* ===== verification/WakeUpExamples.v ===== *)
(** * A concrete wake-up

    The meter of [BackdoorExamples], registered in bucket 10 (10:00), is silent
    at its slot and answers the second attempt ninety seconds later. *)

From S2P Require Import Prelude Bytes Net Float32 Node Database DatabaseFacts Calendar Scheduler SchedulerFacts DeviceManager DeviceManagerFacts Rlp DeviceMessage DeviceCodec Backdoor BackdoorFacts BackdoorExamples WakeUp WakeUpFacts.

Local Open Scope Z_scope.
Local Open Scope hes_scope.

#[local] Existing Instance gregorian.gregorian.
#[local] Existing Instance big_endian.big_endian.
#[local] Existing Instance rlp_format.rlp_format.

(** The server after the handshake, on the morning before. *)
Definition enrolled : Backdoor JobTable InnerDB :=
  (handle_backdoor_ack_msg (morning 0) 1704099600 meter_ack meter_v4 waiting).2.
Definition enrolled_db : InnerDB := bd_db enrolled.

(** 10:00 of the day the meter wakes. *)
Definition ten (s : Z) : Z := (19724 * 86400 + 10 * 3600 + s) * ns_per_s.

Definition replies (i : nat) : option (list Z) :=
  match i with
  | 0%nat => Some (message_encode (stamped 1704189690 THandshakeResponse meter 0 (PayHandshakeResponse 0)))
  | 1%nat => Some (message_encode (stamped 1704189691 TReadResponse meter 1 (PayReadResponse [mkObis OBIS_CLOCK [1; 2]])))
  | 2%nat => Some (message_encode (stamped 1704189692 TWriteResponse meter 2 (PayWriteResponse true [OBIS_NEXT_WAKE])))
  | _ => None
  end.

Definition silent : Attempt InnerDB := mkAttempt true (λ _, true) (λ _, true) (λ _, None) (λ _, ten 0) id.
Definition answering : Attempt InnerDB := mkAttempt true (λ _, true) (λ _, true) replies (λ _, ten 90) id.
Definition network (k : nat) : Attempt InnerDB := if (k =? 2)%nat then answering else silent.
Definition task : WakeState InnerDB := mkWakeState enrolled_db [] [].

Lemma silent_ok : attempt_ok silent.
Proof. split; [done|]. intros i. vm_compute. discriminate. Qed.

Lemma answering_ok : attempt_ok answering.
Proof.
  split; [|intros i; vm_compute; discriminate].
  intros i dg Hi. destruct i as [|[|[|i]]]; vm_compute in Hi; [..|done]; injection Hi as <-;
    repeat (constructor; [unfold is_byte; lia|]); constructor.
Qed.

Lemma session_outcome_witness :
  ∃ st', run_session answering meter (str "10.0.0.5:6060") task = (Ok tt, st') ∧
    completes answering (str "10.0.0.5:6060") ∧ length (wk_sent st') = 4%nat.
Proof.
  pose proof (session_outcome answering meter (str "10.0.0.5:6060") task answering_ok) as Ho.
  assert (Hr : (run_session answering meter (str "10.0.0.5:6060") task).1 = Ok tt) by eval_done.
  destruct (run_session answering meter (str "10.0.0.5:6060") task) as [r st']. simpl in Hr. subst r.
  exists st'. split; [done|]. destruct Ho as (Hc & _ & Hsent & _). split; [done|]. by rewrite Hsent.
Defined.

Lemma wake_up_outcome_witness :
  ∃ st', wake_up_device network 1 meter true task = (Ok tt, st') ∧ wk_channel st' = [meter].
Proof.
  pose proof (wake_up_outcome network 1 meter true task (new_device meter request meter_v4) (str "10.0.0.5")
    ltac:(intros j; unfold network; destruct (j =? 2)%nat; [apply answering_ok|apply silent_ok])
    ltac:(eval_done) ltac:(left; eval_done)) as Ho.
  assert (Hr : (wake_up_device network 1 meter true task).1 = Ok tt) by eval_done.
  destruct (wake_up_device network 1 meter true task) as [r st']. simpl in Hr. subst r.
  exists st'. split; [done|]. by destruct Ho as (k & _ & _ & _ & Hch & _).
Defined.

(** Told 10:01:30 of the next day, the meter has its job at 10:00. *)
Lemma told_wakeup_drifts_witness : ∃ st' j ds' m,
  run_session answering meter (str "10.0.0.5:6060") task = (Ok tt, st') ∧
  reschedule_device (ten 91) meter (bd_dm enrolled) = (Ok tt, ds') ∧
  dm_jobs ds' !! j = Some (mkJob (ten 86400) meter false) ∧ m ∈ wk_sent st' ∧
  d_payload m = PayWriteRequest [mkWriteParameter OBIS_NEXT_WAKE
    (big_endian.be_put 8 (timestamp_u64 (ten 86400 + 90 * ns_per_s)))].
Proof.
  assert (Hr : (run_session answering meter (str "10.0.0.5:6060") task).1 = Ok tt) by eval_done.
  destruct (run_session answering meter (str "10.0.0.5:6060") task) as [r st'] eqn:Hrun. simpl in Hr. subst r.
  destruct (told_wakeup_drifts answering (str "10.0.0.5:6060") task st' (bd_dm enrolled) meter 10 7 (ten 91)
    answering_ok Hrun job_table_accepts ltac:(clock_ok) ltac:(eval_done) ltac:(eval_done) ltac:(clock_ok) ltac:(clock_ok))
    as (j & ds' & m & Hre & Hj & _ & Hm & Hp).
  exists st', j, ds', m. split; [done|]. split; [done|].
  assert (Hjob : slot_today (dm_scheduler (dm (bd_dm enrolled))) (ten 91) 10 + ns_per_day = ten 86400) by eval_done.
  assert (Hlate : at_clock answering 3 - slot_today (dm_scheduler (dm (bd_dm enrolled))) (ten 91) 10 = 90 * ns_per_s) by eval_done.
  rewrite Hjob in Hj, Hp. rewrite Hlate in Hp.
  split; [rewrite Hj, lookup_insert_eq; do 2 f_equal; eval_done|]. split; [exact Hm|exact Hp].
Defined.

Lemma battery_read_every_session_witness : ∃ ds',
  reschedule_device (ten 91) meter (bd_dm enrolled) = (Ok tt, ds') ∧
  (needs_battery (ten 86400) meter (mkWakeState (dm_db ds') [] [])).1 = Ok true.
Proof.
  destruct (battery_read_every_session (bd_dm enrolled) meter 10 7 (ten 91)
    job_table_accepts ltac:(clock_ok) ltac:(eval_done) ltac:(clock_ok)) as (ds' & Hre & Hb).
  exists ds'. split; [done|]. by rewrite Hb.
Defined.

(** The job of the meter fails; the meter then reports its address at 11:00. *)
Definition meter_job : WakeupJob := mkJob (ten 0) meter false.
Definition failed : SchedState JobTable InnerDB :=
  (job_ended meter_job TaskFailed (mkSchedState (bd_sched enrolled) enrolled_db)).2.
Definition after_failure : Backdoor JobTable InnerDB :=
  mkBackdoor (mkDmState (set_dm_scheduler (ss_sched failed) (dm (bd_dm enrolled))) (ss_db failed)) [] [].

Lemma lost_device_not_rescheduled_witness : ∃ bd' c,
  handle_backdoor_ip_update_msg (ten 3600) 1704193200 moved_request meter_v4 after_failure = (Ok tt, bd') ∧
  schedule_time c = ten 0 ∧
  bd_sent bd' = [(meter_v4, ip_update_answer 1704193200 moved_request (schedule_time c))] ∧ bd_jobs bd' = bd_jobs after_failure.
Proof.
  destruct (scheduled_connections enrolled_db !! meter) as [c|] eqn:Hc; [|by vm_compute in Hc].
  assert (Ht : schedule_time <$> (scheduled_connections enrolled_db !! meter) = Some (ten 0)) by eval_done.
  assert (Hf : fk_device <$> (scheduled_connections enrolled_db !! meter) = Some meter) by eval_done.
  rewrite Hc in Ht, Hf. injection Ht as Ht. injection Hf as Hf.
  destruct (lost_device_not_rescheduled (mkSchedState (bd_sched enrolled) enrolled_db) failed meter_job c after_failure
    (new_device meter request meter_v4) (ten 3600) 1704193200 moved_request meter_v4
    Hc Hf ltac:(eval_done) ltac:(eval_done) ltac:(eval_done) ltac:(lia) ltac:(eval_done) ltac:(eval_done))
    as (bd' & Hrun & Hsent & Hjobs & _).
  exists bd', c. split; [exact Hrun|]. split; [exact Ht|]. split; [exact Hsent|exact Hjobs].
Defined.
