(* ===== verification/DebugSession.v ===== *)
(** * Debug sessions over the backdoor

    Model of [src/backdoor/debug_session.rs] and of the receive loop of
    [src/backdoor/backdoor.rs] with the feature [debug-session-start]: a
    device asks for a session, a task talks to it, and the loop routes the
    device's answers to the task. The loop and the tasks interleave: a task is
    its state between two accesses to the device manager, the database, the
    router, the socket or its channel, and an [Event] is what runs next. The
    channel of a session is the queue of its task; its only sender is the
    entry of the router. *)

From S2P Require Import Prelude Bytes Net Float32 Node Database Calendar Scheduler DeviceManager Rlp DeviceMessage DeviceCodec Backdoor WakeUp.

Local Open Scope Z_scope.
Local Open Scope hes_scope.

#[export] Instance SocketAddr_countable : Countable SocketAddr.
Proof.
  refine (inj_countable'
    (λ a, match a with SockV4 a b c d p => inl (a, b, c, d, p) | SockV6 s p f i => inr (s, p, f, i) end)
    (λ x, match x with inl (a, b, c, d, p) => SockV4 a b c d p | inr (s, p, f, i) => SockV6 s p f i end) _).
  by intros [].
Defined.

Definition UDP_BUFFER_SIZE : nat := 1024.
Definition RESPONSE_TIMEOUT_SECS : Z := 30.

(** [MsgType::as_str]. *)
Definition msg_type_text (t : MsgType) : list Z :=
  match t with
  | THandshake => str "handshake"
  | THandshakeResponse => str "handshake_response"
  | TRegisterRequest => str "register_request"
  | TRegisterResponse => str "register_response"
  | TReadRequest => str "read_request"
  | TReadResponse => str "read_response"
  | TWriteRequest => str "write_request"
  | TWriteResponse => str "write_response"
  | TExecuteRequest => str "execute_request"
  | TExecuteResponse => str "execute_response"
  | TActionRequest => str "action_request"
  | TActionResponse => str "action_response"
  | TAck => str "ack"
  | TNack => str "nack"
  | TSessionStartRequest => str "session_start_request"
  end.

(** [format!("{b:02x}")] of every byte. *)
Definition hex_digit (n : Z) : Z := if n <? 10 then 48 + n else 87 + n.
Definition hex_bytes (bytes : list Z) : list Z := concat ((λ b, [hex_digit (b / 16); hex_digit (b mod 16)]) <$> bytes).

(** [value << 8 | byte] on [u64], from the left. *)
Definition obis_number (bytes : list Z) : Z :=
  fold_left (λ value byte, Z.lor (wrap_u64 (Z.shiftl value 8)) byte) bytes 0.
Definition obis_value_decimal (bytes : list Z) : list Z :=
  if (bool_decide (bytes = []) || (8 <? length bytes)%nat)%bool then hex_bytes bytes
  else dec (obis_number bytes).

(** What a session waits for. *)
Inductive Await := AwaitHandshake | AwaitRead | AwaitWrite.

Definition expected (w : Await) : MsgType :=
  match w with
  | AwaitHandshake => THandshakeResponse
  | AwaitRead => TReadResponse
  | AwaitWrite => TWriteResponse
  end.

Definition response_timeout : BackdoorError := BdParseError (str "device did not respond within timeout").
Definition channel_closed : BackdoorError := BdParseError (str "debug session channel closed").
Definition unexpected (w : Await) (m : Message) : BackdoorError :=
  BdParseError (str "expected " ++ msg_type_text (expected w) ++ str ", got " ++ msg_type_text (d_type m)).

(** The clock in nanoseconds, and whether the socket takes the next datagram. *)
Record Instant := mkInstant { i_now : Z; i_send : bool }.
Definition i_secs (i : Instant) : Z := i_now i / ns_per_s.

Section session.
Context `{ChronoCrate} `{HashOrder} {JS DB : Type} `{JobCrate JS} `{Engine DB}.

(** [send]: encoding a message cannot fail. *)
Definition session_send (i : Instant) (addr : SocketAddr) (msg : Message) : BD JS DB unit :=
  if i_send i then send_msg msg addr else serr TcpError.

(** The first block of [handle_session_start], under the lock of the device manager: no
    wake-up of this device is left pending or running. *)
Definition session_cancel (id : Uuid) : BD JS DB unit :=
  do! _ <- sresult (bd_in_dm (dm_cancel_wakeup_job id)) ;
  do! _ <- bd_in_dm (dm_abort_active_wakeup id) ;
  sret tt.

(** The second block, under the lock too (it is held to the end of the [match]): the next
    wake-up is scheduled; the answer is its time, in seconds. *)
Definition session_schedule (now : Z) (id : Uuid) : BD JS DB Z :=
  do! r <- sresult (bd_in_dm (schedule_next_wakeup now id)) ;
  match r with
  | Ok _ =>
      do! c <- sresult (bd_in_db (get_scheduled_connection id)) ;
      sret (timestamp_u64 (match c with Ok conn => schedule_time conn | _ => now + ns_per_day end))
  | _ => sret (timestamp_u64 (now + ns_per_day))
  end.

Definition session_needs_battery (now : Z) (id : Uuid) : BD JS DB bool :=
  do! r <- sresult (bd_in_db (get_scheduled_connection id)) ;
  sret (match r with
        | Ok conn =>
            match last_battery_read conn with
            | None => true
            | Some last => BATTERY_READ_INTERVAL_DAYS <=? Z.quot (now - last) ns_per_day
            end
        | _ => true
        end).

(** The handshake. *)
Definition session_greet (i : Instant) (addr : SocketAddr) (id : Uuid) : BD JS DB unit :=
  do! hello <- bd_message (new_handshake_message (i_secs i) id 0 (replicate 32 0)) ;
  session_send i addr hello.

(** A message that was received is answered: what the session waits for then, [None] after
    the last answer. *)
Definition session_answer (i : Instant) (addr : SocketAddr) (id : Uuid) (battery : bool) (next_wake_ts : Z)
    (w : Await) (resp : Message) : BD JS DB (option Await) :=
  match w, d_payload resp with
  | AwaitHandshake, PayHandshakeResponse _ =>
      let obis_codes := [OBIS_WATER_VOLUME; OBIS_CLOCK] ++ (if battery then [OBIS_BATTERY] else []) in
      do! read <- bd_message (new_read_request_message (i_secs i) id 1 obis_codes) ;
      do! _ <- session_send i addr read ;
      sret (Some AwaitRead)
  | AwaitRead, PayReadResponse _ =>
      let now_ts := wrap_u64 (i_secs i) in
      let parameters := [mkWriteParameter OBIS_CLOCK (big_endian.be_put 8 now_ts);
                         mkWriteParameter OBIS_NEXT_WAKE (big_endian.be_put 8 next_wake_ts)] in
      do! write <- bd_message (new_write_request_message (i_secs i) id 2 parameters) ;
      do! _ <- session_send i addr write ;
      sret (Some AwaitWrite)
  | AwaitWrite, PayWriteResponse _ _ =>
      do! ack <- bd_message (new_ack_message (i_secs i) id 3) ;
      do! _ <- session_send i addr ack ;
      sret None
  | _, _ => serr (unexpected w resp)
  end.

(** The end of [run_session_over_backdoor] when the battery was read. *)
Definition session_note (now : Z) (id : Uuid) : BD JS DB unit :=
  do! _ <- sresult (bd_in_db (update_last_battery_read id now)) ;
  sret tt.

(** ** Tasks and the loop *)

(** The next access of a task to what it shares with others: [Spawned] and [Cancelled] are
    before the two blocks under the lock of the device manager, [Prepared] before the
    insertion into the router, [Listening] before the read of the connection, [Greeting]
    before the handshake, [Waiting] in [recv], [Noting] before the note of the battery,
    [Closing] before the removal from the router. [queue] is the channel, from its
    creation to the last [recv]. *)
Inductive TaskState :=
| Spawned
| Cancelled
| Prepared (next_wake_ts : Z)
| Listening (next_wake_ts : Z) (queue : list Message)
| Greeting (battery : bool) (next_wake_ts : Z) (queue : list Message)
| Waiting (w : Await) (battery : bool) (next_wake_ts : Z) (queue : list Message)
| Noting
| Closing (r : outcome BackdoorError unit)
| Ended (r : outcome BackdoorError unit).

Record Task := mkTask { tk_addr : SocketAddr; tk_device : Uuid; tk_state : TaskState }.
Definition set_tk_state (s : TaskState) (t : Task) : Task := mkTask (tk_addr t) (tk_device t) s.

(** [sv_bound] is the address of the current socket, [sv_router] the [DebugRouter]. *)
Record Server := mkServer {
  sv_bd : Backdoor JS DB;
  sv_router : gmap SocketAddr nat;
  sv_tasks : list Task;
  sv_bound : list Z * list Z;
  sv_rebind_active : bool
}.
Definition set_sv_bd (b : Backdoor JS DB) (st : Server) : Server :=
  mkServer b (sv_router st) (sv_tasks st) (sv_bound st) (sv_rebind_active st).
Definition set_sv_router (r : gmap SocketAddr nat) (st : Server) : Server :=
  mkServer (sv_bd st) r (sv_tasks st) (sv_bound st) (sv_rebind_active st).
Definition set_sv_tasks (l : list Task) (st : Server) : Server :=
  mkServer (sv_bd st) (sv_router st) l (sv_bound st) (sv_rebind_active st).
Definition set_task (k : nat) (s : TaskState) (st : Server) : Server :=
  set_sv_tasks (alter (set_tk_state s) k (sv_tasks st)) st.

(** [init_backdoor]: the server after its socket was bound. *)
Definition bd_new (bd : Backdoor JS DB) (ip port : list Z) : Server := mkServer bd ∅ [] (ip, port) true.

(** [tx.send(msg)]; after the last [recv] the message stays in the channel unread. *)
Definition enqueue (msg : Message) (t : Task) : Task :=
  match tk_state t with
  | Listening n q => set_tk_state (Listening n (q ++ [msg])) t
  | Greeting b n q => set_tk_state (Greeting b n (q ++ [msg])) t
  | Waiting w b n q => set_tk_state (Waiting w b n (q ++ [msg])) t
  | _ => t
  end.

(** [Some] server when the message was handed to a session. *)
Definition try_route (addr : SocketAddr) (msg : Message) (st : Server) : option Server :=
  match d_type msg with
  | THandshakeResponse | TReadResponse | TWriteResponse =>
      match sv_router st !! addr with
      | Some k => Some (set_sv_tasks (alter (enqueue msg) k (sv_tasks st)) st)
      | None => None
      end
  | _ => None
  end.

(** What [select!] answers: a datagram, a failed receive, an address to bind to (and
    whether that works), or the end of the rebind channel. *)
Inductive LoopInput :=
| Received (addr : SocketAddr) (datagram : list Z)
| ReceiveFailed
| RebindTo (ip port : list Z) (bound : bool)
| RebindClosed.
End session.
Arguments Server JS DB : clear implicits.

Section server.
Context `{BytesCrate} `{RlpCrate} `{ChronoCrate} `{HashOrder} {JS DB : Type} `{JobCrate JS} `{Engine DB}.

(** The dispatch on a message that was not routed; handlers of registrations run to their
    end, their errors are only logged. *)
Definition bd_route (fresh : Uuid) (now timeout : Z) (addr : SocketAddr) (msg : Message) (st : Server JS DB)
  : Server JS DB :=
  match d_type msg with
  | TSessionStartRequest =>
      if decide (is_Some (sv_router st !! addr)) then st
      else set_sv_tasks (sv_tasks st ++ [mkTask addr (d_device_id msg) Spawned]) st
  | _ => set_sv_bd (backdoor_dispatch fresh now (now / ns_per_s) timeout addr msg (sv_bd st)).2 st
  end.

(** One turn of the loop. *)
Definition loop_turn (fresh : Uuid) (now timeout : Z) (input : LoopInput) (st : Server JS DB) : Server JS DB :=
  match input with
  | ReceiveFailed => st
  | RebindClosed => mkServer (sv_bd st) (sv_router st) (sv_tasks st) (sv_bound st) false
  | RebindTo ip port bound =>
      if (sv_rebind_active st && bound)%bool
      then mkServer (sv_bd st) (sv_router st) (sv_tasks st) (ip, port) true else st
  | Received addr datagram =>
      match message_decode (take UDP_BUFFER_SIZE datagram) with
      | Ok (Some msg) =>
          match try_route addr msg st with
          | Some st' => st'
          | None => bd_route fresh now timeout addr msg st
          end
      | _ => st
      end
  end.

(** The end of [handle_session_start]: the entry of the address is removed, whoever made it. *)
Definition session_end (k : nat) (addr : SocketAddr) (r : outcome BackdoorError unit) (st : Server JS DB) : Server JS DB :=
  set_sv_router (delete addr (sv_router st)) (set_task k (Ended r) st).

(** The task goes on with [next], or, when its session failed, to the removal from the
    router; a task that panicked is just gone. *)
Definition session_continue {A} (k : nat) (r : outcome BackdoorError A) (next : A → TaskState)
    (st : Server JS DB) : Server JS DB :=
  match r with
  | Ok a => set_task k (next a) st
  | Err e => set_task k (Closing (Err e)) st
  | Panic => set_task k (Ended Panic) st
  end.

(** The same with an access to the shared state. *)
Definition session_access {A} (k : nat) (m : BD JS DB A) (next : A → TaskState) (st : Server JS DB) : Server JS DB :=
  let (r, b) := m (sv_bd st) in session_continue k r next (set_sv_bd b st).

(** What follows an answer. *)
Definition after_answer (battery : bool) (next_wake_ts : Z) (queue : list Message) (w : option Await) : TaskState :=
  match w with
  | Some w' => Waiting w' battery next_wake_ts queue
  | None => if battery then Noting else Closing (Ok tt)
  end.

(** Task [k] makes its next access; a task that waits on an open, empty channel does not. *)
Definition task_run (k : nat) (i : Instant) (st : Server JS DB) : Server JS DB :=
  match sv_tasks st !! k with
  | None => st
  | Some t =>
      let addr := tk_addr t in
      let id := tk_device t in
      match tk_state t with
      | Spawned => session_access k (session_cancel id) (λ _, Cancelled) st
      | Cancelled => session_access k (session_schedule (i_now i) id) Prepared st
      | Prepared next_wake => set_task k (Listening next_wake []) (set_sv_router (<[addr := k]> (sv_router st)) st)
      | Listening next_wake queue =>
          session_access k (session_needs_battery (i_now i) id) (λ battery, Greeting battery next_wake queue) st
      | Greeting battery next_wake queue =>
          session_access k (session_greet i addr id) (λ _, Waiting AwaitHandshake battery next_wake queue) st
      | Waiting w battery next_wake (msg :: queue) =>
          session_access k (session_answer i addr id battery next_wake w msg) (after_answer battery next_wake queue) st
      | Waiting _ _ _ [] =>
          if decide (sv_router st !! addr = Some k) then st else set_task k (Closing (Err channel_closed)) st
      | Noting => session_access k (session_note (i_now i) id) (λ _, Closing (Ok tt)) st
      | Closing r => session_end k addr r st
      | Ended _ => st
      end
  end.

(** Thirty seconds without a message. *)
Definition task_timeout (k : nat) (st : Server JS DB) : Server JS DB :=
  match sv_tasks st !! k with
  | Some (mkTask addr _ (Waiting _ _ _ [])) =>
      if decide (sv_router st !! addr = Some k) then set_task k (Closing (Err response_timeout)) st else st
  | _ => st
  end.

(** What runs next: the loop, a task, a timeout, or another task of the node, which shares
    the device manager and the database. *)
Inductive Event :=
| ELoop (fresh : Uuid) (now : Z) (input : LoopInput)
| ERun (k : nat) (i : Instant)
| ETimeout (k : nat)
| EOther (f : Backdoor JS DB → Backdoor JS DB).

Definition loop_step (timeout : Z) (e : Event) (st : Server JS DB) : Server JS DB :=
  match e with
  | ELoop fresh now input => loop_turn fresh now timeout input st
  | ERun k i => task_run k i st
  | ETimeout k => task_timeout k st
  | EOther f => set_sv_bd (f (sv_bd st)) st
  end.
Definition loop_run (timeout : Z) (es : list Event) (st : Server JS DB) : Server JS DB :=
  fold_left (λ st e, loop_step timeout e st) es st.
End server.
Arguments Event JS DB : clear implicits.

(** ** The task at an index, after changes to tasks *)
Lemma set_task_lookup {JS DB : Type} k s (st : Server JS DB) j :
  sv_tasks (set_task k s st) !! j = (if decide (j = k) then set_tk_state s <$> sv_tasks st !! k else sv_tasks st !! j).
Proof.
  simpl. case_decide as Hj; [subst; by rewrite list_lookup_alter_eq|by rewrite list_lookup_alter_ne].
Qed.

Ltac tasks :=
  repeat (rewrite set_task_lookup; first [rewrite decide_True by done | rewrite decide_False by done];
          cbn [sv_tasks set_sv_bd set_sv_router]).
