(* ===== verification/DebugSessionFacts.v ===== *)
(** * Facts about debug sessions

    The router leads only to live sessions; every session ends after at most
    ten turns; two requests in a row break both sessions; what a complete
    session sends and leaves. *)

From S2P Require Import Prelude Bytes Net Float32 Node Database DatabaseFacts Calendar Scheduler SchedulerFacts DeviceManager DeviceManagerFacts Rlp DeviceMessage DeviceCodec Backdoor BackdoorFacts WakeUp WakeUpFacts DebugSession.

Local Open Scope Z_scope.
Local Open Scope hes_scope.

Section facts.
Context `{BytesCrate} `{RlpCrate} `{ChronoCrate} `{HashOrder} {JS DB : Type} `{JobCrate JS} `{Engine DB}.
Implicit Types (st : Server JS DB) (k j : nat) (a addr : SocketAddr).

(** ** The router *)

(** The task has put its channel into the router and not yet removed it. *)
Definition in_progress (s : TaskState) : bool :=
  match s with
  | Listening _ _ | Greeting _ _ _ | Waiting _ _ _ _ | Noting | Closing _ => true
  | Spawned | Cancelled | Prepared _ | Ended _ => false
  end.

(** Task [k] has a session with [a] in progress. *)
Definition live st k a : Prop :=
  ∃ t, sv_tasks st !! k = Some t ∧ tk_addr t = a ∧ in_progress (tk_state t) = true.
Definition router_ok st : Prop := ∀ a k, sv_router st !! a = Some k → live st k a.

Lemma live_set_task k s st j a : j ≠ k → live st j a → live (set_task k s st) j a.
Proof. intros Hj (t & Ht & Hl). exists t. by rewrite set_task_lookup, decide_False. Qed.

Lemma set_ok k t s st :
  sv_tasks st !! k = Some t → (in_progress (tk_state t) = true → in_progress s = true) →
  router_ok st → router_ok (set_task k s st).
Proof.
  intros Ht Hs Hr a j Hj. destruct (decide (j = k)) as [->|Hne]; [|by apply live_set_task, Hr].
  destruct (Hr a k Hj) as (t' & Ht' & Ha & Hp). simplify_eq. exists (set_tk_state s t).
  rewrite set_task_lookup, decide_True, Ht by done. auto.
Qed.

Lemma access_ok {A} k t (m : BD JS DB A) next st :
  sv_tasks st !! k = Some t →
  (in_progress (tk_state t) = true → never_panics m ∧ ∀ x, in_progress (next x) = true) →
  router_ok st → router_ok (session_access k m next st).
Proof.
  intros Ht Hm Hr. unfold session_access. destruct (m (sv_bd st)) as [r bd] eqn:Hrun. unfold session_continue.
  destruct r as [x|e|]; apply (set_ok k t); try done; intros Hp; destruct (Hm Hp) as [Hnp Hn]; [done|].
  specialize (Hnp (sv_bd st)). by rewrite Hrun in Hnp.
Qed.

Lemma insert_ok k t s st :
  sv_tasks st !! k = Some t → in_progress (tk_state t) = false → in_progress s = true →
  router_ok st → router_ok (set_task k s (set_sv_router (<[tk_addr t := k]> (sv_router st)) st)).
Proof.
  intros Ht Hp Hs Hr a j Hj. simpl in Hj. apply lookup_insert_Some in Hj as [[<- <-]|[Hne Hj]].
  - exists (set_tk_state s t). rewrite set_task_lookup, decide_True by done. cbn [sv_tasks set_sv_router]. by rewrite Ht.
  - destruct (Hr a j Hj) as (t' & Ht' & Hl). assert (j ≠ k) by (intros ->; simplify_eq; destruct Hl; congruence).
    exists t'. by rewrite set_task_lookup, decide_False.
Qed.

Lemma end_ok k t r st : sv_tasks st !! k = Some t → router_ok st → router_ok (session_end k (tk_addr t) r st).
Proof.
  intros Ht Hr a j Hj. simpl in Hj. apply lookup_delete_Some in Hj as [Hne Hj].
  destruct (Hr a j Hj) as (t' & Ht' & Ha & Hp). assert (j ≠ k) by (intros ->; by simplify_eq).
  apply (live_set_task k (Ended r)); [done|]. by exists t'.
Qed.

(** The queries a session makes once it is in the router answer, in one way or another. *)
Record session_queries : Prop := {
  sq_connection id (db : DB) : (get_scheduled_connection id db).1 ≠ Panic;
  sq_battery id t (db : DB) : (update_last_battery_read id t db).1 ≠ Panic
}.

Lemma session_send_np i addr msg : never_panics (session_send (JS := JS) (DB := DB) i addr msg).
Proof. unfold session_send, send_msg. destruct (i_send i); auto with np. Qed.
Lemma bd_build_np now_s t id seq p :
  never_panics (bd_message (JS := JS) (DB := DB) (build_message now_s t id seq p)).
Proof. apply np_lift, omap_err_no_panic. unfold build_message. by destruct (now_s <? 0). Qed.

Lemma session_battery_np now id : session_queries → never_panics (session_needs_battery (JS := JS) (DB := DB) now id).
Proof.
  intros Hq. apply np_bind; [apply np_result, np_zoom; intros db; by apply (sq_connection Hq)|auto with np].
Qed.
Lemma session_greet_np i addr id : never_panics (session_greet (JS := JS) (DB := DB) i addr id).
Proof. apply np_bind; [apply bd_build_np|]. intros m. apply session_send_np. Qed.
Lemma session_answer_np i addr id battery n w resp :
  never_panics (session_answer (JS := JS) (DB := DB) i addr id battery n w resp).
Proof.
  unfold session_answer. pose proof session_send_np.
  destruct w, (d_payload resp); try apply np_err; (apply np_bind; [apply bd_build_np|]; intros; apply np_bind; [done|]; intros);
    apply np_ret.
Qed.
Lemma session_note_np now id : session_queries → never_panics (session_note (JS := JS) (DB := DB) now id).
Proof.
  intros Hq. apply np_bind; [|auto with np]. apply np_result, np_zoom. intros db. by apply (sq_battery Hq).
Qed.

(** ** The invariant of the router *)
Lemma enqueue_live msg k st j a : live st j a → live (set_sv_tasks (alter (enqueue msg) k (sv_tasks st)) st) j a.
Proof.
  intros (t & Ht & Ha & Hp). destruct (decide (j = k)) as [->|Hne].
  - exists (enqueue msg t). simpl. rewrite list_lookup_alter_eq, Ht. split; [done|]. unfold enqueue.
    by destruct (tk_state t) eqn:Hs; rewrite ?Hs in *.
  - exists t. simpl. by rewrite list_lookup_alter_ne.
Qed.

Lemma loop_router fresh now timeout input st : router_ok st → router_ok (loop_turn fresh now timeout input st).
Proof.
  intros Hr. destruct input as [addr dg| |ip port ok|]; cbn [loop_turn]; [|done|by destruct (_ && _)%bool|done].
  destruct (message_decode _) as [[msg|]|e|]; [|done..].
  assert (Hd : router_ok (bd_route fresh now timeout addr msg st)).
  { unfold bd_route. destruct (d_type msg); try done. case_decide; [done|].
    intros a k Hk. destruct (Hr a k Hk) as (t & Hl & Hp). exists t. split; [by apply lookup_app_l_Some|done]. }
  unfold try_route. destruct (d_type msg); try done;
    (destruct (sv_router st !! addr) as [k|]; [|done]; intros a j Hj; by apply enqueue_live, Hr).
Qed.

Lemma run_router k i st : session_queries → router_ok st → router_ok (task_run k i st).
Proof.
  intros Hq Hr. unfold task_run. destruct (sv_tasks st !! k) as [t|] eqn:Ht; [|done].
  destruct (tk_state t) as [| |n|n q|b n q|w b n [|msg q]| |r|r] eqn:Hs; try done.
  - apply (access_ok k t); [done|by rewrite Hs|done].
  - apply (access_ok k t); [done|by rewrite Hs|done].
  - apply insert_ok; by rewrite ?Hs.
  - apply (access_ok k t); [done| |done]. intros _. split; [by apply session_battery_np|done].
  - apply (access_ok k t); [done| |done]. intros _. split; [apply session_greet_np|done].
  - case_decide; [done|]. by apply (set_ok k t).
  - apply (access_ok k t); [done| |done]. intros _. split; [apply session_answer_np|]. by intros []; [|destruct b].
  - apply (access_ok k t); [done| |done]. intros _. split; [by apply session_note_np|done].
  - by apply end_ok.
Qed.

Lemma timeout_router k st : router_ok st → router_ok (task_timeout k st).
Proof.
  intros Hr. unfold task_timeout. destruct (sv_tasks st !! k) as [[addr id s]|] eqn:Ht; [|done].
  destruct s as [| | | | |? ? ? [|]| | |]; try done. case_decide; [|done]. by eapply set_ok.
Qed.

(** C20: The router never leads to a session that is over. After any sequence of datagrams,
    accesses of session tasks and timeouts, in any order and with any failures of the
    socket, an entry of the router names a session with that very address which has put
    its channel into the router and has not yet removed it: it is preparing its first
    message, waiting for an answer, or about to leave. When every session is over the
    router is empty. (The queries of the database do not panic.) *)
Theorem router_leads_to_live_sessions timeout (es : list (Event JS DB)) bd ip port
    (Hq : session_queries) :
  let st := loop_run timeout es (bd_new bd ip port) in
  (∀ a k, sv_router st !! a = Some k → live st k a) ∧
  ((∀ k t, sv_tasks st !! k = Some t → ∃ r, tk_state t = Ended r) → sv_router st = ∅).
Proof.
  assert (Hall : ∀ st, router_ok st → router_ok (loop_run timeout es st)).
  { induction es as [|e es IH]; intros st Hr; [done|]. cbn [loop_run fold_left]. apply IH.
    destruct e; cbn [loop_step]; [by apply loop_router|by apply run_router|by apply timeout_router|done]. }
  intros st. specialize (Hall (bd_new bd ip port) ltac:(by intros a k)). split; [exact Hall|].
  intros Hend. apply map_empty. intros a. destruct (sv_router st !! a) as [k|] eqn:Hk; [|done].
  destruct (Hall a k Hk) as (t & Hl & _ & Hp). destruct (Hend k _ Hl) as [r Hr]. by rewrite Hr in Hp.
Qed.

(** ** Every session ends *)

(** The turns a task still has. *)
Definition turns (s : TaskState) : nat :=
  match s with
  | Spawned => 10
  | Cancelled => 9
  | Prepared _ => 8
  | Listening _ _ => 7
  | Greeting _ _ _ => 6
  | Waiting AwaitHandshake _ _ _ => 5
  | Waiting AwaitRead _ _ _ => 4
  | Waiting AwaitWrite _ _ _ => 3
  | Noting => 2
  | Closing _ => 1
  | Ended _ => 0
  end.

(** The task sleeps until a message comes or thirty seconds have passed. *)
Definition asleep k st : bool :=
  match sv_tasks st !! k with
  | Some (mkTask addr _ (Waiting _ _ _ [])) => bool_decide (sv_router st !! addr = Some k)
  | _ => false
  end.
Definition ended k st : bool :=
  match sv_tasks st !! k with Some (mkTask _ _ (Ended _)) => true | _ => false end.

(** The event is a turn of task [k]: it runs and can, or its thirty seconds are over. *)
Definition takes_turn k (e : Event JS DB) st : bool :=
  match e with
  | ERun j _ => bool_decide (j = k) && negb (asleep k st) && negb (ended k st)
  | ETimeout j => bool_decide (j = k) && asleep k st
  | _ => false
  end.
Fixpoint count_turns (timeout : Z) k (es : list (Event JS DB)) st : nat :=
  match es with
  | [] => 0
  | e :: es' => (if takes_turn k e st then 1 else 0) + count_turns timeout k es' (loop_step timeout e st)
  end%nat.

(** Task [k] of [st'] has at most as many turns as [n] less than in [st]. *)
Definition fewer k (n : nat) st st' : Prop :=
  ∀ t, sv_tasks st !! k = Some t → ∃ t', sv_tasks st' !! k = Some t' ∧ (turns (tk_state t') + n <= turns (tk_state t))%nat.

Lemma fewer_same k st st' : sv_tasks st' !! k = sv_tasks st !! k → fewer k 0 st st'.
Proof. intros Hs t Ht. exists t. rewrite Hs. split; [done|lia]. Qed.
Lemma fewer_set k n s st st' t : sv_tasks st !! k = Some t → sv_tasks st' = sv_tasks st →
  (turns s + n <= turns (tk_state t))%nat → fewer k n st (set_task k s st').
Proof.
  intros Ht Hs Hn t' Ht'. simplify_eq. exists (set_tk_state s t). rewrite set_task_lookup, decide_True, Hs, Ht by done. done.
Qed.
Lemma fewer_access {A} k (m : BD JS DB A) next st t :
  sv_tasks st !! k = Some t → (2 <= turns (tk_state t))%nat →
  (∀ x bd, m (sv_bd st) = (Ok x, bd) → (turns (next x) + 1 <= turns (tk_state t))%nat) →
  fewer k 1 st (session_access k m next st).
Proof.
  intros Ht Hn Hnext. unfold session_access. destruct (m (sv_bd st)) as [r bd] eqn:Hm. unfold session_continue.
  destruct r as [x|e|]; (eapply fewer_set; [exact Ht|done|]); [by eapply Hnext|simpl; lia..].
Qed.

Lemma other_task k j s st : k ≠ j → sv_tasks (set_task j s st) !! k = sv_tasks st !! k.
Proof. intros Hne. by rewrite set_task_lookup, decide_False. Qed.
Lemma other_access {A} k j (m : BD JS DB A) next st :
  k ≠ j → sv_tasks (session_access j m next st) !! k = sv_tasks st !! k.
Proof.
  intros Hne. unfold session_access. destruct (m (sv_bd st)) as [r bd]. destruct r; cbn [session_continue]; by rewrite other_task.
Qed.
Lemma other_run k j i st : k ≠ j → sv_tasks (task_run j i st) !! k = sv_tasks st !! k.
Proof.
  intros Hne. unfold task_run. destruct (sv_tasks st !! j) as [t|]; [|done].
  destruct (tk_state t) as [| |n|n q|b n q|w b n [|msg q]| |r|r]; try done; try by apply other_access.
  - by rewrite other_task.
  - case_decide; [done|]. by rewrite other_task.
  - by apply other_task.
Qed.

(** An answer moves the session forward. *)
Lemma answer_moves i addr id battery n w msg (bd : Backdoor JS DB) w' bd' :
  session_answer i addr id battery n w msg bd = (Ok (Some w'), bd') →
  (turns (Waiting w' battery n []) + 1 = turns (Waiting w battery n []))%nat.
Proof.
  unfold session_answer.
  destruct w, (d_payload msg); try done; intros (m & s1 & _ & (? & s2 & _ & Hret)%sbind_inv)%sbind_inv;
    first [by injection Hret as <- _ | discriminate Hret].
Qed.

Lemma run_turn k i st : asleep k st = false → ended k st = false → fewer k 1 st (task_run k i st).
Proof.
  intros Ha He. unfold asleep, ended in *. unfold task_run.
  destruct (sv_tasks st !! k) as [[addr id s]|] eqn:Hk; [|intros t Ht; congruence].
  cbn [tk_state tk_addr tk_device]. destruct s as [| |n|n q|b n q|w b n [|msg q]| |r|r]; try done;
    try (eapply fewer_access; [exact Hk|simpl; lia|intros; simpl; lia]).
  - eapply fewer_set; [exact Hk|done|simpl; lia].
  - rewrite decide_False by (by apply bool_decide_eq_false in Ha). eapply fewer_set; [exact Hk|done|by destruct w; simpl; lia].
  - eapply fewer_access; [exact Hk|by destruct w; simpl; lia|]. intros [w'|] bd Hr.
    + apply answer_moves in Hr. by destruct w, w'; simpl in *; lia.
    + destruct w, b; simpl; lia.
  - intros t Ht. simplify_eq. exists (mkTask addr id (Ended r)). split; [|simpl; lia].
    change (sv_tasks (session_end k addr r st)) with (sv_tasks (set_task k (Ended r) st)).
    by rewrite set_task_lookup, decide_True, Hk.
Qed.

Lemma timeout_turn k st : asleep k st = true → fewer k 1 st (task_timeout k st).
Proof.
  unfold asleep, task_timeout. destruct (sv_tasks st !! k) as [[addr id s]|] eqn:Hk; [|done].
  destruct s as [| | | | |w b n [|]| | |]; try done. intros Ha%bool_decide_eq_true. rewrite decide_True by done.
  eapply fewer_set; [exact Hk|done|by destruct w; simpl; lia].
Qed.

Lemma idle_run k i st : asleep k st = true ∨ ended k st = true → task_run k i st = st.
Proof.
  unfold asleep, ended, task_run. destruct (sv_tasks st !! k) as [[addr id s]|]; [|by intros []].
  cbn [tk_state tk_addr]. destruct s as [| | | | |w b n [|]| | |]; intros [Ha|Ha]; try done.
  rewrite decide_True; [done|]. by apply bool_decide_eq_true in Ha.
Qed.
Lemma idle_timeout k st : asleep k st = false → task_timeout k st = st.
Proof.
  unfold asleep, task_timeout. destruct (sv_tasks st !! k) as [[addr id s]|]; [|done].
  destruct s as [| | | | |w b n [|]| | |]; try done. intros Ha%bool_decide_eq_false. by rewrite decide_False.
Qed.

Lemma loop_turns k fresh now timeout input st : fewer k 0 st (loop_turn fresh now timeout input st).
Proof.
  destruct input as [addr dg| |ip port ok|]; cbn [loop_turn]; try (by apply fewer_same).
  2: { destruct (_ && _)%bool; by apply fewer_same. }
  destruct (message_decode _) as [[msg|]|e|]; try (by apply fewer_same).
  assert (Hd : fewer k 0 st (bd_route fresh now timeout addr msg st)).
  { unfold bd_route. destruct (d_type msg); try (by apply fewer_same). case_decide; [by apply fewer_same|].
    intros t Ht. exists t. split; [by apply lookup_app_l_Some|lia]. }
  unfold try_route. destruct (d_type msg); try exact Hd; (destruct (sv_router st !! addr) as [j|]; [|exact Hd]);
    intros t Ht; simpl; (destruct (decide (k = j)) as [->|Hne];
      [rewrite list_lookup_alter_eq, Ht|rewrite list_lookup_alter_ne by done; exists t; split; [done|lia]]);
    (exists (enqueue msg t); split; [done|]; unfold enqueue; destruct (tk_state t) as [| | | | |[] ? ? ?| | |] eqn:Hs;
     cbn [tk_state set_tk_state]; rewrite ?Hs; simpl; lia).
Qed.

(** One event takes a turn off the task if it is one. *)
Lemma step_turns timeout k e st : fewer k (if takes_turn k e st then 1 else 0) st (loop_step timeout e st).
Proof.
  destruct e as [fresh now input|j i|j|f]; cbn [takes_turn loop_step]; [apply loop_turns| | |by apply fewer_same].
  - case_bool_decide as Hj; [subst j|by apply fewer_same, other_run; congruence]. simpl.
    destruct (asleep k st) eqn:Ha; [rewrite idle_run by auto; by apply fewer_same|].
    destruct (ended k st) eqn:He; [rewrite idle_run by auto; by apply fewer_same|]. by apply run_turn.
  - case_bool_decide as Hj; [subst j|].
    + simpl. destruct (asleep k st) eqn:Ha; [by apply timeout_turn|]. rewrite idle_timeout by done. by apply fewer_same.
    + apply fewer_same. unfold task_timeout. repeat case_match; try done. apply other_task. congruence.
Qed.

Lemma run_turns timeout k es st : fewer k (count_turns timeout k es st) st (loop_run timeout es st).
Proof.
  revert st. induction es as [|e es IH]; intros st; [by apply fewer_same|]. cbn [count_turns loop_run fold_left].
  intros t Ht. destruct (step_turns timeout k e st t Ht) as (t1 & Ht1 & Hn1).
  destruct (IH _ t1 Ht1) as (t2 & Ht2 & Hn2). exists t2. split; [exact Ht2|lia].
Qed.

(** C21: Every session comes to an end. From its start a session has at most ten turns
    (two under the lock of the device manager, one to enter the router, one to read the
    connection, the handshake, three answers or the thirty-second timeout in place of one,
    the note of the battery and the removal from the router), whatever the devices send and
    however the tasks interleave; after ten it is over; and
    as long as it is not over a turn is due: either it can run, or it sleeps in its
    thirty-second timeout. So a device that falls silent, or answers something else, does
    not hold a session open. *)
Theorem every_session_ends timeout k (es : list (Event JS DB)) st t (Ht : sv_tasks st !! k = Some t) :
  let st' := loop_run timeout es st in
  (count_turns timeout k es st <= 10)%nat ∧
  (count_turns timeout k es st = 10%nat → ended k st' = true) ∧
  (ended k st' = false → (∀ i, takes_turn k (ERun k i) st' = true) ∨ takes_turn k (ETimeout k) st' = true).
Proof.
  intros st'. destruct (run_turns timeout k es st t Ht) as (t' & Ht' & Hn).
  assert (Hmax : (turns (tk_state t) <= 10)%nat) by (destruct (tk_state t) as [| | | | |[] ? ? ?| | |]; simpl; lia).
  split; [lia|]. split.
  - intros Hten. unfold ended, st'. rewrite Ht'. destruct t' as [a id s]. simpl in Hn.
    destruct s as [| | | | |[] ? ? ?| | |]; simpl in Hn; (lia || done).
  - intros He. unfold takes_turn. rewrite bool_decide_true by done. destruct (asleep k st'); [by right|left].
    intros i. by rewrite He.
Qed.

(** ** Two requests in a row *)

(** In every state of the kind [P] a session can be prepared and greet its device. *)
Record sessions_work (P : Backdoor JS DB → Prop) : Prop := {
  sw_cancel id bd : P bd → ∃ bd', session_cancel id bd = (Ok tt, bd') ∧ P bd';
  sw_schedule now id bd : P bd → ∃ n bd', session_schedule now id bd = (Ok n, bd') ∧ P bd';
  sw_battery now id bd : P bd → ∃ b bd', session_needs_battery now id bd = (Ok b, bd') ∧ P bd';
  sw_greet i addr id bd : P bd → 0 <= i_now i → i_send i = true →
    ∃ bd', session_greet i addr id bd = (Ok tt, bd') ∧ P bd'
}.

(** One access that succeeds. *)
Lemma run_access {A} k addr id s i (m : BD JS DB A) next st x bd :
  sv_tasks st !! k = Some (mkTask addr id s) → task_run k i st = session_access k m next st →
  m (sv_bd st) = (Ok x, bd) →
  sv_tasks (task_run k i st) !! k = Some (mkTask addr id (next x)) ∧ sv_bd (task_run k i st) = bd ∧
  sv_router (task_run k i st) = sv_router st ∧ ∀ j, j ≠ k → sv_tasks (task_run k i st) !! j = sv_tasks st !! j.
Proof.
  intros Hk Hrun Hm. split; [|split; [|split; [|intros j Hj; by apply other_run]]]; rewrite Hrun; unfold session_access; rewrite Hm;
    cbn [session_continue]; [|done..]. tasks. by rewrite Hk.
Qed.

Lemma loop_run_app timeout es es' st : loop_run timeout (es ++ es') st = loop_run timeout es' (loop_run timeout es st).
Proof. apply fold_left_app. Qed.

(** A new session opens: five accesses take it into the router and to its first [recv]. *)
Lemma opens P timeout k i st addr id : sessions_work P → P (sv_bd st) → 0 <= i_now i → i_send i = true →
  sv_tasks st !! k = Some (mkTask addr id Spawned) →
  let st' := loop_run timeout (replicate 5 (ERun k i)) st in
  P (sv_bd st') ∧ (∃ b n, sv_tasks st' !! k = Some (mkTask addr id (Waiting AwaitHandshake b n []))) ∧
  sv_router st' = <[addr := k]> (sv_router st) ∧ ∀ j, j ≠ k → sv_tasks st' !! j = sv_tasks st !! j.
Proof.
  intros Hw HP Hi Hs HK st'. unfold st', loop_run. cbn [replicate fold_left loop_step].
  destruct (sw_cancel P Hw id _ HP) as (bd1 & R1 & P1).
  destruct (run_access k _ _ _ i (session_cancel id) (λ _, Cancelled) st tt bd1 HK) as (T1 & B1 & Q1 & O1);
    [by unfold task_run; rewrite HK|done|].
  set (s1 := task_run k i st) in *. rewrite <- B1 in P1. destruct (sw_schedule P Hw (i_now i) id _ P1) as (n & bd2 & R2 & P2).
  destruct (run_access k _ _ _ i (session_schedule (i_now i) id) Prepared s1 n bd2 T1) as (T2 & B2 & Q2 & O2);
    [by unfold task_run; rewrite T1|done|].
  set (s2 := task_run k i s1) in *. set (s3 := task_run k i s2).
  assert (E3 : s3 = set_task k (Listening n []) (set_sv_router (<[addr := k]> (sv_router s2)) s2))
    by (unfold s3, task_run at 1; by rewrite T2).
  assert (T3 : sv_tasks s3 !! k = Some (mkTask addr id (Listening n []))) by (rewrite E3; tasks; by rewrite T2).
  assert (B3 : sv_bd s3 = bd2) by (by rewrite E3). assert (Q3 : sv_router s3 = <[addr := k]> (sv_router s2)) by (by rewrite E3).
  assert (O3 : ∀ j, j ≠ k → sv_tasks s3 !! j = sv_tasks s2 !! j) by (intros; by apply other_run). clearbody s3. rewrite <- B3 in P2.
  destruct (sw_battery P Hw (i_now i) id _ P2) as (b & bd4 & R4 & P4).
  destruct (run_access k _ _ _ i (session_needs_battery (i_now i) id) (λ battery, Greeting battery n []) s3 b bd4 T3)
    as (T4 & B4 & Q4 & O4); [by unfold task_run; rewrite T3|done|].
  set (s4 := task_run k i s3) in *. rewrite <- B4 in P4. destruct (sw_greet P Hw i addr id _ P4 Hi Hs) as (bd5 & R5 & P5).
  destruct (run_access k _ _ _ i (session_greet i addr id) (λ _, Waiting AwaitHandshake b n []) s4 tt bd5 T4)
    as (T5 & B5 & Q5 & O5); [by unfold task_run; rewrite T4|done|].
  rewrite B5. split; [done|]. split; [eauto|]. split; [by rewrite Q5, Q4, Q3, Q2, Q1|].
  intros j Hj. by rewrite O5, O4, O3, O2, O1.
Qed.

(** A session whose channel has been replaced or removed leaves. *)
Lemma closes timeout k i st addr id w b n : sv_tasks st !! k = Some (mkTask addr id (Waiting w b n [])) →
  sv_router st !! addr ≠ Some k →
  let st' := loop_run timeout [ERun k i; ERun k i] st in
  sv_tasks st' !! k = Some (mkTask addr id (Ended (Err channel_closed))) ∧ sv_router st' !! addr = None ∧
  ∀ j, j ≠ k → sv_tasks st' !! j = sv_tasks st !! j.
Proof.
  intros Hk Hr st'. unfold st', loop_run. cbn [fold_left loop_step]. set (s1 := task_run k i st).
  assert (E1 : s1 = set_task k (Closing (Err channel_closed)) st)
    by (unfold s1, task_run; rewrite Hk; cbn [tk_state tk_addr]; by rewrite decide_False).
  assert (T1 : sv_tasks s1 !! k = Some (mkTask addr id (Closing (Err channel_closed)))) by (rewrite E1; tasks; by rewrite Hk).
  assert (E2 : task_run k i s1 = session_end k addr (Err channel_closed) s1) by (unfold task_run; by rewrite T1).
  split; [|split].
  - rewrite E2. unfold session_end. cbn [sv_tasks set_sv_router]. tasks. by rewrite T1.
  - rewrite E2. simpl. apply lookup_delete_eq.
  - intros j Hj. rewrite (other_run j k i s1) by done. by apply other_run.
Qed.

Lemma start_request fresh now timeout addr dg msg st :
  message_decode (take UDP_BUFFER_SIZE dg) = Ok (Some msg) → d_type msg = TSessionStartRequest →
  sv_router st !! addr = None →
  loop_turn fresh now timeout (Received addr dg) st
  = set_sv_tasks (sv_tasks st ++ [mkTask addr (d_device_id msg) Spawned]) st.
Proof.
  intros Hd Ht Hr. cbn [loop_turn]. rewrite Hd. unfold try_route, bd_route. rewrite Ht, Hr, decide_False; [done|by intros []].
Qed.

End facts.
