(* ===== verification/DebugSessionRun.v ===== *)
(** * A debug session from start to end

    What a session of a registered device does to the scheduler and the
    database, what it sends, and instances of the theorems on sessions. The
    database is the in-memory engine. *)

From S2P Require Import Prelude Bytes Net Float32 Node Database DatabaseFacts Calendar Scheduler SchedulerFacts DeviceManager DeviceManagerFacts Rlp DeviceMessage DeviceCodec Backdoor BackdoorFacts BackdoorExamples WakeUp WakeUpFacts WakeUpExamples DebugSession DebugSessionFacts.

Local Open Scope Z_scope.
Local Open Scope hes_scope.

Section run.
Context `{BytesCrate} `{RlpCrate} `{ChronoCrate} `{HashOrder} {JS : Type} `{JobCrate JS}.
Implicit Types (bd : Backdoor JS InnerDB) (st : Server JS InnerDB) (k : nat).

(** ** Before the session *)
Lemma sresult_ok {S E F A} (m : SE S E A) s a s' : m s = (Ok a, s') → sresult (F := F) m s = (Ok (Ok a), s').
Proof. unfold sresult. by intros ->. Qed.

Lemma bd_cancel_ok bd id c j :
  removes_jobs (JS := JS) → scheduled_connections (bd_db bd) !! id = Some c → fk_device c = id → job_id c = Some j →
  ∃ js, js_jobs js = delete j (bd_jobs bd) ∧
    bd_in_dm (dm_cancel_wakeup_job id) bd
    = (Ok true, set_bd_dm (mkDmState (set_dm_scheduler (set_job_scheduler js (bd_sched bd)) (dm (bd_dm bd)))
         (set_connections (<[id := clear_job c]> (scheduled_connections (bd_db bd))) (bd_db bd))) bd).
Proof.
  intros Hrem Hc Hk Hj. destruct (Hrem j (job_scheduler (bd_sched bd))) as [js Hjs].
  exists js. split; [by apply js_remove_ok|]. apply bd_in_dm_ok.
  unfold dm_cancel_wakeup_job, dm_in_sched, szoom, scheduler_cancel_wakeup_job, sbind, in_db, szoom. simpl.
  unfold mem_get_scheduled_connection. unfold bd_db, bd_sched in *. rewrite Hc. cbn. rewrite Hj. cbn.
  rewrite Hjs. cbn. by rewrite Hk.
Qed.

Lemma bd_abort_ok bd id :
  ∃ b s, bd_in_dm (dm_abort_active_wakeup id) bd = (Ok b, set_bd_dm (set_dm (set_dm_scheduler s (dm (bd_dm bd))) (bd_dm bd)) bd) ∧
    id ∉ active_tasks s ∧ job_scheduler s = job_scheduler (bd_sched bd) ∧ bucket_number s = bucket_number (bd_sched bd) ∧
    test_mode s = test_mode (bd_sched bd) ∧ reschedule_tx s = reschedule_tx (bd_sched bd).
Proof.
  destruct (scheduler_abort_active_wakeup id (bd_sched bd)) as [b s] eqn:Ha.
  exists b, s. split; [by apply bd_in_dm_ok; unfold dm_abort_active_wakeup; fold (bd_sched bd); rewrite Ha|].
  unfold scheduler_abort_active_wakeup in Ha. case_decide; injection Ha as <- <-; simpl; [|done].
  split; [set_solver|done].
Qed.

(** No wake-up of the device is left pending or running. *)
Lemma session_cancel_ok bd id c j0 :
  removes_jobs (JS := JS) → scheduled_connections (bd_db bd) !! id = Some c → fk_device c = id → job_id c = Some j0 →
  ∃ bd', session_cancel id bd = (Ok tt, bd') ∧ bd_sent bd' = bd_sent bd ∧ buckets (bd_db bd') = buckets (bd_db bd) ∧
    bd_jobs bd' = delete j0 (bd_jobs bd) ∧ id ∉ active_tasks (bd_sched bd') ∧
    bucket_number (bd_sched bd') = bucket_number (bd_sched bd) ∧ test_mode (bd_sched bd') = test_mode (bd_sched bd) ∧
    reschedule_tx (bd_sched bd') = reschedule_tx (bd_sched bd).
Proof.
  intros Hrem Hc Hk Hj. unfold session_cancel.
  destruct (bd_cancel_ok bd id c j0 Hrem Hc Hk Hj) as (js & Hjs & Hcan).
  sstep (sresult_ok (F := BackdoorError) _ _ _ _ Hcan). set (bd1 := set_bd_dm _ bd).
  destruct (bd_abort_ok bd1 id) as (ab & s & Hab & Hact & Hjs1 & Hn & Ht & Htx). sstep Hab.
  eexists. split; [done|]. split; [done|]. split; [done|]. split; [|done].
  unfold bd_jobs at 1, dm_jobs. simpl. rewrite Hjs1. simpl. by rewrite Hjs.
Qed.

(** The next wake-up of the bucket is scheduled, and its time is answered. *)
Lemma session_schedule_ok bd now id b node :
  accepts_jobs (JS := JS) → can_schedule (bd_sched bd) now →
  buckets (bd_db bd) !! id = Some (b, node) → 0 <= b < bucket_number (bd_sched bd) →
  ∃ j bd', let t := wake_time (bd_sched bd) now b in
    session_schedule now id bd = (Ok (timestamp_u64 t), bd') ∧ bd_sent bd' = bd_sent bd ∧
    scheduled_connections (bd_db bd') !! id = Some (awaiting_row id t j) ∧
    bd_jobs bd' = <[j := mkJob t id (reschedule_tx (bd_sched bd))]> (bd_jobs bd).
Proof.
  intros Hacc Hs Hb Hr. unfold session_schedule.
  destruct (bd_schedule_ok bd now id b node Hacc Hs Hb Hr) as (j & s' & Hsch & _ & _ & Hjobs).
  sstep (sresult_ok (F := BackdoorError) _ _ _ _ Hsch). set (bd3 := set_bd_dm _ bd).
  assert (Hrow : scheduled_connections (bd_db bd3) !! id = Some (awaiting_row id (wake_time (bd_sched bd) now b) j))
    by apply lookup_insert_eq.
  exists j, bd3. split.
  { unfold sbind, sresult. rewrite (bd_read_ok _ bd3 (awaiting_row id (wake_time (bd_sched bd) now b) j)); [done|].
    simpl. unfold mem_get_scheduled_connection. by rewrite Hrow. }
  split; [done|]. by split.
Qed.

(** ** The exchange *)

(** Task [k] is in state [s], the router has [r] for its address, and the shared state is [bd]. *)
Definition at_state k addr id (s : TaskState) (r : option nat) bd st : Prop :=
  sv_tasks st !! k = Some (mkTask addr id s) ∧ sv_router st !! addr = r ∧ sv_bd st = bd.

Lemma accesses {A} k addr id s r bd st i (m : BD JS InnerDB A) next x bd' :
  at_state k addr id s r bd st → task_run k i st = session_access k m next st → m bd = (Ok x, bd') →
  at_state k addr id (next x) r bd' (task_run k i st).
Proof.
  intros (Hk & Hr & Hbd) Hrun Hm. rewrite <- Hbd in Hm.
  destruct (run_access k addr id s i m next st x bd' Hk Hrun Hm) as (Hk' & Hbd' & Hr' & _).
  split; [done|]. split; [by rewrite Hr'|done].
Qed.

(** The task in state [s] makes its access. *)
Ltac access H :=
  let Hk := fresh in pose proof (proj1 H) as Hk;
  refine (accesses _ _ _ _ _ _ _ _ _ _ _ _ H ltac:(unfold task_run; rewrite Hk; reflexivity) _); clear Hk.

Definition is_response (t : MsgType) : Prop := t = THandshakeResponse ∨ t = TReadResponse ∨ t = TWriteResponse.

(** An answer arrives. *)
Lemma arrives k addr id w battery n bd st fresh now timeout dg msg :
  at_state k addr id (Waiting w battery n []) (Some k) bd st → message_decode (take UDP_BUFFER_SIZE dg) = Ok (Some msg) →
  is_response (d_type msg) →
  at_state k addr id (Waiting w battery n [msg]) (Some k) bd (loop_turn fresh now timeout (Received addr dg) st).
Proof.
  intros (Hk & Hr & Hbd) Hd Ht.
  assert (Hl : loop_turn fresh now timeout (Received addr dg) st = set_sv_tasks (alter (enqueue msg) k (sv_tasks st)) st).
  { cbn [loop_turn]. rewrite Hd. unfold try_route. destruct Ht as [->|[->| ->]]; by rewrite Hr. }
  rewrite Hl. split; [|done]. simpl. by rewrite list_lookup_alter_eq, Hk.
Qed.

(** An answer arrives and the task answers it. *)
Lemma exchange k addr id w battery n bd st fresh now timeout dg msg i x bd' :
  at_state k addr id (Waiting w battery n []) (Some k) bd st → message_decode (take UDP_BUFFER_SIZE dg) = Ok (Some msg) →
  is_response (d_type msg) → session_answer i addr id battery n w msg bd = (Ok x, bd') →
  at_state k addr id (after_answer battery n [] x) (Some k) bd'
    (task_run k i (loop_turn fresh now timeout (Received addr dg) st)).
Proof.
  intros Hin Hd Ht Ha. pose proof (arrives _ _ _ _ _ _ _ _ fresh now timeout _ _ Hin Hd Ht) as Hq. by access Hq.
Qed.

(** ** The messages of a session

    [i] are the clocks of its turns, [t] is the time of the next wake-up. *)
Definition debug_messages (i : nat → Instant) (id t : Z) : list Message :=
  [ stamped (i_secs (i 4%nat)) THandshake id 0 (PayHandshake (replicate 32 0));
    stamped (i_secs (i 5%nat)) TReadRequest id 1 (PayReadRequest [OBIS_WATER_VOLUME; OBIS_CLOCK; OBIS_BATTERY]);
    stamped (i_secs (i 6%nat)) TWriteRequest id 2
      (PayWriteRequest [mkWriteParameter OBIS_CLOCK (big_endian.be_put 8 (wrap_u64 (i_secs (i 6%nat))));
                        mkWriteParameter OBIS_NEXT_WAKE (big_endian.be_put 8 (timestamp_u64 t))]);
    stamped (i_secs (i 7%nat)) TAck id 3 PayAck ].

(** Three answers of the device, as datagrams. *)
Record device_answers (dg : nat → list Z) (m : nat → Message) : Prop := {
  da_decodes x : message_decode (take UDP_BUFFER_SIZE (dg x)) = Ok (Some (m x));
  da_handshake : d_type (m 0%nat) = THandshakeResponse ∧ ∃ s, d_payload (m 0%nat) = PayHandshakeResponse s;
  da_read : d_type (m 1%nat) = TReadResponse ∧ ∃ vs, d_payload (m 1%nat) = PayReadResponse vs;
  da_write : d_type (m 2%nat) = TWriteResponse ∧ ∃ ok cs, d_payload (m 2%nat) = PayWriteResponse ok cs
}.
Definition clocks_ok (i : nat → Instant) : Prop := ∀ x, i_send (i x) = true ∧ 0 <= i_secs (i x).

Lemma session_answers bd i addr id n m0 m1 m2 s vs ok cs (clk : nat → Instant) :
  clocks_ok clk → d_payload m0 = PayHandshakeResponse s → d_payload m1 = PayReadResponse vs → d_payload m2 = PayWriteResponse ok cs →
  session_answer (clk i) addr id true n AwaitHandshake m0 bd
    = (Ok (Some AwaitRead), sending [(addr, stamped (i_secs (clk i)) TReadRequest id 1
        (PayReadRequest [OBIS_WATER_VOLUME; OBIS_CLOCK; OBIS_BATTERY]))] bd) ∧
  session_answer (clk i) addr id true n AwaitRead m1 bd
    = (Ok (Some AwaitWrite), sending [(addr, stamped (i_secs (clk i)) TWriteRequest id 2
        (PayWriteRequest [mkWriteParameter OBIS_CLOCK (big_endian.be_put 8 (wrap_u64 (i_secs (clk i))));
                          mkWriteParameter OBIS_NEXT_WAKE (big_endian.be_put 8 n)]))] bd) ∧
  session_answer (clk i) addr id true n AwaitWrite m2 bd
    = (Ok None, sending [(addr, stamped (i_secs (clk i)) TAck id 3 PayAck)] bd).
Proof.
  intros Hc Hm0 Hm1 Hm2. destruct (Hc i) as [Hs Ht]. unfold session_answer. rewrite Hm0, Hm1, Hm2.
  unfold new_read_request_message, new_write_request_message, new_ack_message.
  rewrite !build_message_ok by done. rewrite !(bd_message_ok _ _ _ _ eq_refl).
  unfold session_send. by rewrite Hs.
Qed.

Lemma session_battery_ok now id bd t j :
  scheduled_connections (bd_db bd) !! id = Some (awaiting_row id t j) → session_needs_battery now id bd = (Ok true, bd).
Proof.
  intros Hrow.
  assert (Hget : bd_in_db (get_scheduled_connection id) bd = (Ok (awaiting_row id t j), bd)).
  { apply bd_read_ok. simpl. unfold mem_get_scheduled_connection. by rewrite Hrow. }
  unfold session_needs_battery. by sstep (sresult_ok (F := BackdoorError) _ _ _ _ Hget).
Qed.
Lemma session_greet_ok (i : Instant) addr id bd :
  i_send i = true → 0 <= i_secs i →
  session_greet i addr id bd
  = (Ok tt, sending [(addr, stamped (i_secs i) THandshake id 0 (PayHandshake (replicate 32 0)))] bd).
Proof.
  intros Hs Ht. unfold session_greet, new_handshake_message. rewrite build_message_ok by done.
  rewrite (bd_message_ok _ _ _ _ eq_refl). unfold session_send. by rewrite Hs.
Qed.
Lemma session_note_ok now id bd c :
  scheduled_connections (bd_db bd) !! id = Some c →
  session_note now id bd
  = (Ok tt, set_bd_db (set_connections (<[id := set_battery_read now c]> (scheduled_connections (bd_db bd))) (bd_db bd)) bd).
Proof.
  intros Hc. unfold session_note, sbind, sresult, bd_in_db, szoom, set_bd_db, bd_db in *. simpl.
  unfold mem_update_last_battery_read. by rewrite Hc.
Qed.

(** C22: A session from start to end. When a registered device with a pending wake-up asks for
    a session and gives its three answers, the session ends well and is out of the router.
    It has sent, in order: a handshake, a request for volume, clock and battery, a write of
    the clock and of the next wake-up, and a final ACK, numbered 0 to 3. The pending job is
    gone; the device has exactly one new job, at the next instant of its bucket, and that
    instant is the one it was told; the battery read is noted. *)
Theorem session_completes timeout k addr id b node c j0 (i : nat → Instant) dg m st fresh now
    (Hacc : accepts_jobs (JS := JS)) (Hrem : removes_jobs (JS := JS))
    (Hk : sv_tasks st !! k = Some (mkTask addr id Spawned))
    (Hs : can_schedule (bd_sched (sv_bd st)) (i_now (i 1%nat)))
    (Hb : buckets (bd_db (sv_bd st)) !! id = Some (b, node)) (Hr : 0 <= b < bucket_number (bd_sched (sv_bd st)))
    (Hc : scheduled_connections (bd_db (sv_bd st)) !! id = Some c) (Hid : fk_device c = id) (Hj : job_id c = Some j0)
    (Hi : clocks_ok i) (Hm : device_answers dg m) :
  let answer x := ELoop fresh now (Received addr (dg x)) in
  let st' := loop_run timeout [ERun k (i 0%nat); ERun k (i 1%nat); ERun k (i 2%nat); ERun k (i 3%nat); ERun k (i 4%nat);
                               answer 0%nat; ERun k (i 5%nat); answer 1%nat; ERun k (i 6%nat); answer 2%nat; ERun k (i 7%nat);
                               ERun k (i 8%nat); ERun k (i 9%nat)] st in
  let t := wake_time (bd_sched (sv_bd st)) (i_now (i 1%nat)) b in
  sv_tasks st' !! k = Some (mkTask addr id (Ended (Ok tt))) ∧ sv_router st' !! addr = None ∧
  bd_sent (sv_bd st') = bd_sent (sv_bd st) ++ (pair addr <$> debug_messages i id t) ∧
  ∃ j, bd_jobs (sv_bd st') = <[j := mkJob t id (reschedule_tx (bd_sched (sv_bd st)))]> (delete j0 (bd_jobs (sv_bd st))) ∧
    scheduled_connections (bd_db (sv_bd st')) !! id = Some (set_battery_read (i_now (i 8%nat)) (awaiting_row id t j)).
Proof.
  intros answer st' t. unfold st', loop_run, answer. cbn [fold_left loop_step].
  destruct (session_cancel_ok _ id c j0 Hrem Hc Hid Hj) as (bd1 & R1 & Hs1 & Hbk & Hj1 & _ & Hn1 & Ht1 & Htx1).
  assert (Hw : wake_time (bd_sched bd1) (i_now (i 1%nat)) b = t) by (unfold t, wake_time; by rewrite Ht1, Hn1).
  destruct (session_schedule_ok bd1 (i_now (i 1%nat)) id b node Hacc) as (j & bd2 & R2 & Hs2 & Hrow & Hj2).
  { unfold can_schedule in *. by rewrite Hn1. } { by rewrite Hbk. } { by rewrite Hn1. }
  rewrite Hw in R2, Hrow, Hj2.
  assert (A0 : at_state k addr id Spawned (sv_router st !! addr) (sv_bd st) st) by done.
  assert (A1 : at_state k addr id Cancelled (sv_router st !! addr) bd1 (task_run k (i 0%nat) st)) by (by access A0).
  set (s1 := task_run k (i 0%nat) st) in *. clearbody s1.
  assert (A2 : at_state k addr id (Prepared (timestamp_u64 t)) (sv_router st !! addr) bd2 (task_run k (i 1%nat) s1)) by (by access A1).
  set (s2 := task_run k (i 1%nat) s1) in *. clearbody s2.
  assert (A3 : at_state k addr id (Listening (timestamp_u64 t) []) (Some k) bd2 (task_run k (i 2%nat) s2)).
  { destruct A2 as (Hk2 & _ & Hb2). unfold task_run. rewrite Hk2. cbn [tk_state tk_addr].
    split; [tasks; by rewrite Hk2|]. split; [apply lookup_insert_eq|done]. }
  set (s3 := task_run k (i 2%nat) s2) in *. clearbody s3.
  assert (A4 : at_state k addr id (Greeting true (timestamp_u64 t) []) (Some k) bd2 (task_run k (i 3%nat) s3))
    by (access A3; by eapply session_battery_ok).
  set (s4 := task_run k (i 3%nat) s3) in *. clearbody s4.
  assert (A5 : at_state k addr id (Waiting AwaitHandshake true (timestamp_u64 t) []) (Some k)
    (sending [(addr, stamped (i_secs (i 4%nat)) THandshake id 0 (PayHandshake (replicate 32 0)))] bd2) (task_run k (i 4%nat) s4))
    by (access A4; apply session_greet_ok; apply Hi).
  destruct (da_handshake _ _ Hm) as [T0 [s P0]]. destruct (da_read _ _ Hm) as [T1 [vs P1]].
  destruct (da_write _ _ Hm) as [T2 (ok & cs & P2)].
  pose proof (λ bd x, session_answers bd x addr id (timestamp_u64 t) _ _ _ _ _ _ _ i Hi P0 P1 P2) as Hans.
  pose proof (exchange _ _ _ _ _ _ _ _ fresh now timeout _ _ (i 5%nat) _ _ A5 (da_decodes _ _ Hm 0%nat)
    ltac:(by left) (proj1 (Hans _ 5%nat))) as A6.
  pose proof (exchange _ _ _ _ _ _ _ _ fresh now timeout _ _ (i 6%nat) _ _ A6 (da_decodes _ _ Hm 1%nat)
    ltac:(by right; left) (proj1 (proj2 (Hans _ 6%nat)))) as A7.
  pose proof (exchange _ _ _ _ _ _ _ _ fresh now timeout _ _ (i 7%nat) _ _ A7 (da_decodes _ _ Hm 2%nat)
    ltac:(by right; right) (proj2 (proj2 (Hans _ 7%nat)))) as A8.
  set (s8 := task_run k (i 7%nat) _) in *. clearbody s8. set (bd8 := sending [_] (sending _ _)) in A8.
  assert (Hrow8 : scheduled_connections (bd_db bd8) !! id = Some (awaiting_row id t j)) by exact Hrow.
  pose proof (session_note_ok (i_now (i 8%nat)) id bd8 _ Hrow8) as R9. set (bd9 := set_bd_db _ bd8) in R9.
  assert (A9 : at_state k addr id (Closing (Ok tt)) (Some k) bd9 (task_run k (i 8%nat) s8)) by (by access A8).
  set (s9 := task_run k (i 8%nat) s8) in *. clearbody s9. destruct A9 as (K9 & _ & B9).
  assert (E : task_run k (i 9%nat) s9 = session_end k addr (Ok tt) s9) by (unfold task_run; by rewrite K9).
  rewrite E. unfold session_end. cbn [sv_tasks sv_router sv_bd set_sv_router]. split; [tasks; by rewrite K9|].
  split; [apply lookup_delete_eq|]. change (sv_bd (set_task k (Ended (Ok tt)) s9)) with (sv_bd s9). rewrite B9. split.
  - simpl. rewrite Hs2, Hs1. by rewrite <- !(assoc_L (++)).
  - exists j. split; [|apply lookup_insert_eq]. change (bd_jobs bd9) with (bd_jobs bd2). by rewrite Hj2, Hj1, Htx1.
Qed.
End run.

(** ** Instances *)
#[local] Existing Instance gregorian.gregorian.
#[local] Existing Instance big_endian.big_endian.
#[local] Existing Instance rlp_format.rlp_format.

Definition start_datagram : list Z := message_encode (stamped 1704189600 TSessionStartRequest meter 9 PaySessionStartRequest).
Definition answers (x : nat) : list Z := default [] (replies (Nat.min x 2)).
Definition answer_messages (x : nat) : Message :=
  match message_decode (take UDP_BUFFER_SIZE (answers x)) with
  | Ok (Some m) => m
  | _ => stamped 0 TAck 0 0 PayAck
  end.
Definition turn_clock (x : nat) : Instant := mkInstant (ten (Z.of_nat x)) true.

Local Notation Srv := (Server JobTable InnerDB).
Definition debug_server : Srv := bd_new enrolled (str "0.0.0.0") (str "6565").
Definition asked_for : Event JobTable InnerDB := ELoop 0 0 (Received meter_v4 start_datagram).
Definition started_server : Srv := loop_step 300000 asked_for debug_server.
Definition script : list (Event JobTable InnerDB) :=
  [ERun 0 (turn_clock 0); ERun 0 (turn_clock 1); ERun 0 (turn_clock 2); ERun 0 (turn_clock 3); ERun 0 (turn_clock 4);
   ELoop 0 0 (Received meter_v4 (answers 0)); ERun 0 (turn_clock 5); ELoop 0 0 (Received meter_v4 (answers 1));
   ERun 0 (turn_clock 6); ELoop 0 0 (Received meter_v4 (answers 2)); ERun 0 (turn_clock 7); ERun 0 (turn_clock 8);
   ERun 0 (turn_clock 9)].

Lemma memory_answers : session_queries (DB := InnerDB).
Proof.
  split.
  - intros id db. apply ok_or_no_panic.
  - intros id t db. simpl. unfold mem_update_last_battery_read. by destruct (_ !! id).
Qed.

Lemma meter_answers : device_answers answers answer_messages.
Proof.
  split.
  - intros [|[|[|x]]]; vm_compute; reflexivity.
  - split; [vm_compute; reflexivity|]. eexists. vm_compute. reflexivity.
  - split; [vm_compute; reflexivity|]. eexists. vm_compute. reflexivity.
  - split; [vm_compute; reflexivity|]. do 2 eexists. vm_compute. reflexivity.
Qed.

Lemma router_leads_to_live_sessions_witness :
  let st := loop_run 300000 (asked_for :: take 3 script) debug_server in
  ∃ k, sv_router st !! meter_v4 = Some k ∧ live st k meter_v4.
Proof.
  intros st. destruct (router_leads_to_live_sessions 300000 (asked_for :: take 3 script)
    enrolled (str "0.0.0.0") (str "6565") memory_answers) as [Hl _].
  exists 0%nat. assert (Hr : sv_router st !! meter_v4 = Some 0%nat) by (vm_compute; reflexivity).
  split; [exact Hr|exact (Hl _ _ Hr)].
Defined.

(** The meter's session is over after its tenth turn; after six turns the next one is due. *)
Lemma every_session_ends_witness :
  ended 0 (loop_run 300000 script started_server) = true ∧
  let st' := loop_run 300000 (take 7 script) started_server in
  ((∀ i, takes_turn 0 (ERun 0 i) st' = true) ∨ takes_turn 0 (ETimeout 0) st' = true).
Proof.
  split.
  - apply (every_session_ends 300000 0 script started_server (mkTask meter_v4 meter Spawned)); vm_compute; reflexivity.
  - apply (every_session_ends 300000 0 (take 7 script) started_server (mkTask meter_v4 meter Spawned)); vm_compute; reflexivity.
Defined.

(** ** A session can always be prepared and started on the in-memory engine *)

(** The scheduler keeps its number of buckets and does not panic. *)
Definition steady {A} (m : SE (SchedState JobTable InnerDB) SchedulerError A) : Prop :=
  ∀ ss, 0 < bucket_number (ss_sched ss) < 2 ^ 31 →
    (m ss).1 ≠ Panic ∧ bucket_number (ss_sched (m ss).2) = bucket_number (ss_sched ss).

Lemma steady_bind {A B} (m : SE _ _ A) (f : A → SE (SchedState JobTable InnerDB) SchedulerError B) :
  steady m → (∀ a, steady (f a)) → steady (sbind m f).
Proof.
  intros Hm Hf ss Hs. destruct (Hm ss Hs) as [Hp Hb]. unfold sbind. destruct (m ss) as [[a|e|] s1]; simpl in *; [|done|done].
  rewrite <- Hb. apply Hf. by rewrite Hb.
Qed.
Lemma steady_db {A} (m : SE InnerDB DatabaseError A) : never_panics m → steady (in_db m).
Proof. intros Hm ss _. unfold in_db, szoom. specialize (Hm (ss_db ss)). by destruct (m (ss_db ss)) as [[] d]. Qed.
Lemma steady_cancel id : steady (scheduler_cancel_wakeup_job id).
Proof.
  apply steady_bind; [apply steady_db; intros db; apply ok_or_no_panic|]. intros c. by destruct (job_id c).
Qed.
Lemma steady_next now b : steady (next_wakeup now b).
Proof.
  intros ss Hs. unfold next_wakeup. destruct (test_mode _); [done|]. cbn [fst snd]. split; [|done].
  unfold get_next_schedule, get_time_from_bucket_number. unfold wrap_u64 at 1. rewrite Z.mod_small by lia.
  destruct (Z.eqb_spec (bucket_number (ss_sched ss)) 0); [lia|]. cbn [obind].
  destruct (get_date_from_hour _ _) as [[day mon] year]. cbn [obind]. unfold schedule_to_datetime.
  apply omap_err_no_panic. apply obind_no_panic; [apply ok_or_no_panic|]. intros. apply obind_no_panic; [apply ok_or_no_panic|done].
Qed.
Lemma steady_schedule now id : steady (schedule_next_wakeup_job now id).
Proof.
  apply steady_bind; [apply steady_db; intros db; simpl; unfold mem_get_bucket_number; by destruct (_ !! _) as [[]|]|].
  intros b. apply steady_bind; [apply steady_next|]. intros t. apply steady_bind; [done|]. intros j. by apply steady_db.
Qed.

Definition has_buckets (bd : Backdoor JobTable InnerDB) : Prop := 0 < bucket_number (bd_sched bd) < 2 ^ 31.

Lemma steady_bd {A} (m : SE (SchedState JobTable InnerDB) SchedulerError A) bd :
  steady m → has_buckets bd →
  ∃ r bd', sresult (F := BackdoorError) (bd_in_dm (dm_in_sched m)) bd = (Ok r, bd') ∧ has_buckets bd'.
Proof.
  intros Hm Hb. unfold sresult, bd_in_dm, dm_in_sched, szoom.
  destruct (Hm (mkSchedState (dm_scheduler (dm (bd_dm bd))) (dm_db (bd_dm bd))) Hb) as [Hp Hs].
  unfold has_buckets. destruct (m _) as [[a|e|] ss]; simpl in *; [do 2 eexists; split; [done|]; unfold bd_sched; simpl; by rewrite Hs..|done].
Qed.

Lemma memory_get id (bd : Backdoor JobTable InnerDB) :
  ∃ r, sresult (F := BackdoorError) (bd_in_db (get_scheduled_connection id)) bd = (Ok r, bd).
Proof.
  unfold sresult, bd_in_db, szoom. cbn [get_scheduled_connection InMemoryDB]. unfold mem_get_scheduled_connection.
  destruct bd as [[d db] ? ?]. cbn [bd_dm dm_db]. destruct (scheduled_connections db !! id); by eexists.
Qed.

Lemma memory_sessions_work : sessions_work has_buckets.
Proof.
  split.
  - intros id bd HP. unfold session_cancel.
    destruct (steady_bd _ bd (steady_cancel id) HP) as (r1 & bd1 & R1 & HP1). sstep R1.
    destruct (bd_abort_ok bd1 id) as (ab & s & Hab & _ & _ & Hn & _). sstep Hab.
    eexists. split; [done|]. unfold has_buckets, bd_sched. simpl. by rewrite Hn.
  - intros now id bd HP. unfold session_schedule.
    destruct (steady_bd _ bd (steady_schedule now id) HP) as (r3 & bd3 & R3 & HP3). sstep R3.
    destruct (memory_get id bd3) as [c Hc].
    destruct r3 as [u|e|]; [sstep Hc|..]; by do 2 eexists.
  - intros now id bd HP. destruct (memory_get id bd) as [c Hc]. unfold session_needs_battery. sstep Hc. by do 2 eexists.
  - intros i addr id bd HP Hi Hs. eexists. split; [apply session_greet_ok; [done|]|done].
    unfold i_secs. apply Z.div_pos; [done|]. unfold ns_per_s. lia.
Qed.


Lemma session_completes_witness :
  let st' := loop_run 300000 script started_server in
  sv_tasks st' !! 0%nat = Some (mkTask meter_v4 meter (Ended (Ok tt))) ∧
  bd_sent (sv_bd st') = bd_sent enrolled ++ (pair meter_v4 <$> debug_messages turn_clock meter (ten 86400)) ∧
  ∃ j, bd_jobs (sv_bd st') !! j = Some (mkJob (ten 86400) meter false).
Proof.
  destruct (scheduled_connections (bd_db (sv_bd started_server)) !! meter) as [c|] eqn:Hc; [|by vm_compute in Hc].
  assert (Hf : fk_device <$> (scheduled_connections (bd_db (sv_bd started_server)) !! meter) = Some meter) by eval_done.
  assert (Hj : (scheduled_connections (bd_db (sv_bd started_server)) !! meter) ≫= job_id = Some 0) by eval_done.
  rewrite Hc in Hf, Hj. injection Hf as Hf. simpl in Hj.
  destruct (session_completes 300000 0 meter_v4 meter 10 7 c 0 turn_clock answers answer_messages started_server 0 0
    job_table_accepts job_table_removes ltac:(vm_compute; reflexivity) ltac:(clock_ok) ltac:(eval_done) ltac:(clock_ok)
    Hc Hf Hj ltac:(intros x; split; [reflexivity|unfold i_secs, turn_clock, ten, ns_per_s; simpl; apply Z.div_pos; lia])
    meter_answers) as (Hk & _ & Hsent & j & Hjobs & _).
  assert (Ht : wake_time (bd_sched (sv_bd started_server)) (i_now (turn_clock 1)) 10 = ten 86400) by eval_done.
  rewrite Ht in Hsent, Hjobs. split; [exact Hk|]. split; [exact Hsent|].
  exists j. unfold script. rewrite Hjobs, lookup_insert_eq. reflexivity.
Defined.
