(* ===== verification/MockDevice.v ===== *)
(** * Devices

    Model of the programs that play a device: [tools/mock_device/main.rs],
    which registers and then serves the sessions of the head-end,
    [tools/mock_registry/main.rs], which registers any number of devices, and
    [tools/malformed_registry/main.rs], which sends a broken message. A device
    is its state between two receives; a step is what it does with the next
    datagram, error or timeout. *)

From S2P Require Import Prelude Bytes Net Float32 Node Database Calendar Rlp DeviceMessage DeviceCodec WakeUp.

Local Open Scope Z_scope.
Local Open Scope hes_scope.

(** The errors of the device; only their text reaches the log. *)
Inductive MockError :=
| MockTimedOut
| MockIo
| MockCodec (e : MsgCodecError)
| MockMessage (e : MessageError)
| MockEmpty
| MockUnexpected (expected got : MsgType).

(** The options that matter: the address of the backdoor as text, the IMEI, the battery
    level, the initial volume and the liters per session. *)
Record MockArgs := mkMockArgs {
  ma_backdoor_addr : list Z;
  ma_imei : list Z;
  ma_battery : Z;
  ma_initial_volume : Z;
  ma_liters_per_session : Z
}.

(** What a session waits for; [hes] is the address it came from. *)
Inductive SessionWait :=
| SwHandshake
| SwRead (hes : SocketAddr)
| SwWrite (hes : SocketAddr)
| SwAck (hes : SocketAddr).

(** What a device waits for, or how it ended. *)
Inductive Phase :=
| PhResponse
| PhConfirmation (device_id : Z)
| PhSession (device_id : Z) (w : SessionWait)
| PhStopped (e : MockError)
| PhPanicked.

Record Mock := mkMock { mk_phase : Phase; mk_volume : Z; mk_session_count : Z }.

(** A datagram goes to the backdoor, named by its text, or to an address. *)
Inductive Destination := ToText (addr : list Z) | ToAddr (addr : SocketAddr).

(** What a receive answers: a datagram and its sender, the timeout or an error. *)
Inductive MockInput := MockGot (from : SocketAddr) (datagram : list Z) | MockTimeout | MockFailed.

(** The clock in seconds when the values are read and when the message is stamped, and
    whether the socket takes the datagram. *)
Record MockInstant := mkMockInstant { mi_read : Z; mi_stamp : Z; mi_send : bool }.

Section device.
Context `{BytesCrate} `{RlpCrate}.

(** [recv_from]. *)
Definition mock_recv (input : MockInput) : outcome MockError (Message * SocketAddr) :=
  match input with
  | MockTimeout => Err MockTimedOut
  | MockFailed => Err MockIo
  | MockGot from datagram =>
      let! o := omap_err MockCodec (message_decode (take 4096 datagram)) in
      let! msg := ok_or o MockEmpty in
      Ok (msg, from)
  end.

(** [send_to]: encoding a message cannot fail. *)
Definition mock_send (i : MockInstant) (dest : Destination) (m : outcome MessageError Message)
  : outcome MockError (list (Destination * list Z)) :=
  let! msg := omap_err MockMessage m in
  if mi_send i then Ok [(dest, message_encode msg)] else Err MockIo.

(** The beginning of [register]. *)
Definition register_request (args : MockArgs) (i : MockInstant) : outcome MockError (list (Destination * list Z)) :=
  mock_send i (ToText (ma_backdoor_addr args)) (new_register_request_message (mi_stamp i) (ma_imei args) (str "fe80::1")).

(** [register] from the response to the ACK; [response.seq + 1] on [u32]. *)
Definition register_ack (args : MockArgs) (i : MockInstant) (input : MockInput)
  : outcome MockError (list (Destination * list Z) * Phase) :=
  let! (response, _) := mock_recv input in
  let! out := mock_send i (ToText (ma_backdoor_addr args))
    (new_ack_message (mi_stamp i) (d_device_id response) (wrap_u32 (d_seq response + 1))) in
  Ok (out, PhConfirmation (d_device_id response)).

(** [now_ts]: zero before 1970. *)
Definition mock_now (i : MockInstant) : Z := if mi_read i <? 0 then 0 else wrap_u64 (mi_read i).

(** The answer to one code of a read request. *)
Definition mock_value (args : MockArgs) (volume now_ts : Z) (code : list Z) : ObisValue :=
  if decide (code = OBIS_WATER_VOLUME) then mkObis code (big_endian.be_put 8 volume)
  else if decide (code = OBIS_BATTERY) then mkObis code [ma_battery args]
  else if decide (code = OBIS_CLOCK) then mkObis code (big_endian.be_put 8 now_ts)
  else mkObis code [].

(** [handle_session] from one receive to the next, [None] at its end, with the volume. *)
Definition handle_session (args : MockArgs) (i : MockInstant) (input : MockInput) (id : Z) (w : SessionWait) (volume : Z)
  : outcome MockError (list (Destination * list Z) * option SessionWait * Z) :=
  let! (msg, from) := mock_recv input in
  match w, d_payload msg with
  | SwHandshake, PayHandshake _ =>
      let! out := mock_send i (ToAddr from) (new_handshake_response_message (mi_stamp i) id 0 0) in
      Ok (out, Some (SwRead from), volume)
  | SwRead hes, PayReadRequest codes =>
      let values := mock_value args volume (mock_now i) <$> codes in
      let! out := mock_send i (ToAddr hes) (new_read_response_message (mi_stamp i) id 1 values) in
      Ok (out, Some (SwWrite hes), volume)
  | SwWrite hes, PayWriteRequest parameters =>
      let! out := mock_send i (ToAddr hes) (new_write_response_message (mi_stamp i) id 2 true (wp_code <$> parameters)) in
      Ok (out, Some (SwAck hes), volume)
  | SwAck _, PayAck => Ok ([], None, wrap_u64 (volume + ma_liters_per_session args))
  | SwHandshake, _ => Err (MockUnexpected THandshake (d_type msg))
  | SwRead _, _ => Err (MockUnexpected TReadRequest (d_type msg))
  | SwWrite _, _ => Err (MockUnexpected TWriteRequest (d_type msg))
  | SwAck _, _ => Err (MockUnexpected TAck (d_type msg))
  end.

(** [main] up to its first receive. *)
Definition mock_start (args : MockArgs) (i : MockInstant) : list (Destination * list Z) * Mock :=
  match register_request args i with
  | Ok out => (out, mkMock PhResponse (ma_initial_volume args) 0)
  | Err e => ([], mkMock (PhStopped e) (ma_initial_volume args) 0)
  | Panic => ([], mkMock PhPanicked (ma_initial_volume args) 0)
  end.

(** [main] from one receive to the next: an error of the registration ends the program, an
    error of a session only the session. *)
Definition mock_step (args : MockArgs) (i : MockInstant) (input : MockInput) (d : Mock)
  : list (Destination * list Z) * Mock :=
  let go ph := mkMock ph (mk_volume d) (mk_session_count d) in
  match mk_phase d with
  | PhResponse =>
      match register_ack args i input with
      | Ok (out, ph) => (out, go ph)
      | Err e => ([], go (PhStopped e))
      | Panic => ([], go PhPanicked)
      end
  | PhConfirmation id =>
      match mock_recv input with
      | Ok _ => ([], go (PhSession id SwHandshake))
      | Err e => ([], go (PhStopped e))
      | Panic => ([], go PhPanicked)
      end
  | PhSession id w =>
      match handle_session args i input id w (mk_volume d) with
      | Ok (out, Some w', v) => (out, mkMock (PhSession id w') v (mk_session_count d))
      | Ok (out, None, v) => (out, mkMock (PhSession id SwHandshake) v (wrap_u32 (mk_session_count d + 1)))
      | Err _ => ([], go (PhSession id SwHandshake))
      | Panic => ([], go PhPanicked)
      end
  | PhStopped _ | PhPanicked => ([], d)
  end.

(** ** Many devices

    [mock_registry] registers [number] devices, one after the other, each from a socket of its
    own; it does not wait for the confirmation. Its state is the device whose response it
    waits for. A datagram carries the number of the device whose socket sends it. *)
Inductive Registry := RgWaiting (i : Z) | RgDone | RgStopped (e : MockError) | RgPanicked.

(** The clock in seconds, and whether the socket can be bound and takes the datagram. *)
Record RegistryInstant := mkRegistryInstant { ri_stamp : Z; ri_bind : bool; ri_send : bool }.

(** [{i:015}]. *)
Definition registry_imei (i : Z) : list Z := let s := dec i in replicate (15 - length s) 48 ++ s.

(** A datagram the socket does not take is a panic of [expect]. *)
Definition registry_send (t : RegistryInstant) (msg : Message) : outcome MockError (list Z) :=
  if ri_send t then Ok (message_encode msg) else Panic.

(** One turn of the loop up to its receive. *)
Definition registry_request (t : RegistryInstant) (i : Z) : outcome MockError (list Z) :=
  let! msg := omap_err MockMessage (new_register_request_message (ri_stamp t) (registry_imei i) (str "fe80::1")) in
  if ri_bind t then registry_send t msg else Err MockIo.

(** The rest of the turn: [room] is what [recv_buf] reads of a datagram into an empty
    [BytesMut], [None] an error of the socket. Nothing decoded ends the program. *)
Definition registry_ack (t : RegistryInstant) (room : nat) (input : option (list Z)) : outcome MockError (option (list Z)) :=
  let! datagram := ok_or input MockIo in
  let! o := omap_err MockCodec (message_decode (take room datagram)) in
  match o with
  | None => Ok None
  | Some response =>
      let! msg := omap_err MockMessage (new_ack_message (ri_stamp t) (d_device_id response) (wrap_u32 (d_seq response + 1))) in
      let! out := registry_send t msg in
      Ok (Some out)
  end.

(** The head of the loop over [1..number + 1], on [u32]. *)
Definition registry_next (number : Z) (t : RegistryInstant) (i : Z) : list (Z * list Z) * Registry :=
  if i <? wrap_u32 (number + 1) then
    match registry_request t i with
    | Ok out => ([(i, out)], RgWaiting i)
    | Err e => ([], RgStopped e)
    | Panic => ([], RgPanicked)
    end
  else ([], RgDone).

(** From one receive to the next: the ACK at [t], the next request at [t']. *)
Definition registry_step (number : Z) (t t' : RegistryInstant) (room : nat) (input : option (list Z)) (r : Registry)
  : list (Z * list Z) * Registry :=
  match r with
  | RgWaiting i =>
      match registry_ack t room input with
      | Ok (Some out) => let (o, r') := registry_next number t' (i + 1) in ((i, out) :: o, r')
      | Ok None => ([], RgDone)
      | Err e => ([], RgStopped e)
      | Panic => ([], RgPanicked)
      end
  | _ => ([], r)
  end.

(** ** A broken message

    [malformed_registry]: a register request without the byte of its type. *)
Definition malformed_message (timestamp : Z) : list Z :=
  put_u8 1 ++ put_u128 0 ++ put_u32 0 ++ put_u64 timestamp ++ put_u128 0.
End device.
