(* ===== verification/MockDeviceFacts.v ===== *)
(** * A device and its session

    Sizes of messages, and the session of the device of [MockDevice.v] with
    the wake-up task: over a network that loses nothing every attempt
    completes. *)

From S2P Require Import Prelude Bytes Net Float32 Node Database DatabaseFacts Calendar Scheduler SchedulerFacts DeviceManager DeviceManagerFacts Rlp DeviceMessage DeviceCodec Backdoor BackdoorFacts WakeUp WakeUpFacts DebugSession MockDevice.

Local Open Scope Z_scope.
Local Open Scope hes_scope.

(** ** Sizes of messages *)
Definition payload_item (p : MessagePayload) : option RlpItem :=
  match p with
  | PayHandshake nonce => Some (RList [RBytes nonce])
  | PayHandshakeResponse status => Some (RList [RUint status])
  | PayRegistryRequest m => Some (RList [RBytes (rr_imei m); RBytes (rr_ipv6 m)])
  | PayRegistryResponse m => Some (RList [RUint (rs_flag m); RUint (rs_next_wake_time m)])
  | PayReadRequest codes => Some (RList (RBytes <$> codes))
  | PayReadResponse values => Some (RList ((λ v, RList [RBytes (obis_code v); RBytes (obis_value v)]) <$> values))
  | PayWriteRequest ps => Some (RList ((λ p, RList [RBytes (wp_code p); RBytes (wp_value p)]) <$> ps))
  | PayWriteResponse ok codes => Some (RList [RUint (if ok then 1 else 0); RList (RBytes <$> codes)])
  | PayNack code => Some (RList [RUint code])
  | _ => None
  end.
Definition message_size (m : Message) : Z := 46 + from_option item_size 0 (payload_item (d_payload m)).

Lemma texts_wf codes : Forall text_ok codes → rlp_wf (RList (RBytes <$> codes)).
Proof. intros Hc. apply rlp_wf_list, Forall_fmap. eapply Forall_impl; [exact Hc|]. by intros s [Hs _]. Qed.

Lemma payload_item_wf p x : device_payload_ok p → payload_item p = Some x → rlp_wf x.
Proof.
  intros Hp Hx. destruct p; try discriminate Hx; injection Hx as <-; cbn [device_payload_ok] in Hp.
  5: by apply texts_wf.
  5, 6: apply rlp_wf_list, Forall_fmap; eapply Forall_impl; [exact Hp|]; intros v [[Hc _] Hv]; by repeat split.
  5: split; [by destruct success|split; [by apply texts_wf|done]].
  all: simpl; repeat split; try apply Hp; lia.
Qed.

Section codec.
Context `{BytesCrate} `{RlpSize}.

Lemma message_encode_size m :
  device_message_ok m → message_size m < 2 ^ 64 → Z.of_nat (length (message_encode m)) <= message_size m.
Proof.
  intros (_ & _ & _ & _ & _ & Hp & _) Hs. rewrite message_encode_length. unfold message_size in *.
  assert (He : message_payload_encode (d_payload m) = from_option rlp_out [] (payload_item (d_payload m))) by (by destruct (d_payload m)).
  rewrite He. destruct (payload_item (d_payload m)) as [x|] eqn:Hx; simpl in *; [|lia].
  pose proof (rlp_out_size x (payload_item_wf _ _ Hp Hx) ltac:(lia)). lia.
Qed.

(** A message that fits a buffer of [n] bytes is received as it was sent. *)
Lemma received_message m (n : nat) :
  device_message_ok m → message_size m <= Z.of_nat n → message_size m < 2 ^ 64 →
  message_decode (take n (message_encode m)) = Ok (Some m).
Proof.
  intros Hm Hs Hn. pose proof (message_encode_size m Hm ltac:(lia)) as Hl.
  rewrite take_ge by lia. apply message_roundtrip; [done|lia].
Qed.
End codec.

Lemma wrap_u64_range z : 0 <= wrap_u64 z < 2 ^ 64.
Proof. apply Z.mod_pos_bound. lia. Qed.

Lemma stamped_message_ok now_s t id seq p :
  0 <= id < 2 ^ 128 → 0 <= seq < 2 ^ 32 → t = payload_type p → device_payload_ok p →
  device_message_ok (stamped now_s t id seq p).
Proof.
  intros Hid Hseq -> Hp. pose proof (wrap_u64_range now_s). unfold device_message_ok, stamped, CURRENT_PROTOCOL_VERSION.
  simpl. repeat split; (done || lia).
Qed.

Lemma be_put_ok n v : Forall is_byte (big_endian.be_put n v).
Proof. apply big_endian.be_put_byte. Qed.

Lemma text_const s : forallb (λ b, (0 <=? b) && (b <? 256)) s = true → utf8_valid s = true → text_ok s.
Proof.
  intros Hb Hu. split; [|done]. apply Forall_forall. intros b Hin. rewrite forallb_forall in Hb.
  apply list_elem_of_In, Hb in Hin. unfold is_byte. lia.
Qed.
Lemma volume_text : text_ok OBIS_WATER_VOLUME.
Proof. by apply text_const. Qed.
Lemma clock_text : text_ok OBIS_CLOCK.
Proof. by apply text_const. Qed.
Lemma battery_text : text_ok OBIS_BATTERY.
Proof. by apply text_const. Qed.
Lemma wake_text : text_ok OBIS_NEXT_WAKE.
Proof. by apply text_const. Qed.
#[local] Hint Resolve volume_text clock_text battery_text wake_text be_put_ok : core.

(** Bounds the size of a message whatever the lengths of its headers. *)
Ltac size_bound := unfold message_size; simpl; unfold header_size; repeat case_match; lia.

(** Proves that each message of a list is well formed and fits a buffer. *)
Ltac messages_fit :=
  repeat apply Forall_cons_2; try apply Forall_nil_2;
  (split; [apply stamped_message_ok; try done; try lia | size_bound]).

(** ** A session *)
Section session.
Context `{BytesCrate} `{RlpSize} `{ChronoCrate}.
Variables (args : MockArgs) (hes : SocketAddr) (id : Z) (clock : nat → MockInstant).
Hypothesis Hid : 0 <= id < 2 ^ 128.
Hypothesis Hclock : ∀ i, mi_send (clock i) = true ∧ 0 <= mi_stamp (clock i).
Hypothesis Hbattery : is_byte (ma_battery args).

(** The device is given messages, one after the other. *)
Fixpoint dialogue (n : nat) (msgs : list Message) (d : Mock) : list (list (Destination * list Z)) * Mock :=
  match msgs with
  | [] => ([], d)
  | m :: msgs' =>
      let (out, d1) := mock_step args (clock n) (MockGot hes (message_encode m)) d in
      let (outs, d2) := dialogue (S n) msgs' d1 in
      (out :: outs, d2)
  end.

(** Its answers in a session that starts at instant [n] with volume [v]. *)
Definition asked_codes (battery : bool) : list (list Z) :=
  [OBIS_WATER_VOLUME; OBIS_CLOCK] ++ (if battery then [OBIS_BATTERY] else []).
Definition device_values (n : nat) (v : Z) (battery : bool) : list ObisValue :=
  [mkObis OBIS_WATER_VOLUME (big_endian.be_put 8 v); mkObis OBIS_CLOCK (big_endian.be_put 8 (mock_now (clock n)))] ++
  (if battery then [mkObis OBIS_BATTERY [ma_battery args]] else []).
Definition device_answers (n : nat) (v : Z) (battery : bool) : list Message :=
  [ stamped (mi_stamp (clock n)) THandshakeResponse id 0 (PayHandshakeResponse 0);
    stamped (mi_stamp (clock (1 + n))) TReadResponse id 1 (PayReadResponse (device_values (1 + n) v battery));
    stamped (mi_stamp (clock (2 + n))) TWriteResponse id 2 (PayWriteResponse true [OBIS_NEXT_WAKE]) ].

Lemma mock_values n v battery : mock_value args v (mock_now (clock n)) <$> asked_codes battery = device_values n v battery.
Proof. by destruct battery. Qed.

Lemma asked_ok battery : device_payload_ok (PayReadRequest (asked_codes battery)).
Proof. cbn [device_payload_ok]. destruct battery; unfold asked_codes; cbn [app]; auto. Qed.
Lemma values_ok n v battery : device_payload_ok (PayReadResponse (device_values n v battery)).
Proof.
  assert (Hb : Forall is_byte [ma_battery args]) by (by apply Forall_singleton).
  cbn [device_payload_ok]. destruct battery; unfold device_values; cbn [app];
    repeat (apply Forall_cons_2; [by split; cbn [obis_code obis_value]; auto|]); apply Forall_nil_2.
Qed.

Lemma mock_recv_ok from m : device_message_ok m → message_size m <= 4096 →
  mock_recv (MockGot from (message_encode m)) = Ok (m, from).
Proof. intros Hm Hs. unfold mock_recv. by rewrite (received_message m 4096) by (done || lia). Qed.

Lemma mock_send_ok n dest t i seq p :
  mock_send (clock n) dest (build_message (mi_stamp (clock n)) t i seq p)
  = Ok [(dest, message_encode (stamped (mi_stamp (clock n)) t i seq p))].
Proof. destruct (Hclock n) as [Hs Hn]. unfold mock_send. rewrite build_message_ok by done. simpl. by rewrite Hs. Qed.

Lemma session_messages_ok a battery m :
  m ∈ session_messages a id battery → device_message_ok m ∧ message_size m <= 4096.
Proof.
  revert m. apply Forall_forall. unfold session_messages. fold (asked_codes battery).
  assert (Hb : battery = true ∨ battery = false) by (destruct battery; auto). destruct Hb as [-> | ->]; messages_fit.
  all: first [by apply asked_ok | apply Forall_singleton; by split; cbn [wp_code wp_value]; auto | apply Forall_replicate; split; lia].
Qed.

Lemma device_answers_ok n v battery m :
  m ∈ device_answers n v battery → device_message_ok m ∧ message_size m <= 4096.
Proof.
  revert m. apply Forall_forall. unfold device_answers. destruct battery; messages_fit.
  all: first [by apply values_ok | by apply Forall_singleton].
Qed.

(** The device ready for a session with volume [v], after [c] sessions. *)
Definition ready (v c : Z) : Mock := mkMock (PhSession id SwHandshake) v c.

(** One message of the session. *)
Lemma session_step n m w v c : device_message_ok m → message_size m <= 4096 →
  mock_step args (clock n) (MockGot hes (message_encode m)) (mkMock (PhSession id w) v c)
  = match w, d_payload m with
    | SwHandshake, PayHandshake _ =>
        ([(ToAddr hes, message_encode (stamped (mi_stamp (clock n)) THandshakeResponse id 0 (PayHandshakeResponse 0)))],
         mkMock (PhSession id (SwRead hes)) v c)
    | SwRead to, PayReadRequest codes =>
        ([(ToAddr to, message_encode (stamped (mi_stamp (clock n)) TReadResponse id 1
            (PayReadResponse (mock_value args v (mock_now (clock n)) <$> codes))))], mkMock (PhSession id (SwWrite to)) v c)
    | SwWrite to, PayWriteRequest ps =>
        ([(ToAddr to, message_encode (stamped (mi_stamp (clock n)) TWriteResponse id 2 (PayWriteResponse true (wp_code <$> ps))))],
         mkMock (PhSession id (SwAck to)) v c)
    | SwAck _, PayAck => ([], ready (wrap_u64 (v + ma_liters_per_session args)) (wrap_u32 (c + 1)))
    | _, _ => ([], ready v c)
    end.
Proof.
  intros Hm Hs. unfold mock_step, handle_session. cbn [mk_phase mk_volume mk_session_count]. rewrite mock_recv_ok by done.
  cbn [obind]. unfold new_handshake_response_message, new_read_response_message, new_write_response_message.
  destruct w; destruct (d_payload m); try reflexivity; by rewrite mock_send_ok.
Qed.

Lemma dialogue_session a battery n v c :
  dialogue n (session_messages a id battery) (ready v c)
  = (((λ m, [(ToAddr hes, message_encode m)]) <$> device_answers n v battery) ++ [[]],
     ready (wrap_u64 (v + ma_liters_per_session args)) (wrap_u32 (c + 1))).
Proof.
  pose proof (session_messages_ok a battery) as Hall. unfold session_messages, ready in *. fold (asked_codes battery) in *.
  cbn [dialogue]. do 4 (rewrite session_step by (apply Hall; repeat (constructor; try done)); cbn [d_payload stamped]).
  rewrite mock_values. reflexivity.
Qed.

(** *** The head-end's side *)

(** The answer to the [i]-th message that reaches the head-end. *)
Definition reply_to (outs : list (list (Destination * list Z))) (i : nat) : option (list Z) :=
  match outs !! i with
  | Some [(ToAddr addr, datagram)] => if decide (addr = hes) then Some datagram else None
  | _ => None
  end.

(** An attempt over a network that loses nothing, in which the head-end gets the answers
    [outs]. [clk] is its clock, [others] what its other tasks do before. *)
Definition device_attempt (outs : list (list (Destination * list Z))) (clk : nat → Z) (others : InnerDB → InnerDB) : Attempt InnerDB :=
  mkAttempt true (λ _, true) (λ _, true) (reply_to outs) clk others.

(** The answers to the first [k] messages of a session. *)
Definition answered (n : nat) (v : Z) (battery : bool) (k : nat) : list (list (Destination * list Z)) :=
  take k (((λ m, [(ToAddr hes, message_encode m)]) <$> device_answers n v battery) ++ [[]]).

Lemma dialogue_take n k msgs d : (dialogue n (take k msgs) d).1 = take k (dialogue n msgs d).1.
Proof.
  revert n k d. induction msgs as [|m msgs IH]; intros n k d; [by destruct k|]. destruct k as [|k]; [done|].
  cbn [take dialogue]. destruct (mock_step _ _ _ _) as [out d1]. specialize (IH (S n) k d1).
  destruct (dialogue (S n) (take k msgs) d1), (dialogue (S n) msgs d1). simpl in *. by rewrite IH.
Qed.

Lemma dialogue_prefix a battery n v c k :
  (dialogue n (take k (session_messages a id battery)) (ready v c)).1 = answered n v battery k.
Proof. by rewrite dialogue_take, dialogue_session. Qed.

(** What the head-end receives of them. *)
Lemma attempt_recv n v battery k clk others i m st :
  (i < k)%nat → device_answers n v battery !! i = Some m →
  at_recv (device_attempt (answered n v battery k) clk others) i = Some (message_encode m) ∧
  message_decode (take 4096 (message_encode m)) = Ok (Some m) ∧
  recv_msg (device_attempt (answered n v battery k) clk others) i st = (Ok m, st).
Proof.
  intros Hi Hm. assert (Hrecv : at_recv (device_attempt (answered n v battery k) clk others) i = Some (message_encode m)).
  { cbn [at_recv device_attempt]. unfold reply_to, answered. rewrite lookup_take_lt by done.
    rewrite lookup_app_l by (rewrite length_fmap; by eapply lookup_lt_Some). rewrite list_lookup_fmap, Hm. simpl.
    by rewrite decide_True. }
  destruct (device_answers_ok n v battery m) as [Hok Hs]; [by eapply list_elem_of_lookup_2|].
  pose proof (received_message m 4096 Hok ltac:(lia) ltac:(lia)) as Hd.
  split; [done|]. split; [exact Hd|]. unfold recv_msg. by rewrite Hrecv, Hd.
Qed.

Lemma attempt_silent n v battery k clk others i :
  (k <= i)%nat ∨ device_answers n v battery !! i = None → at_recv (device_attempt (answered n v battery k) clk others) i = None.
Proof.
  intros Hi. cbn [at_recv device_attempt]. unfold reply_to, answered.
  destruct (decide (k <= i)%nat) as [Hki|Hki]; [by rewrite lookup_take_ge|]. destruct Hi as [Hi|Hm]; [lia|].
  rewrite lookup_take_lt by lia. rewrite lookup_app_r by (rewrite length_fmap; by apply lookup_ge_None). by destruct (_ - _)%nat as [|[|]].
Qed.

Lemma attempt_is_safe n v battery k clk others :
  (∀ i, 0 <= clk i) → attempt_safe (device_attempt (answered n v battery k) clk others).
Proof.
  intros Hclk. split; [|exact Hclk]. intros i dg Hr.
  destruct (decide (i < k)%nat); [|by rewrite attempt_silent in Hr by (left; lia)].
  destruct (device_answers n v battery !! i) as [m|] eqn:Hm; [|by rewrite attempt_silent in Hr by auto].
  destruct (attempt_recv n v battery k clk others i m (mkWakeState empty_db [] []) ltac:(done) Hm) as (Hrecv & Hd & _).
  rewrite Hr in Hrecv. injection Hrecv as ->. rewrite Hd. discriminate.
Qed.

(** With all answers the session completes. *)
Lemma device_completes n v battery k clk others addr :
  (3 <= k)%nat → completes (device_attempt (answered n v battery k) clk others) addr.
Proof.
  intros Hk.
  assert (Ht : ∀ i m, device_answers n v battery !! i = Some m →
    reply_type (device_attempt (answered n v battery k) clk others) i = Some (payload_type (d_payload m))).
  { intros i m Hm. assert (i < 3)%nat by (by apply lookup_lt_Some in Hm).
    destruct (attempt_recv n v battery k clk others i m (mkWakeState empty_db [] []) ltac:(lia) Hm) as (Hr & Hd & _).
    unfold reply_type. by rewrite Hr, Hd. }
  repeat (split; [done|]). split; [|split]; [exact (Ht 0%nat _ eq_refl)|exact (Ht 1%nat _ eq_refl)|exact (Ht 2%nat _ eq_refl)].
Qed.

(** With the answers to its first [k] messages it sends the next one and waits in vain. *)
Lemma session_progress n v battery k clk others addr st :
  (∀ i, 0 <= clk i) → (k < 3)%nat → battery = reads_battery (wk_db st) (clk 0%nat) id →
  let a := device_attempt (answered n v battery k) clk others in
  run_session a id addr st = (Err TeIoError, sent_more (take (S k) (session_messages a id battery)) st).
Proof.
  intros Hclk Hk Hb a. pose proof (attempt_is_safe n v battery k clk others Hclk) as Hsafe. fold a in Hsafe.
  assert (Hfail : ∀ s, recv_msg a k s = (Err TeIoError, s)).
  { intros s. unfold recv_msg. unfold a. by rewrite attempt_silent by auto. }
  assert (Hrecv : ∀ i m s, (i < k)%nat → device_answers n v battery !! i = Some m → recv_msg a i s = (Ok m, s))
    by (intros i m s Hi Hm; by apply attempt_recv).
  assert (Hsend : ∀ i m s, wake_send_msg a i m s = (Ok tt, sent_more [m] s)) by (intros; by apply wake_send_ok).
  pose proof (needs_battery_ok (at_clock a 0) id st) as Hneeds. change (at_clock a 0) with (clk 0%nat) in Hneeds. rewrite <- Hb in Hneeds.
  unfold run_session. cbn [a device_attempt at_bind at_connect negb]. fold (device_attempt (answered n v battery k) clk others). fold a.
  change (at_clock a 0) with (clk 0%nat). sstep Hneeds. unfold new_handshake_message, new_read_request_message, new_write_request_message.
  erewrite wk_message_ok by (apply build_message_ok, clock_s_nonneg, Hsafe). rewrite (sbind_ok _ _ _ _ _ (Hsend 0%nat _ _)).
  destruct k as [|k]; [by rewrite (sbind_err _ _ _ _ _ (Hfail _))|]. rewrite (sbind_ok _ _ _ _ _ (Hrecv 0%nat _ _ ltac:(lia) eq_refl)). cbn [d_payload stamped].
  erewrite wk_message_ok by (apply build_message_ok, clock_s_nonneg, Hsafe). rewrite (sbind_ok _ _ _ _ _ (Hsend 1%nat _ _)). rewrite sent_more_app.
  destruct k as [|k]; [by rewrite (sbind_err _ _ _ _ _ (Hfail _))|]. rewrite (sbind_ok _ _ _ _ _ (Hrecv 1%nat _ _ ltac:(lia) eq_refl)). cbn [d_payload stamped].
  erewrite wk_message_ok by (apply build_message_ok, clock_s_nonneg, Hsafe). rewrite (sbind_ok _ _ _ _ _ (Hsend 2%nat _ _)). rewrite sent_more_app.
  destruct k as [|k]; [by rewrite (sbind_err _ _ _ _ _ (Hfail _))|lia].
Qed.
End session.
