(* ===== verification/DeviceLife.v ===== *)
(** * The life of a device

    The device of [MockDevice.v] against the receive loop of the backdoor and
    the wake-up task: it registers, and from then on every day's wake-up
    completes and sets the next one. The database is the in-memory engine. *)

From S2P Require Import Prelude Bytes Net Float32 Node Database DatabaseFacts Calendar Scheduler SchedulerFacts DeviceManager DeviceManagerFacts Rlp DeviceMessage DeviceCodec Backdoor BackdoorFacts WakeUp WakeUpFacts DebugSession MockDevice MockDeviceFacts.

Local Open Scope Z_scope.
Local Open Scope hes_scope.

#[export] Instance Destination_eq_dec : EqDecision Destination.
Proof. solve_decision. Defined.

Section life.
Context `{BytesCrate} `{RlpSize} `{ChronoCrate} `{HashOrder} {JS : Type} `{JobCrate JS}.
Implicit Types (st : Server JS InnerDB) (ds : DmState JS InnerDB).

(** ** Registration over the network

    The device at [addr] and the server at [srv] exchange datagrams; none is lost. *)
Definition new_sent (bd bd' : Backdoor JS InnerDB) : list (SocketAddr * Message) := drop (length (bd_sent bd)) (bd_sent bd').

(** The server takes the datagrams of the device; the device takes what the server sent it. *)
Fixpoint device_takes (args : MockArgs) (i : MockInstant) (srv : SocketAddr) (msgs : list Message) (d : Mock)
  : list (Destination * list Z) * Mock :=
  match msgs with
  | [] => ([], d)
  | m :: msgs' =>
      let (out, d1) := mock_step args i (MockGot srv (message_encode m)) d in
      let (outs, d2) := device_takes args i srv msgs' d1 in
      (out ++ outs, d2)
  end.
Definition exchange (args : MockArgs) (i : MockInstant) (fresh now timeout : Z) (addr srv : SocketAddr)
    (out : list (Destination * list Z)) st (d : Mock) : list (Destination * list Z) * Server JS InnerDB * Mock :=
  let st' := fold_left (λ s o, loop_turn fresh now timeout (Received addr o.2) s) out st in
  let replies := (filter (λ p, p.1 = addr) (new_sent (sv_bd st) (sv_bd st'))).*2 in
  let (out', d') := device_takes args i srv replies d in
  (out', st', d').

(** A device with an address, a bucket, and a connection that names its pending job. *)
Record scheduled ds (id : Z) (ip : list Z) (b t : Z) : Prop := {
  sd_device : ∃ d, devices (dm_db ds) !! id = Some d ∧ dev_ipv4 d = Some ip ∧ dev_ipv6 d = None;
  sd_bucket : ∃ node, buckets (dm_db ds) !! id = Some (b, node);
  sd_range : 0 <= b < bucket_number (dm_scheduler (dm ds));
  sd_job : ∃ j, scheduled_connections (dm_db ds) !! id = Some (awaiting_row id t j) ∧ dm_jobs ds !! j = Some (mkJob t id true)
}.

Lemma stamp_read i t id seq p :
  0 <= mi_stamp i < 2 ^ 63 ∧ day_ok (mi_stamp i / 1000 / secs_per_day) →
  get_timestamp (stamped (mi_stamp i) t id seq p) = Ok (mi_stamp i * ns_per_ms).
Proof.
  intros [Hr Hd]. assert (Hw : wrap_u64 (mi_stamp i) = mi_stamp i) by (apply Z.mod_small; lia).
  rewrite get_timestamp_ok; unfold stamped; cbn [d_timestamp]; by rewrite Hw.
Qed.

Lemma secs_nonneg now : 0 <= now → 0 <= now / ns_per_s.
Proof. intros. apply Z.div_pos; [done|]. unfold ns_per_s. lia. Qed.

(** A datagram of the device that is no answer of a session reaches its handler. *)
Lemma loop_turn_message fresh timeout addr m now (s : Server JS InnerDB) : device_message_ok m → message_size m <= 1024 →
  d_type m = TRegisterRequest ∨ d_type m = TAck →
  loop_turn fresh now timeout (Received addr (message_encode m)) s
  = set_sv_bd (backdoor_dispatch fresh now (now / ns_per_s) timeout addr m (sv_bd s)).2 s.
Proof.
  intros Hm Hsz Ht. cbn [loop_turn]. unfold UDP_BUFFER_SIZE. rewrite (received_message m 1024) by (done || lia).
  unfold try_route, bd_route. by destruct Ht as [-> | ->].
Qed.

Section registration.
Variables (args : MockArgs) (fresh now1 now2 timeout : Z) (addr srv : SocketAddr) (i0 i1 i2 : MockInstant).
Variable st : Server JS InnerDB.
Hypothesis Hv4 : is_v4 addr = true.
Hypothesis Hacc : accepts_jobs (JS := JS).
Hypothesis Hs1 : can_schedule (bd_sched (sv_bd st)) now1.
Hypothesis Hs2 : can_schedule (bd_sched (sv_bd st)) now2.
Hypothesis Hnow : 0 <= now1 ∧ 0 <= now2.
Hypothesis Htx : reschedule_tx (bd_sched (sv_bd st)) = true.
Hypothesis Hfresh : 0 <= fresh < 2 ^ 128.
Hypothesis Hnew : buckets (bd_db (sv_bd st)) !! fresh = None.
Hypothesis Himei : text_ok (ma_imei args) ∧ Z.of_nat (length (ma_imei args)) <= 900.
Hypothesis Hsend : mi_send i0 = true ∧ mi_send i1 = true.
Hypothesis Hstamp0 : 0 <= mi_stamp i0 < 2 ^ 63 ∧ day_ok (mi_stamp i0 / 1000 / secs_per_day).
Hypothesis Hstamp1 : 0 <= mi_stamp i1 < 2 ^ 63 ∧ day_ok (mi_stamp i1 / 1000 / secs_per_day).

Let msg := stamped (mi_stamp i0) TRegisterRequest 0 0 (PayRegistryRequest (mkRegistryRequest (ma_imei args) (str "fe80::1"))).
Let ack := stamped (mi_stamp i1) TAck fresh 2 PayAck.

Lemma register_request_ok : device_message_ok msg ∧ message_size msg <= 1024.
Proof.
  destruct Himei as [Ht Hl]. split.
  - apply stamped_message_ok; [lia|lia|done|]. split; [done|]. by apply text_const.
  - size_bound.
Qed.
Lemma device_ack_ok : device_message_ok ack ∧ message_size ack <= 1024.
Proof. split; [apply stamped_message_ok; (done || lia)|size_bound]. Qed.

(** The device takes the register response and answers the ACK. *)
Lemma device_acks (s : Backdoor JS InnerDB) b v c :
  mock_step args i1 (MockGot srv (message_encode (register_answer s fresh now1 (now1 / ns_per_s) msg b))) (mkMock PhResponse v c)
  = ([(ToText (ma_backdoor_addr args), message_encode ack)], mkMock (PhConfirmation fresh) v c).
Proof.
  unfold mock_step, register_ack. cbn [mk_phase]. rewrite mock_recv_ok.
  - cbn [obind]. unfold mock_send, new_ack_message. rewrite build_message_ok by lia. cbn [omap_err obind].
    destruct Hsend as [_ ->]. reflexivity.
  - apply stamped_message_ok; [done|done|done|]. split; [done|]. apply wrap_u64_range.
  - size_bound.
Qed.

Lemma device_confirmed now v c :
  mock_step args i2 (MockGot srv (message_encode (stamped now TAck fresh (reply_seq ack) PayAck))) (mkMock (PhConfirmation fresh) v c)
  = ([], ready fresh v c).
Proof.
  unfold mock_step. cbn [mk_phase]. rewrite mock_recv_ok; [done|apply stamped_message_ok; (done || lia)|size_bound].
Qed.

Definition first_exchange : list (Destination * list Z) * Server JS InnerDB * Mock :=
  exchange args i1 fresh now1 timeout addr srv (mock_start args i0).1 st (mock_start args i0).2.

(** What the server sends to the device in one turn is what the device takes. *)
Lemma exchange_one i now out s bd m d :
  (backdoor_dispatch fresh now (now / ns_per_s) timeout addr m (sv_bd s)).2 = bd →
  device_message_ok m → message_size m <= 1024 → d_type m = TRegisterRequest ∨ d_type m = TAck →
  ∀ reply, bd_sent bd = bd_sent (sv_bd s) ++ [(addr, reply)] →
  exchange args i fresh now timeout addr srv [(out, message_encode m)] s d
  = (let (o, d') := mock_step args i (MockGot srv (message_encode reply)) d in (o ++ [], set_sv_bd bd s, d')).
Proof.
  intros Hbd Hm Hsz Ht reply Hsent. unfold exchange. cbn [fold_left snd]. rewrite loop_turn_message, Hbd by done.
  unfold new_sent. cbn [sv_bd set_sv_bd]. rewrite Hsent, drop_app_length. rewrite filter_cons_True, filter_nil by done.
  cbn [fmap list_fmap device_takes snd]. by destruct (mock_step _ _ _ _).
Qed.

(** A device registers. The mock device sends its request, the receive loop of the backdoor
    answers, the device acknowledges, the backdoor confirms: after two exchanges over a
    network that loses nothing the device waits for its first session under the identifier
    the server gave it, and the server has it registered, in a least-loaded bucket, with an
    address and one pending job at the bucket's next instant, which its connection names. *)
Theorem device_registers :
  ∃ b st2, let '(out1, st1, d1) := first_exchange in
    exchange args i2 fresh now2 timeout addr srv out1 st1 d1 = ([], st2, ready fresh (ma_initial_volume args) 0) ∧
    least_bucket (bucket_load (bd_db (sv_bd st))) (bucket_number (bd_sched (sv_bd st))) b ∧
    registrations (sv_bd st2) !! fresh = Some (Registered, mi_stamp i1 * ns_per_ms) ∧
    scheduled (bd_dm (sv_bd st2)) fresh (ip_to_string (sock_ip addr)) b (wake_time (bd_sched (sv_bd st)) now2 b).
Proof.
  destruct Hnow as [Hn1 Hn2]. apply secs_nonneg in Hn1, Hn2.
  destruct (handshake_ok (sv_bd st) fresh now1 (now1 / ns_per_s) timeout (mi_stamp i0 * ns_per_ms) msg addr Hs1 Hnew eq_refl
    (stamp_read _ _ _ _ _ Hstamp0) Hn1 now2 (now2 / ns_per_s) ack addr (mi_stamp i1 * ns_per_ms) Hv4 Hacc Hs2 eq_refl eq_refl
    (stamp_read _ _ _ _ _ Hstamp1) Hn2) as (b & j & s' & Hleast & Hreg & Hack & Hjf & Hjobs & Hcfg).
  destruct register_request_ok as [Hmok Hmsz]. destruct device_ack_ok as [Haok Hasz].
  set (bd1 := pending _ _ _ _ _ _ _ _ _) in *. set (bd2 := registered _ _ _ _ _ _ _ _ _) in *.
  assert (Hstart : mock_start args i0 = ([(ToText (ma_backdoor_addr args), message_encode msg)], mkMock PhResponse (ma_initial_volume args) 0)).
  { unfold mock_start, register_request, mock_send, new_register_request_message.
    rewrite build_message_ok by lia. cbn [omap_err obind]. destruct Hsend as [-> _]. reflexivity. }
  assert (Hfirst : first_exchange = ([(ToText (ma_backdoor_addr args), message_encode ack)], set_sv_bd bd1 st,
    mkMock (PhConfirmation fresh) (ma_initial_volume args) 0)).
  { unfold first_exchange. rewrite Hstart. cbn [fst snd].
    rewrite (exchange_one i1 now1 _ st bd1 msg _) with (reply := register_answer (sv_bd st) fresh now1 (now1 / ns_per_s) msg b);
      [by rewrite device_acks|unfold backdoor_dispatch; cbn [d_type d_device_id msg stamped Z.eqb]; by rewrite Hreg|done|done|by left|done]. }
  exists b, (set_sv_bd bd2 (set_sv_bd bd1 st)). rewrite Hfirst. split; [|split; [done|split]].
  - rewrite (exchange_one i2 now2 _ (set_sv_bd bd1 st) bd2 ack _) with (reply := stamped (now2 / ns_per_s) TAck fresh (reply_seq ack) PayAck);
      [by rewrite device_confirmed|unfold backdoor_dispatch; cbn [d_type ack stamped sv_bd set_sv_bd]; by rewrite Hack|done|done|by right|done].
  - apply lookup_insert_eq.
  - split.
    + exists (new_device fresh msg addr). split; [apply lookup_insert_eq|]. by destruct addr.
    + eexists. apply lookup_insert_eq.
    + cbn. destruct Hcfg as (-> & _). apply Hleast.
    + exists j. split; [apply lookup_insert_eq|]. cbn. unfold dm_jobs. cbn. rewrite Hjobs, Htx. apply lookup_insert_eq.
Qed.

End registration.

(** ** A broken message

    The message of [malformed_registry] is one byte short: the receive loop drops it, and
    whatever comes next finds the server as it was. *)
Lemma malformed_length ts : length (malformed_message ts) = 45%nat.
Proof. unfold malformed_message, put_u8, put_u128, put_u32, put_u64. by rewrite !length_app, !put_uint_length. Qed.

Theorem malformed_message_ignored fresh now timeout addr ts st :
  message_decode (malformed_message ts) = Err MsgInvalidLength ∧
  loop_turn fresh now timeout (Received addr (malformed_message ts)) st = st.
Proof.
  assert (Hd : message_decode (malformed_message ts) = Err MsgInvalidLength)
    by (unfold message_decode, remaining; by rewrite malformed_length).
  split; [exact Hd|]. cbn [loop_turn]. rewrite take_ge by (rewrite malformed_length; unfold UDP_BUFFER_SIZE; lia). by rewrite Hd.
Qed.

(** ** Every day

    A day: the clock of the session, what other tasks of the head-end do before it, the
    address its datagrams come from, the clock of the device, and when the listener of the
    reschedule channel runs. *)
Record Day := mkDay {
  dy_clock : nat → Z;
  dy_others : InnerDB → InnerDB;
  dy_hes : SocketAddr;
  dy_device : nat → MockInstant;
  dy_now : Z
}.
Record Field := mkField { f_dm : DmState JS InnerDB; f_dev : Mock }.

(** The pending job of the device, if its connection names one. *)
Definition pending_job ds (id : Z) : option WakeupJob :=
  c ← scheduled_connections (dm_db ds) !! id; j ← job_id c; dm_jobs ds !! j.

Definition reschedule_all (now : Z) (ids : list Uuid) ds : DmState JS InnerDB :=
  fold_left (λ ds id, (reschedule_device now id ds).2) ids ds.

(** The network of a wake-up task: the first attempt gets the answers [outs], a further one
    would find no network. *)
Definition day_net (y : Day) (outs : list (list (Destination * list Z))) (attempt : nat) : Attempt InnerDB :=
  if decide (attempt = 1%nat) then device_attempt (dy_hes y) outs (dy_clock y) (dy_others y)
  else mkAttempt false (λ _, false) (λ _, false) (λ _, None) (dy_clock y) (λ db, db).

(** The device and the task talk: [run] is the task on given answers; the device is given the
    messages the task sends on the answers of the round before, [n] rounds in all. *)
Fixpoint talk (args : MockArgs) (y : Day) (d : Mock) (run : list (list (Destination * list Z)) → WakeState InnerDB) (n : nat)
  : list (list (Destination * list Z)) :=
  match n with
  | O => []
  | S n' => (dialogue args (dy_hes y) (dy_device y) 0 (wk_sent (run (talk args y d run n'))) d).1
  end.

(** The job fires when its time has come; its task talks to the device, where what the task
    receives is what the device answers to what the task sends; the task ends, and the
    listener takes what the task put into the channel. *)
Definition live_day (args : MockArgs) (id : Z) (y : Day) (w : Field) : option Field :=
  job ← pending_job (f_dm w) id;
  if decide (wj_time job <= dy_clock y 0%nat) then
    let ds1 := (dm_sched_mod (job_fired job) (f_dm w)).2 in
    let run outs := wake_up_device (day_net y outs) 0 (wj_device job) (wj_tx job) (mkWakeState (dm_db ds1) [] []) in
    let outs := talk args y (f_dev w) (λ outs, (run outs).2) 4 in
    match run outs with
    | (Ok _, st) =>
        let (answers, d') := dialogue args (dy_hes y) (dy_device y) 0 (wk_sent st) (f_dev w) in
        if decide (answers = outs) then
          let ds2 := (dm_in_sched (job_ended job TaskResult) (set_dm_db (wk_db st) ds1)).2 in
          Some (mkField (reschedule_all (dy_now y) (wk_channel st) ds2) d')
        else None
    | _ => None
    end
  else None.

Fixpoint live_days (args : MockArgs) (id : Z) (ys : list Day) (w : Field) : option Field :=
  match ys with
  | [] => Some w
  | y :: ys' => live_day args id y w ≫= live_days args id ys'
  end.

(** Every day comes after the job of the day before was due; the first is due at [t]. *)
Fixpoint on_time (s : Scheduler JS) (b t : Z) (ys : list Day) : Prop :=
  match ys with
  | [] => True
  | y :: ys' => t <= dy_clock y 0%nat ∧ on_time s b (wake_time s (dy_now y) b) ys'
  end.

(** A day without losses; the other tasks leave the device and its bucket alone. *)
Record fair_day (s : Scheduler JS) (id : Z) (y : Day) : Prop := {
  do_clock i : 0 <= dy_clock y i;
  do_device i : mi_send (dy_device y i) = true ∧ 0 <= mi_stamp (dy_device y i);
  do_others db : devices (dy_others y db) !! id = devices db !! id ∧ buckets (dy_others y db) !! id = buckets db !! id;
  do_now : can_schedule s (dy_now y)
}.

Section days.
Variables (args : MockArgs) (id : Z) (ip : list Z) (b : Z).
Hypothesis Hid : 0 <= id < 2 ^ 128.
Hypothesis Hbattery : is_byte (ma_battery args).
Hypothesis Hacc : accepts_jobs (JS := JS).

Lemma scheduled_job ds t : scheduled ds id ip b t → pending_job ds id = Some (mkJob t id true).
Proof. intros [_ _ _ (j & Hc & Hj)]. unfold pending_job. rewrite Hc. simpl. exact Hj. Qed.

Lemma session_db_rows a db :
  devices (session_db a id db) = devices db ∧ buckets (session_db a id db) = buckets db.
Proof.
  unfold session_db, battery_noted, mem_update_last_battery_read. case_match; [|done].
  by destruct (scheduled_connections db !! id).
Qed.

(** ** The task and the device *)
Lemma wake_up_attempts net db d :
  devices db !! id = Some d → dev_ipv4 d = Some ip → dev_ipv6 d = None →
  wake_up_device net 0 id true (mkWakeState db [] []) = attempts net id (ip ++ str ":6060") true 5 1 (mkWakeState db [] []).
Proof.
  intros Hd Hip4 Hip6. unfold wake_up_device, run_wake_up.
  assert (Hget : wk_in_db (get_device id) (mkWakeState db [] []) = (Ok d, mkWakeState db [] []))
    by (unfold wk_in_db, szoom; simpl; unfold mem_get_device; by rewrite Hd).
  sstep Hget. by rewrite Hip4, Hip6.
Qed.

Lemma attempts_unbound (net : nat → Attempt InnerDB) addr tx left k (st : WakeState InnerDB) :
  (∀ j, (k <= j)%nat → at_bind (net j) = false ∧ ∀ db, at_others (net j) db = db) →
  attempts net id addr tx left k st = (Err MaxRetriesExceeded, st).
Proof.
  revert k st. induction left as [|left IH]; intros k st Hnet; [done|]. cbn [attempts]. rewrite sbind_mod.
  destruct (Hnet k ltac:(lia)) as [Hb Ho]. rewrite Ho. replace (set_wk_db (wk_db st) st) with st by (by destruct st).
  unfold sbind, sresult, run_session. rewrite Hb. cbn [negb serr]. apply IH. intros j Hj. apply Hnet. lia.
Qed.

Lemma attempts_fail (net : nat → Attempt InnerDB) addr tx left k (st st' : WakeState InnerDB) e :
  run_session (net k) id addr (set_wk_db (at_others (net k) (wk_db st)) st) = (Err e, st') →
  attempts net id addr tx (S left) k st = attempts net id addr tx left (S k) st'.
Proof. intros Hrun. cbn [attempts]. rewrite sbind_mod. unfold sbind, sresult. by rewrite Hrun. Qed.
Lemma attempts_done (net : nat → Attempt InnerDB) addr left k (st st' : WakeState InnerDB) :
  run_session (net k) id addr (set_wk_db (at_others (net k) (wk_db st)) st) = (Ok tt, st') →
  attempts net id addr true (S left) k st = (Ok tt, mkWakeState (wk_db st') (wk_sent st') (wk_channel st' ++ [id])).
Proof. intros Hrun. cbn [attempts]. rewrite sbind_mod. unfold sbind, sresult. by rewrite Hrun. Qed.

Section attempt.
Variables (y : Day) (v c : Z) (db : InnerDB) (d : Device).
Hypothesis Hclk : ∀ i, 0 <= dy_clock y i.
Hypothesis Hdc : ∀ i, mi_send (dy_device y i) = true ∧ 0 <= mi_stamp (dy_device y i).
Hypothesis Hd : devices db !! id = Some d.
Hypothesis Hip4 : dev_ipv4 d = Some ip.
Hypothesis Hip6 : dev_ipv6 d = None.
Let battery := reads_battery (dy_others y db) (dy_clock y 0%nat) id.
Let outs := answered args (dy_hes y) id (dy_device y) 0 v battery.
Let quiet := device_attempt (dy_hes y) [] (dy_clock y) (dy_others y).
Let run os := wake_up_device (day_net y os) 0 id true (mkWakeState db [] []).

(** With the first [k] answers the task sends its next message. *)
Lemma wake_up_sends k : (k < 3)%nat → wk_sent (run (outs k)).2 = take (S k) (session_messages quiet id battery).
Proof.
  intros Hk. unfold run. rewrite (wake_up_attempts _ db d) by done.
  pose proof (session_progress args (dy_hes y) id (dy_device y) Hid Hbattery 0 v battery k (dy_clock y) (dy_others y)
    (ip ++ str ":6060") (mkWakeState (dy_others y db) [] []) Hclk Hk eq_refl) as Hp.
  rewrite (attempts_fail (day_net y (outs k)) _ true 4 1 (mkWakeState db [] []) _ _ Hp).
  rewrite (attempts_unbound (day_net y (outs k)) _ true 4 2); [done|].
  intros j Hj. unfold day_net. rewrite decide_False by lia. done.
Qed.

(** With all of them its session completes at the first attempt. *)
Lemma wake_up_completes k : (3 <= k)%nat →
  ∃ wk, run (outs k) = (Ok tt, wk) ∧ wk_channel wk = [id] ∧ wk_sent wk = session_messages quiet id battery ∧
    wk_db wk = session_db quiet id (dy_others y db).
Proof.
  intros Hk. unfold run. rewrite (wake_up_attempts _ db d) by done.
  set (a := device_attempt (dy_hes y) (outs k) (dy_clock y) (dy_others y)). set (st0 := mkWakeState (dy_others y db) [] []).
  pose proof (run_session_spec a id (ip ++ str ":6060") st0 (attempt_is_safe args (dy_hes y) id (dy_device y) Hid Hbattery 0 v battery k _ _ Hclk)) as Hspec.
  destruct (run_session a id (ip ++ str ":6060") st0) as [[[]|e|] st1] eqn:Hrun; [|exfalso; apply (proj1 Hspec); by apply device_completes|done].
  destruct Hspec as (_ & Hch & Hsent & Hdb). rewrite (attempts_done (day_net y (outs k)) _ 4 1 (mkWakeState db [] []) _ Hrun). eexists. split; [done|]. cbn [wk_channel wk_sent wk_db]. by rewrite Hch, Hsent.
Qed.

(** Four rounds settle what they say to each other. *)
Lemma talk_answers k : (k <= 4)%nat → talk args y (ready id v c) (λ os, (run os).2) k = outs k.
Proof.
  induction k as [|k IH]; intros Hk; [done|]. cbn [talk]. rewrite IH by lia.
  destruct (decide (k < 3)%nat) as [Hlt|].
  - rewrite wake_up_sends by done. apply dialogue_prefix; done.
  - destruct (wake_up_completes k ltac:(lia)) as (wk & -> & _ & Hsent & _). cbn [snd]. rewrite Hsent.
    assert (k = 3)%nat as -> by lia. change (session_messages quiet id battery) with (take 4 (session_messages quiet id battery)).
    apply dialogue_prefix; done.
Qed.
End attempt.

(** Rescheduling gives the device its next job. *)
Lemma reschedule_scheduled ds now d node :
  can_schedule (dm_scheduler (dm ds)) now → devices (dm_db ds) !! id = Some d → dev_ipv4 d = Some ip → dev_ipv6 d = None →
  buckets (dm_db ds) !! id = Some (b, node) → 0 <= b < bucket_number (dm_scheduler (dm ds)) →
  reschedule_tx (dm_scheduler (dm ds)) = true →
  scheduled (reschedule_device now id ds).2 id ip b (wake_time (dm_scheduler (dm ds)) now b) ∧
  same_config (dm_scheduler (dm ds)) (dm_scheduler (dm (reschedule_device now id ds).2)).
Proof.
  intros Hs Hd Hip4 Hip6 Hb Hr Htx. destruct (dm_schedule_ok ds now id b node Hacc Hs Hb Hr) as (j & s' & Hrun & Hcfg & _ & Hjobs).
  unfold reschedule_device, sbind, sresult. rewrite Hrun. split; [|exact Hcfg]. split; cbn.
  - by exists d.
  - by exists node.
  - by destruct Hcfg as (-> & _).
  - exists j. split; [apply lookup_insert_eq|]. unfold dm_jobs. cbn. rewrite Hjobs, Htx. apply lookup_insert_eq.
Qed.

Lemma on_time_config (s s' : Scheduler JS) t ys :
  bucket_number s' = bucket_number s → test_mode s' = test_mode s → on_time s b t ys → on_time s' b t ys.
Proof.
  intros Hn Ht. revert t. induction ys as [|y ys IH]; intros t; [done|]. intros [Hy Hys]. split; [done|].
  assert (Hw : wake_time s' (dy_now y) b = wake_time s (dy_now y) b) by (unfold wake_time; by rewrite Hn, Ht).
  rewrite Hw. by apply IH.
Qed.

Lemma live_day_ok y w v c t :
  scheduled (f_dm w) id ip b t → f_dev w = ready id v c → fair_day (dm_scheduler (dm (f_dm w))) id y →
  reschedule_tx (dm_scheduler (dm (f_dm w))) = true → t <= dy_clock y 0%nat →
  ∃ w', live_day args id y w = Some w' ∧
    f_dev w' = ready id (wrap_u64 (v + ma_liters_per_session args)) (wrap_u32 (c + 1)) ∧
    scheduled (f_dm w') id ip b (wake_time (dm_scheduler (dm (f_dm w))) (dy_now y) b) ∧
    bucket_number (dm_scheduler (dm (f_dm w'))) = bucket_number (dm_scheduler (dm (f_dm w))) ∧
    test_mode (dm_scheduler (dm (f_dm w'))) = test_mode (dm_scheduler (dm (f_dm w))) ∧
    reschedule_tx (dm_scheduler (dm (f_dm w'))) = true.
Proof.
  intros Hsch Hdev [Hclk Hdc Hoth Hnow] Htx Hdue. unfold live_day. rewrite (scheduled_job _ t Hsch). cbn [mbind option_bind wj_time].
  rewrite decide_True by done. destruct Hsch as [(d & Hd & Hip4 & Hip6) (node & Hb) Hr _]. rewrite Hdev.
  cbn [wj_device wj_tx dm_sched_mod smod snd dm_db set_dm].
  rewrite (talk_answers y v c (dm_db (f_dm w)) d Hclk Hdc Hd Hip4 Hip6 4) by lia.
  destruct (wake_up_completes y v (dm_db (f_dm w)) d Hclk Hd Hip4 Hip6 4 ltac:(lia)) as (wk & -> & Hch & Hsent & Hdb). rewrite Hch, Hsent.
  set (battery := reads_battery _ _ _). set (a := device_attempt _ _ _ _) in *.
  rewrite (surjective_pairing (dialogue _ _ _ _ _ _)).
  pose proof (dialogue_prefix args (dy_hes y) id (dy_device y) Hid Hdc a battery 0 v c 4) as Hans.
  change (take 4 (session_messages a id battery)) with (session_messages a id battery) in Hans. rewrite Hans, decide_True by done.
  rewrite dialogue_session by done. cbn [snd reschedule_all fold_left]. set (ds2 := (dm_in_sched (job_ended _ _) _).2).
  assert (Hds2 : dm_db ds2 = wk_db wk ∧ bucket_number (dm_scheduler (dm ds2)) = bucket_number (dm_scheduler (dm (f_dm w))) ∧
    test_mode (dm_scheduler (dm ds2)) = test_mode (dm_scheduler (dm (f_dm w))) ∧ reschedule_tx (dm_scheduler (dm ds2)) = true)
    by (unfold ds2; simpl; by rewrite Htx).
  destruct Hds2 as (Hdb2 & Hbn & Htm & Htx2). clearbody ds2.
  destruct (session_db_rows a (dy_others y (dm_db (f_dm w)))) as [Hrow1 Hrow2]. destruct (Hoth (dm_db (f_dm w))) as [Ho1 Ho2].
  destruct (reschedule_scheduled ds2 (dy_now y) d node) as [Hsch' (Hc1 & _ & _ & Hc4 & Hc5 & _)].
  1: unfold can_schedule in *; by rewrite Hbn.
  1: by rewrite Hdb2, Hdb, Hrow1, Ho1.
  1, 2: done.
  1: by rewrite Hdb2, Hdb, Hrow2, Ho2.
  1: by rewrite Hbn.
  1: done.
  assert (Hwt : wake_time (dm_scheduler (dm ds2)) (dy_now y) b = wake_time (dm_scheduler (dm (f_dm w))) (dy_now y) b)
    by (unfold wake_time; by rewrite Hbn, Htm).
  eexists. split; [reflexivity|]. cbn [f_dev f_dm]. rewrite Hc1, Hc4, Hc5, <- Hwt. by split_and!.
Qed.

(** C8: A registered device is served every day. Whatever other tasks do to the rows of other
    devices, and for any number of days without lost datagrams, each of which comes when the
    job is due: the job fires, the wake-up task and the device exchange messages, each side
    answering what the other sent, until the session completes on both sides, and
    rescheduling sets the next job, at the bucket's next instant after the listener ran, in
    the future; the device counts every session and its volume grows by the same amount each
    day. (In-memory engine.) *)
Theorem device_served_every_day (ys : list Day) w (v c t : Z)
    (Hsch : scheduled (f_dm w) id ip b t) (Hdev : f_dev w = ready id v c)
    (Htx : reschedule_tx (dm_scheduler (dm (f_dm w))) = true)
    (Hys : Forall (fair_day (dm_scheduler (dm (f_dm w))) id) ys)
    (Hdue : on_time (dm_scheduler (dm (f_dm w))) b t ys)
    (Hv : 0 <= v < 2 ^ 64) (Hc : 0 <= c < 2 ^ 32) :
  let s := dm_scheduler (dm (f_dm w)) in
  ∃ w', live_days args id ys w = Some w' ∧
    f_dev w' = ready id (wrap_u64 (v + Z.of_nat (length ys) * ma_liters_per_session args)) (wrap_u32 (c + Z.of_nat (length ys))) ∧
    scheduled (f_dm w') id ip b (from_option (λ y, wake_time s (dy_now y) b) t (last ys)) ∧
    ∀ y, last ys = Some y → dy_now y < wake_time s (dy_now y) b.
Proof.
  revert w v c t Hsch Hdev Htx Hys Hdue Hv Hc. induction ys as [|y ys IH]; intros w v c t Hsch Hdev Htx Hys Hdue Hv Hc s.
  { exists w. split; [done|]. split; [|done]. cbn [length Z.of_nat]. rewrite Hdev, Z.add_0_r.
    unfold wrap_u64, wrap_u32. by rewrite Z.add_0_r, !Z.mod_small. }
  apply Forall_cons in Hys as [Hy Hys]. destruct Hdue as [Hdue Hdues].
  destruct (live_day_ok y w v c t Hsch Hdev Hy Htx Hdue) as (w1 & Hrun & Hd1 & Hs1 & Hbn & Htm & Htx1).
  destruct (IH w1 _ _ _ Hs1 Hd1 Htx1) as (w' & Hrun' & Hd' & Hs' & Hlast).
  - eapply Forall_impl; [exact Hys|]. intros y' []. split; try done. unfold can_schedule. by rewrite Hbn.
  - revert Hdues. apply on_time_config; [by rewrite Hbn|by rewrite Htm].
  - apply wrap_u64_range.
  - apply Z.mod_pos_bound. lia.
  - assert (Hwt : ∀ n, wake_time (dm_scheduler (dm (f_dm w1))) n b = wake_time s n b) by (intros n; unfold wake_time; by rewrite Hbn, Htm).
    exists w'. cbn [live_days]. rewrite Hrun. split; [exact Hrun'|]. split.
    + rewrite Hd'. cbn [length]. unfold wrap_u64, wrap_u32. rewrite !Zplus_mod_idemp_l.
      by replace (v + Z.of_nat (S (length ys)) * ma_liters_per_session args)
        with (v + ma_liters_per_session args + Z.of_nat (length ys) * ma_liters_per_session args) by lia;
      replace (c + Z.of_nat (S (length ys))) with (c + 1 + Z.of_nat (length ys)) by lia.
    + rewrite last_cons. destruct (last ys) as [z|].
      * cbn [from_option] in *. rewrite Hwt in Hs'. split; [done|]. intros _ [= <-]. rewrite <- Hwt. by apply Hlast.
      * split; [done|]. intros _ [= <-]. destruct Hsch as [_ _ Hr _]. unfold s.
        by apply (next_wakeup_time (mkSchedState (dm_scheduler (dm (f_dm w))) (dm_db (f_dm w))) (dy_now y) b (do_now _ _ _ Hy)).
Qed.
End days.
End life.
