(* ===== verification/DeviceLifeExamples.v ===== *)
(** * A concrete device

    A device registers with node 7 of [BackdoorExamples.v] at 09:00 and is
    served on the three following days. *)

From S2P Require Import Prelude Bytes Net Float32 Node Database DatabaseFacts Calendar Scheduler SchedulerFacts DeviceManager DeviceManagerFacts Rlp DeviceMessage DeviceCodec Backdoor BackdoorFacts BackdoorExamples WakeUp WakeUpFacts DebugSession MockDevice MockDeviceFacts DeviceLife.

Local Open Scope Z_scope.
Local Open Scope hes_scope.

#[local] Existing Instance gregorian.gregorian.
#[local] Existing Instance big_endian.big_endian.
#[local] Existing Instance rlp_format.rlp_format.
#[local] Existing Instance rlp_format.rlp_format_size.

Definition field_args : MockArgs := mkMockArgs (str "127.0.0.1:6565") (str "000000000000001") 85 12340 100.
Definition field_addr : SocketAddr := SockV4 10 0 0 9 6060.
Definition field_srv : SocketAddr := SockV4 10 0 0 7 6565.
Definition at_second (s : Z) : MockInstant := mkMockInstant (1704099600 + s) (1704099600 + s) true.

(** The server with the channel of the reschedule listener. *)
Definition field_server : Server JobTable InnerDB :=
  bd_new (mkBackdoor ((dm_set_reschedule_sender (bd_dm server)).2) [] []) (str "0.0.0.0") (str "6565").

Lemma device_registers_witness : ∃ b st2,
  exchange field_args (at_second 2) 9000 (morning 1) 300000 field_addr field_srv
    (first_exchange field_args 9000 (morning 0) 300000 field_addr field_srv (at_second 0) (at_second 1) field_server).1.1
    (first_exchange field_args 9000 (morning 0) 300000 field_addr field_srv (at_second 0) (at_second 1) field_server).1.2
    (first_exchange field_args 9000 (morning 0) 300000 field_addr field_srv (at_second 0) (at_second 1) field_server).2
  = ([], st2, ready 9000 12340 0) ∧
  scheduled (bd_dm (sv_bd st2)) 9000 (str "10.0.0.9") b (wake_time (bd_sched server) (morning 1) b).
Proof.
  destruct (device_registers field_args 9000 (morning 0) (morning 1) 300000 field_addr field_srv (at_second 0) (at_second 1)
    (at_second 2) field_server ltac:(eval_done) job_table_accepts ltac:(clock_ok) ltac:(clock_ok) ltac:(clock_ok) ltac:(eval_done)
    ltac:(lia) ltac:(eval_done) ltac:(split; [by apply text_const|done]) ltac:(done) ltac:(clock_ok) ltac:(clock_ok)) as (b & st2 & Hreg).
  exists b, st2. destruct (first_exchange _ _ _ _ _ _ _ _ _) as [[out1 st1] d1]. destruct Hreg as (Hex & _ & _ & Hs).
  split; [exact Hex|exact Hs].
Defined.

(** The node after the registration. *)
Definition enrolled_field : DmState JobTable InnerDB :=
  let r := first_exchange field_args 9000 (morning 0) 300000 field_addr field_srv (at_second 0) (at_second 1) field_server in
  bd_dm (sv_bd (exchange field_args (at_second 2) 9000 (morning 1) 300000 field_addr field_srv r.1.1 r.1.2 r.2).1.2).

(** The session of day [n] at 10:00; another device is stored meanwhile. *)
Definition field_day (n : Z) : Day :=
  mkDay (λ _, morning (n * 86400 + 3600)) (λ db, (mem_add_device (mkDevice (100 + n) None None None) db).2)
    (SockV4 10 0 0 7 50000) (λ i, at_second (n * 86400 + 3600 + Z.of_nat i)) (morning (n * 86400 + 3660)).

Lemma field_day_fair n : 0 <= n <= 3 → fair_day (dm_scheduler (dm enrolled_field)) 9000 (field_day n).
Proof.
  intros Hn. split.
  - intros i. unfold field_day, morning, ns_per_s. cbn [dy_clock]. lia.
  - intros i. split; [reflexivity|]. cbn [field_day dy_device at_second mi_stamp]. lia.
  - intros db. cbn [field_day dy_others]. split; [|reflexivity]. simpl. by rewrite lookup_insert_ne by lia.
  - assert (Hb : bucket_number (dm_scheduler (dm enrolled_field)) = 24) by eval_done. unfold can_schedule. rewrite Hb.
    assert (n = 0 ∨ n = 1 ∨ n = 2 ∨ n = 3) as [->|[->|[->| ->]]] by lia; clock_ok.
Qed.

Lemma device_served_every_day_witness : ∃ w',
  live_days field_args 9000 [field_day 1; field_day 2; field_day 3] (mkField enrolled_field (ready 9000 12340 0)) = Some w' ∧
  f_dev w' = ready 9000 12640 3 ∧ scheduled (f_dm w') 9000 (str "10.0.0.9") 10 (morning (4 * 86400 + 3600)).
Proof.
  destruct (device_served_every_day field_args 9000 (str "10.0.0.9") 10 ltac:(lia) ltac:(done) job_table_accepts
    [field_day 1; field_day 2; field_day 3] (mkField enrolled_field (ready 9000 12340 0)) 12340 0 (morning 3600 + ns_per_day))
    as (w' & Hrun & Hdev & Hs & _).
  - split.
    + eexists. split; [eval_done|]. split; reflexivity.
    + exists 7. eval_done.
    + vm_compute. split; [discriminate|reflexivity].
    + eexists. split; eval_done.
  - reflexivity.
  - eval_done.
  - repeat (apply Forall_cons_2; [apply field_day_fair; lia|]); apply Forall_nil_2.
  - split; [vm_compute; discriminate|]. split; [vm_compute; discriminate|]. split; [vm_compute; discriminate|done].
  - lia.
  - lia.
  - exists w'. split; [exact Hrun|]. split; [exact Hdev|]. revert Hs. vm_compute (from_option _ _ _). exact id.
Defined.
