(* ===== verification/RegistryLife.v ===== *)
(** * Many devices register

    [mock_registry] of [MockDevice.v] against the receive loop of the
    backdoor: it ends, and every device it played is registered, scheduled and
    in one of the least loaded buckets. *)

From S2P Require Import Prelude Bytes Net Float32 Node Database DatabaseFacts Calendar Scheduler SchedulerFacts DeviceManager DeviceManagerFacts Rlp DeviceMessage DeviceCodec Backdoor BackdoorFacts BackdoorExamples WakeUp WakeUpFacts DebugSession MockDevice MockDeviceFacts DeviceLife DeviceLifeExamples.

Local Open Scope Z_scope.
Local Open Scope hes_scope.

Lemma registry_imei_ok i : 0 <= i → text_ok (registry_imei i) ∧ Z.of_nat (length (registry_imei i)) <= 54.
Proof.
  intros Hi. assert (Ha : Forall (λ c, 0 <= c <= 127) (registry_imei i)).
  { unfold registry_imei. apply Forall_app_2; [by apply Forall_replicate|]. by apply digits_ascii. }
  split.
  - split; [|by apply utf8_valid_ascii]. eapply Forall_impl; [exact Ha|]. unfold is_byte. intros c Hc. simpl in Hc. lia.
  - unfold registry_imei. rewrite length_app, length_replicate.
    assert (Hd : ∀ f n, (length (digits f 10 n) <= f)%nat).
    { induction f as [|f IH]; intros n; cbn [digits]; [simpl; lia|].
      case_match; [simpl; lia|]. rewrite length_app. pose proof (IH (n / 10)). simpl. lia. }
    pose proof (Hd 39%nat i). unfold dec. lia.
Qed.

Section registry.
Context `{BytesCrate} `{RlpSize} `{ChronoCrate} `{HashOrder} {JS : Type} `{JobCrate JS}.
Implicit Types (st : Server JS InnerDB).

(** The rows of a device, and that they are the same in two states. *)
Definition untouched st st' (id : Z) : Prop :=
  devices (bd_db (sv_bd st')) !! id = devices (bd_db (sv_bd st)) !! id ∧
  buckets (bd_db (sv_bd st')) !! id = buckets (bd_db (sv_bd st)) !! id ∧
  registrations (sv_bd st') !! id = registrations (sv_bd st) !! id ∧
  scheduled_connections (bd_db (sv_bd st')) !! id = scheduled_connections (bd_db (sv_bd st)) !! id.

(** The handshake of one device, as a change of the state. *)
Record enrolled st st' (id : Z) (ip : list Z) (t b received : Z) : Prop := {
  en_least : least_bucket (bucket_load (bd_db (sv_bd st))) (bucket_number (bd_sched (sv_bd st))) b;
  en_devices : ∃ d, dev_ipv4 d = Some ip ∧ dev_ipv6 d = None ∧
    devices (bd_db (sv_bd st')) = <[id := d]> (devices (bd_db (sv_bd st)));
  en_buckets : ∃ node, buckets (bd_db (sv_bd st')) = <[id := (b, node)]> (buckets (bd_db (sv_bd st)));
  en_registrations : registrations (sv_bd st') = <[id := (Registered, received)]> (registrations (sv_bd st));
  en_job : ∃ j, bd_jobs (sv_bd st) !! j = None ∧
    scheduled_connections (bd_db (sv_bd st')) = <[id := awaiting_row id t j]> (scheduled_connections (bd_db (sv_bd st))) ∧
    bd_jobs (sv_bd st') = <[j := mkJob t id true]> (bd_jobs (sv_bd st));
  en_config : same_config (bd_sched (sv_bd st)) (bd_sched (sv_bd st'))
}.

Lemma enrolled_untouched st st' id ip t b received id' :
  enrolled st st' id ip t b received → id' ≠ id → untouched st st' id'.
Proof.
  intros [_ (d & _ & _ & Hd) (node & Hb) Hr (j & _ & Hc & _) _] Hne. unfold untouched.
  by rewrite Hd, Hb, Hr, Hc, !lookup_insert_ne by done.
Qed.

Lemma enrolled_scheduled st st' id ip t b received :
  enrolled st st' id ip t b received →
  registrations (sv_bd st') !! id = Some (Registered, received) ∧ scheduled (bd_dm (sv_bd st')) id ip b t ∧
  bd_jobs (sv_bd st) ⊆ bd_jobs (sv_bd st').
Proof.
  intros [Hl (d & Hip4 & Hip6 & Hd) (node & Hb) Hr (j & Hj & Hc & Hjobs) Hcfg]. split; [|split].
  - rewrite Hr. apply lookup_insert_eq.
  - split.
    + exists d. unfold bd_db in Hd. rewrite Hd. split; [apply lookup_insert_eq|done].
    + exists node. unfold bd_db in Hb. rewrite Hb. apply lookup_insert_eq.
    + destruct Hcfg as (Hn & _). unfold bd_sched in Hn. rewrite Hn. apply Hl.
    + exists j. unfold bd_db in Hc. unfold bd_jobs in Hjobs. rewrite Hc. split; [apply lookup_insert_eq|].
      rewrite Hjobs. apply lookup_insert_eq.
  - rewrite Hjobs. by apply insert_subseteq.
Qed.

Lemma scheduled_kept st st' id ip b t :
  scheduled (bd_dm (sv_bd st)) id ip b t → untouched st st' id → bd_jobs (sv_bd st) ⊆ bd_jobs (sv_bd st') →
  bucket_number (bd_sched (sv_bd st')) = bucket_number (bd_sched (sv_bd st)) → scheduled (bd_dm (sv_bd st')) id ip b t.
Proof.
  intros [Hd Hb Hr (j & Hc & Hj)] (Ud & Ub & _ & Uc) Hsub Hn. unfold bd_db in Ud, Ub, Uc. split.
  - by rewrite Ud.
  - by rewrite Ub.
  - unfold bd_sched in Hn. by rewrite Hn.
  - exists j. rewrite Uc. split; [done|]. by eapply lookup_weaken.
Qed.

(** ** The tool and the server *)
Section net.
Variables (number : Z) (room : nat) (timeout : Z) (addr : Z → SocketAddr).
Variables (fresh : nat → Uuid) (now : nat → Z) (clk : nat → RegistryInstant).

(** The receive loop takes the datagrams in turn, the [n]-th at [now n]; with what it sends. *)
Fixpoint server_turns (n : nat) (out : list (Z * list Z)) st : list (SocketAddr * Message) * Server JS InnerDB :=
  match out with
  | [] => ([], st)
  | (k, datagram) :: out' =>
      let st1 := loop_turn (fresh n) (now n) timeout (Received (addr k) datagram) st in
      let (sent, st2) := server_turns (S n) out' st1 in
      (new_sent (sv_bd st) (sv_bd st1) ++ sent, st2)
  end.

(** The tool reads the first datagram sent to its socket; without one it waits. *)
Fixpoint registry_run (fuel n : nat) (out : list (Z * list Z)) st (r : Registry) : Server JS InnerDB * Registry :=
  let (sent, st') := server_turns n out st in
  match fuel, r with
  | S f, RgWaiting k =>
      match filter (λ p, p.1 = addr k) sent with
      | (_, reply) :: _ =>
          let n' := (n + length out)%nat in
          let (out', r') := registry_step number (clk n') (clk (S n')) room (Some (message_encode reply)) r in
          registry_run f n' out' st' r'
      | [] => (st', r)
      end
  | _, _ => (st', r)
  end.
Definition registry_main st : Server JS InnerDB * Registry :=
  let (out, r) := registry_next number (clk 0) 1 in registry_run (Z.to_nat number) 0 out st r.

(** ** One handshake *)
Definition request_of (n : nat) (k : Z) : Message :=
  stamped (ri_stamp (clk n)) TRegisterRequest 0 0 (PayRegistryRequest (mkRegistryRequest (registry_imei k) (str "fe80::1"))).
Definition ack_of (n : nat) : Message := stamped (ri_stamp (clk (S n))) TAck (fresh n) 2 PayAck.

Hypothesis Hv4 : ∀ k, is_v4 (addr k) = true.
Hypothesis Hacc : accepts_jobs (JS := JS).
Hypothesis Hid : ∀ n, 0 <= fresh n < 2 ^ 128.
Hypothesis Hclk : ∀ n, ri_bind (clk n) = true ∧ ri_send (clk n) = true.
Hypothesis Hstamp : ∀ n, 0 <= ri_stamp (clk n) < 2 ^ 63 ∧ day_ok (ri_stamp (clk n) / 1000 / secs_per_day).

Lemma stamped_time n t id seq p :
  get_timestamp (stamped (ri_stamp (clk n)) t id seq p) = Ok (ri_stamp (clk n) * ns_per_ms).
Proof. exact (stamp_read (mkMockInstant 0 (ri_stamp (clk n)) true) t id seq p (Hstamp n)). Qed.

Lemma request_of_ok n k : 0 <= k → device_message_ok (request_of n k) ∧ message_size (request_of n k) <= 1024.
Proof.
  intros Hk. destruct (registry_imei_ok k Hk) as [Ht Hl]. split.
  - apply stamped_message_ok; [lia|lia|done|]. split; [done|]. by apply text_const.
  - unfold message_size, request_of. cbn [d_payload stamped payload_item rr_imei rr_ipv6]. size_bound.
Qed.
Lemma ack_of_ok n : device_message_ok (ack_of n) ∧ message_size (ack_of n) <= 1024.
Proof. split; [apply stamped_message_ok; (done || lia || apply Hid)|size_bound]. Qed.

Lemma handshake_turns n k st :
  0 <= k → 0 <= now n → 0 <= now (S n) →
  can_schedule (bd_sched (sv_bd st)) (now n) → can_schedule (bd_sched (sv_bd st)) (now (S n)) →
  reschedule_tx (bd_sched (sv_bd st)) = true → buckets (bd_db (sv_bd st)) !! fresh n = None →
  ∃ b st1 st2 confirmation,
    loop_turn (fresh n) (now n) timeout (Received (addr k) (message_encode (request_of n k))) st = st1 ∧
    new_sent (sv_bd st) (sv_bd st1)
    = [(addr k, register_answer (sv_bd st) (fresh n) (now n) (now n / ns_per_s) (request_of n k) b)] ∧
    loop_turn (fresh (S n)) (now (S n)) timeout (Received (addr k) (message_encode (ack_of n))) st1 = st2 ∧
    new_sent (sv_bd st1) (sv_bd st2) = [(addr k, confirmation)] ∧
    enrolled st st2 (fresh n) (ip_to_string (sock_ip (addr k))) (wake_time (bd_sched (sv_bd st)) (now (S n)) b) b
      (ri_stamp (clk (S n)) * ns_per_ms).
Proof.
  intros Hk Hn1%secs_nonneg Hn2%secs_nonneg Hs1 Hs2 Htx Hnew.
  destruct (handshake_ok (sv_bd st) (fresh n) (now n) (now n / ns_per_s) timeout _ (request_of n k) (addr k) Hs1 Hnew eq_refl
    (stamped_time _ _ _ _ _) Hn1 (now (S n)) (now (S n) / ns_per_s) (ack_of n) (addr k) _ (Hv4 k) Hacc Hs2 eq_refl eq_refl
    (stamped_time _ _ _ _ _) Hn2) as (b & j & s' & Hleast & Hreg & Hack & Hjf & Hjobs & Hcfg).
  destruct (request_of_ok n k Hk) as [Hmok Hmsz]. destruct (ack_of_ok n) as [Haok Hasz].
  set (bd1 := pending _ _ _ _ _ _ _ _ _) in *. set (bd2 := registered _ _ _ _ _ _ _ _ _) in *.
  exists b, (set_sv_bd bd1 st), (set_sv_bd bd2 (set_sv_bd bd1 st)).
  exists (stamped (now (S n) / ns_per_s) TAck (fresh n) (reply_seq (ack_of n)) PayAck). split_and!.
  - rewrite loop_turn_message by (done || by left). unfold backdoor_dispatch. cbn [d_type d_device_id request_of stamped Z.eqb].
    fold (request_of n k). by rewrite Hreg.
  - unfold new_sent. apply drop_app_length.
  - rewrite loop_turn_message by (done || by right). unfold backdoor_dispatch. cbn [d_type ack_of stamped]. fold (ack_of n).
    cbn [sv_bd set_sv_bd]. by rewrite Hack.
  - unfold new_sent. apply drop_app_length.
  - split; [done| | |apply insert_insert_eq| |done].
    + exists (new_device (fresh n) (request_of n k) (addr k)). pose proof (Hv4 k). by destruct (addr k).
    + by eexists.
    + exists j. split; [done|]. split; [done|]. rewrite Htx in Hjobs. exact Hjobs.
Qed.

(** ** The loop *)
Hypothesis Hnumber : 0 <= number < 2 ^ 32 - 1.
Hypothesis Hroom : (57 <= room)%nat.
Hypothesis Haddr : ∀ k, addr (k + 1) ≠ addr k.

Lemma registry_next_request n k : k <= number →
  registry_next number (clk n) k = ([(k, message_encode (request_of n k))], RgWaiting k).
Proof.
  intros Hk. unfold registry_next, registry_request, registry_send, new_register_request_message, wrap_u32.
  rewrite Z.mod_small by lia. destruct (Z.ltb_spec k (number + 1)); [|lia]. destruct (Hclk n) as [-> ->].
  by rewrite build_message_ok by apply Hstamp.
Qed.
Lemma registry_next_done n : registry_next number (clk n) (number + 1) = ([], RgDone).
Proof. unfold registry_next, wrap_u32. rewrite Z.mod_small by lia. by destruct (Z.ltb_spec (number + 1) (number + 1)); [lia|]. Qed.

Lemma answer_fits (bd : Backdoor JS InnerDB) n k b :
  let m := register_answer bd (fresh n) (now n) (now n / ns_per_s) (request_of n k) b in
  message_decode (take room (message_encode m)) = Ok (Some m).
Proof.
  intros m. assert (Hs : message_size m <= 57) by size_bound. apply received_message; [|lia|lia].
  apply stamped_message_ok; [apply Hid|done|done|]. split; [done|]. apply wrap_u64_range.
Qed.

Lemma registry_step_answer (bd : Backdoor JS InnerDB) n k b :
  registry_step number (clk (S n)) (clk (S (S n))) room
    (Some (message_encode (register_answer bd (fresh n) (now n) (now n / ns_per_s) (request_of n k) b))) (RgWaiting k)
  = ((k, message_encode (ack_of n)) :: (registry_next number (clk (S (S n))) (k + 1)).1,
     (registry_next number (clk (S (S n))) (k + 1)).2).
Proof.
  unfold registry_step, registry_ack. cbn [ok_or obind]. rewrite answer_fits. cbn [omap_err obind].
  unfold new_ack_message, registry_send. rewrite build_message_ok by apply Hstamp. cbn [omap_err obind].
  destruct (Hclk (S n)) as [_ ->]. cbn [obind]. by destruct (registry_next _ _ _).
Qed.

(** The confirmation goes to a socket nobody reads any more. *)
Lemma registry_run_confirmed f n k datagram out st st' m r :
  loop_turn (fresh n) (now n) timeout (Received (addr k) datagram) st = st' →
  new_sent (sv_bd st) (sv_bd st') = [(addr k, m)] → (∀ k', r = RgWaiting k' → addr k' ≠ addr k) →
  registry_run f n ((k, datagram) :: out) st r = registry_run f (S n) out st' r.
Proof.
  intros Hturn Hsent Hr. destruct f as [|f]; cbn [registry_run server_turns]; rewrite Hturn, Hsent;
    destruct (server_turns (S n) out st') as [sent st2]; [done|].
  destruct r as [k'| | |]; try done. cbn [app length]. rewrite filter_cons_False by (by intros ?; eapply Hr).
  by rewrite <- Nat.add_succ_comm.
Qed.

(** ** All devices *)
Hypothesis Hnow : ∀ n, 0 <= now n.
Let turns : nat := (2 * Z.to_nat number)%nat.
Hypothesis Hfresh : ∀ i j, (i < turns)%nat → (j < turns)%nat → fresh i = fresh j → i = j.

(** The state of the server is ready for the devices from turn [n] on. *)
Record ready_for st (n : nat) : Prop := {
  rf_schedule i : can_schedule (bd_sched (sv_bd st)) (now i);
  rf_channel : reschedule_tx (bd_sched (sv_bd st)) = true;
  rf_new i : (n <= i < turns)%nat → buckets (bd_db (sv_bd st)) !! fresh i = None;
  rf_balanced : balanced (buckets (bd_db (sv_bd st))) (bucket_number (bd_sched (sv_bd st)))
}.

Lemma enrolled_ready st st' n ip t b received :
  (n < turns)%nat → ready_for st n → enrolled st st' (fresh n) ip t b received → ready_for st' (S (S n)).
Proof.
  intros Hlt [Hs Htx Hnew Hbal] [Hl _ (node & Hb) _ _ (Hn & _ & _ & Ht & _)]. split.
  - intros i. unfold can_schedule. rewrite Hn. apply Hs.
  - by rewrite Ht.
  - intros i Hi. rewrite Hb, lookup_insert_ne by (intros ?%Hfresh; lia). apply Hnew. lia.
  - rewrite Hn, Hb. apply balanced_insert; [apply Hnew; lia|done|exact Hl].
Qed.

(** The device of turn [n], which sends from the address of [k], is registered and scheduled. *)
Definition served st st' (n : nat) (k : Z) : Prop :=
  registrations (sv_bd st') !! fresh n = Some (Registered, ri_stamp (clk (S n)) * ns_per_ms) ∧
  ∃ b, scheduled (bd_dm (sv_bd st')) (fresh n) (ip_to_string (sock_ip (addr k))) b
         (wake_time (bd_sched (sv_bd st)) (now (S n)) b).

(** Job [j] is the one the connection of the device of turn [n] names. *)
Definition job_of st' (n : nat) (j : Z) (w : WakeupJob) : Prop :=
  wj_device w = fresh n ∧ ∃ c, scheduled_connections (bd_db (sv_bd st')) !! fresh n = Some c ∧ job_id c = Some j.

(** What the tool leaves after [m] devices. *)
Record registry_result st st' (n m : nat) (k : Z) : Prop := {
  rr_served (j : nat) : (j < m)%nat → served st st' (n + 2 * j) (k + Z.of_nat j);
  rr_ready : ready_for st' (n + 2 * m);
  rr_others id : (∀ j, (j < m)%nat → id ≠ fresh (n + 2 * j)) → untouched st st' id;
  rr_jobs : bd_jobs (sv_bd st) ⊆ bd_jobs (sv_bd st');
  rr_size : size (bd_jobs (sv_bd st')) = (size (bd_jobs (sv_bd st)) + m)%nat;
  rr_new j w : bd_jobs (sv_bd st') !! j = Some w →
    bd_jobs (sv_bd st) !! j = Some w ∨ ∃ i, (i < m)%nat ∧ job_of st' (n + 2 * i) j w;
  rr_config : same_config (bd_sched (sv_bd st)) (bd_sched (sv_bd st'))
}.

Lemma registry_result_cons st st1 st' n m k t b received :
  (n + 2 * S m = turns)%nat → received = ri_stamp (clk (S n)) * ns_per_ms → t = wake_time (bd_sched (sv_bd st)) (now (S n)) b →
  enrolled st st1 (fresh n) (ip_to_string (sock_ip (addr k))) t b received →
  registry_result st1 st' (S (S n)) m (k + 1) → registry_result st st' n (S m) k.
Proof.
  intros Hlt -> -> Hen [Hserved Hready Hothers Hjobs Hsize Hnewj Hcfg]. pose proof (enrolled_scheduled _ _ _ _ _ _ _ Hen) as (Hreg & Hsch & Hsub).
  pose proof (en_config _ _ _ _ _ _ _ Hen) as Hcfg1. pose proof Hcfg1 as (Hbn & _ & _ & _ & Htm & _). split.
  - intros [|j] Hj.
    + rewrite Nat.add_0_r, Z.add_0_r. assert (Hout : untouched st1 st' (fresh n)) by (apply Hothers; intros j Hjm ?%Hfresh; lia).
      split; [destruct Hout as (_ & _ & -> & _); exact Hreg|]. exists b. eapply scheduled_kept; [exact Hsch|done|done|apply Hcfg].
    + destruct (Hserved j ltac:(lia)) as (Hr & b' & Hs).
      replace (n + 2 * S j)%nat with (S (S n) + 2 * j)%nat by lia. replace (k + Z.of_nat (S j)) with (k + 1 + Z.of_nat j) by lia.
      split; [done|]. exists b'. revert Hs. unfold wake_time. by rewrite Hbn, Htm.
  - by replace (n + 2 * S m)%nat with (S (S n) + 2 * m)%nat by lia.
  - intros id Hne. assert (H1' : untouched st st1 id).
    { eapply enrolled_untouched; [exact Hen|]. specialize (Hne 0%nat ltac:(lia)). by rewrite Nat.add_0_r in Hne. }
    assert (H2' : untouched st1 st' id).
    { apply Hothers. intros j Hj. specialize (Hne (S j) ltac:(lia)). by replace (n + 2 * S j)%nat with (S (S n) + 2 * j)%nat in Hne by lia. }
    unfold untouched in *. intuition congruence.
  - by etrans.
  - destruct (en_job _ _ _ _ _ _ _ Hen) as (j0 & Hj0 & _ & Hj1). rewrite Hsize, Hj1, map_size_insert_None by done. lia.
  - destruct (en_job _ _ _ _ _ _ _ Hen) as (j0 & Hj0 & Hc0 & Hj1). intros j w [Hw|(i & Hi & Hw)]%Hnewj.
    + rewrite Hj1 in Hw. apply lookup_insert_Some in Hw as [[<- <-]|[_ Hw]]; [|by left]. right. exists 0%nat. rewrite Nat.add_0_r.
      split; [lia|]. split; [done|]. assert (Hout : untouched st1 st' (fresh n)) by (apply Hothers; intros x Hx ?%Hfresh; lia).
      destruct Hout as (_ & _ & _ & ->). rewrite Hc0, lookup_insert_eq. by eexists.
    + right. exists (S i). split; [lia|]. by replace (n + 2 * S i)%nat with (S (S n) + 2 * i)%nat by lia.
  - by etrans.
Qed.

Lemma registry_run_ok m : ∀ k n st,
  Z.of_nat m = number + 1 - k → 1 <= k → (n + 2 * m = turns)%nat → ready_for st n →
  ∃ st', registry_run m n (registry_next number (clk n) k).1 st (registry_next number (clk n) k).2 = (st', RgDone) ∧
    registry_result st st' n m k.
Proof.
  induction m as [|m IH]; intros k n st Hm Hk Hlt Hready.
  - replace k with (number + 1) by lia. rewrite registry_next_done. exists st. split; [done|].
    split; [lia|by rewrite Nat.add_0_r|done|done|lia|by left|done].
  - rewrite registry_next_request by lia. cbn [fst snd].
    pose proof Hready as [Hs Htx Hnew _].
    destruct (handshake_turns n k st ltac:(lia) (Hnow n) (Hnow (S n)) (Hs n) (Hs (S n)) Htx (Hnew n ltac:(lia)))
      as (b & st1 & st2 & m2 & Hreq & Hsent1 & Hack & Hsent2 & Hen).
    destruct (IH (k + 1) (S (S n)) st2 ltac:(lia) ltac:(lia) ltac:(lia) ltac:(eapply enrolled_ready; [|done..]; lia)) as (st' & Hrun & Hres).
    exists st'. split; [|by eapply registry_result_cons].
    cbn [registry_run server_turns]. rewrite Hreq, Hsent1. cbn [app length]. rewrite filter_cons_True by done.
    rewrite Nat.add_1_r, registry_step_answer.
    rewrite (registry_run_confirmed m (S n) k _ _ st1 st2 m2); [exact Hrun|done|done|].
    intros k' Hk'. destruct (Z.le_gt_cases (k + 1) number) as [Hle|Hgt].
    + rewrite registry_next_request in Hk' by lia. injection Hk' as <-. apply Haddr.
    + replace (k + 1) with (number + 1) in Hk' by lia. by rewrite registry_next_done in Hk'.
Qed.

(** C9: A fleet registers. The registry tool, given a number of devices, ends after one
    handshake per device, over a network that loses nothing: the [k]-th device is then
    registered under the identifier the server drew for its request, with one pending job
    its connection names, at the next instant of its bucket; the buckets stay balanced; the
    rows of every other device and every job that was pending are as before, and the new jobs
    are exactly one for each registered device. A confirmation that arrives after the
    tool has moved on to the next socket does not disturb it. *)
Theorem registry_registers_all st (Hready : ready_for st 0) :
  ∃ st', registry_main st = (st', RgDone) ∧
    (∀ j, (j < Z.to_nat number)%nat → served st st' (2 * j) (1 + Z.of_nat j)) ∧
    balanced (buckets (bd_db (sv_bd st'))) (bucket_number (bd_sched (sv_bd st))) ∧
    (∀ id, (∀ j, (j < Z.to_nat number)%nat → id ≠ fresh (2 * j)) → untouched st st' id) ∧
    bd_jobs (sv_bd st) ⊆ bd_jobs (sv_bd st') ∧
    size (bd_jobs (sv_bd st')) = (size (bd_jobs (sv_bd st)) + Z.to_nat number)%nat ∧
    (∀ j w, bd_jobs (sv_bd st') !! j = Some w →
       bd_jobs (sv_bd st) !! j = Some w ∨ ∃ i, (i < Z.to_nat number)%nat ∧ job_of st' (2 * i) j w).
Proof.
  destruct (registry_run_ok (Z.to_nat number) 1 0 st ltac:(lia) ltac:(lia) ltac:(unfold turns; lia) Hready) as (st' & Hrun & [Hserved [_ _ _ Hbal] Hoth Hjobs Hsize Hnewj Hcfg]).
  exists st'. unfold registry_main. destruct (registry_next number (clk 0) 1) as [out r]. split; [exact Hrun|].
  split; [exact Hserved|]. destruct Hcfg as (Hn & _). rewrite Hn in Hbal. by split_and!.
Qed.
End net.
End registry.

(** ** Three devices register with node 7 of [BackdoorExamples.v] *)
#[local] Existing Instance gregorian.gregorian.
#[local] Existing Instance big_endian.big_endian.
#[local] Existing Instance rlp_format.rlp_format.
#[local] Existing Instance rlp_format.rlp_format_size.

Definition fleet_addr (k : Z) : SocketAddr := SockV4 10 0 0 20 (40000 + k).
Definition fleet_id (n : nat) : Z := 9000 + Z.of_nat n `mod` 100.
Definition fleet_clock (n : nat) : RegistryInstant := mkRegistryInstant 1704099600 true true.

Lemma taken_balanced : balanced taken 24.
Proof.
  assert (Hl : Forall (λ b, 0 <= table_load taken b <= 1) (seqZ 0 24)) by (apply (bool_decide_unpack _); vm_compute; exact I).
  rewrite Forall_forall in Hl. intros b b' Hb Hb'. pose proof (Hl b ltac:(apply elem_of_seqZ; lia)).
  pose proof (Hl b' ltac:(apply elem_of_seqZ; lia)). lia.
Qed.

Lemma registry_registers_all_witness : ∃ st',
  registry_main 3 64 300000 fleet_addr fleet_id (λ _, morning 0) fleet_clock field_server = (st', RgDone) ∧
  (∀ j, (j < 3)%nat → served fleet_addr fleet_id (λ _, morning 0) fleet_clock field_server st' (2 * j) (1 + Z.of_nat j)).
Proof.
  destruct (registry_registers_all 3 64 300000 fleet_addr fleet_id (λ _, morning 0) fleet_clock ltac:(done) job_table_accepts)
    with (st := field_server) as (st' & Hrun & Hserved & _).
  - intros n. pose proof (Z.mod_pos_bound (Z.of_nat n) 100 ltac:(lia)). unfold fleet_id. lia.
  - done.
  - intros n. clock_ok.
  - lia.
  - lia.
  - intros k. unfold fleet_addr. intros [= Heq]. lia.
  - intros n. clock_ok.
  - unfold fleet_id. intros i j Hi Hj. change (2 * Z.to_nat 3)%nat with 6%nat in *. rewrite !Z.mod_small by lia. lia.
  - split.
    + intros i. clock_ok.
    + eval_done.
    + intros i [_ Hi]. do 6 (destruct i as [|i]; [reflexivity|]). change (2 * Z.to_nat 3)%nat with 6%nat in Hi. lia.
    + exact taken_balanced.
  - exists st'. split; [exact Hrun|exact Hserved].
Defined.
