(* ===== verification/BackdoorPool.v ===== *)
(** * The tasks of the backdoor

    The receive loop of [init_backdoor] in [backdoor/backdoor.rs] with its
    handlers as tasks: a message that needs a handler gets a permit of a
    semaphore and a task of its own, and the loop waits when there is no
    permit. A handler is the point it has reached between two [await]s of
    database, device manager and socket; an operation of the device manager is
    one step, because it is made under its lock. *)

From S2P Require Import Prelude Bytes Net Float32 Node Database Calendar Scheduler DeviceManager Rlp DeviceMessage DeviceCodec Backdoor DebugSession.

Local Open Scope Z_scope.
Local Open Scope hes_scope.

Definition DEFAULT_MAX_CONCURRENT_HANDLERS : nat := 500.

(** The next thing a handler does. The first four points are of [handle_backdoor_register_msg],
    the next four of [handle_backdoor_ack_msg], the next five of
    [handle_backdoor_ip_update_msg] and [get_next_wake_time]; [HReply] sends the last message,
    if it could be built, and returns. *)
Inductive Handler :=
| HRegister
| HAdded (device : Device)
| HAssigned (device : Device) (next_wake_up : Z)
| HRecorded (device : Device) (response : Message)
| HAck
| HAckDevice (device : Device)
| HAckRead (device : Device) (registration : DeviceRegistration)
| HAckUpdated (device : Device)
| HUpdate
| HMove (device : Device)
| HNextWake
| HNoConnection
| HScheduled
| HReply (reply : outcome MessageError Message) (r : outcome BackdoorError unit)
| HEnded (r : outcome BackdoorError unit).

(** Which handler a message gets. *)
Definition handler_start (msg : Message) : option Handler :=
  match d_type msg with
  | TRegisterRequest => Some (if d_device_id msg =? 0 then HRegister else HUpdate)
  | TAck => Some HAck
  | _ => None
  end.

Section handler.
Context `{ChronoCrate} `{HashOrder} {JS DB : Type} `{JobCrate JS} `{Engine DB}.

(** The [?] after an [await]. *)
Definition hbind {A} (p : outcome BackdoorError A * Backdoor JS DB) (k : A → Handler) : Handler * Backdoor JS DB :=
  (match p.1 with Ok a => k a | Err e => HEnded (Err e) | Panic => HEnded Panic end, p.2).

Section step.
Variables (fresh : Uuid) (now now_s timeout : Z) (addr : SocketAddr) (msg : Message).

(** An error that is answered with a NACK before it is returned. *)
Definition hbind_nack {A} (code : Z) (p : outcome BackdoorError A * Backdoor JS DB) (k : A → Handler) : Handler * Backdoor JS DB :=
  (match p.1 with
   | Ok a => k a
   | Err e => HReply (new_nack_message now_s (d_device_id msg) (reply_seq msg) code) (Err e)
   | Panic => HEnded Panic
   end, p.2).

Definition update_reply (next_wake_time : Z) : Handler :=
  HReply (new_register_response_message now_s (d_device_id msg) (reply_seq msg) 0 next_wake_time) (Ok tt).

(** A handler runs to its next [await]. *)
Definition handler_step (h : Handler) (st : Backdoor JS DB) : Handler * Backdoor JS DB :=
  match h with
  | HRegister =>
      if negb (d_device_id msg =? 0) then (HEnded (Err RegisterRequestInvalidId), st)
      else
        let imei := match d_payload msg with PayRegistryRequest req => Some (rr_imei req) | _ => None end in
        let device := device_new fresh addr imei in
        hbind (bd_in_db (add_device device) st) (λ _, HAdded device)
  | HAdded device => hbind (bd_in_dm (dm_register_device now device) st) (HAssigned device)
  | HAssigned device next_wake_up =>
      hbind ((do! received <- bd_message (get_timestamp msg) ;
              do! _ <- bd_in_db (register_device (dev_id device) received) ;
              bd_message (new_register_response_message now_s (dev_id device) (reply_seq msg) 0 (timestamp_u64 next_wake_up))) st)
        (HRecorded device)
  | HRecorded device response =>
      hbind ((do! _ <- send_msg response addr ; spawn_ack_timeout_task timeout (dev_id device)) st) (λ _, HEnded (Ok tt))
  | HAck =>
      hbind ((do! device <- bd_in_db (get_device (d_device_id msg)) ;
              if decide (Some (ip_to_string (sock_ip addr)) ≠ dev_ipv4 device) then serr InvalidIp else sret device) st)
        HAckDevice
  | HAckDevice device => hbind (bd_in_db (get_device_registration (dev_id device)) st) (HAckRead device)
  | HAckRead device registration =>
      match registration_status registration with
      | AckTimeout => (HReply (new_nack_message now_s (d_device_id msg) (reply_seq msg) NACK_INTERNAL_ERROR) (Ok tt), st)
      | Registered => (HReply (new_ack_message now_s (d_device_id msg) (reply_seq msg)) (Ok tt), st)
      | PendingAck =>
          hbind ((do! received <- bd_message (get_timestamp msg) ;
                  bd_in_db (update_device_registration (dev_id device) (Some Registered) (Some received))) st)
            (λ _, HAckUpdated device)
      end
  | HAckUpdated device =>
      hbind (bd_in_dm (schedule_next_wakeup now (dev_id device)) st)
        (λ _, HReply (new_ack_message now_s (d_device_id msg) (reply_seq msg)) (Ok tt))
  | HUpdate => hbind_nack NACK_DEVICE_NOT_FOUND (bd_in_db (get_device (d_device_id msg)) st) HMove
  | HMove device =>
      hbind_nack NACK_INTERNAL_ERROR (bd_in_db (modify_device (with_address addr device)) st) (λ _, HNextWake)
  | HNextWake =>
      let (r, st1) := bd_in_db (get_scheduled_connection (d_device_id msg)) st in
      match r with
      | Ok conn => (update_reply (timestamp_u64 (schedule_time conn)), st1)
      | Err _ => (HNoConnection, st1)
      | Panic => (HEnded Panic, st1)
      end
  | HNoConnection =>
      hbind_nack NACK_INTERNAL_ERROR (bd_in_dm (schedule_next_wakeup now (d_device_id msg)) st) (λ _, HScheduled)
  | HScheduled =>
      hbind_nack NACK_INTERNAL_ERROR (bd_in_db (get_scheduled_connection (d_device_id msg)) st)
        (λ conn, update_reply (timestamp_u64 (schedule_time conn)))
  | HReply reply r => (HEnded r, (send_if_ok reply addr st).2)
  | HEnded r => (HEnded r, st)
  end.

(** [n] steps in a row. *)
Fixpoint handler_run (n : nat) (h : Handler) (st : Backdoor JS DB) : Handler * Backdoor JS DB :=
  match n with
  | O => (h, st)
  | S n' => let (h', st') := handler_step h st in handler_run n' h' st'
  end.
End step.
End handler.

(** ** The loop and its tasks *)
Record HandlerTask := mkHandlerTask { ht_addr : SocketAddr; ht_msg : Message; ht_state : Handler }.
Definition ended (h : Handler) : bool := match h with HEnded _ => true | _ => false end.
Definition live (t : HandlerTask) : bool := negb (ended (ht_state t)).

Section pool.
Context `{BytesCrate} `{RlpCrate} `{ChronoCrate} `{HashOrder} {JS DB : Type} `{JobCrate JS} `{Engine DB}.

(** [pl_free] is the semaphore, [pl_waiting] the message the loop has taken and for which
    it waits for a permit, [pl_handlers] every handler spawned so far. *)
Record Pool := mkPool {
  pl_server : Server JS DB;
  pl_free : nat;
  pl_waiting : option (SocketAddr * Message);
  pl_handlers : list HandlerTask
}.
Definition set_pl_server (s : Server JS DB) (p : Pool) : Pool := mkPool s (pl_free p) (pl_waiting p) (pl_handlers p).

Definition pool_new (bd : Backdoor JS DB) (ip port : list Z) (max_concurrent_handlers : option nat) : Pool :=
  mkPool (bd_new bd ip port) (default DEFAULT_MAX_CONCURRENT_HANDLERS max_concurrent_handlers) None [].

(** The handler of a message is spawned with a permit. *)
Definition spawn_handler (addr : SocketAddr) (msg : Message) (h : Handler) (p : Pool) : Pool :=
  mkPool (pl_server p) (pl_free p - 1) None (pl_handlers p ++ [mkHandlerTask addr msg h]).

(** The dispatch of a message that was not routed to a session. Only handlers need an
    identifier and the clock. *)
Definition pool_dispatch (addr : SocketAddr) (msg : Message) (p : Pool) : Pool :=
  match handler_start msg with
  | Some h =>
      if (0 <? pl_free p)%nat then spawn_handler addr msg h p
      else mkPool (pl_server p) (pl_free p) (Some (addr, msg)) (pl_handlers p)
  | None => set_pl_server (bd_route 0 0 0 addr msg (pl_server p)) p
  end.

(** One turn of the loop, unless it waits for a permit. *)
Definition pool_turn (input : LoopInput) (p : Pool) : Pool :=
  match pl_waiting p, input with
  | Some _, _ => p
  | None, Received addr datagram =>
      match message_decode (take UDP_BUFFER_SIZE datagram) with
      | Ok (Some msg) =>
          match try_route addr msg (pl_server p) with
          | Some s => set_pl_server s p
          | None => pool_dispatch addr msg p
          end
      | _ => p
      end
  | None, _ => set_pl_server (loop_turn 0 0 0 input (pl_server p)) p
  end.

(** [acquire_owned] answers. *)
Definition pool_permit (p : Pool) : Pool :=
  match pl_waiting p with
  | Some (addr, msg) =>
      match handler_start msg with
      | Some h => if (0 <? pl_free p)%nat then spawn_handler addr msg h p else p
      | None => p
      end
  | None => p
  end.

(** Handler [k] runs to its next [await]; when it is over, also by a panic, its permit is
    dropped. *)
Definition pool_handler (k : nat) (fresh : Uuid) (now timeout : Z) (p : Pool) : Pool :=
  match pl_handlers p !! k with
  | Some t =>
      if live t then
        let (h, bd) := handler_step fresh now (now / ns_per_s) timeout (ht_addr t) (ht_msg t) (ht_state t) (sv_bd (pl_server p)) in
        mkPool (set_sv_bd bd (pl_server p)) (if ended h then S (pl_free p) else pl_free p) (pl_waiting p)
          (<[k := mkHandlerTask (ht_addr t) (ht_msg t) h]> (pl_handlers p))
      else p
  | None => p
  end.

(** What runs next: the loop, the loop that gets its permit, a handler, a timeout task, a
    debug session, or another task of the node. *)
Inductive PoolEvent :=
| PLoop (input : LoopInput)
| PPermit
| PHandler (k : nat) (fresh : Uuid) (now : Z)
| PAckTimeout (k : nat) (now : Z)
| PSession (k : nat) (i : Instant)
| PSessionTimeout (k : nat)
| POther (f : Backdoor JS DB → Backdoor JS DB).

Definition pool_step (timeout : Z) (e : PoolEvent) (p : Pool) : Pool :=
  match e with
  | PLoop input => pool_turn input p
  | PPermit => pool_permit p
  | PHandler k fresh now => pool_handler k fresh now timeout p
  | PAckTimeout k now => set_pl_server (set_sv_bd (ack_timeout_task k now (sv_bd (pl_server p))).2 (pl_server p)) p
  | PSession k i => set_pl_server (task_run k i (pl_server p)) p
  | PSessionTimeout k => set_pl_server (task_timeout k (pl_server p)) p
  | POther f => set_pl_server (set_sv_bd (f (sv_bd (pl_server p))) (pl_server p)) p
  end.
Definition pool_run (timeout : Z) (es : list PoolEvent) (p : Pool) : Pool := fold_left (λ p e, pool_step timeout e p) es p.
End pool.
Arguments Pool JS DB : clear implicits.
Arguments PoolEvent JS DB : clear implicits.
