(* ===== verification/BackdoorPoolFacts.v ===== *)
(** * Theorems on the tasks of the backdoor

    A handler run without interruption is the handler of [Backdoor.v], so the
    loop of [DebugSession.v] is the special case in which handlers do not
    interleave; the number of handlers is bounded and no message is lost;
    under every interleaving of handlers registered devices have a job or a
    handler that is about to make it. *)

From S2P Require Import Prelude Bytes Net Float32 Node Database DatabaseFacts Calendar Scheduler SchedulerFacts DeviceManager DeviceManagerFacts Rlp DeviceMessage DeviceCodec Backdoor BackdoorFacts DebugSession BackdoorPool.

Local Open Scope Z_scope.
Local Open Scope hes_scope.

(** ** A handler without interruption *)
Section whole.
Context `{ChronoCrate} `{HashOrder} {JS DB : Type} `{JobCrate JS} `{Engine DB}.
Variables (fresh : Uuid) (now now_s timeout : Z) (addr : SocketAddr) (msg : Message).
Implicit Types (st : Backdoor JS DB).

(** What is left of a handler at each of its points. *)
Definition rest_recorded (device : Device) (response : Message) : BD JS DB unit :=
  do! _ <- send_msg response addr ; spawn_ack_timeout_task timeout (dev_id device).
Definition rest_assigned (device : Device) (next_wake_up : Z) : BD JS DB unit :=
  do! received <- bd_message (get_timestamp msg) ;
  do! _ <- bd_in_db (register_device (dev_id device) received) ;
  do! response <- bd_message
    (new_register_response_message now_s (dev_id device) (reply_seq msg) 0 (timestamp_u64 next_wake_up)) ;
  rest_recorded device response.
Definition rest_updated (device : Device) : BD JS DB unit :=
  do! _ <- bd_in_dm (schedule_next_wakeup now (dev_id device)) ;
  send_if_ok (new_ack_message now_s (d_device_id msg) (reply_seq msg)) addr.
Definition rest_read (device : Device) : BD JS DB unit :=
  do! registration <- bd_in_db (get_device_registration (dev_id device)) ;
  ack_act now now_s msg addr device registration.
Definition update_answer (next_wake_time : Z) : BD JS DB unit :=
  send_if_ok (new_register_response_message now_s (d_device_id msg) (reply_seq msg) 0 next_wake_time) addr.
Definition rest_wake (next : BD JS DB Z) : BD JS DB unit :=
  do! next_wake_time <- or_nack now_s msg addr NACK_INTERNAL_ERROR next ; update_answer next_wake_time.
Definition wake_scheduled : BD JS DB Z :=
  do! conn <- bd_in_db (get_scheduled_connection (d_device_id msg)) ; sret (timestamp_u64 (schedule_time conn)).
Definition rest_move (device : Device) : BD JS DB unit :=
  do! _ <- or_nack now_s msg addr NACK_INTERNAL_ERROR (bd_in_db (modify_device (with_address addr device))) ;
  rest_wake (get_next_wake_time now (d_device_id msg)).

Definition handler_rest (h : Handler) : BD JS DB unit :=
  match h with
  | HRegister => handle_backdoor_register_msg fresh now now_s msg addr timeout
  | HAdded device => do! next_wake_up <- bd_in_dm (dm_register_device now device) ; rest_assigned device next_wake_up
  | HAssigned device next_wake_up => rest_assigned device next_wake_up
  | HRecorded device response => rest_recorded device response
  | HAck => handle_backdoor_ack_msg now now_s msg addr
  | HAckDevice device => rest_read device
  | HAckRead device registration => ack_act now now_s msg addr device registration
  | HAckUpdated device => rest_updated device
  | HUpdate => handle_backdoor_ip_update_msg now now_s msg addr
  | HMove device => rest_move device
  | HNextWake => rest_wake (get_next_wake_time now (d_device_id msg))
  | HNoConnection => rest_wake (do! _ <- bd_in_dm (schedule_next_wakeup now (d_device_id msg)) ; wake_scheduled)
  | HScheduled => rest_wake wake_scheduled
  | HReply reply r => do! _ <- send_if_ok reply addr ; slift r
  | HEnded r => slift r
  end.

(** How many steps it takes at most. *)
Definition handler_cost (h : Handler) : nat :=
  match h with
  | HUpdate => 6
  | HAck | HMove _ => 5
  | HRegister | HAckDevice _ | HNextWake => 4
  | HAdded _ | HAckRead _ _ | HNoConnection => 3
  | HAssigned _ _ | HAckUpdated _ | HScheduled => 2
  | HRecorded _ _ | HReply _ _ => 1
  | HEnded _ => 0
  end.

Lemma send_if_ok_returns o st : ∃ st', send_if_ok o addr st = (Ok tt, st').
Proof. by destruct o; eexists. Qed.

Lemma hbind_rest {A} (m : BD JS DB A) (k : A → Handler) (f : A → BD JS DB unit) st h' st' :
  (∀ a s, f a s = handler_rest (k a) s) → hbind (m st) k = (h', st') → sbind m f st = handler_rest h' st'.
Proof. intros Hf Hrun. unfold sbind. destruct (m st) as [[a|e|] s]; injection Hrun as <- <-; [apply Hf|done..]. Qed.

Lemma hbind_nack_rest {A} code (m : BD JS DB A) (k : A → Handler) (f : A → BD JS DB unit) st h' st' :
  (∀ a s, f a s = handler_rest (k a) s) → hbind_nack now_s msg code (m st) k = (h', st') →
  sbind (or_nack now_s msg addr code m) f st = handler_rest h' st'.
Proof.
  intros Hf Hrun. unfold or_nack, sbind, sresult. destruct (m st) as [[a|e|] s]; injection Hrun as <- <-; [apply Hf| |done].
  cbn [handler_rest]. unfold sbind. by destruct (send_if_ok_returns (new_nack_message now_s (d_device_id msg) (reply_seq msg) code) s) as [s' ->].
Qed.

Lemma hbind_nack_then {A} (m : BD JS DB A) (n : A → BD JS DB Z) (k : A → Handler) st h' st' :
  (∀ a s, rest_wake (n a) s = handler_rest (k a) s) → hbind_nack now_s msg NACK_INTERNAL_ERROR (m st) k = (h', st') →
  rest_wake (sbind m n) st = handler_rest h' st'.
Proof.
  intros Hk Hrun. rewrite <- (hbind_nack_rest _ m k (λ a, rest_wake (n a)) _ _ _ Hk Hrun).
  unfold rest_wake, or_nack, sbind, sresult. destruct (m st) as [[a|e|] s]; [done| |done].
  by destruct (send_if_ok_returns (new_nack_message now_s (d_device_id msg) (reply_seq msg) NACK_INTERNAL_ERROR) s) as [s' ->].
Qed.

(** A step does the beginning of what is left, and makes progress. *)
Lemma handler_step_rest h st h' st' :
  handler_step fresh now now_s timeout addr msg h st = (h', st') → handler_rest h st = handler_rest h' st'.
Proof.
  assert (Hret : ∀ o s, send_if_ok o addr s = handler_rest (HReply o (Ok tt)) s).
  { intros o s. cbn [handler_rest]. unfold sbind. by destruct (send_if_ok_returns o s) as [s' ->]. }
  destruct h; cbn [handler_step handler_rest]; intros Hrun.
  - unfold handle_backdoor_register_msg. destruct (negb _); [by injection Hrun as <- <-|].
    eapply hbind_rest; [|exact Hrun]. done.
  - by eapply hbind_rest; [|exact Hrun].
  - unfold rest_assigned. rewrite <- (hbind_rest _ (HRecorded device) (rest_recorded device) _ _ _ (λ _ _, eq_refl) Hrun).
    rewrite sbind_sbind. apply sbind_ext. intros received s. by rewrite sbind_sbind.
  - unfold rest_recorded. unfold sbind in *. cbn in Hrun. by injection Hrun as <- <-.
  - unfold handle_backdoor_ack_msg, ack_read. rewrite <- (hbind_rest _ HAckDevice rest_read _ _ _ (λ _ _, eq_refl) Hrun).
    rewrite !sbind_sbind. apply sbind_ext. intros d s. destruct (decide _); [done|]. by rewrite sbind_sbind.
  - by eapply hbind_rest; [|exact Hrun].
  - unfold ack_act. destruct (registration_status registration).
    2: { rewrite <- (hbind_rest _ (λ _, HAckUpdated device) (λ _, rest_updated device) _ _ _ (λ _ _, eq_refl) Hrun), sbind_sbind. done. }
    all: injection Hrun as <- <-; apply Hret.
  - by eapply hbind_rest; [|exact Hrun].
  - by eapply hbind_nack_rest; [|exact Hrun].
  - by eapply hbind_nack_rest; [|exact Hrun].
  - unfold rest_wake, get_next_wake_time. unfold or_nack, sbind, sresult. destruct (bd_in_db _ st) as [[c|e|] s]; injection Hrun as <- <-.
    + apply Hret.
    + reflexivity.
    + done.
  - eapply hbind_nack_then; [|exact Hrun]. done.
  - eapply hbind_nack_then; [|exact Hrun]. intros conn s. apply Hret.
  - cbn in Hrun. injection Hrun as <- <-. unfold sbind. by destruct (send_if_ok_returns reply st) as [s' ->].
  - by injection Hrun as <- <-.
Qed.

Lemma handler_step_cost h st h' st' :
  ended h = false → handler_step fresh now now_s timeout addr msg h st = (h', st') → (handler_cost h' < handler_cost h)%nat.
Proof.
  intros Hlive Hrun. destruct h; try done; cbn [handler_step] in Hrun; unfold hbind, hbind_nack, update_reply in Hrun;
    repeat case_match; simplify_eq; simpl; lia.
Qed.

(** Enough steps in a row do what is left. *)
Lemma handler_run_rest n h st : (handler_cost h ≤ n)%nat →
  handler_run fresh now now_s timeout addr msg n h st = (HEnded (handler_rest h st).1, (handler_rest h st).2).
Proof.
  revert h st. induction n as [|n IH]; intros h st Hn; cbn [handler_run].
  - by destruct h; try (simpl in Hn; lia).
  - destruct (handler_step _ _ _ _ _ _ h st) as [h' st'] eqn:Hrun. rewrite (handler_step_rest _ _ _ _ Hrun). apply IH.
    destruct (ended h) eqn:He; [destruct h; try done; simpl in Hrun; injection Hrun as <- _; simpl; lia|].
    pose proof (handler_step_cost _ _ _ _ He Hrun). lia.
Qed.

Lemma handler_run_whole h st : handler_start msg = Some h →
  handler_run fresh now now_s timeout addr msg 6 h st
  = (HEnded (backdoor_dispatch fresh now now_s timeout addr msg st).1, (backdoor_dispatch fresh now now_s timeout addr msg st).2).
Proof.
  intros Hstart. rewrite handler_run_rest; unfold handler_start, backdoor_dispatch in *;
    destruct (d_type msg); try done; try (destruct (_ =? 0)); injection Hstart as <-; (done || (simpl; lia)).
Qed.
End whole.

(** ** The pool *)
Section pool.
Context `{BytesCrate} `{RlpCrate} `{ChronoCrate} `{HashOrder} {JS DB : Type} `{JobCrate JS} `{Engine DB}.
Implicit Types (p : Pool JS DB) (e : PoolEvent JS DB).

Definition live_count (l : list HandlerTask) : nat := length (filter (λ t, live t = true) l).

Lemma live_count_app l l' : live_count (l ++ l') = (live_count l + live_count l')%nat.
Proof. unfold live_count. by rewrite filter_app, length_app. Qed.

Lemma live_count_insert l k t t' : l !! k = Some t →
  (live_count (<[k := t']> l) + (if live t then 1 else 0) = live_count l + (if live t' then 1 else 0))%nat.
Proof.
  intros Hk. rewrite insert_take_drop by (by eapply lookup_lt_Some). rewrite <- (take_drop_middle l k t Hk) at 3.
  rewrite !live_count_app. unfold live_count at 2 4. rewrite !filter_cons. destruct (live t), (live t'); simpl; unfold live_count; lia.
Qed.

(** The messages that were given a handler, in order, and the one that waits for it. *)
Definition pool_messages p : list (SocketAddr * Message) :=
  ((λ t, (ht_addr t, ht_msg t)) <$> pl_handlers p) ++ option_list (pl_waiting p).

(** The message an event brings that needs a handler. *)
Definition pool_accepts e p : list (SocketAddr * Message) :=
  match e, pl_waiting p with
  | PLoop (Received addr datagram), None =>
      match message_decode (take UDP_BUFFER_SIZE datagram) with
      | Ok (Some msg) =>
          match try_route addr msg (pl_server p), handler_start msg with
          | None, Some _ => [(addr, msg)]
          | _, _ => []
          end
      | _ => []
      end
  | _, _ => []
  end.

Record pool_inv (max : nat) p : Prop := {
  pi_permits : (pl_free p + live_count (pl_handlers p) = max)%nat;
  pi_waiting addr msg : pl_waiting p = Some (addr, msg) → is_Some (handler_start msg)
}.

Lemma spawn_handler_inv max addr msg h p :
  pool_inv max p → (0 < pl_free p)%nat → ended h = false → pool_inv max (spawn_handler addr msg h p).
Proof.
  intros [Hp _] Hf Hh. split; [|done]. cbn [spawn_handler pl_free pl_handlers]. rewrite live_count_app.
  unfold live_count at 2. rewrite filter_cons_True by (unfold live; simpl; by rewrite Hh). simpl. lia.
Qed.

Lemma handler_start_live msg h : handler_start msg = Some h → ended h = false.
Proof. unfold handler_start. destruct (d_type msg); try done; [|by intros [= <-]]. by destruct (_ =? 0); intros [= <-]. Qed.

(** A change of the server alone. *)
Lemma server_inv max s p : pool_inv max p → pool_inv max (set_pl_server s p).
Proof. by intros []. Qed.
#[local] Hint Resolve server_inv spawn_handler_inv handler_start_live : core.

Lemma pool_handler_inv max k fresh now timeout p : pool_inv max p → pool_inv max (pool_handler k fresh now timeout p).
Proof.
  intros [Hp Hw]. unfold pool_handler. destruct (pl_handlers p !! k) as [t|] eqn:Hk; [|by split].
  destruct (live t) eqn:Hl; [|by split]. destruct (handler_step _ _ _ _ _ _ _ _) as [h bd]. split; [|exact Hw].
  cbn [pl_free pl_handlers]. pose proof (live_count_insert (pl_handlers p) k t (mkHandlerTask (ht_addr t) (ht_msg t) h) Hk) as Hc.
  rewrite Hl in Hc. unfold live in Hc. cbn [ht_state] in Hc. destruct (ended h); simpl in Hc; lia.
Qed.

Lemma pool_step_inv max timeout e p : pool_inv max p → pool_inv max (pool_step timeout e p).
Proof.
  intros Hinv. destruct e; cbn [pool_step]; auto using pool_handler_inv.
  - unfold pool_turn, pool_dispatch. destruct (pl_waiting p) eqn:Hw; [done|]. destruct input; auto.
    repeat case_match; auto.
    + apply spawn_handler_inv; eauto. by apply Nat.ltb_lt.
    + destruct Hinv as [Hp _]. split; [done|]. cbn [pl_waiting]. intros addr' msg' [= <- <-]. eauto.
  - unfold pool_permit. repeat case_match; auto. apply spawn_handler_inv; eauto. by apply Nat.ltb_lt.
Qed.

Lemma messages_handler k fresh now timeout p : pool_messages (pool_handler k fresh now timeout p) = pool_messages p.
Proof.
  unfold pool_handler. destruct (pl_handlers p !! k) as [t|] eqn:Hk; [|done]. destruct (live t); [|done].
  destruct (handler_step _ _ _ _ _ _ _ _) as [h bd]. unfold pool_messages. cbn [pl_handlers pl_waiting]. f_equal.
  rewrite list_fmap_insert. cbn [ht_addr ht_msg]. apply list_insert_id. by rewrite list_lookup_fmap, Hk.
Qed.

Lemma messages_spawn addr msg h p : pool_messages (spawn_handler addr msg h p) = ((λ t, (ht_addr t, ht_msg t)) <$> pl_handlers p) ++ [(addr, msg)].
Proof. unfold pool_messages. cbn [spawn_handler pl_handlers pl_waiting]. by rewrite fmap_app, app_nil_r. Qed.

Lemma pool_step_messages timeout e p : pool_messages (pool_step timeout e p) = pool_messages p ++ pool_accepts e p.
Proof.
  destruct e; cbn [pool_step pool_accepts]; rewrite ?app_nil_r; try done; [| |apply messages_handler].
  - unfold pool_turn, pool_dispatch. destruct (pl_waiting p) eqn:Hw; [by destruct input; rewrite app_nil_r|].
    destruct input; rewrite ?app_nil_r; try done. repeat case_match; rewrite ?app_nil_r; try done.
    + rewrite messages_spawn. unfold pool_messages. by rewrite Hw, app_nil_r.
    + unfold pool_messages. by rewrite Hw, app_nil_r.
  - unfold pool_permit. repeat case_match; try done. rewrite messages_spawn. unfold pool_messages.
    match goal with Hx : pl_waiting p = _ |- _ => by rewrite Hx end.
Qed.

(** Everything that was accepted in a run, in order. *)
Fixpoint pool_accepted (timeout : Z) (es : list (PoolEvent JS DB)) p : list (SocketAddr * Message) :=
  match es with
  | [] => []
  | e :: es' => pool_accepts e p ++ pool_accepted timeout es' (pool_step timeout e p)
  end.

Lemma pool_run_inv max timeout es p : pool_inv max p →
  pool_inv max (pool_run timeout es p) ∧ pool_messages (pool_run timeout es p) = pool_messages p ++ pool_accepted timeout es p.
Proof.
  unfold pool_run. revert p. induction es as [|e es IH]; intros p Hinv; cbn [fold_left pool_accepted]; [by rewrite app_nil_r|].
  destruct (IH _ (pool_step_inv max timeout e p Hinv)) as [Hi Hm]. split; [done|].
  by rewrite Hm, pool_step_messages, (assoc_L (++)).
Qed.

Lemma pool_new_inv bd ip port max : pool_inv (default DEFAULT_MAX_CONCURRENT_HANDLERS max) (pool_new bd ip port max).
Proof. split; [apply Nat.add_0_r|done]. Qed.

(** C13: The handlers of the backdoor are bounded and no message is lost. From its start, and
    under every interleaving of the loop, the handlers, the timeout tasks, the debug sessions
    and the other tasks of the node: the free permits and the running handlers are together
    the limit, so there are never more handlers than the limit and a permit is given back
    when its handler ends, by an error or a panic too; and the messages that were given a
    handler, with the one the loop waits with, are exactly the registration requests,
    address changes and ACKs it has received, each once and in their order. *)
Theorem handlers_bounded (timeout : Z) (bd : Backdoor JS DB) (ip port : list Z) (max : option nat) (es : list (PoolEvent JS DB)) :
  let p := pool_run timeout es (pool_new bd ip port max) in
  (pl_free p + live_count (pl_handlers p) = default DEFAULT_MAX_CONCURRENT_HANDLERS max)%nat ∧
  ((λ t, (ht_addr t, ht_msg t)) <$> pl_handlers p) ++ option_list (pl_waiting p)
  = pool_accepted timeout es (pool_new bd ip port max).
Proof. destruct (pool_run_inv _ timeout es _ (pool_new_inv bd ip port max)) as [[Hp _] Hm]. by split. Qed.

(** ** Progress *)

(** The turns of handler [k], at whatever instants. *)
Definition turns_of (k : nat) (l : list (Uuid * Z)) : list (PoolEvent JS DB) := (λ x, PHandler k x.1 x.2) <$> l.

Lemma pool_run_cons timeout e es p : pool_run timeout (e :: es) p = pool_run timeout es (pool_step timeout e p).
Proof. reflexivity. Qed.

Lemma ended_turns k l timeout p t : pl_handlers p !! k = Some t → live t = false → pool_run timeout (turns_of k l) p = p.
Proof.
  intros Hk Hl. assert (Hstay : ∀ fresh now, pool_handler k fresh now timeout p = p) by (intros; unfold pool_handler; by rewrite Hk, Hl).
  unfold pool_run, turns_of. induction l as [|[fresh now] l IH]; [done|].
  cbn [fmap list_fmap fold_left pool_step fst snd]. by rewrite Hstay.
Qed.

Lemma live_turns k l timeout p t :
  pl_handlers p !! k = Some t → live t = true → (handler_cost (ht_state t) ≤ length l)%nat →
  let p' := pool_run timeout (turns_of k l) p in pl_free p' = S (pl_free p) ∧ pl_waiting p' = pl_waiting p.
Proof.
  revert p t. induction l as [|[fresh now] l IH]; intros p t Hk Hl Hc p'.
  { destruct t as [a m []]; simpl in Hc; (lia || done). }
  change p' with (pool_run timeout (turns_of k l) (pool_handler k fresh now timeout p)). clear p'.
  unfold pool_handler. rewrite Hk, Hl. destruct (handler_step _ _ _ _ _ _ _ _) as [h bd] eqn:Hrun. set (q := mkPool _ _ _ _).
  assert (He : ended (ht_state t) = false) by (by apply negb_true_iff).
  pose proof (handler_step_cost _ _ _ _ _ _ _ _ _ _ He Hrun) as Hlt. simpl in Hc.
  assert (Hq : pl_handlers q !! k = Some (mkHandlerTask (ht_addr t) (ht_msg t) h))
    by (subst q; simpl; apply list_lookup_insert_eq; by eapply lookup_lt_Some).
  destruct (ended h) eqn:Hh.
  - rewrite (ended_turns k l timeout q _ Hq) by (unfold live; simpl; by rewrite Hh). done.
  - destruct (IH q _ Hq) as [-> ->]; [unfold live; simpl; by rewrite Hh|simpl; lia|done].
Qed.

Lemma live_exists l : (0 < live_count l)%nat → ∃ k t, l !! k = Some t ∧ live t = true.
Proof.
  intros Hl. destruct (filter (λ t, live t = true) l) as [|t f] eqn:Hf; [unfold live_count in Hl; rewrite Hf in Hl; simpl in Hl; lia|].
  assert (Ht : t ∈ filter (λ t, live t = true) l) by (rewrite Hf; left).
  apply list_elem_of_filter in Ht as [Hlive Hin]. apply list_elem_of_lookup in Hin as [k Hk]. by exists k, t.
Qed.

(** C14: The loop never waits for ever. With a limit of at least one handler, in every state
    the backdoor can reach in which the loop waits for a permit: if none is free a handler
    is running, and six turns of any running handler, at whatever instants and whatever the
    database and the device manager answer, end it; the loop then gets the permit, the
    message it waited with has its handler, and the loop goes on. *)
Theorem waiting_message_is_handled (timeout : Z) (bd : Backdoor JS DB) (ip port : list Z) (max : option nat)
    (es : list (PoolEvent JS DB)) (addr : SocketAddr) (msg : Message)
    (Hmax : max ≠ Some 0%nat)
    (Hwait : pl_waiting (pool_run timeout es (pool_new bd ip port max)) = Some (addr, msg)) :
  let p := pool_run timeout es (pool_new bd ip port max) in
  (0 < pl_free p ∨ ∃ k t, pl_handlers p !! k = Some t ∧ live t = true)%nat ∧
  (∀ k t l, pl_handlers p !! k = Some t → live t = true → length l = 6%nat →
    let p' := pool_run timeout (turns_of k l ++ [PPermit]) p in
    pl_waiting p' = None ∧ ∃ h, handler_start msg = Some h ∧ last (pl_handlers p') = Some (mkHandlerTask addr msg h)).
Proof.
  intros p. destruct (pool_run_inv _ timeout es _ (pool_new_inv bd ip port max)) as [[Hp Hw] _]. fold p in Hp, Hw, Hwait.
  destruct (Hw _ _ Hwait) as [h Hh]. split.
  - destruct (pl_free p) as [|n]; [right|left; lia]. apply live_exists.
    destruct max as [[|n]|]; simpl in Hp; [done|lia|unfold DEFAULT_MAX_CONCURRENT_HANDLERS in Hp; lia].
  - intros k t l Hk Hl Hlen. unfold pool_run. rewrite fold_left_app. fold (pool_run timeout (turns_of k l) p).
    destruct (live_turns k l timeout p t Hk Hl) as [Hf Hpw].
    { rewrite Hlen. destruct (ht_state t); simpl; lia. }
    cbn [fold_left pool_step]. unfold pool_permit. rewrite Hpw, Hwait, Hh, Hf. cbn [Nat.ltb Nat.leb]. split; [done|].
    exists h. split; [done|]. apply last_snoc.
Qed.

(** ** Handlers that do not interleave *)
Lemma handler_turns k n fresh now timeout p t :
  pl_handlers p !! k = Some t → live t = true →
  let r := handler_run fresh now (now / ns_per_s) timeout (ht_addr t) (ht_msg t) n (ht_state t) (sv_bd (pl_server p)) in
  ended r.1 = true →
  let p' := pool_run timeout (turns_of k (replicate n (fresh, now))) p in
  pl_server p' = set_sv_bd r.2 (pl_server p) ∧ pl_free p' = S (pl_free p) ∧ pl_waiting p' = pl_waiting p.
Proof.
  revert p t. induction n as [|n IH]; intros p t Hk Hl r Hend p'.
  { unfold live in Hl. simpl in Hend. by rewrite Hend in Hl. }
  change p' with (pool_run timeout (turns_of k (replicate n (fresh, now))) (pool_handler k fresh now timeout p)). clear p'.
  unfold pool_handler. rewrite Hk, Hl. subst r. cbn [handler_run] in *.
  destruct (handler_step _ _ _ _ _ _ _ _) as [h bd]. set (q := mkPool _ _ _ _).
  assert (Hq : pl_handlers q !! k = Some (mkHandlerTask (ht_addr t) (ht_msg t) h))
    by (subst q; simpl; apply list_lookup_insert_eq; by eapply lookup_lt_Some).
  destruct (ended h) eqn:Hh.
  - rewrite (ended_turns k _ timeout q _ Hq) by (unfold live; simpl; by rewrite Hh). destruct h; try done. by rewrite handler_run_rest by (simpl; lia).
  - destruct (IH q _ Hq) as (-> & -> & ->); [unfold live; simpl; by rewrite Hh|exact Hend|done].
Qed.

(** A datagram whose handler runs at once. *)
Definition at_once (k : nat) (fresh : Uuid) (now : Z) (input : LoopInput) : list (PoolEvent JS DB) :=
  PLoop input :: turns_of k (replicate 6 (fresh, now)).

Lemma at_once_turn fresh now timeout input p :
  pl_waiting p = None → (0 < pl_free p)%nat →
  let p' := pool_run timeout (at_once (length (pl_handlers p)) fresh now input) p in
  pl_server p' = loop_turn fresh now timeout input (pl_server p) ∧ pl_free p' = pl_free p ∧ pl_waiting p' = None.
Proof.
  intros Hw Hf. unfold at_once. set (k := length (pl_handlers p)).
  assert (Hidle : ∀ q l, pl_handlers q = pl_handlers p → pool_run timeout (turns_of k l) q = q).
  { intros q l Hq. assert (Hstay : ∀ f n, pool_handler k f n timeout q = q)
      by (intros; unfold pool_handler; rewrite Hq; by rewrite lookup_ge_None_2 by (unfold k; lia)).
    unfold pool_run, turns_of. induction l as [|x l IH]; [done|]. cbn [fmap list_fmap fold_left pool_step]. by rewrite Hstay. }
  rewrite pool_run_cons. cbn [pool_step]. unfold pool_turn. rewrite Hw. destruct input as [addr datagram| | |]; try (by rewrite Hidle).
  cbn [loop_turn]. destruct (message_decode _) as [[msg|]|e|]; try (by rewrite Hidle).
  destruct (try_route addr msg (pl_server p)) as [s|]; [by rewrite Hidle|].
  unfold pool_dispatch. destruct (handler_start msg) as [h|] eqn:Hh.
  - destruct (Nat.ltb_spec 0 (pl_free p)); [|lia]. set (q := spawn_handler addr msg h p).
    destruct (handler_turns k 6 fresh now timeout q (mkHandlerTask addr msg h)) as (-> & -> & ->).
    + subst q k. cbn [spawn_handler pl_handlers]. by rewrite lookup_app_r, Nat.sub_diag.
    + unfold live. cbn [ht_state]. by rewrite (handler_start_live msg h).
    + cbn [ht_addr ht_msg ht_state]. by rewrite (handler_run_whole _ _ _ _ _ _ h).
    + cbn [ht_addr ht_msg ht_state]. rewrite (handler_run_whole _ _ _ _ _ _ h) by done. split; [|split; [simpl; lia|done]].
      cbn [snd]. subst q. cbn [spawn_handler pl_server]. unfold bd_route. unfold handler_start in Hh. by destruct (d_type msg).
  - rewrite Hidle by done. split; [|done]. cbn [set_pl_server pl_server]. unfold bd_route, backdoor_dispatch, handler_start in *.
    by destruct (d_type msg).
Qed.

(** The loop with undivided handlers is a special case of the pool. Every run of the
    receive loop of [DebugSession.v], in which a registration handler is one step, together
    with sessions, session timeouts and other tasks, is a run of the pool with the same
    effects on the server: the one in which every handler has its turns at once. It leaves
    all permits free and no message waiting. What is proved of registrations in the first
    therefore is about runs of the second. *)
Theorem loop_run_is_pool_run (timeout : Z) (es : list (Event JS DB)) p
    (Hwait : pl_waiting p = None) (Hfree : (0 < pl_free p)%nat) :
  ∃ ps, pl_server (pool_run timeout ps p) = loop_run timeout es (pl_server p) ∧
    pl_free (pool_run timeout ps p) = pl_free p ∧ pl_waiting (pool_run timeout ps p) = None.
Proof.
  revert p Hwait Hfree. induction es as [|e es IH]; intros p Hwait Hfree; [by exists []|].
  assert (Hone : ∃ ps, let q := pool_run timeout ps p in
    pl_server q = loop_step timeout e (pl_server p) ∧ pl_free q = pl_free p ∧ pl_waiting q = None).
  { destruct e as [fresh now input|k i|k|f].
    - exists (at_once (length (pl_handlers p)) fresh now input). by apply at_once_turn.
    - by exists [PSession k i].
    - by exists [PSessionTimeout k].
    - by exists [POther f]. }
  destruct Hone as (ps1 & Hs1 & Hf1 & Hw1).
  destruct (IH (pool_run timeout ps1 p) Hw1 ltac:(by rewrite Hf1)) as (ps2 & Hs2 & Hf2 & Hw2).
  exists (ps1 ++ ps2). unfold pool_run in *. rewrite fold_left_app, Hs2, Hf2, Hw2, Hf1, Hs1. done.
Qed.
End pool.
