(* ===== verification/BackdoorPoolJobs.v ===== *)
(** * Registrations under every interleaving of the handlers

    The pool of [BackdoorPool.v] over the in-memory engine, with any other
    tasks that take no device's job: between any two steps of any handlers the registrations
    are consistent, and a registered device has a job, or an ACK handler is
    about to make it. *)

From S2P Require Import Prelude Bytes Net Float32 Node Database DatabaseFacts Calendar Scheduler SchedulerFacts DeviceManager DeviceManagerFacts Rlp DeviceMessage DeviceCodec Backdoor BackdoorFacts BackdoorExamples DebugSession BackdoorPool BackdoorPoolFacts.

Local Open Scope Z_scope.
Local Open Scope hes_scope.

(** The device a registration handler has made and not yet recorded. *)
Definition new_id (h : Handler) : option Z :=
  match h with HAdded d | HAssigned d _ => Some (dev_id d) | _ => None end.

(** The device an ACK handler has marked registered and not yet scheduled. *)
Definition about_to_schedule (h : Handler) : option Z :=
  match h with HAckUpdated d => Some (dev_id d) | _ => None end.

Section jobs.
Context `{BytesCrate} `{RlpCrate} `{ChronoCrate} `{HashOrder} {JS : Type} `{JobCrate JS}.
Implicit Types (ds : DmState JS InnerDB) (p : Pool JS InnerDB) (st : Backdoor JS InnerDB).

Notation regs ds := (device_registration (dm_db ds)).
Notation rows ds := (buckets (dm_db ds)).

(** What holds at each point of a handler. *)
Definition point_ok ds (h : Handler) : Prop :=
  match h with
  | HAdded d => rows ds !! dev_id d = None
  | HAssigned d _ => is_Some (rows ds !! dev_id d) ∧ regs ds !! dev_id d = None
  | HAckRead d _ | HAckUpdated d => is_Some (regs ds !! dev_id d)
  | _ => True
  end.

(** The tables alone. *)
Record tables_ok ds : Prop := {
  to_devices id d : devices (dm_db ds) !! id = Some d → dev_id d = id;
  to_buckets id b n : rows ds !! id = Some (b, n) → 0 <= b < bucket_number (dm_scheduler (dm ds));
  to_registration id : is_Some (regs ds !! id) → is_Some (rows ds !! id)
}.

(** The changes of the state the steps of handlers make. *)
Definition with_device (d : Device) ds : DmState JS InnerDB :=
  set_dm_db (set_devices (<[dev_id d := d]> (devices (dm_db ds))) (dm_db ds)) ds.
Definition with_bucket (id b : Z) (node : Uuid) ds : DmState JS InnerDB :=
  mkDmState (set_owned ({[id]} ∪ owned ds) (dm ds)) (set_buckets (<[id := (b, node)]> (rows ds)) (dm_db ds)).
Definition with_status (id : Z) (s : RegistrationStatus) (t : Z) ds : DmState JS InnerDB :=
  set_dm_db (set_registrations (<[id := (s, t)]> (regs ds)) (dm_db ds)) ds.
Definition with_job (id t j : Z) (s : Scheduler JS) ds : DmState JS InnerDB :=
  mkDmState (set_dm_scheduler s (dm ds))
    (set_connections (<[id := awaiting_row id t j]> (scheduled_connections (dm_db ds))) (dm_db ds)).

(** A step of a handler: from [h] to [h'], from [ds] to the state given; [fresh] is the
    identifier it may draw. *)
Inductive moves (fresh : Z) ds : Handler → DmState JS InnerDB → Handler → Prop :=
| mv_none h h' :
    new_id h' = None → about_to_schedule h = None → point_ok ds h' → moves fresh ds h ds h'
| mv_device h h' d :
    about_to_schedule h = None → (new_id h' = None ∧ point_ok ds h' ∨ h' = HAdded d ∧ dev_id d = fresh) →
    moves fresh ds h (with_device d ds) h'
| mv_bucket d b node t :
    0 <= b < bucket_number (dm_scheduler (dm ds)) →
    moves fresh ds (HAdded d) (with_bucket (dev_id d) b node ds) (HAssigned d t)
| mv_pending d t0 t h' :
    new_id h' = None → (∀ ds', point_ok ds' h') →
    moves fresh ds (HAssigned d t0) (with_status (dev_id d) PendingAck t ds) h'
| mv_registered d r t :
    moves fresh ds (HAckRead d r) (with_status (dev_id d) Registered t ds) (HAckUpdated d)
| mv_scheduled h h' id t j s tx :
    (about_to_schedule h = None ∨ about_to_schedule h = Some id) → new_id h' = None → (∀ ds', point_ok ds' h') →
    same_config (dm_scheduler (dm ds)) s → dm_jobs ds !! j = None →
    js_jobs (job_scheduler s) = <[j := mkJob t id tx]> (dm_jobs ds) →
    moves fresh ds h (with_job id t j s ds) h'.

(** Reading the database changes nothing. *)
Lemma bd_db_read {A} (m : SE InnerDB DatabaseError A) st : (∀ db, (m db).2 = db) → (bd_in_db m st).2 = st.
Proof.
  intros Hm. unfold bd_in_db, szoom. specialize (Hm (dm_db (bd_dm st))). destruct (m _) as [r db]. simpl in *. subst db.
  by destruct st as [[]].
Qed.

Lemma get_device_same id st : (bd_in_db (get_device id) st).2 = st.
Proof. by apply bd_db_read. Qed.
Lemma get_registration_same id st : (bd_in_db (get_device_registration id) st).2 = st.
Proof. apply bd_db_read. intros db. simpl. unfold mem_get_device_registration. by destruct (device_registration db !! id) as [[]|]. Qed.
Lemma get_connection_same id st : (bd_in_db (get_scheduled_connection id) st).2 = st.
Proof. apply bd_db_read. intros db. simpl. unfold mem_get_scheduled_connection. by destruct (scheduled_connections db !! id). Qed.

Lemma schedule_unknown ds now id : rows ds !! id = None →
  schedule_next_wakeup now id ds = (Err (DmScheduler (SchedDatabaseError NoDataFound)), ds).
Proof.
  destruct ds as [[] db]. simpl. intros Hb.
  unfold schedule_next_wakeup, dm_in_sched, szoom, schedule_next_wakeup_job, sbind, in_db, szoom. simpl.
  unfold mem_get_bucket_number. by rewrite Hb.
Qed.

Section step.
Variables (fresh : Uuid) (now now_s timeout : Z) (addr : SocketAddr) (msg : Message) (st : Backdoor JS InnerDB).
Hypothesis Hacc : accepts_jobs (JS := JS).
Hypothesis Hs : can_schedule (bd_sched st) now.
Hypothesis Htab : tables_ok (bd_dm st).

Notation step := (handler_step fresh now now_s timeout addr msg).
Notation moved h h' st' := (moves fresh (bd_dm st) h (bd_dm st') h').

(** A step that reads, or fails, or sends. *)
Lemma step_quiet h h' st' :
  bd_dm st' = bd_dm st → about_to_schedule h = None → new_id h' = None → point_ok (bd_dm st) h' → moved h h' st'.
Proof. intros -> Hb Hn Hp. by apply mv_none. Qed.

Lemma moved_read {A} h (m : BD JS InnerDB A) k h' st' :
  (m st).2 = st → about_to_schedule h = None → hbind (m st) k = (h', st') →
  (∀ a, (m st).1 = Ok a → new_id (k a) = None ∧ point_ok (bd_dm st) (k a)) → moved h h' st'.
Proof.
  intros Hm Hb Hrun Hk. unfold hbind in Hrun. rewrite Hm in Hrun. injection Hrun as <- <-.
  destruct (m st).1 as [a|e|]; apply step_quiet; try done; apply (Hk a eq_refl).
Qed.

Lemma moved_nack {A} h code (m : BD JS InnerDB A) k h' st' :
  (m st).2 = st → about_to_schedule h = None → hbind_nack now_s msg code (m st) k = (h', st') →
  (∀ a, new_id (k a) = None ∧ point_ok (bd_dm st) (k a)) → moved h h' st'.
Proof.
  intros Hm Hb Hrun Hk. unfold hbind_nack in Hrun. rewrite Hm in Hrun. injection Hrun as <- <-.
  destruct (m st).1 as [a|e|]; apply step_quiet; try done; apply (Hk a).
Qed.

(** Scheduling, and the answer to it. *)
Lemma moved_schedule h id k h' st' :
  (about_to_schedule h = None ∨ about_to_schedule h = Some id ∧ is_Some (rows (bd_dm st) !! id)) →
  (∀ r, new_id (k r) = None ∧ ∀ ds', point_ok ds' (k r)) →
  (k (bd_in_dm (schedule_next_wakeup now id) st).1, (bd_in_dm (schedule_next_wakeup now id) st).2) = (h', st') →
  moved h h' st'.
Proof.
  intros Hb Hk Hrun. destruct (rows (bd_dm st) !! id) as [[b node]|] eqn:Hrow.
  - destruct (bd_schedule_ok st now id b node Hacc Hs Hrow) as (j & s' & Hok & Hcfg & Hj & Hjobs).
    { by eapply to_buckets. }
    rewrite Hok in Hrun. injection Hrun as <- <-. cbn [fst snd]. destruct (Hk (Ok tt)) as [Hn Hp].
    change (bd_dm (set_bd_dm ?d st)) with d. eapply (mv_scheduled _ _ _ _ id); try done. by destruct Hb as [|[]]; [left|right].
  - assert (Hu : bd_in_dm (schedule_next_wakeup now id) st = (Err (DeviceManagerErr (DmScheduler (SchedDatabaseError NoDataFound))), st)).
    { unfold bd_in_dm, szoom. rewrite (schedule_unknown _ _ _ Hrow). by destruct st. }
    rewrite Hu in Hrun. injection Hrun as <- <-. destruct Hb as [Hb|[_ [? Hx]]]; [|done].
    destruct (Hk (Err (DeviceManagerErr (DmScheduler (SchedDatabaseError NoDataFound))))) as [Hn Hp]. by apply step_quiet.
Qed.

Lemma moved_register h' st' : step HRegister st = (h', st') → moved HRegister h' st'.
Proof.
  cbn [handler_step]. destruct (negb _); [by intros [= <- <-]; apply step_quiet|]. set (d := device_new _ _ _).
  assert (Hd : dev_id d = fresh) by apply device_new_id. 
  assert (Hm : bd_in_db (add_device d) st = (Ok tt, set_bd_dm (with_device d (bd_dm st)) st)) by reflexivity. rewrite Hm.
  intros [= <- <-]. apply (mv_device _ _ _ _ d); [done|by right].
Qed.

Lemma moved_added d h' st' : rows (bd_dm st) !! dev_id d = None → step (HAdded d) st = (h', st') → moved (HAdded d) h' st'.
Proof.
  intros Hnew. cbn [handler_step]. destruct (dm_register_ok now d (bd_dm st) Hs Hnew) as (b & (Hr & _) & Hok).
  rewrite (bd_in_dm_ok _ _ _ _ Hok). intros [= <- <-]. by apply mv_bucket.
Qed.

Lemma moved_assigned d t h' st' : step (HAssigned d t) st = (h', st') → moved (HAssigned d t) h' st'.
Proof.
  cbn [handler_step]. destruct (get_timestamp msg) as [ts|e|].
  2, 3: intros [= <- <-]; by apply step_quiet.
  assert (Hm : bd_in_db (register_device (dev_id d) ts) st = (Ok tt, set_bd_dm (with_status (dev_id d) PendingAck ts (bd_dm st)) st))
    by reflexivity.
  rewrite (bd_message_ok _ _ _ _ eq_refl), (sbind_ok _ _ _ _ _ Hm).
  unfold bd_message, slift, hbind. intros [= <- <-].
  apply (mv_pending _ _ d t ts); by destruct (new_register_response_message _ _ _ _ _).
Qed.

Lemma moved_ack_read d r h' st' :
  is_Some (regs (bd_dm st) !! dev_id d) → step (HAckRead d r) st = (h', st') → moved (HAckRead d r) h' st'.
Proof.
  intros [[s0 t0] Hreg]. cbn [handler_step]. destruct (registration_status r); [by intros [= <- <-]; apply step_quiet| |by intros [= <- <-]; apply step_quiet].
  destruct (get_timestamp msg) as [ts|e|].
  2, 3: intros [= <- <-]; by apply step_quiet.
  rewrite (bd_message_ok _ _ _ _ eq_refl).
  assert (Hup : bd_in_db (update_device_registration (dev_id d) (Some Registered) (Some ts)) st
    = (Ok tt, set_bd_dm (with_status (dev_id d) Registered ts (bd_dm st)) st)).
  { unfold bd_in_db, szoom. simpl. unfold mem_update_device_registration. by rewrite Hreg. }
  rewrite Hup. intros [= <- <-]. apply mv_registered.
Qed.

Lemma moved_move d h' st' : step (HMove d) st = (h', st') → moved (HMove d) h' st'.
Proof.
  cbn [handler_step]. unfold bd_in_db, szoom. simpl. unfold mem_modify_device.
  destruct (devices (dm_db (bd_dm st)) !! dev_id (with_address addr d)); intros [= <- <-].
  - apply (mv_device _ _ _ _ (with_address addr d)); [done|by left].
  - apply step_quiet; try done. by destruct st as [[]].
Qed.

Lemma handler_moves h h' st' :
  ended h = false → point_ok (bd_dm st) h → step h st = (h', st') → moved h h' st'.
Proof.
  intros Hlive Hp Hrun. destruct h; try done.
  - by apply moved_register.
  - by apply moved_added.
  - by apply moved_assigned.
  - cbn in Hrun. injection Hrun as <- <-. by apply step_quiet.
  - eapply (moved_read _ (do! device <- bd_in_db (get_device (d_device_id msg)) ;
      if decide (Some (ip_to_string (sock_ip addr)) ≠ dev_ipv4 device) then serr InvalidIp else sret device) HAckDevice);
      [|done|exact Hrun|done].
    unfold sbind. pose proof (get_device_same (d_device_id msg) st) as Hr.
    destruct (bd_in_db _ st) as [[d|e|] s]; simpl in Hr; subst s; [by destruct (decide _)|done..].
  - eapply moved_read; [apply get_registration_same|done|exact Hrun|]. intros r Hr. split; [done|]. cbn [point_ok].
    unfold bd_in_db, szoom in Hr. simpl in Hr. unfold mem_get_device_registration in Hr.
    by destruct (device_registration (dm_db (bd_dm st)) !! dev_id device) as [[]|].
  - by apply moved_ack_read.
  - eapply (moved_schedule _ (dev_id device) (λ r, (hbind (r, st) (λ _, HReply (new_ack_message now_s (d_device_id msg) (reply_seq msg)) (Ok tt))).1));
      [right; split; [done|by apply (to_registration _ Htab)]|by intros [| |]|exact Hrun].
  - eapply moved_nack; [apply get_device_same|done|exact Hrun|done].
  - by apply moved_move.
  - cbn [handler_step] in Hrun. pose proof (get_connection_same (d_device_id msg) st) as Hr.
    destruct (bd_in_db _ st) as [[c|e|] s]; simpl in Hr; subst s; injection Hrun as <- <-; by apply step_quiet.
  - eapply (moved_schedule _ (d_device_id msg) (λ r, (hbind_nack now_s msg NACK_INTERNAL_ERROR (r, st) (λ _, HScheduled)).1));
      [by left|by intros [| |]|exact Hrun].
  - eapply moved_nack; [apply get_connection_same|done|exact Hrun|done].
  - cbn in Hrun. injection Hrun as <- <-. apply step_quiet; try done. by destruct reply.
Qed.
End step.

(** ** What a step keeps *)
Lemma insert_is_Some {A} (m : gmap Z A) i x j : is_Some (m !! j) → is_Some (<[i := x]> m !! j).
Proof. intros Hj. destruct (decide (i = j)) as [->|Hne]; [by rewrite lookup_insert_eq|by rewrite lookup_insert_ne]. Qed.

Lemma moves_tables fresh ds h ds' h' : moves fresh ds h ds' h' → tables_ok ds → point_ok ds h → tables_ok ds'.
Proof.
  intros Hm [Td Tb Tr] Hp. destruct Hm as [h h' _ _ _|h h' d _ _|d b node t Hb|d t0 t h' _ _|d r t|h h' id t j s tx _ _ _ (Hn & _) _ _].
  - by split.
  - split; [|exact Tb|exact Tr]. simpl. intros id d' [[<- <-]|[_ Hd]]%lookup_insert_Some; [done|by eapply Td].
  - split; [exact Td| |]; simpl.
    + intros id b' n [[_ [= <- <-]]|[_ Hx]]%lookup_insert_Some; [done|by eapply Tb].
    + intros id Hx. by apply insert_is_Some, Tr.
  - destruct Hp as [Hrow _]. split; [exact Td|exact Tb|]. simpl. intros id [x [[<- _]|[_ Hx]]%lookup_insert_Some]; [done|]. by apply Tr.
  - split; [exact Td|exact Tb|]. simpl. intros id [x [[<- _]|[_ Hx]]%lookup_insert_Some]; [by apply Tr|]. by apply Tr.
  - split; [exact Td| |exact Tr]. simpl. intros id' b n Hx. rewrite Hn. by eapply Tb.
Qed.

(** A new device of the handler itself is the one it had, or the one it has just drawn. *)
Lemma moves_new fresh ds h ds' h' id : moves fresh ds h ds' h' → new_id h' = Some id → new_id h = Some id ∨ id = fresh.
Proof.
  intros Hm Hid. destruct Hm as [? ? Hn|? ? d _ [[Hn _]|[-> Hd]]|? ? ? ? ?|? ? ? ? Hn|? ? ?|? ? ? ? ? ? ? _ Hn]; try congruence.
  - right. simpl in Hid. congruence.
  - by left.
  - done.
Qed.

(** The points of other handlers. *)
Lemma moves_point fresh ds h ds' h' g :
  moves fresh ds h ds' h' → point_ok ds h → (∀ id, new_id g = Some id → new_id h ≠ Some id) → point_ok ds g → point_ok ds' g.
Proof.
  intros Hm Hp Hne Hg.
  assert (Hkeep : (∀ d, g = HAdded d → rows ds' !! dev_id d = None) ∧
    (∀ d t, g = HAssigned d t → regs ds' !! dev_id d = None) ∧
    (∀ id, is_Some (rows ds !! id) → is_Some (rows ds' !! id)) ∧ (∀ id, is_Some (regs ds !! id) → is_Some (regs ds' !! id))).
  { destruct Hm as [h h' _ _ _|h h' d _ _|d b node t Hb|d t0 t h' _ _|d r t|h h' id t j s tx _ _ _ _ _ _];
      split_and!; try done; try (intros; by apply insert_is_Some); try (by intros; subst; (exact Hg || apply Hg)).
    - intros d' ->. simpl in *. rewrite lookup_insert_ne; [exact Hg|]. intros Heq. by apply (Hne (dev_id d')); [|rewrite Heq].
    - intros d' t' ->. simpl in *. rewrite lookup_insert_ne; [apply Hg|]. intros Heq. by apply (Hne (dev_id d')); [|rewrite Heq].
    - intros d' t' ->. simpl in *. rewrite lookup_insert_ne; [apply Hg|]. intros Heq. destruct Hg as [_ Hg], Hp as [? Hp].
      rewrite Heq in Hp. by rewrite Hg in Hp. }
  destruct Hkeep as (H1' & H2' & H3' & H4'). destruct g; simpl in *; try done; auto. destruct Hg. eauto.
Qed.

(** The point of the handler itself. *)
Lemma moves_self fresh ds h ds' h' : moves fresh ds h ds' h' → rows ds !! fresh = None → point_ok ds h → tables_ok ds → point_ok ds' h'.
Proof.
  intros Hm Hnew Hp [_ _ Tr]. destruct Hm as [h h' _ _ Hp'|h h' d _ Hor|d b node t Hb|d t0 t h' _ Hp'|d r t|h h' id t j s tx _ _ Hp' _ _ _]; auto.
  - destruct Hor as [[_ Hp']|[-> Hid]]; [by destruct h'|]. simpl. by rewrite Hid.
  - simpl in *. rewrite lookup_insert_eq. split; [done|]. destruct (regs ds !! dev_id d) as [x|] eqn:Hx; [|done].
    destruct (Tr (dev_id d)) as [y Hy]; [by rewrite Hx|]. by rewrite Hp in Hy.
  - simpl. by rewrite lookup_insert_eq.
Qed.

Lemma has_job_kept ds id t j s tx id' :
  id' ≠ id → dm_jobs ds !! j = None → js_jobs (job_scheduler s) = <[j := mkJob t id tx]> (dm_jobs ds) →
  has_job ds id' → has_job (with_job id t j s ds) id'.
Proof.
  intros Hne Hj Hjobs (c & j' & tx' & Hc & Hj' & Hw). exists c, j', tx'. simpl. rewrite lookup_insert_ne by done.
  split; [done|]. split; [done|]. unfold dm_jobs at 1. simpl. rewrite Hjobs, lookup_insert_ne; [done|congruence].
Qed.

Lemma has_job_new ds id t j s tx :
  js_jobs (job_scheduler s) = <[j := mkJob t id tx]> (dm_jobs ds) → has_job (with_job id t j s ds) id.
Proof.
  intros Hjobs. exists (awaiting_row id t j), j, tx. simpl. rewrite lookup_insert_eq. split; [done|]. split; [done|].
  unfold dm_jobs. simpl. by rewrite Hjobs, lookup_insert_eq.
Qed.

(** A device that is registered after the step has a job, is about to get it from this
    handler, or was registered before and loses nothing. *)
Lemma moves_registered fresh ds h ds' h' id t :
  moves fresh ds h ds' h' → regs ds' !! id = Some (Registered, t) →
  has_job ds' id ∨ about_to_schedule h' = Some id ∨
  (∃ t', regs ds !! id = Some (Registered, t')) ∧ about_to_schedule h ≠ Some id ∧ (has_job ds id → has_job ds' id).
Proof.
  intros Hm Hr. destruct Hm as [h h' _ Hb _|h h' d Hb _|d b node t1 _|d t0 t1 h' _ _|d r t1|h h' id1 t1 j s tx Hb _ _ _ Hj Hjobs].
  - right. right. rewrite Hb. by split; [eexists|].
  - right. right. rewrite Hb. by split; [eexists|].
  - right. right. by split; [eexists|].
  - right. right. simpl in Hr. apply lookup_insert_Some in Hr as [[_ [=]]|[_ Hr]]. by split; [eexists|].
  - right. simpl in Hr. apply lookup_insert_Some in Hr as [[<- _]|[_ Hr]]; [by left|]. right. by split; [eexists|].
  - destruct (decide (id = id1)) as [->|Hne]; [left; by eapply has_job_new|]. right. right.
    split; [by eexists|]. split; [destruct Hb as [-> | ->]; congruence|]. by eapply has_job_kept.
Qed.

(** [Registered] is final. *)
Lemma moves_final fresh ds h ds' h' id t :
  moves fresh ds h ds' h' → point_ok ds h → regs ds !! id = Some (Registered, t) → ∃ t', regs ds' !! id = Some (Registered, t').
Proof.
  intros Hm Hp Hr. destruct Hm; try (by exists t).
  - exists t. simpl. rewrite lookup_insert_ne; [done|]. intros <-. destruct Hp as [_ Hp]. by rewrite Hr in Hp.
  - simpl. destruct (decide (dev_id d = id)) as [->|Hne]; [rewrite lookup_insert_eq; by eexists|]. exists t. by rewrite lookup_insert_ne.
Qed.

(** ** The pool *)
Notation pool_bd p := (sv_bd (pl_server p)).
Notation pool_dm p := (bd_dm (pool_bd p)).

(** Some handler is about to schedule the device. *)
Definition being_scheduled (l : list HandlerTask) (id : Z) : Prop :=
  ∃ k t, l !! k = Some t ∧ about_to_schedule (ht_state t) = Some id.

Record pool_ok p : Prop := {
  po_tables : tables_ok (pool_dm p);
  po_registered id t : regs (pool_dm p) !! id = Some (Registered, t) → has_job (pool_dm p) id ∨ being_scheduled (pl_handlers p) id;
  po_points k t : pl_handlers p !! k = Some t → point_ok (pool_dm p) (ht_state t);
  po_new k k' t t' id : pl_handlers p !! k = Some t → pl_handlers p !! k' = Some t' →
    new_id (ht_state t) = Some id → new_id (ht_state t') = Some id → k = k'
}.

(** The tables of devices, buckets and registrations are the same, and no device has lost
    its job. *)
Definition keeps_jobs ds ds' : Prop :=
  devices (dm_db ds') = devices (dm_db ds) ∧ rows ds' = rows ds ∧ regs ds' = regs ds ∧
  bucket_number (dm_scheduler (dm ds')) = bucket_number (dm_scheduler (dm ds)) ∧
  ∀ id, has_job ds id → has_job ds' id.

(** The events considered: when a handler runs the clock is within the calendar, and the
    identifier it draws is new; debug sessions and other tasks of the node take part as
    long as they take no device's job. (A session does, between its first access and its
    second: it cancels the pending wake-up and then schedules the next one.) *)
Definition fair_event p (e : PoolEvent JS InnerDB) : Prop :=
  match e with
  | PHandler _ fresh now =>
      can_schedule (bd_sched (pool_bd p)) now ∧ rows (pool_dm p) !! fresh = None ∧
      (∀ k t, pl_handlers p !! k = Some t → new_id (ht_state t) ≠ Some fresh)
  | PSession k i => keeps_jobs (pool_dm p) (bd_dm (sv_bd (task_run k i (pl_server p))))
  | POther f => keeps_jobs (pool_dm p) (bd_dm (f (pool_bd p)))
  | _ => True
  end.
Inductive reg_step (timeout : Z) p : Pool JS InnerDB → Prop :=
| reg_step_event e : fair_event p e → reg_step timeout p (pool_step timeout e p).

(** A step that changes neither the tables nor the handlers. *)
Lemma pool_ok_same p p' : pool_dm p' = pool_dm p → pl_handlers p' = pl_handlers p → pool_ok p → pool_ok p'.
Proof. intros Hd Hh [Ht Hr Hp Hn]. split; rewrite ?Hd, ?Hh; done. Qed.

(** A step that only makes jobs. *)
Lemma pool_ok_keeps p p' :
  keeps_jobs (pool_dm p) (pool_dm p') → pl_handlers p' = pl_handlers p → pool_ok p → pool_ok p'.
Proof.
  intros (Hd & Hb & Hg & Hn & Hj) Hh [[Td Tb Tr] Hr Hp Hnew].
  split; [split|..]; rewrite ?Hd, ?Hb, ?Hg, ?Hn, ?Hh; try done.
  - intros id t Hid. destruct (Hr id t Hid) as [|]; [left; by apply Hj|by right].
  - intros k t Hk. specialize (Hp k t Hk). destruct (ht_state t); simpl in *; by rewrite ?Hb, ?Hg.
Qed.

Lemma pool_ok_spawn addr msg h p : handler_start msg = Some h → pool_ok p → pool_ok (spawn_handler addr msg h p).
Proof.
  intros Hh [Ht Hr Hp Hn].
  assert (Hnew : new_id h = None ∧ ∀ ds, point_ok ds h)
    by (unfold handler_start in Hh; destruct (d_type msg); try done; [destruct (_ =? 0)|]; by injection Hh as <-).
  assert (Hlook : ∀ k t, (pl_handlers p ++ [mkHandlerTask addr msg h]) !! k = Some t →
    pl_handlers p !! k = Some t ∨ new_id (ht_state t) = None ∧ ∀ ds, point_ok ds (ht_state t)).
  { intros k t [Hk|[_ Hk]]%lookup_app_Some; [by left|right]. by apply list_lookup_singleton_Some in Hk as [_ <-]. }
  split; cbn [spawn_handler pl_server pl_handlers]; [done| | |].
  - intros id t Hreg. destruct (Hr id t Hreg) as [|(k & t' & Hk & Hb)]; [by left|right]. exists k, t'. split; [|done].
    by apply lookup_app_l_Some.
  - intros k t [Hk|[_ Hk]]%Hlook; [by eapply Hp|apply Hk].
  - intros k k' t t' id [Hk|[Hk _]]%Hlook [Hk'|[Hk' _]]%Hlook; try congruence. by apply (Hn k k' t t' id).
Qed.

Lemma pool_turn_bd input p : pool_bd (pool_turn input p) = pool_bd p.
Proof.
  unfold pool_turn, pool_dispatch, bd_route, backdoor_dispatch, handler_start, loop_turn.
  repeat case_match; simplify_eq; try done; cbn [set_pl_server pl_server]; try (by case_match).
  all: match goal with Hx : try_route _ _ _ = Some _ |- _ => unfold try_route in Hx; repeat case_match; by simplify_eq end.
Qed.

Lemma pool_ok_turn input p : pool_ok p → pool_ok (pool_turn input p).
Proof.
  intros Hok.
  assert (Hcases : pl_handlers (pool_turn input p) = pl_handlers p ∨
    ∃ addr msg h, handler_start msg = Some h ∧ pool_turn input p = spawn_handler addr msg h p).
  { unfold pool_turn, pool_dispatch. repeat case_match; try (by left). right. eauto 6. }
  destruct Hcases as [Hh|(addr & msg & h & Hh & ->)]; [|by apply pool_ok_spawn].
  by apply (pool_ok_same p); [rewrite pool_turn_bd| |].
Qed.

Lemma pool_ok_permit p : pool_ok p → pool_ok (pool_permit p).
Proof. intros Hok. unfold pool_permit. repeat case_match; try done. by apply pool_ok_spawn. Qed.

Lemma pool_ok_handler timeout k fresh now p :
  accepts_jobs (JS := JS) → fair_event p (PHandler k fresh now) → pool_ok p →
  pool_ok (pool_handler k fresh now timeout p) ∧
  (∀ id t, regs (pool_dm p) !! id = Some (Registered, t) →
    ∃ t', regs (pool_dm (pool_handler k fresh now timeout p)) !! id = Some (Registered, t')).
Proof.
  intros Hacc (Hs & Hnew & Hfresh) Hok. unfold pool_handler.
  destruct (pl_handlers p !! k) as [t|] eqn:Hk; [|by split; [|eauto]]. destruct (live t) eqn:Hl; [|by split; [|eauto]].
  destruct (handler_step _ _ _ _ _ _ _ _) as [h bd] eqn:Hrun. destruct Hok as [Ht Hr Hp Hn].
  pose proof (Hp k t Hk) as Hpt. apply negb_true_iff in Hl.
  pose proof (handler_moves _ _ _ _ _ _ _ Hacc Hs Ht _ _ _ Hl Hpt Hrun) as Hm.
  split; [|intros id tm; by eapply moves_final].
  assert (Hlook : ∀ j t', <[k := mkHandlerTask (ht_addr t) (ht_msg t) h]> (pl_handlers p) !! j = Some t' →
    j = k ∧ ht_state t' = h ∨ j ≠ k ∧ pl_handlers p !! j = Some t').
  { intros j t' [(<- & <- & _)|[Hne Hj]]%list_lookup_insert_Some; [by left|by right]. }
  assert (Hsome : <[k := mkHandlerTask (ht_addr t) (ht_msg t) h]> (pl_handlers p) !! k = Some (mkHandlerTask (ht_addr t) (ht_msg t) h))
    by (apply list_lookup_insert_eq; by eapply lookup_lt_Some).
  assert (Hown : ∀ id, new_id h = Some id → new_id (ht_state t) = Some id ∨ id = fresh) by (intros id; by eapply moves_new).
  split; cbn [pl_server pl_handlers set_sv_bd sv_bd].
  - by eapply moves_tables.
  - intros id tm Hreg. destruct (moves_registered _ _ _ _ _ _ _ Hm Hreg) as [Hj|[Hb|((t1 & Hold) & Hnb & Hkeep)]]; [by left| |].
    + right. by exists k, (mkHandlerTask (ht_addr t) (ht_msg t) h).
    + destruct (Hr id t1 Hold) as [Hj|(j & t' & Hj & Hb)]; [left; by apply Hkeep|]. right. exists j, t'. split; [|done].
      rewrite list_lookup_insert_ne; [done|]. intros ->. rewrite Hk in Hj. congruence.
  - intros j t' [[-> Heq]|[Hne Hj]]%Hlook; [rewrite Heq; by eapply moves_self|].
    eapply moves_point; [exact Hm|done| |by eapply Hp]. intros id Hid Hid'. by apply Hne, (Hn j k t' t id).
  - intros j j' t1 t2 id [[-> E1]|[N1 Hj]]%Hlook [[-> E2]|[N2 Hj']]%Hlook Hi Hi'; [done| | |by apply (Hn j j' t1 t2 id)].
    + rewrite E1 in Hi. destruct (Hown _ Hi) as [Ho| ->]; [by apply (Hn k j' t t2 id)|]. by destruct (Hfresh j' t2 Hj').
    + rewrite E2 in Hi'. destruct (Hown _ Hi') as [Ho| ->]; [by apply (Hn j k t1 t id)|]. by destruct (Hfresh j t1 Hj).
Qed.

Lemma pool_ok_timeout timeout k now p :
  pool_ok p → pool_ok (pool_step timeout (PAckTimeout k now) p) ∧
  (∀ id t, regs (pool_dm p) !! id = Some (Registered, t) →
    regs (pool_dm (pool_step timeout (PAckTimeout k now) p)) !! id = Some (Registered, t)).
Proof.
  intros Hok. cbn [pool_step set_pl_server pl_server set_sv_bd sv_bd].
  destruct (bd_timeouts (pool_bd p) !! k) as [[dur id0]|] eqn:Hk.
  2: { unfold ack_timeout_task. rewrite Hk. split; [by apply (pool_ok_same p)|done]. }
  rewrite (timeout_ok _ _ _ _ now Hk). cbn [snd]. unfold timed_out. set (bd := set_bd_timeouts _ _).
  change (registrations bd) with (regs (pool_dm p)). destruct (regs (pool_dm p) !! id0) as [[[] t0]|] eqn:Hreg.
  1, 3, 4: split; [by apply (pool_ok_same p)|done].
  destruct Hok as [[Td Tb Tr] Hr Hp Hn].
  assert (Hsub : ∀ id t, <[id0 := (AckTimeout, now)]> (regs (pool_dm p)) !! id = Some (Registered, t) → regs (pool_dm p) !! id = Some (Registered, t))
    by (intros id t [[_ [=]]|[_ Hx]]%lookup_insert_Some; done).
  split; [|intros id t Hid; simpl; rewrite lookup_insert_ne; [done|congruence]].
  split; simpl.
  - split; [exact Td|exact Tb|]. simpl. intros id [x [[<- _]|[_ Hx]]%lookup_insert_Some]; apply Tr; by eexists.
  - intros id t Hid%Hsub. exact (Hr id t Hid).
  - intros j t Hj. specialize (Hp j t Hj). destruct (ht_state t); simpl in *; try done; try (by apply insert_is_Some).
    destruct Hp as [? Hp]. split; [done|]. rewrite lookup_insert_ne; [done|]. intros Heq. rewrite Heq in Hreg. congruence.
  - exact Hn.
Qed.

Lemma pool_ok_step timeout p p' :
  accepts_jobs (JS := JS) → reg_step timeout p p' → pool_ok p →
  pool_ok p' ∧ (∀ id t, regs (pool_dm p) !! id = Some (Registered, t) → ∃ t', regs (pool_dm p') !! id = Some (Registered, t')).
Proof.
  intros Hacc [e He] Hok. destruct e as [input| |k fresh now|k now|k i|k|f].
  - split; [by apply pool_ok_turn|]. cbn [pool_step]. rewrite pool_turn_bd. eauto.
  - split; [by apply pool_ok_permit|]. cbn [pool_step]. unfold pool_permit. intros id t Hid. repeat case_match; by exists t.
  - by apply pool_ok_handler.
  - destruct (pool_ok_timeout timeout k now p Hok) as [H1' H2']. eauto.
  - split; [by apply (pool_ok_keeps p)|]. destruct He as (_ & _ & Hg & _). intros id t Hid. exists t. by rewrite <- Hid, <- Hg.
  - assert (Hbd : pool_bd (pool_step timeout (PSessionTimeout k) p) = pool_bd p).
    { cbn [pool_step set_pl_server pl_server]. unfold task_timeout. by repeat case_match. }
    split; [by apply (pool_ok_same p); [rewrite Hbd| |]|]. rewrite Hbd. eauto.
  - split; [by apply (pool_ok_keeps p)|]. destruct He as (_ & _ & Hg & _). intros id t Hid. exists t. by rewrite <- Hid, <- Hg.
Qed.

(** C3: Registered devices keep their jobs under every interleaving of the handlers. On the
    in-memory engine, from a consistent state, whatever messages arrive, with any number of
    handlers at once, each interrupted at every access to the database, the device manager
    and the socket, with timeout tasks in between, and with any accesses of debug sessions
    and other tasks that take no device's job: at every moment a registered device has a
    connection that names an existing job, which will wake it at the connection's time, or
    an ACK handler that has just marked it registered is about to make that job. When no
    handler is running every registered device has its job. And a registered device stays
    registered. *)
Theorem handlers_keep_jobs (timeout : Z) (bd : Backdoor JS InnerDB) (ip port : list Z) (max : option nat) (p : Pool JS InnerDB)
    (Hacc : accepts_jobs (JS := JS)) (Hinv : reg_inv (bd_dm bd))
    (Hsteps : rtc (reg_step timeout) (pool_new bd ip port max) p) :
  (∀ id t, registrations (sv_bd (pl_server p)) !! id = Some (Registered, t) →
    has_job (bd_dm (sv_bd (pl_server p))) id ∨
    ∃ k h d, pl_handlers p !! k = Some h ∧ ht_state h = HAckUpdated d ∧ dev_id d = id) ∧
  (live_count (pl_handlers p) = 0%nat → ∀ id t, registrations (sv_bd (pl_server p)) !! id = Some (Registered, t) →
    has_job (bd_dm (sv_bd (pl_server p))) id) ∧
  (∀ id t, registrations bd !! id = Some (Registered, t) →
    ∃ t', registrations (sv_bd (pl_server p)) !! id = Some (Registered, t')).
Proof.
  assert (Hok : pool_ok (pool_new bd ip port max)).
  { destruct Hinv as [Id Ib Ir Ij]. split; [by split| |done|done]. intros id t Hid. left. by eapply Ij. }
  assert (Hall : pool_ok p ∧ ∀ id t, regs (pool_dm (pool_new bd ip port max)) !! id = Some (Registered, t) →
    ∃ t', regs (pool_dm p) !! id = Some (Registered, t')).
  { clear Hinv. induction Hsteps as [q|q q' p Hstep _ IH]; [by split; [|eauto]|].
    destruct (pool_ok_step _ _ _ Hacc Hstep Hok) as [Hok' Hreg]. destruct (IH Hok') as [Hp Hreg']. split; [done|].
    intros id t [t' Ht']%Hreg. by eapply Hreg'. }
  destruct Hall as [[_ Hr _ _] Hfin].
  assert (Hfirst : ∀ id t, regs (pool_dm p) !! id = Some (Registered, t) → has_job (pool_dm p) id ∨
    ∃ k h d, pl_handlers p !! k = Some h ∧ ht_state h = HAckUpdated d ∧ dev_id d = id).
  { intros id t Hid. destruct (Hr id t Hid) as [|(k & h & Hk & Hb)]; [by left|right].
    destruct h as [a m []]; try done. injection Hb as <-. by repeat eexists. }
  split; [exact Hfirst|]. split; [|exact Hfin].
  intros Hidle id t Hid. destruct (Hfirst id t Hid) as [|(k & h & d & Hk & Hst & _)]; [done|]. exfalso.
  assert (Hin : h ∈ filter (λ t, live t = true) (pl_handlers p))
    by (apply list_elem_of_filter; split; [unfold live; by rewrite Hst|by eapply list_elem_of_lookup_2]).
  unfold live_count in Hidle. destruct (filter _ _); [by apply elem_of_nil in Hin|done].
Qed.
End jobs.
