(* ===== verification/BackdoorPoolExamples.v ===== *)
(** * Concrete runs of the tasks of the backdoor

    The meter of [BackdoorExamples.v] registers while other tasks run. *)

From S2P Require Import Prelude Bytes Net Float32 Node Database DatabaseFacts Calendar Scheduler SchedulerFacts DeviceManager DeviceManagerFacts Rlp DeviceMessage DeviceCodec Backdoor BackdoorFacts BackdoorExamples DebugSession BackdoorPool BackdoorPoolFacts BackdoorPoolJobs.

Local Open Scope Z_scope.
Local Open Scope hes_scope.

#[local] Existing Instance gregorian.gregorian.
#[local] Existing Instance big_endian.big_endian.
#[local] Existing Instance rlp_format.rlp_format.

Notation MeterPool := (Pool JobTable InnerDB).
Notation MeterEvent := (PoolEvent JobTable InnerDB).

(** ** Fair events, decided *)
#[local] Instance can_schedule_dec (s : Scheduler JobTable) now : Decision (can_schedule s now).
Proof. unfold can_schedule, day_ok. apply _. Defined.

Definition fairb (p : MeterPool) (e : MeterEvent) : bool :=
  match e with
  | PHandler _ fresh now =>
      bool_decide (can_schedule (bd_sched (sv_bd (pl_server p))) now) &&
      bool_decide (buckets (dm_db (bd_dm (sv_bd (pl_server p)))) !! fresh = None) &&
      forallb (λ t, bool_decide (new_id (ht_state t) ≠ Some fresh)) (pl_handlers p)
  | PSession _ _ | POther _ => false
  | _ => true
  end.
Fixpoint fair_runb (timeout : Z) (es : list MeterEvent) (p : MeterPool) : bool :=
  match es with
  | [] => true
  | e :: es' => fairb p e && fair_runb timeout es' (pool_step timeout e p)
  end.

Lemma fairb_fair p e : fairb p e = true → fair_event p e.
Proof.
  destruct e; try done. cbn [fairb fair_event]. rewrite !andb_true_iff, !bool_decide_eq_true. intros [[Hs Hn] Hf].
  split; [done|]. split; [done|]. intros j t Hj. rewrite forallb_forall in Hf.
  apply (bool_decide_eq_true_1 _ (Hf t (proj1 (list_elem_of_In _ _) (list_elem_of_lookup_2 _ _ _ Hj)))).
Qed.
Lemma fair_run_steps timeout es p : fair_runb timeout es p = true → rtc (reg_step timeout) p (pool_run timeout es p).
Proof.
  revert p. induction es as [|e es IH]; intros p Hf; [apply rtc_refl|]. apply andb_true_iff in Hf as [He Hf].
  rewrite pool_run_cons. eapply rtc_l; [by apply reg_step_event, fairb_fair|by apply IH].
Qed.

(** ** The meter registers, and its timeout runs in the middle of the ACK handler *)
Definition meter_pool : MeterPool := pool_new server (str "0.0.0.0") (str "6565") (Some 1%nat).
Definition asks : MeterEvent := PLoop (Received meter_v4 (message_encode request)).
Definition acks : MeterEvent := PLoop (Received meter_v4 (message_encode meter_ack)).
Definition turn (k : nat) (s : Z) : MeterEvent := PHandler k meter (morning s).

(** Up to the registration of the meter, and to its end. An identifier is only drawn in the
    first turn; any new one does for the others. *)
Definition other_turn (k : nat) (s : Z) : MeterEvent := PHandler k 6000 (morning s).
Definition until_registered : list MeterEvent :=
  [asks; turn 0 (-1); other_turn 0 (-1); other_turn 0 (-1); other_turn 0 0; acks; other_turn 1 1; other_turn 1 1; PAckTimeout 0 (morning 1);
   other_turn 1 1].
Definition until_scheduled : list MeterEvent := until_registered ++ [other_turn 1 2; other_turn 1 2].

(** Between the two writes of the ACK handler the meter is registered and has no connection. *)
Lemma handlers_keep_jobs_witness :
  let middle := sv_bd (pl_server (pool_run 300000 until_registered meter_pool)) in
  let after := sv_bd (pl_server (pool_run 300000 until_scheduled meter_pool)) in
  registrations middle !! meter = Some (Registered, 1704099601 * ns_per_ms) ∧
  scheduled_connections (bd_db middle) !! meter = None ∧ has_job (bd_dm after) meter.
Proof.
  split; [eval_done|]. split; [eval_done|].
  assert (Hfair : fair_runb 300000 until_scheduled meter_pool = true) by eval_done.
  assert (Hreg : registrations (sv_bd (pl_server (pool_run 300000 until_scheduled meter_pool))) !! meter
    = Some (Registered, 1704099601 * ns_per_ms)) by eval_done.
  assert (Hidle : live_count (pl_handlers (pool_run 300000 until_scheduled meter_pool)) = 0%nat) by eval_done.
  destruct (handlers_keep_jobs 300000 server (str "0.0.0.0") (str "6565") (Some 1%nat) (pool_run 300000 until_scheduled meter_pool)
    job_table_accepts server_reg_inv (fair_run_steps _ _ _ Hfair)) as (_ & Hall & _).
  exact (Hall Hidle meter _ Hreg).
Defined.

(** With a limit of one the second request waits; the handler of the first is running. *)
Definition other_v4 : SocketAddr := SockV4 10 0 0 6 4059.
Definition crowd : list MeterEvent := [asks; PLoop (Received other_v4 (message_encode request)); turn 0 (-1)].

Lemma waiting_message_is_handled_witness :
  let p := pool_run 300000 crowd meter_pool in
  let p' := pool_run 300000 (turns_of 0 (replicate 6 (6000, morning 0)) ++ [PPermit]) p in
  pl_waiting p = Some (other_v4, request) ∧ pl_waiting p' = None ∧ last (pl_handlers p') = Some (mkHandlerTask other_v4 request HRegister).
Proof.
  assert (Hw : pl_waiting (pool_run 300000 crowd meter_pool) = Some (other_v4, request)) by eval_done.
  destruct (waiting_message_is_handled 300000 server (str "0.0.0.0") (str "6565") (Some 1%nat) crowd other_v4 request ltac:(done) Hw) as [_ Hall].
  destruct (pl_handlers (pool_run 300000 crowd meter_pool) !! 0%nat) as [t|] eqn:Ht; [|by vm_compute in Ht].
  assert (Hl : live <$> pl_handlers (pool_run 300000 crowd meter_pool) !! 0%nat = Some true) by eval_done.
  rewrite Ht in Hl. injection Hl as Hl.
  destruct (Hall 0%nat t (replicate 6 (6000, morning 0)) Ht Hl eq_refl) as (Hnone & h & Hh & Hlast).
  assert (Hr : handler_start request = Some HRegister) by reflexivity. rewrite Hr in Hh. injection Hh as <-.
  split; [exact Hw|]. split; [exact Hnone|exact Hlast].
Defined.

(** The handshake with undivided handlers is a run of the pool. *)
Definition undivided : list (Event JobTable InnerDB) :=
  [ELoop meter (morning (-1)) (Received meter_v4 (message_encode request)); ELoop 6000 (morning 1) (Received meter_v4 (message_encode meter_ack))].

Lemma loop_run_is_pool_run_witness :
  ∃ ps, registrations (sv_bd (pl_server (pool_run 300000 ps meter_pool))) !! meter = Some (Registered, 1704099601 * ns_per_ms) ∧
    pl_free (pool_run 300000 ps meter_pool) = 1%nat.
Proof.
  destruct (loop_run_is_pool_run 300000 undivided meter_pool eq_refl ltac:(simpl; lia)) as (ps & Hs & Hf & _).
  exists ps. rewrite Hs. split; [eval_done|exact Hf].
Defined.
