(* ===== verification/Membership.v ===== *)
(** * The membership list

    Model of [MembershipList] of [src/cluster/membership.rs]: the local node,
    the other known nodes, the sequence counter and the configuration.
    Instants are nanoseconds, durations milliseconds; the clock is an
    argument. [nodes_active] is the value of the gauge
    [METRICS_CLUSTER.cluster_nodes_active] the list publishes. *)

From S2P Require Import Prelude Bytes Net Float32 Node ClusterPayload Database.

Local Open Scope Z_scope.
Local Open Scope hes_scope.

Record MembershipList := mkMembership {
  local_node : NodeInfo;
  nodes : gmap Z NodeInfo;
  seq_counter : Z;
  m_config : ClusterConfig;
  nodes_active : Z
}.

Definition set_local (n : NodeInfo) (m : MembershipList) : MembershipList :=
  mkMembership n (nodes m) (seq_counter m) (m_config m) (nodes_active m).
Definition set_nodes (ns : gmap Z NodeInfo) (m : MembershipList) : MembershipList :=
  mkMembership (local_node m) ns (seq_counter m) (m_config m) (nodes_active m).
Definition set_seq (s : Z) (m : MembershipList) : MembershipList :=
  mkMembership (local_node m) (nodes m) s (m_config m) (nodes_active m).
Definition set_gauge (g : Z) (m : MembershipList) : MembershipList :=
  mkMembership (local_node m) (nodes m) (seq_counter m) (m_config m) g.

(** [MembershipList::new]; the gauge starts at zero. *)
Definition membership_new (now : Z) (config : ClusterConfig) : outcome ClusterError MembershipList :=
  let! addr := config_cluster_addr config in
  Ok (mkMembership
        (new_local now (cfg_node_id config) (cfg_node_name config) addr (cfg_backdoor_port config))
        ∅ 0 config 0).

(** [next_seq]: the new counter value and the list that holds it. *)
Definition next_seq (m : MembershipList) : Z * MembershipList :=
  let s := wrap_u32 (seq_counter m + 1) in (s, set_seq s m).

Definition m_local_node_id (m : MembershipList) : Uuid := node_id (local_node m).

Definition active_nodes `{HashOrder} (m : MembershipList) : list NodeInfo :=
  filter (λ n, is_available n = true) (hash_iter (nodes m)).*2.
Definition reachable_nodes `{HashOrder} (m : MembershipList) : list NodeInfo :=
  filter (λ n, is_reachable n = true) (hash_iter (nodes m)).*2.

Definition get_node (id : Uuid) (m : MembershipList) : option NodeInfo :=
  if id =? m_local_node_id m then Some (local_node m) else nodes m !! id.

(** A write through [get_node_mut(id)], when there is such a node. *)
Definition modify_node (f : NodeInfo → NodeInfo) (id : Uuid) (m : MembershipList) : MembershipList :=
  if id =? m_local_node_id m then set_local (f (local_node m)) m
  else set_nodes (alter f id (nodes m)) m.

Definition is_active_status (n : NodeInfo) : bool := bool_decide (status n = Active).
Definition count_active (ns : gmap Z NodeInfo) : Z :=
  Z.of_nat (length (filter (λ e, is_active_status e.2 = true) (map_to_list ns))).
Definition sync_nodes_active_metric (m : MembershipList) : MembershipList :=
  set_gauge (count_active (nodes m)) m.

(** The fields [add_or_update_node] copies into a node it already knows. *)
Definition refresh_node (now : Z) (new old : NodeInfo) : NodeInfo :=
  {| node_id := node_id old; node_name := node_name new; cluster_addr := cluster_addr old;
     backdoor_port := backdoor_port old; status := status new; started_at := started_at old;
     last_heartbeat := now; bucket_count := bucket_count new; device_count := device_count new;
     max_device_suggested := max_device_suggested new; load_percent := load_percent new |}.

Definition add_or_update_node (now : Z) (n : NodeInfo) (m : MembershipList) : MembershipList :=
  if node_id n =? m_local_node_id m then m
  else
    sync_nodes_active_metric
      (match nodes m !! node_id n with
       | Some existing => set_nodes (<[node_id n := refresh_node now n existing]> (nodes m)) m
       | None => set_nodes (<[node_id n := n]> (nodes m)) m
       end).

(** [MembershipList::update_heartbeat]: only looks among the other nodes. *)
Definition m_update_heartbeat (now : Z) (id : Uuid) (m : MembershipList) : MembershipList :=
  set_nodes (alter (touch_heartbeat now) id (nodes m)) m.

Definition mark_suspect (id : Uuid) (m : MembershipList) : MembershipList :=
  match nodes m !! id with
  | Some n =>
      if decide (status n = Active)
      then sync_nodes_active_metric (set_nodes (<[id := set_status Suspect n]> (nodes m)) m)
      else m
  | None => m
  end.

Definition mark_dead (id : Uuid) (m : MembershipList) : MembershipList :=
  match nodes m !! id with
  | Some n => sync_nodes_active_metric (set_nodes (<[id := set_status Dead n]> (nodes m)) m)
  | None => m
  end.

Definition remove_node (id : Uuid) (m : MembershipList) : option NodeInfo * MembershipList :=
  (nodes m !! id, sync_nodes_active_metric (set_nodes (delete id (nodes m)) m)).

Definition get_suspect_candidates `{HashOrder} (now : Z) (m : MembershipList) : list Uuid :=
  node_id <$> filter (λ n, status n = Active ∧ suspect_timeout (m_config m) < time_since_heartbeat now n)
    (hash_iter (nodes m)).*2.

Definition get_dead_candidates `{HashOrder} (now : Z) (m : MembershipList) : list Uuid :=
  node_id <$> filter (λ n, status n = Suspect ∧
      suspect_timeout (m_config m) + dead_timeout (m_config m) < time_since_heartbeat now n)
    (hash_iter (nodes m)).*2.

Definition known_node_ids `{HashOrder} (m : MembershipList) : list Uuid := (hash_iter (nodes m)).*1.

Definition create_heartbeat_payload `{HashOrder} (m : MembershipList) : HeartbeatPayload :=
  let l := local_node m in
  {| hb_status := status l; hb_bucket_count := wrap_u16 (bucket_count l);
     hb_device_count := device_count l; hb_load_percent := f32_to_u8 (load_percent l);
     hb_max_device_suggested := max_device_suggested l; hb_known_nodes := known_node_ids m |}.

Definition create_node_join_payload (m : MembershipList) : NodeJoinPayload :=
  let l := local_node m in mkNodeJoin (node_name l) (cluster_addr l) (backdoor_port l).

Definition set_local_status (s : NodeStatus) (m : MembershipList) : MembershipList :=
  set_local (set_status s (local_node m)) m.

Definition set_stats (buckets devices : Z) (load : f32) (n : NodeInfo) : NodeInfo :=
  {| node_id := node_id n; node_name := node_name n; cluster_addr := cluster_addr n;
     backdoor_port := backdoor_port n; status := status n; started_at := started_at n;
     last_heartbeat := last_heartbeat n; bucket_count := buckets; device_count := devices;
     max_device_suggested := max_device_suggested n; load_percent := load |}.

Definition update_local_stats (buckets devices : Z) (m : MembershipList) : MembershipList :=
  let l := local_node m in
  let load :=
    if 0 <? max_device_suggested l
    then f32_mul (f32_div (f32_of_Z devices) (f32_of_Z (max_device_suggested l))) f32_100
    else f32_zero in
  set_local (set_stats buckets devices load l) m.

Definition node_count (m : MembershipList) : Z := Z.of_nat (size (nodes m)) + 1.

Definition active_node_count `{HashOrder} (m : MembershipList) : Z :=
  Z.of_nat (length (active_nodes m)) + (if is_available (local_node m) then 1 else 0).

(** ** Invariants *)

(** The other nodes are filed under their identifiers, and the local node is not among them. *)
Definition membership_wf (m : MembershipList) : Prop :=
  (∀ id n, nodes m !! id = Some n → node_id n = id) ∧ nodes m !! m_local_node_id m = None.

(** The gauge shows the number of active nodes. *)
Definition gauge_exact (m : MembershipList) : Prop := nodes_active m = count_active (nodes m).

Lemma wf_alter f id m :
  (∀ n, node_id (f n) = node_id n) → membership_wf m → membership_wf (set_nodes (alter f id (nodes m)) m).
Proof.
  intros Hf [Hk Hl]. split; simpl.
  - intros id' n. destruct (decide (id = id')) as [->|].
    + rewrite lookup_alter_eq. intros (n' & Hn & ->)%fmap_Some. rewrite Hf. by apply Hk.
    + rewrite lookup_alter_ne by done. apply Hk.
  - unfold m_local_node_id in *. simpl. apply lookup_alter_None, Hl.
Qed.

Lemma wf_insert n m :
  node_id n ≠ m_local_node_id m → membership_wf m →
  membership_wf (set_nodes (<[node_id n := n]> (nodes m)) m).
Proof.
  intros Hne [Hk Hl]. split; simpl.
  - intros id n'. destruct (decide (node_id n = id)) as [<-|].
    + rewrite lookup_insert_eq. by intros [= <-].
    + rewrite lookup_insert_ne by done. apply Hk.
  - unfold m_local_node_id in *. simpl. by rewrite lookup_insert_ne.
Qed.

Lemma wf_delete id m : membership_wf m → membership_wf (set_nodes (delete id (nodes m)) m).
Proof.
  intros [Hk Hl]. split; simpl.
  - intros id' n [_ Hn]%lookup_delete_Some. by apply Hk.
  - unfold m_local_node_id in *. simpl. apply lookup_delete_None. by right.
Qed.

Lemma wf_set_local n m : node_id n = m_local_node_id m → membership_wf m → membership_wf (set_local n m).
Proof. intros Hn [Hk Hl]. split; [done|]. unfold m_local_node_id in *. simpl. by rewrite Hn. Qed.

Lemma wf_modify f id m :
  (∀ n, node_id (f n) = node_id n) → membership_wf m → membership_wf (modify_node f id m).
Proof. intros Hf Hm. unfold modify_node. case_match; [by apply wf_set_local|by apply wf_alter]. Qed.

Lemma wf_add_or_update now n m : membership_wf m → membership_wf (add_or_update_node now n m).
Proof.
  intros Hm. unfold add_or_update_node. destruct (Z.eqb_spec (node_id n) (m_local_node_id m)) as [|Hne]; [done|].
  destruct (nodes m !! node_id n) as [e|] eqn:He; [|exact (wf_insert n m Hne Hm)].
  pose proof (proj1 Hm _ _ He) as Hid.
  assert (Hi : node_id (refresh_node now n e) = node_id n) by done || exact Hid.
  pose proof (wf_insert (refresh_node now n e) m) as Hw. rewrite Hi in Hw. exact (Hw Hne Hm).
Qed.

Lemma wf_mark_suspect id m : membership_wf m → membership_wf (mark_suspect id m).
Proof.
  intros Hm. unfold mark_suspect. destruct (nodes m !! id) as [n|] eqn:Hn; [|done].
  case_decide; [|done]. pose proof (proj1 Hm _ _ Hn) as Hid.
  pose proof (wf_insert (set_status Suspect n) m) as Hw. simpl in Hw. rewrite Hid in Hw.
  apply Hw; [|done]. intros ->. by rewrite (proj2 Hm) in Hn.
Qed.

Lemma wf_mark_dead id m : membership_wf m → membership_wf (mark_dead id m).
Proof.
  intros Hm. unfold mark_dead. destruct (nodes m !! id) as [n|] eqn:Hn; [|done].
  pose proof (proj1 Hm _ _ Hn) as Hid.
  pose proof (wf_insert (set_status Dead n) m) as Hw. simpl in Hw. rewrite Hid in Hw.
  apply Hw; [|done]. intros ->. by rewrite (proj2 Hm) in Hn.
Qed.

Lemma wf_remove id m : membership_wf m → membership_wf (remove_node id m).2.
Proof. apply wf_delete. Qed.

Lemma wf_set_seq s m : membership_wf m → membership_wf (set_seq s m).
Proof. done. Qed.

Lemma wf_update_local_stats b d m : membership_wf m → membership_wf (update_local_stats b d m).
Proof. by apply wf_set_local. Qed.

#[export] Hint Resolve wf_modify wf_add_or_update wf_mark_suspect wf_mark_dead wf_remove wf_set_seq
  wf_update_local_stats wf_alter wf_set_local : hes.
