(* ===== verification/ClusterNode.v ===== *)
(** * One node of the cluster: shared state and sending

    The state the tasks of a cluster node share (membership list, device
    manager with scheduler and database, configuration store), the datagrams
    it has sent, and the sending functions of [src/cluster/membership.rs]
    with the heartbeat of [src/cluster/heartbeat.rs].

    The UDP socket is the class [UdpSocket]: the outcome of the n-th send may
    be anything, except that a datagram longer than UDP allows is refused.
    [now] is the clock of the handler; handlers that sleep take the
    clock after the sleep too, and the effect of the other tasks meanwhile. *)

From S2P Require Import Prelude Bytes Net Float32 Node ClusterPayload ClusterMessage Database Calendar Scheduler DeviceManager Membership.

Local Open Scope Z_scope.
Local Open Scope hes_scope.

Definition UDP_MAX : Z := 65507.

(** [None] when the datagram was handed to the network, else the error text. *)
Class UdpSocket := {
  send_to : nat → SocketAddr → list Z → option (list Z);
  send_too_large n a b : UDP_MAX < Z.of_nat (length b) → send_to n a b ≠ None
}.

(** A network that takes everything that fits. *)
#[export] Program Instance open_network : UdpSocket := {|
  send_to := λ _ _ b, if UDP_MAX <? Z.of_nat (length b) then Some (str "Message too long") else None
|}.
Next Obligation. intros n a b Hb. simpl. destruct (Z.ltb_spec UDP_MAX (Z.of_nat (length b))); [done|lia]. Qed.

(** The trait [ConfigStore] of [src/common/config_store.rs]; errors are their text. *)
Class ConfigStore (CS : Type) := {
  set_cluster_seeds : option (list Z) → SE CS (list Z) unit;
  get_all_config : SE CS (list Z) (list (list Z * list Z));
  get_config_value : list Z → SE CS (list Z) (option (list Z));
  set_config_value : list Z → list Z → SE CS (list Z) unit
}.

(** [NoOpConfigStore]. *)
#[export] Instance NoOpConfigStore : ConfigStore unit := {|
  set_cluster_seeds _ := sret tt;
  get_all_config := sret [];
  get_config_value _ := sret None;
  set_config_value _ _ := sret tt
|}.

Section node.
Context `{BytesCrate} `{ChronoCrate} `{HashOrder} `{UdpSocket}.
Context {JS DB CS : Type} `{JobCrate JS} `{Engine DB} `{ConfigStore CS}.

Record ClusterNode := mkClusterNode {
  cn_members : MembershipList;
  cn_dm : DmState JS DB;
  cn_config : CS;
  sent : list (SocketAddr * ClusterMessage);
  send_attempts : nat
}.

Definition set_members (m : MembershipList) (s : ClusterNode) : ClusterNode :=
  mkClusterNode m (cn_dm s) (cn_config s) (sent s) (send_attempts s).
Definition set_cn_dm (d : DmState JS DB) (s : ClusterNode) : ClusterNode :=
  mkClusterNode (cn_members s) d (cn_config s) (sent s) (send_attempts s).
Definition set_cn_config (c : CS) (s : ClusterNode) : ClusterNode :=
  mkClusterNode (cn_members s) (cn_dm s) c (sent s) (send_attempts s).

Definition C (A : Type) : Type := SE ClusterNode ClusterError A.

(** [membership.write().await] and [membership.read().await]. *)
Definition with_members (f : MembershipList → MembershipList) : C unit :=
  smod (λ s, set_members (f (cn_members s)) s).
Definition read_members {A} (f : MembershipList → A) : C A := sget (λ s, f (cn_members s)).

(** The device manager and the database, with [?]. *)
Definition in_dm {A} (m : DM JS DB A) : C A := szoom cn_dm set_cn_dm ClDeviceManagerError m.
Definition in_cdb {A} (m : SE DB DatabaseError A) : C A :=
  szoom (λ s, dm_db (cn_dm s)) (λ d s, set_cn_dm (set_dm_db d (cn_dm s)) s) ClDatabaseError m.

(** [let (id, seq) = { m.local_node_id(), m.next_seq() }]. *)
Definition take_seq : C (Uuid * Z) := λ s,
  let (q, m) := next_seq (cn_members s) in
  (Ok (m_local_node_id (cn_members s), q), set_members m s).

(** [socket.send_to(&buf, target)]. *)
Definition udp_send (target : SocketAddr) (msg : ClusterMessage) : C unit := λ s,
  match send_to (send_attempts s) target (codec_encode msg) with
  | None => (Ok tt, mkClusterNode (cn_members s) (cn_dm s) (cn_config s)
                      (sent s ++ [(target, msg)]) (S (send_attempts s)))
  | Some e => (Err (CommunicationError e), mkClusterNode (cn_members s) (cn_dm s) (cn_config s)
                      (sent s) (S (send_attempts s)))
  end.

Definition send_message (target : SocketAddr) (msg : ClusterMessage) : C unit := udp_send target msg.

(** [if let Err(e) = send { warn!(..) }]. *)
Definition try_send (target : SocketAddr) (msg : ClusterMessage) : C unit :=
  do! _ <- sresult (E := ClusterError) (udp_send target msg) ; sret tt.

Definition broadcast_message (msg : ClusterMessage) : C unit :=
  do! targets <- read_members (λ m, cluster_addr <$> reachable_nodes m) ;
  sfor targets (λ target, try_send target msg).

Definition now_ms (now : Z) : Z := now / ns_per_ms.

Definition send_join_to_peer (now : Z) (seed : SocketAddr) : C unit :=
  do! (id, seq) <- take_seq ;
  do! payload <- read_members create_node_join_payload ;
  send_message seed (node_join (now_ms now) id seq payload).

(** Counts the peers that took the update. *)
Fixpoint notify_peers (peers : list SocketAddr) (msg : ClusterMessage) (notified : Z) : C Z :=
  match peers with
  | [] => sret notified
  | p :: peers' =>
      do! r <- sresult (send_message p msg) ;
      notify_peers peers' msg (match r with Ok _ => notified + 1 | _ => notified end)
  end.

(** [update_id] is the fresh [Uuid::new_v4()]. *)
Definition broadcast_config_update (now : Z) (update_id id : Uuid) (key value : list Z) : C Z :=
  do! peers <- read_members (λ m,
    cluster_addr <$> filter (λ n, node_id n ≠ id) (reachable_nodes m)) ;
  if decide (peers = []) then sret 0
  else notify_peers peers (config_update (now_ms now) id 0 (mkConfigUpdate update_id key value)) 0.

(** One turn of [heartbeat_loop]. *)
Definition heartbeat_tick (now : Z) : C unit :=
  do! (_, seq) <- take_seq ;
  do! (id, payload) <- read_members (λ m, (m_local_node_id m, create_heartbeat_payload m)) ;
  do! _ <- sresult (E := ClusterError) (broadcast_message (heartbeat (now_ms now) id seq payload)) ;
  sret tt.
End node.
Arguments ClusterNode JS DB CS : clear implicits.
Arguments C JS DB CS A : clear implicits.
