(* ===== verification/Config.v ===== *)
(** * Configuration

    Model of [src/config.rs]: the YAML file's structure ([FileConfig]), the
    resolved configuration ([HesConfig]), the merge of defaults, file and
    command line ([resolve_config]), the substitution of environment
    variables and [ConfigManager], the [ConfigStore] of a running server. The
    crates [serde_yaml] and [uuid], the file system and the environment are
    classes. Text is its bytes. *)

From S2P Require Import Prelude Bytes Net Float32 Node Database Calendar Scheduler DeviceManager ClusterPayload ClusterMessage Membership ClusterNode.

Local Open Scope Z_scope.
Local Open Scope hes_scope.

(** ** The file *)
Record RpcFileConfig := mkRpcFile {
  rf_enabled : option bool; rf_ip : option (list Z); rf_port : option Z
}.
Record BackdoorFileConfig := mkBackdoorFile {
  bf_ip : option (list Z); bf_port : option (list Z)
}.
Record MetricsFileConfig := mkMetricsFile {
  mf_enabled : option bool; mf_ip : option (list Z); mf_port : option (list Z)
}.
Record SchedulerFileConfig := mkSchedulerFile {
  sf_buckets_number : option Z; sf_test_mode : option bool
}.
Record PostgresFileConfig := mkPostgresFile {
  pf_user : option (list Z); pf_password : option (list Z); pf_url : option (list Z); pf_port : option (list Z)
}.
Record DatabaseFileConfig := mkDatabaseFile {
  df_db_type : option (list Z); df_postgres : option PostgresFileConfig
}.
Record ClusterFileConfig := mkClusterFile {
  cf_enabled : option bool; cf_node_name : option (list Z); cf_ip : option (list Z);
  cf_port : option Z; cf_seeds : option (list Z)
}.
Record FileConfig := mkFileConfig {
  f_node_id : option (list Z);
  f_backdoor : option BackdoorFileConfig;
  f_metrics : option MetricsFileConfig;
  f_scheduler : option SchedulerFileConfig;
  f_database : option DatabaseFileConfig;
  f_cluster : option ClusterFileConfig;
  f_rpc : option RpcFileConfig
}.

(** ** The resolved configuration *)
Inductive DatabaseType := InMemory | Postgres.

#[export] Instance DatabaseType_eq_dec : EqDecision DatabaseType.
Proof. solve_decision. Defined.

Record HesConfig := mkHesConfig {
  hc_node_id : Uuid;
  hc_backdoor_ip : list Z;
  hc_backdoor_port : list Z;
  hc_metrics_enabled : bool;
  hc_metrics_ip : list Z;
  hc_metrics_port : list Z;
  hc_buckets_number : Z;
  hc_database_type : DatabaseType;
  hc_postgres_user : list Z;
  hc_postgres_password : list Z;
  hc_postgres_url : list Z;
  hc_postgres_port : list Z;
  hc_cluster_enabled : bool;
  hc_node_name : option (list Z);
  hc_cluster_ip : list Z;
  hc_cluster_port : Z;
  hc_cluster_seeds : option (list Z);
  hc_rpc_enabled : bool;
  hc_rpc_ip : list Z;
  hc_rpc_port : Z;
  hc_test_mode : bool
}.

(** [HesConfig::default()]; [fresh] is its [Uuid::new_v4()]. *)
Definition hes_config_default (fresh : Uuid) : HesConfig := {|
  hc_node_id := fresh;
  hc_backdoor_ip := str "0.0.0.0";
  hc_backdoor_port := str "6565";
  hc_metrics_enabled := true;
  hc_metrics_ip := str "0.0.0.0";
  hc_metrics_port := str "6464";
  hc_buckets_number := 48;
  hc_database_type := Postgres;
  hc_postgres_user := str "postgres";
  hc_postgres_password := str "HeadEndSystem";
  hc_postgres_url := str "127.0.0.1";
  hc_postgres_port := str "5432";
  hc_cluster_enabled := true;
  hc_node_name := None;
  hc_cluster_ip := str "0.0.0.0";
  hc_cluster_port := 6570;
  hc_cluster_seeds := None;
  hc_rpc_enabled := true;
  hc_rpc_ip := str "127.0.0.1";
  hc_rpc_port := 6600;
  hc_test_mode := false
|}.

Inductive ConfigError :=
| CfgIoError (msg : list Z)
| YamlParseError (msg : list Z)
| EnvVarNotFound (name : list Z)
| InvalidNodeId (msg : list Z)
| InvalidDatabaseType (name : list Z)
| NoHomeDirectory.

(** [Display]. *)
Definition config_error_text (e : ConfigError) : list Z :=
  match e with
  | CfgIoError m => str "IO error: " ++ m
  | YamlParseError m => str "YAML parse error: " ++ m
  | EnvVarNotFound n => str "Environment variable not found: ${" ++ n ++ str "}"
  | InvalidNodeId m => str "Invalid node_id in config: " ++ m
  | InvalidDatabaseType n => str "Invalid database type '" ++ n ++ str "'. Valid values: postgres, in-memory"
  | NoHomeDirectory => str "Could not determine home directory"
  end.

(** ** What is used of other code *)

(** The crate [uuid]. *)
Class UuidCrate := {
  uuid_to_string : Uuid → list Z;
  uuid_parse : list Z → outcome (list Z) Uuid;
  uuid_roundtrip u : uuid_wf u → uuid_parse (uuid_to_string u) = Ok u;
  uuid_text_hex u c : c ∈ uuid_to_string u → c = 45 ∨ 48 <= c <= 57 ∨ 97 <= c <= 102
}.

(** The crate [serde_yaml] on [FileConfig]: what it writes it reads back. *)
Class YamlCrate := {
  yaml_to_string : FileConfig → outcome (list Z) (list Z);
  yaml_from_str : list Z → outcome (list Z) FileConfig;
  yaml_roundtrip fc text : yaml_to_string fc = Ok text → yaml_from_str text = Ok fc
}.

(** [std::fs] and [std::env]: paths and contents are text, errors their text. *)
Class FileSystem (FS : Type) := {
  fs_exists : list Z → FS → bool;
  fs_read_to_string : list Z → FS → outcome (list Z) (list Z);
  fs_create_parent : list Z → FS → outcome (list Z) unit * FS;
  fs_write : list Z → list Z → FS → outcome (list Z) unit * FS;
  fs_written path text fs fs' : fs_write path text fs = (Ok tt, fs') →
    fs_exists path fs' = true ∧ fs_read_to_string path fs' = Ok text
}.

Class Environment := {
  env_var : list Z → option (list Z);
  home_dir : option (list Z)
}.

Section config.
Context `{UuidCrate} `{YamlCrate} `{Environment} {FS : Type} `{FileSystem FS}.

Definition database_type_to_string (t : DatabaseType) : list Z :=
  match t with Postgres => str "postgres" | InMemory => str "in-memory" end.

Definition parse_database_type (s : list Z) : outcome ConfigError DatabaseType :=
  if decide (s = str "postgres") then Ok Postgres
  else if decide (s = str "in-memory" ∨ s = str "in_memory" ∨ s = str "inmemory") then Ok InMemory
  else Err (InvalidDatabaseType s).

Definition to_file_config (c : HesConfig) : FileConfig := {|
  f_node_id := Some (uuid_to_string (hc_node_id c));
  f_backdoor := Some (mkBackdoorFile (Some (hc_backdoor_ip c)) (Some (hc_backdoor_port c)));
  f_metrics := Some (mkMetricsFile (Some (hc_metrics_enabled c)) (Some (hc_metrics_ip c)) (Some (hc_metrics_port c)));
  f_scheduler := Some (mkSchedulerFile (Some (hc_buckets_number c))
                         (if hc_test_mode c then Some true else None));
  f_database := Some (mkDatabaseFile (Some (database_type_to_string (hc_database_type c)))
    (Some (mkPostgresFile (Some (hc_postgres_user c)) (Some (hc_postgres_password c))
             (Some (hc_postgres_url c)) (Some (hc_postgres_port c)))));
  f_cluster := Some (mkClusterFile (Some (hc_cluster_enabled c)) (hc_node_name c) (Some (hc_cluster_ip c))
                       (Some (hc_cluster_port c)) (hc_cluster_seeds c));
  f_rpc := Some (mkRpcFile (Some (hc_rpc_enabled c)) (Some (hc_rpc_ip c)) (Some (hc_rpc_port c)))
|}.

(** ** Environment variables

    The matches of [\$\{([^}]+)\}]: [$], [{], one or more bytes other than
    [}], and [}]. A match is its variable name. *)
Definition dollar : Z := 36.
Definition lbrace : Z := 123.
Definition rbrace : Z := 125.

(** The bytes up to the first [}], and what follows it. *)
Fixpoint until_rbrace (l : list Z) : option (list Z * list Z) :=
  match l with
  | [] => None
  | b :: l' =>
      if b =? rbrace then Some ([], l')
      else match until_rbrace l' with
           | Some (name, rest) => Some (b :: name, rest)
           | None => None
           end
  end.

(** The first match of the text that starts here. *)
Definition match_here (l : list Z) : option (list Z * list Z) :=
  match l with
  | d :: b :: l' =>
      if (d =? dollar) && (b =? lbrace) then
        match until_rbrace l' with
        | Some ([], _) | None => None
        | Some (name, rest) => Some (name, rest)
        end
      else None
  | _ => None
  end.

(** [captures_iter]: leftmost matches that do not overlap; [fuel] is the length of the text. *)
Fixpoint captures (fuel : nat) (l : list Z) : list (list Z) :=
  match fuel with
  | O => []
  | S fuel' =>
      match l with
      | [] => []
      | _ :: l' =>
          match match_here l with
          | Some (name, rest) => name :: captures fuel' rest
          | None => captures fuel' l'
          end
      end
  end.
Definition captures_iter (l : list Z) : list (list Z) := captures (length l) l.

(** [str::replace]: every occurrence, from the left. *)
Fixpoint strip_prefix (p l : list Z) : option (list Z) :=
  match p, l with
  | [], _ => Some l
  | _ :: _, [] => None
  | x :: p', y :: l' => if x =? y then strip_prefix p' l' else None
  end.

Fixpoint replace (fuel : nat) (from to l : list Z) : list Z :=
  match fuel with
  | O => l
  | S fuel' =>
      match l with
      | [] => []
      | b :: l' =>
          match strip_prefix from l with
          | Some rest => to ++ replace fuel' from to rest
          | None => b :: replace fuel' from to l'
          end
      end
  end.
Definition str_replace (from to l : list Z) : list Z := replace (length l) from to l.

Definition placeholder (name : list Z) : list Z := [dollar; lbrace] ++ name ++ [rbrace].

Fixpoint substitute (names : list (list Z)) (result : list Z) : outcome ConfigError (list Z) :=
  match names with
  | [] => Ok result
  | name :: names' =>
      let! value := ok_or (env_var name) (EnvVarNotFound name) in
      substitute names' (str_replace (placeholder name) value result)
  end.
Definition substitute_env_vars (input : list Z) : outcome ConfigError (list Z) :=
  substitute (captures_iter input) input.

(** ** Loading and merging *)
Definition default_config_path : outcome ConfigError (list Z) :=
  let! home := ok_or home_dir NoHomeDirectory in
  Ok (home ++ str "/.hes/config.yaml").

Definition load_file_config (path : list Z) (fs : FS) : outcome ConfigError FileConfig :=
  let! raw := omap_err CfgIoError (fs_read_to_string path fs) in
  let! substituted := substitute_env_vars raw in
  omap_err YamlParseError (yaml_from_str substituted).

(** [if let Some(v) = o { field = v; }]. *)
Definition over {A} (o : option A) (field : A) : A := default field o.
(** [if let Some(v) = section { .. if let Some(v) = section.field { .. } }]. *)
Definition over_in {S A} (section : option S) (f : S → option A) (field : A) : A :=
  match section with Some s => over (f s) field | None => field end.
(** [if let Some(v) = section.field { field = Some(v); }]. *)
Definition over_opt {S A} (section : option S) (f : S → option A) (field : option A) : option A :=
  match section with
  | Some s => match f s with Some v => Some v | None => field end
  | None => field
  end.

Definition apply_file_config (config : HesConfig) (fc : FileConfig) : outcome ConfigError HesConfig :=
  let! node_id :=
    match f_node_id fc with
    | Some id => omap_err InvalidNodeId (uuid_parse id)
    | None => Ok (hc_node_id config)
    end in
  let! database_type :=
    match f_database fc with
    | Some db => match df_db_type db with
                 | Some t => parse_database_type t
                 | None => Ok (hc_database_type config)
                 end
    | None => Ok (hc_database_type config)
    end in
  let pg := match f_database fc with Some db => df_postgres db | None => None end in
  Ok {|
    hc_node_id := node_id;
    hc_backdoor_ip := over_in (f_backdoor fc) bf_ip (hc_backdoor_ip config);
    hc_backdoor_port := over_in (f_backdoor fc) bf_port (hc_backdoor_port config);
    hc_metrics_enabled := over_in (f_metrics fc) mf_enabled (hc_metrics_enabled config);
    hc_metrics_ip := over_in (f_metrics fc) mf_ip (hc_metrics_ip config);
    hc_metrics_port := over_in (f_metrics fc) mf_port (hc_metrics_port config);
    hc_buckets_number := over_in (f_scheduler fc) sf_buckets_number (hc_buckets_number config);
    hc_database_type := database_type;
    hc_postgres_user := over_in pg pf_user (hc_postgres_user config);
    hc_postgres_password := over_in pg pf_password (hc_postgres_password config);
    hc_postgres_url := over_in pg pf_url (hc_postgres_url config);
    hc_postgres_port := over_in pg pf_port (hc_postgres_port config);
    hc_cluster_enabled := over_in (f_cluster fc) cf_enabled (hc_cluster_enabled config);
    hc_node_name := over_opt (f_cluster fc) cf_node_name (hc_node_name config);
    hc_cluster_ip := over_in (f_cluster fc) cf_ip (hc_cluster_ip config);
    hc_cluster_port := over_in (f_cluster fc) cf_port (hc_cluster_port config);
    hc_cluster_seeds := over_opt (f_cluster fc) cf_seeds (hc_cluster_seeds config);
    hc_rpc_enabled := over_in (f_rpc fc) rf_enabled (hc_rpc_enabled config);
    hc_rpc_ip := over_in (f_rpc fc) rf_ip (hc_rpc_ip config);
    hc_rpc_port := over_in (f_rpc fc) rf_port (hc_rpc_port config);
    hc_test_mode := over_in (f_scheduler fc) sf_test_mode (hc_test_mode config)
  |}.

Record CliOverrides := mkCli {
  cli_backdoor_ip : option (list Z);
  cli_backdoor_port : option (list Z);
  cli_no_metrics : bool;
  cli_metrics_ip : option (list Z);
  cli_metrics_port : option (list Z);
  cli_buckets_number : option Z;
  cli_database_type : option DatabaseType;
  cli_postgres_user : option (list Z);
  cli_postgres_password : option (list Z);
  cli_postgres_url : option (list Z);
  cli_postgres_port : option (list Z);
  cli_disable_cluster : bool;
  cli_node_name : option (list Z);
  cli_cluster_ip : option (list Z);
  cli_cluster_port : option Z;
  cli_cluster_seeds : option (list Z);
  cli_disable_rpc : bool;
  cli_rpc_ip : option (list Z);
  cli_rpc_port : option Z;
  cli_test_mode : bool
}.

(** No option on the command line. *)
Definition no_cli : CliOverrides :=
  mkCli None None false None None None None None None None None false None None None None false None None false.

Definition apply_cli_overrides (config : HesConfig) (cli : CliOverrides) : HesConfig := {|
  hc_node_id := hc_node_id config;
  hc_backdoor_ip := over (cli_backdoor_ip cli) (hc_backdoor_ip config);
  hc_backdoor_port := over (cli_backdoor_port cli) (hc_backdoor_port config);
  hc_metrics_enabled := if cli_no_metrics cli then false else hc_metrics_enabled config;
  hc_metrics_ip := over (cli_metrics_ip cli) (hc_metrics_ip config);
  hc_metrics_port := over (cli_metrics_port cli) (hc_metrics_port config);
  hc_buckets_number := over (cli_buckets_number cli) (hc_buckets_number config);
  hc_database_type := over (cli_database_type cli) (hc_database_type config);
  hc_postgres_user := over (cli_postgres_user cli) (hc_postgres_user config);
  hc_postgres_password := over (cli_postgres_password cli) (hc_postgres_password config);
  hc_postgres_url := over (cli_postgres_url cli) (hc_postgres_url config);
  hc_postgres_port := over (cli_postgres_port cli) (hc_postgres_port config);
  hc_cluster_enabled := if cli_disable_cluster cli then false else hc_cluster_enabled config;
  hc_node_name := match cli_node_name cli with Some n => Some n | None => hc_node_name config end;
  hc_cluster_ip := over (cli_cluster_ip cli) (hc_cluster_ip config);
  hc_cluster_port := over (cli_cluster_port cli) (hc_cluster_port config);
  hc_cluster_seeds := match cli_cluster_seeds cli with Some s => Some s | None => hc_cluster_seeds config end;
  hc_rpc_enabled := if cli_disable_rpc cli then false else hc_rpc_enabled config;
  hc_rpc_ip := over (cli_rpc_ip cli) (hc_rpc_ip config);
  hc_rpc_port := over (cli_rpc_port cli) (hc_rpc_port config);
  hc_test_mode := if cli_test_mode cli then true else hc_test_mode config
|}.

Definition save_config_to_file (path : list Z) (file_config : FileConfig) : SE FS ConfigError unit :=
  do! _ <- (λ fs, let (r, fs') := fs_create_parent path fs in (omap_err CfgIoError r, fs')) ;
  do! yaml <- slift (omap_err YamlParseError (yaml_to_string file_config)) ;
  λ fs, let (r, fs') := fs_write path yaml fs in (omap_err CfgIoError r, fs').

(** ** The manager: the configuration, its path, and the disk it writes to *)
Record ConfigManager := mkConfigManager {
  cm_config : HesConfig;
  cm_path : list Z;
  cm_fs : FS
}.
Definition set_cm_fs (fs : FS) (s : ConfigManager) : ConfigManager := mkConfigManager (cm_config s) (cm_path s) fs.
Definition set_cm_config (c : HesConfig) (s : ConfigManager) : ConfigManager := mkConfigManager c (cm_path s) (cm_fs s).

(** The configuration and the path of the manager it makes; [fresh] is the default node. *)
Definition resolve_config (fresh : Uuid) (cli_config_path : option (list Z)) (cli : CliOverrides)
  : SE FS ConfigError (HesConfig * list Z) :=
  do! config_path <- slift (match cli_config_path with Some p => Ok p | None => default_config_path end) ;
  do! is_new_file <- sget (λ fs, negb (fs_exists config_path fs)) ;
  do! config <- (if (is_new_file : bool) then sret (hes_config_default fresh)
                 else λ fs, (let! fc := load_file_config config_path fs in
                             apply_file_config (hes_config_default fresh) fc, fs)) ;
  let config := apply_cli_overrides config cli in
  do! _ <- save_config_to_file config_path (to_file_config config) ;
  sret (config, config_path).

Definition cm_update (f : HesConfig → HesConfig) : SE ConfigManager ConfigError unit :=
  do! _ <- smod (λ s, set_cm_config (f (cm_config s)) s) ;
  do! s <- sget (λ s, s) ;
  szoom cm_fs set_cm_fs (λ e, e) (save_config_to_file (cm_path s) (to_file_config (cm_config s))).

(** [self.update(..).await.map_err(Into::into)]: the error becomes its text. *)
Definition cm_store (f : HesConfig → HesConfig) : SE ConfigManager (list Z) unit :=
  szoom (λ s, s) (λ s _, s) config_error_text (cm_update f).

(** ** Keys

    The strings that [get_config_value] and [set_config_value] match on. *)
Inductive ConfigKey :=
| KBackdoorIp | KBackdoorPort | KMetricsEnabled | KMetricsIp | KMetricsPort | KBucketsNumber
| KClusterEnabled | KClusterIp | KClusterPort | KClusterSeeds | KNodeName | KRpcEnabled | KRpcIp
| KRpcPort | KTestMode | KNodeId | KDatabaseType.

#[export] Instance ConfigKey_eq_dec : EqDecision ConfigKey.
Proof. solve_decision. Defined.

Definition key_name (k : ConfigKey) : list Z :=
  match k with
  | KBackdoorIp => str "backdoor_ip" | KBackdoorPort => str "backdoor_port"
  | KMetricsEnabled => str "metrics_enabled" | KMetricsIp => str "metrics_ip"
  | KMetricsPort => str "metrics_port" | KBucketsNumber => str "buckets_number"
  | KClusterEnabled => str "cluster_enabled" | KClusterIp => str "cluster_ip"
  | KClusterPort => str "cluster_port" | KClusterSeeds => str "cluster_seeds"
  | KNodeName => str "node_name" | KRpcEnabled => str "rpc_enabled" | KRpcIp => str "rpc_ip"
  | KRpcPort => str "rpc_port" | KTestMode => str "test_mode" | KNodeId => str "node_id"
  | KDatabaseType => str "database_type"
  end.

(** In the order [get_all_config] inserts them. *)
Definition all_keys : list ConfigKey :=
  [KBackdoorIp; KBackdoorPort; KMetricsEnabled; KMetricsIp; KMetricsPort; KBucketsNumber;
   KClusterEnabled; KClusterIp; KClusterPort; KClusterSeeds; KNodeName; KRpcEnabled; KRpcIp;
   KRpcPort; KTestMode; KNodeId; KDatabaseType].

Definition key_of (key : list Z) : option ConfigKey :=
  head (filter (λ k, key_name k = key) all_keys).

Definition bool_text (b : bool) : list Z := if b then str "true" else str "false".

(** The arms of [get_config_value]. *)
Definition key_value (c : HesConfig) (k : ConfigKey) : option (list Z) :=
  match k with
  | KBackdoorIp => Some (hc_backdoor_ip c)
  | KBackdoorPort => Some (hc_backdoor_port c)
  | KMetricsEnabled => Some (bool_text (hc_metrics_enabled c))
  | KMetricsIp => Some (hc_metrics_ip c)
  | KMetricsPort => Some (hc_metrics_port c)
  | KBucketsNumber => Some (dec (hc_buckets_number c))
  | KClusterEnabled => Some (bool_text (hc_cluster_enabled c))
  | KClusterIp => Some (hc_cluster_ip c)
  | KClusterPort => Some (dec (hc_cluster_port c))
  | KClusterSeeds => hc_cluster_seeds c
  | KNodeName => hc_node_name c
  | KRpcEnabled => Some (bool_text (hc_rpc_enabled c))
  | KRpcIp => Some (hc_rpc_ip c)
  | KRpcPort => Some (dec (hc_rpc_port c))
  | KTestMode => Some (bool_text (hc_test_mode c))
  | KNodeId => Some (uuid_to_string (hc_node_id c))
  | KDatabaseType => Some (database_type_to_string (hc_database_type c))
  end.

(** The [HashMap] of all values that are set. *)
Definition cm_get_all_config : SE (ConfigManager) (list Z) (list (list Z * list Z)) :=
  sget (λ s, omap (λ k, (λ v, (key_name k, v)) <$> key_value (cm_config s) k) all_keys).

Definition cm_get_config_value (key : list Z) : SE ConfigManager (list Z) (option (list Z)) :=
  sget (λ s, match key_of key with Some k => key_value (cm_config s) k | None => None end).

(** [str::parse] of an unsigned integer: an optional [+] and at least one digit. *)
Fixpoint parse_digits (bound : Z) (l : list Z) (acc : Z) : option Z :=
  match l with
  | [] => Some acc
  | c :: l' =>
      match to_digit 10 c with
      | Some d => let n := acc * 10 + d in if n <=? bound then parse_digits bound l' n else None
      | None => None
      end
  end.
Definition parse_uint (bound : Z) (l : list Z) : option Z :=
  let l := match l with c :: l' => if c =? 43 then l' else l | [] => [] end in
  match l with [] => None | _ => parse_digits bound l 0 end.

Definition usize_max : Z := 2 ^ 64 - 1.

Inductive Validated :=
| VStr (s : list Z) | VBool (b : bool) | VPort (s : list Z) | VU16 (n : Z) | VUsize (n : Z)
| VOptStr (o : option (list Z)).

Definition quoted (s : list Z) : list Z := str "'" ++ s ++ str "'".

Definition validate_port (value : list Z) : outcome (list Z) Z :=
  let! p := ok_or (parse_uint u16_max value) (quoted value ++ str " is not a valid port number (1-65535)") in
  if p =? 0 then Err (str "port must be between 1 and 65535") else Ok p.

(** The dash of the message is U+2014. *)
Definition validate_bool (value : list Z) : outcome (list Z) Validated :=
  if decide (value = str "true") then Ok (VBool true)
  else if decide (value = str "false") then Ok (VBool false)
  else Err (quoted value ++ str " is not valid " ++ [226; 128; 148] ++ str " use 'true' or 'false'").

Definition validate_text (key value : list Z) : outcome (list Z) Validated :=
  if decide (value = []) then Err (quoted key ++ str " cannot be empty") else Ok (VStr value).

(** The checks of [set_config_value], before anything is changed. *)
Definition validate (key value : list Z) : outcome (list Z) (ConfigKey * Validated) :=
  match key_of key with
  | Some KNodeId | Some KDatabaseType => Err (quoted key ++ str " is read-only")
  | None => Err (str "unknown config key " ++ quoted key)
  | Some k =>
      let! v :=
        match k with
        | KBackdoorIp | KMetricsIp | KClusterIp | KRpcIp => validate_text key value
        | KBackdoorPort | KMetricsPort => let! p := validate_port value in Ok (VPort (dec p))
        | KMetricsEnabled | KClusterEnabled | KRpcEnabled | KTestMode => validate_bool value
        | KBucketsNumber =>
            let! n := ok_or (parse_uint usize_max value) (quoted value ++ str " is not a valid positive integer") in
            if n =? 0 then Err (str "buckets_number must be greater than 0") else Ok (VUsize n)
        | KClusterPort | KRpcPort => let! p := validate_port value in Ok (VU16 p)
        | KClusterSeeds | KNodeName => Ok (VOptStr (if decide (value = []) then None else Some value))
        | KNodeId | KDatabaseType => Err []
        end in
      Ok (k, v)
  end.

(** The closure that [set_config_value] hands to [update]. *)
Definition apply_validated (k : ConfigKey) (v : Validated) (c : HesConfig) : HesConfig :=
  let '(mkHesConfig id bip bport me mip mport bn dt pu pp purl pport ce nn cip cport cs re rip rport tm) := c in
  match v, k with
  | VStr s, KBackdoorIp => mkHesConfig id s bport me mip mport bn dt pu pp purl pport ce nn cip cport cs re rip rport tm
  | VStr s, KMetricsIp => mkHesConfig id bip bport me s mport bn dt pu pp purl pport ce nn cip cport cs re rip rport tm
  | VStr s, KClusterIp => mkHesConfig id bip bport me mip mport bn dt pu pp purl pport ce nn s cport cs re rip rport tm
  | VPort s, KBackdoorPort => mkHesConfig id bip s me mip mport bn dt pu pp purl pport ce nn cip cport cs re rip rport tm
  | VPort s, KMetricsPort => mkHesConfig id bip bport me mip s bn dt pu pp purl pport ce nn cip cport cs re rip rport tm
  | VBool b, KMetricsEnabled => mkHesConfig id bip bport b mip mport bn dt pu pp purl pport ce nn cip cport cs re rip rport tm
  | VBool b, KClusterEnabled => mkHesConfig id bip bport me mip mport bn dt pu pp purl pport b nn cip cport cs re rip rport tm
  | VUsize n, KBucketsNumber => mkHesConfig id bip bport me mip mport n dt pu pp purl pport ce nn cip cport cs re rip rport tm
  | VU16 n, KClusterPort => mkHesConfig id bip bport me mip mport bn dt pu pp purl pport ce nn cip n cs re rip rport tm
  | VBool b, KRpcEnabled => mkHesConfig id bip bport me mip mport bn dt pu pp purl pport ce nn cip cport cs b rip rport tm
  | VBool b, KTestMode => mkHesConfig id bip bport me mip mport bn dt pu pp purl pport ce nn cip cport cs re rip rport b
  | VStr s, KRpcIp => mkHesConfig id bip bport me mip mport bn dt pu pp purl pport ce nn cip cport cs re s rport tm
  | VU16 n, KRpcPort => mkHesConfig id bip bport me mip mport bn dt pu pp purl pport ce nn cip cport cs re rip n tm
  | VOptStr o, KClusterSeeds => mkHesConfig id bip bport me mip mport bn dt pu pp purl pport ce nn cip cport o re rip rport tm
  | VOptStr o, KNodeName => mkHesConfig id bip bport me mip mport bn dt pu pp purl pport ce o cip cport cs re rip rport tm
  | _, _ => c
  end.

Definition cm_set_config_value (key value : list Z) : SE ConfigManager (list Z) unit :=
  do! (k, v) <- slift (validate key value) ;
  cm_store (apply_validated k v).

Definition with_cluster_seeds (seeds : option (list Z)) (c : HesConfig) : HesConfig :=
  apply_validated KClusterSeeds (VOptStr seeds) c.
Definition cm_set_cluster_seeds (seeds : option (list Z)) : SE ConfigManager (list Z) unit :=
  cm_store (with_cluster_seeds seeds).

#[export] Instance ConfigManagerStore : ConfigStore ConfigManager := {|
  set_cluster_seeds := cm_set_cluster_seeds;
  get_all_config := cm_get_all_config;
  get_config_value := cm_get_config_value;
  set_config_value := cm_set_config_value
|}.
End config.
Arguments ConfigManager FS : clear implicits.
