(* ===== verification/ConfigFacts.v ===== *)
(** * Facts about the configuration

    Reading back what was written, restarts after changes at run time, what
    setting a key does, and values that the substitution of environment
    variables rewrites at the next start. *)

From S2P Require Import Prelude Bytes Net Float32 Node Database Calendar Scheduler DeviceManager ClusterPayload ClusterMessage Membership ClusterNode Config.

Local Open Scope Z_scope.
Local Open Scope hes_scope.

(** ** Environment variables *)
Lemma match_here_no_dollar l : dollar ∉ l → match_here l = None.
Proof.
  intros Hl. destruct l as [|d [|b l]]; [done..|]. unfold match_here.
  destruct (Z.eqb_spec d dollar) as [->|]; [set_solver|done].
Qed.

Lemma captures_no_dollar fuel l : dollar ∉ l → captures fuel l = [].
Proof.
  revert l. induction fuel as [|fuel IH]; intros l Hl; [done|]. destruct l as [|b l]; [done|].
  cbn [captures]. rewrite match_here_no_dollar by done. apply IH. set_solver.
Qed.

Lemma until_rbrace_app name rest : rbrace ∉ name → until_rbrace (name ++ rbrace :: rest) = Some (name, rest).
Proof.
  induction name as [|b name IH]; intros Hn; cbn [app until_rbrace].
  - by rewrite Z.eqb_refl.
  - destruct (Z.eqb_spec b rbrace) as [->|]; [set_solver|]. rewrite IH by set_solver. done.
Qed.

(** The first placeholder of a text is the first variable looked up. *)
Lemma captures_first fuel a name rest :
  dollar ∉ a → name ≠ [] → rbrace ∉ name → (length (a ++ placeholder name ++ rest) <= fuel)%nat →
  ∃ l, captures fuel (a ++ placeholder name ++ rest) = name :: l.
Proof.
  intros Ha Hne Hb. revert fuel. induction a as [|c a IH]; intros fuel Hf.
  - destruct fuel as [|fuel]; [simpl in Hf; lia|]. unfold placeholder. rewrite <- !app_assoc. simpl.
    rewrite (until_rbrace_app name rest) by done. destruct name as [|x name]; [done|]. eauto.
  - destruct fuel as [|fuel]; [simpl in Hf; lia|]. cbn [app captures].
    assert (Hm : match_here (c :: a ++ placeholder name ++ rest) = None).
    { unfold match_here. destruct (Z.eqb_spec c dollar) as [->|]; [set_solver|].
      by destruct (a ++ placeholder name ++ rest). }
    rewrite Hm. apply IH; [set_solver|]. cbn [app length] in Hf. lia.
Qed.

Section facts.
Context `{UuidCrate} `{YamlCrate} `{Environment} {FS : Type} `{FileSystem FS}.

Lemma substitute_plain l : dollar ∉ l → substitute_env_vars l = Ok l.
Proof. intros Hl. unfold substitute_env_vars, captures_iter. by rewrite captures_no_dollar. Qed.

Lemma substitute_missing a name rest :
  dollar ∉ a → name ≠ [] → rbrace ∉ name → env_var name = None →
  substitute_env_vars (a ++ placeholder name ++ rest) = Err (EnvVarNotFound name).
Proof.
  intros Ha Hne Hb Henv. unfold substitute_env_vars, captures_iter.
  destruct (captures_first (length (a ++ placeholder name ++ rest)) a name rest Ha Hne Hb (Nat.le_refl _)) as [l Hl].
  rewrite Hl. cbn [substitute]. by rewrite Henv.
Qed.

(** ** The file and the configuration *)
Lemma parse_database_type_text t : parse_database_type (database_type_to_string t) = Ok t.
Proof. by destruct t. Qed.

Lemma apply_written fresh c :
  uuid_wf (hc_node_id c) → apply_file_config (hes_config_default fresh) (to_file_config c) = Ok c.
Proof.
  intros Hid. unfold apply_file_config. cbn [f_node_id f_database to_file_config df_db_type].
  rewrite uuid_roundtrip by done. cbn [omap_err obind]. rewrite parse_database_type_text. cbn [obind].
  destruct c as [? ? ? ? ? ? ? ? ? ? ? ? ? name ? ? seeds ? ? ? test]. by destruct test, name, seeds.
Qed.

Lemma apply_no_cli c : apply_cli_overrides c no_cli = c.
Proof. by destruct c as [? ? ? ? ? ? ? ? ? ? ? ? ? [] ? ? [] ? ? ? ?]. Qed.

(** The texts of a configuration. *)
Definition config_texts (c : HesConfig) : list (list Z) :=
  [hc_backdoor_ip c; hc_backdoor_port c; hc_metrics_ip c; hc_metrics_port c; hc_postgres_user c;
   hc_postgres_password c; hc_postgres_url c; hc_postgres_port c; hc_cluster_ip c; hc_rpc_ip c;
   default [] (hc_node_name c); default [] (hc_cluster_seeds c)].

(** No text of the configuration has a [$]. *)
Definition config_plain (c : HesConfig) : Prop := ∀ t, t ∈ config_texts c → dollar ∉ t.

(** [serde_yaml] writes no [$] of its own. *)
Hypothesis yaml_adds_no_dollar : ∀ c text,
  yaml_to_string (to_file_config c) = Ok text → config_plain c → dollar ∉ text.

(** The disk holds the configuration. *)
Definition on_disk (path : list Z) (c : HesConfig) (fs : FS) : Prop :=
  fs_exists path fs = true ∧
  ∃ text, yaml_to_string (to_file_config c) = Ok text ∧ fs_read_to_string path fs = Ok text.

(** The path can be written. *)
Definition disk_works (path : list Z) : Prop :=
  ∀ c (fs : FS), ∃ fs', save_config_to_file path (to_file_config c) fs = (Ok tt, fs').

Lemma saved path c (fs fs' : FS) :
  save_config_to_file path (to_file_config c) fs = (Ok tt, fs') → on_disk path c fs'.
Proof.
  unfold save_config_to_file. intros (a & fs1 & Hd & (text & fs2 & Hy & Hw)%sbind_inv)%sbind_inv.
  unfold slift in Hy. injection Hy as Hy <-.
  destruct (yaml_to_string (to_file_config c)) as [t|e|] eqn:Ht; simplify_eq/=.
  destruct (fs_write path text fs1) as [[[]|e|] fs3] eqn:Hf; simplify_eq/=.
  destruct (fs_written _ _ _ _ Hf). split; [done|]. eauto.
Qed.

Lemma load_on_disk fresh path c (fs : FS) :
  on_disk path c fs → config_plain c → uuid_wf (hc_node_id c) →
  (let! fc := load_file_config path fs in apply_file_config (hes_config_default fresh) fc) = Ok c.
Proof.
  intros (_ & text & Hy & Hr) Hplain Hid. unfold load_file_config. rewrite Hr. cbn [omap_err obind].
  rewrite (substitute_plain text) by (by eapply yaml_adds_no_dollar). cbn [obind].
  rewrite (yaml_roundtrip _ _ Hy). cbn [omap_err obind]. by apply apply_written.
Qed.

Lemma resolve_on_disk fresh path c (fs : FS) :
  disk_works path → on_disk path c fs → config_plain c → uuid_wf (hc_node_id c) →
  ∃ fs', resolve_config fresh (Some path) no_cli fs = (Ok (c, path), fs') ∧ on_disk path c fs'.
Proof.
  intros Hdisk Hon Hplain Hid. destruct (Hdisk c fs) as [fs' Hs]. exists fs'. split; [|by eapply saved].
  unfold resolve_config. rewrite (sbind_ok _ _ fs fs path) by done. rewrite sbind_get.
  rewrite (proj1 Hon). cbn [negb].
  rewrite (sbind_ok _ _ fs fs c) by (by rewrite (load_on_disk fresh path c fs)).
  rewrite apply_no_cli. by sstep Hs.
Qed.

Lemma resolve_saved fresh path cli (fs fs' : FS) c p :
  resolve_config fresh (Some path) cli fs = (Ok (c, p), fs') → p = path ∧ on_disk path c fs'.
Proof.
  unfold resolve_config. intros (a & fs1 & Ha & Hrest)%sbind_inv. injection Ha as <- <-.
  rewrite sbind_get in Hrest. apply sbind_inv in Hrest as (c0 & fs2 & _ & Hrest).
  apply sbind_inv in Hrest as ([] & fs3 & Hs & Hret). injection Hret as <- <- <-. split; [done|]. by eapply saved.
Qed.

(** ** The running manager *)
Implicit Types (s : ConfigManager FS).

(** What is in memory is on disk. *)
Definition synced s : Prop := on_disk (cm_path s) (cm_config s) (cm_fs s).

Lemma cm_store_effect f s :
  let s' := (cm_store f s).2 in
  cm_config s' = f (cm_config s) ∧ cm_path s' = cm_path s ∧
  ((cm_store f s).1 = Ok tt → synced s') ∧ (disk_works (cm_path s) → (cm_store f s).1 = Ok tt).
Proof.
  unfold cm_store, cm_update, szoom. rewrite sbind_mod, sbind_get. cbn [cm_path cm_config cm_fs set_cm_config].
  destruct (save_config_to_file (cm_path s) (to_file_config (f (cm_config s))) (cm_fs s)) as [r fs'] eqn:Hs.
  cbn. split; [done|]. split; [done|]. split.
  - destruct r as [[]|e|]; try done. intros _. by eapply saved.
  - intros Hd. destruct (Hd (f (cm_config s)) (cm_fs s)) as [fs2 Hs2]. rewrite Hs in Hs2. by injection Hs2 as -> _.
Qed.

Lemma set_value_cases key value s :
  (∃ e, validate key value = Err e ∧ cm_set_config_value key value s = (Err e, s)) ∨
  (validate key value = Panic ∧ cm_set_config_value key value s = (Panic, s)) ∨
  (∃ k v, validate key value = Ok (k, v) ∧ cm_set_config_value key value s = cm_store (apply_validated k v) s).
Proof. unfold cm_set_config_value, sbind, slift. destruct (validate key value) as [[k v]|e|]; eauto 8. Qed.

(** Requests to change keys, one after the other, whatever each answers. *)
Definition set_all (l : list (list Z * list Z)) (s : ConfigManager FS) : ConfigManager FS :=
  fold_left (λ s p, (cm_set_config_value p.1 p.2 s).2) l s.

Lemma set_all_synced l s :
  disk_works (cm_path s) → synced s → synced (set_all l s) ∧ cm_path (set_all l s) = cm_path s.
Proof.
  revert s. induction l as [|[key value] l IH]; intros s Hd Hs; [done|]. cbn [set_all fold_left fst snd].
  change (fold_left _ l ?x) with (set_all l x).
  assert (Hx : synced (cm_set_config_value key value s).2 ∧ cm_path (cm_set_config_value key value s).2 = cm_path s).
  { destruct (set_value_cases key value s) as [(e & _ & ->)|[[_ ->]|(k & v & _ & ->)]]; [done|done|].
    destruct (cm_store_effect (apply_validated k v) s) as (_ & Hp & Hok & Hw). auto. }
  destruct Hx as [Hx Hp]. rewrite <- Hp. apply IH; [by rewrite Hp|done].
Qed.

Lemma apply_validated_id k v c : hc_node_id (apply_validated k v c) = hc_node_id c.
Proof. by destruct c, k, v. Qed.

Lemma set_all_id l s : hc_node_id (cm_config (set_all l s)) = hc_node_id (cm_config s).
Proof.
  revert s. induction l as [|[key value] l IH]; intros s; [done|]. cbn [set_all fold_left fst snd].
  change (fold_left _ l ?x) with (set_all l x). rewrite IH.
  destruct (set_value_cases key value s) as [(e & _ & ->)|[[_ ->]|(k & v & _ & ->)]]; [done|done|].
  destruct (cm_store_effect (apply_validated k v) s) as (-> & _). apply apply_validated_id.
Qed.

(** C6: The configuration survives a restart, if no text in it contains a [$] and the disk
    works. A server that was started with any options and whose keys were then changed by
    any sequence of requests (accepted or rejected), so that its configuration ends up
    without a [$] ([config_plain]), is, when started again without options on the same file,
    configured exactly as it was: same node identifier, command-line options and changed keys
    included. Of the crate [serde_yaml] this uses that it reads back what it writes and writes
    no [$] of its own. With a [$] it need not ([placeholder_name_blocks_restart] below). *)
Theorem config_survives_restart fresh fresh' path cli (sets : list (list Z * list Z)) (fs fs1 : FS) c p
    (Hdisk : disk_works path) (Hstart : resolve_config fresh (Some path) cli fs = (Ok (c, p), fs1))
    (Hplain : config_plain (cm_config (set_all sets (mkConfigManager c p fs1))))
    (Hid : uuid_wf (hc_node_id c)) :
  let s := set_all sets (mkConfigManager c p fs1) in
  hc_node_id (cm_config s) = hc_node_id c ∧
  ∃ fs2, resolve_config fresh' (Some path) no_cli (cm_fs s) = (Ok (cm_config s, path), fs2).
Proof.
  destruct (resolve_saved _ _ _ _ _ _ _ Hstart) as [-> Hon]. intros s.
  assert (Hsame : hc_node_id (cm_config s) = hc_node_id c) by apply set_all_id.
  split; [done|]. rewrite <- Hsame in Hid.
  destruct (set_all_synced sets (mkConfigManager c path fs1) Hdisk Hon) as [Hs Hp].
  unfold synced in Hs. rewrite Hp in Hs. cbn [cm_path] in Hs.
  destruct (resolve_on_disk fresh' path (cm_config s) (cm_fs s) Hdisk Hs Hplain Hid) as (fs2 & Hr & _). eauto.
Qed.

(** ** Setting a key *)

(** The text a key has after it was set to [value]. *)
Definition canonical (k : ConfigKey) (value : list Z) : option (list Z) :=
  match k with
  | KBackdoorPort | KMetricsPort | KClusterPort | KRpcPort => dec <$> parse_uint u16_max value
  | KBucketsNumber => dec <$> parse_uint usize_max value
  | KClusterSeeds | KNodeName => if decide (value = []) then None else Some value
  | _ => Some value
  end.

Lemma key_of_name k : key_of (key_name k) = Some k.
Proof. by destruct k. Qed.
Lemma key_of_Some key k : key_of key = Some k → key = key_name k.
Proof.
  unfold key_of. intros Hk. assert (Hin : k ∈ filter (λ k, key_name k = key) all_keys).
  { destruct (filter _ all_keys); simplify_eq/=. constructor. }
  by apply list_elem_of_filter in Hin as [<- _].
Qed.

Lemma validate_port_ok value p :
  validate_port value = Ok p → parse_uint u16_max value = Some p.
Proof. unfold validate_port. destruct (parse_uint u16_max value); simpl; [|done]. case_match; naive_solver. Qed.
Lemma validate_bool_ok value v :
  validate_bool value = Ok v → ∃ b, v = VBool b ∧ value = bool_text b.
Proof. unfold validate_bool. repeat case_decide; naive_solver. Qed.

(** An accepted value: it is what the key then holds, and no other key changes. *)
Lemma validated_value key value k v c :
  validate key value = Ok (k, v) →
  key = key_name k ∧ key_value (apply_validated k v c) k = canonical k value ∧
  ∀ k', k' ≠ k → key_value (apply_validated k v c) k' = key_value c k'.
Proof.
  unfold validate. destruct (key_of key) as [k0|] eqn:Hk; [|done]. intros Hv.
  assert (Hk0 : k0 = k) by (destruct k0; try done; apply obind_Ok in Hv as (? & _ & Hv); by injection Hv).
  subst k0. split; [by apply key_of_Some|].
  destruct k; try done; apply obind_Ok in Hv as (v' & Hv & [= ->]);
    try (unfold validate_text in Hv; case_decide; simplify_eq; split; [by destruct c|by intros [] ?; destruct c]);
    try (apply validate_bool_ok in Hv as (b & -> & ->); split; [by destruct c|by intros [] ?; destruct c]);
    try (simplify_eq; split; [unfold canonical; by case_decide; destruct c|by intros [] ?; destruct c]).
  all: try (apply obind_Ok in Hv as (p & Hp%validate_port_ok & [= <-]); unfold canonical; rewrite Hp;
    split; [by destruct c|by intros [] ?; destruct c]).
  apply obind_Ok in Hv as (n & Hn & Hv). destruct (n =? 0); simplify_eq.
  unfold canonical. destruct (parse_uint usize_max value); simplify_eq/=.
  split; [by destruct c|by intros [] ?; destruct c].
Qed.

Lemma validate_no_panic key value : validate key value ≠ Panic.
Proof.
  assert (Ht : validate_text key value ≠ Panic) by (unfold validate_text; by case_decide).
  assert (Hb : validate_bool value ≠ Panic) by (unfold validate_bool; by repeat case_decide).
  assert (Hp : validate_port value ≠ Panic).
  { unfold validate_port. destruct (parse_uint u16_max value) as [p|]; [cbn [ok_or obind]; by destruct (p =? 0)|done]. }
  unfold validate. destruct (key_of key) as [[]|]; try done;
    try (by destruct (validate_text key value)); try (by destruct (validate_bool value));
    try (by destruct (validate_port value)).
  destruct (parse_uint usize_max value) as [n|]; [cbn [ok_or obind]; by destruct (n =? 0)|done].
Qed.

(** C31: What setting a key does. A rejected request (unknown or read-only key, invalid value)
    changes nothing. An accepted one makes the key read back as the canonical form of the
    value (a port or a number without sign and leading zeros, nothing for an empty seed
    list or name) and leaves every other key alone, even when saving fails and the caller
    is told so; when the answer is [Ok] the file holds the new configuration. *)
Theorem set_config_effect key value s :
  (∃ e, validate key value = Err e ∧ cm_set_config_value key value s = (Err e, s)) ∨
  (∃ k r s', key = key_name k ∧ cm_set_config_value key value s = (r, s') ∧
    (cm_get_config_value key s').1 = Ok (canonical k value) ∧
    (∀ key', key' ≠ key → (cm_get_config_value key' s').1 = (cm_get_config_value key' s).1) ∧
    (r = Ok tt → synced s') ∧ (disk_works (cm_path s) → r = Ok tt)).
Proof.
  destruct (set_value_cases key value s) as [He|[[Hv _]|(k & v & Hv & Hrun)]]; [by left| |right].
  { by apply validate_no_panic in Hv. }
  destruct (cm_store_effect (apply_validated k v) s) as (Hc & Hp & Hok & Hw).
  destruct (validated_value _ _ _ _ (cm_config s) Hv) as (-> & Hval & Hother).
  exists k, (cm_store (apply_validated k v) s).1, (cm_store (apply_validated k v) s).2.
  split; [done|]. split; [rewrite Hrun; by destruct (cm_store (apply_validated k v) s)|].
  unfold cm_get_config_value, sget. cbn [fst]. rewrite Hc, key_of_name, Hval. split; [done|]. split; [|done].
  intros key' Hne. destruct (key_of key') as [k'|] eqn:Hk'; [|done]. apply key_of_Some in Hk' as ->.
  rewrite Hother; [done|]. by intros ->.
Qed.

(** ** Values that look like a variable *)

(** [serde_yaml] writes a text of the form [${NAME}] as it is, after keys and values without [$]. *)
Definition yaml_writes_placeholders : Prop := ∀ c name text,
  yaml_to_string (to_file_config c) = Ok text → hc_node_name c = Some (placeholder name) →
  config_plain (apply_validated KNodeName (VOptStr None) c) →
  ∃ a b, text = a ++ placeholder name ++ b ∧ dollar ∉ a.

(** A value can make the server unable to start. Setting the node name to [${X}], where
    [X] is no variable of the environment, is accepted and saved as it is; from then on
    every start fails on the unknown variable before it reads any option. *)
Theorem placeholder_name_blocks_restart (name : list Z) s fresh cli
    (Hyaml : yaml_writes_placeholders) (Hdisk : disk_works (cm_path s))
    (Hplain : config_plain (apply_validated KNodeName (VOptStr None) (cm_config s)))
    (Hname : name ≠ [] ∧ rbrace ∉ name) (Henv : env_var name = None) :
  ∃ s', cm_set_config_value (str "node_name") (placeholder name) s = (Ok tt, s') ∧
    (cm_get_config_value (str "node_name") s').1 = Ok (Some (placeholder name)) ∧
    resolve_config fresh (Some (cm_path s)) cli (cm_fs s') = (Err (EnvVarNotFound name), cm_fs s').
Proof.
  set (f := apply_validated KNodeName (VOptStr (Some (placeholder name)))).
  assert (Hrun : cm_set_config_value (str "node_name") (placeholder name) s = cm_store f s) by done.
  destruct (cm_store_effect f s) as (Hc & Hp & Hok & Hw). specialize (Hok (Hw Hdisk)).
  exists (cm_store f s).2. split; [rewrite Hrun; rewrite <- (Hw Hdisk); by destruct (cm_store f s)|].
  split; [unfold cm_get_config_value, sget; cbn [fst]; rewrite Hc; by destruct (cm_config s)|].
  destruct Hok as (Hex & text & Hy & Hr). rewrite Hp in Hex, Hr. rewrite Hc in Hy.
  destruct (Hyaml (f (cm_config s)) name text Hy) as (a & b & -> & Ha).
  { by destruct (cm_config s). }
  { revert Hplain. by destruct (cm_config s). }
  unfold resolve_config. rewrite (sbind_ok _ _ _ (cm_fs (cm_store f s).2) (cm_path s)) by done.
  rewrite sbind_get, Hex. cbn [negb]. apply sbind_err. unfold load_file_config. rewrite Hr. cbn [omap_err obind].
  by rewrite (substitute_missing a name b) by (done || apply Hname).
Qed.
End facts.
