(* ===== verification/ConfigExamples.v ===== *)
(** * A concrete configuration store

    Instances of the classes of [Config.v]: the hyphenated hexadecimal text
    of identifiers, a text format for the configuration file with the laws
    that are used of [serde_yaml], and a disk in memory; and the server on
    which the theorems on the configuration are evaluated. *)

From S2P Require Import Prelude Bytes Net Float32 Node Database Calendar Scheduler DeviceManager ClusterPayload ClusterMessage Membership ClusterNode Config ConfigFacts.

Local Open Scope Z_scope.
Local Open Scope hes_scope.

(** ** Identifiers *)
Fixpoint hexn (n : nat) (u : Z) : list Z :=
  match n with
  | O => []
  | S n' => hexn n' (u / 16) ++ [digit_char (u mod 16)]
  end.
Definition hyphen : Z := 45.

(** Eight, four, four, four and twelve digits. *)
Definition uuid_text (u : Uuid) : list Z :=
  hexn 8 (u / 16 ^ 24) ++ [hyphen] ++ hexn 4 (u / 16 ^ 20) ++ [hyphen] ++ hexn 4 (u / 16 ^ 16) ++ [hyphen] ++
  hexn 4 (u / 16 ^ 12) ++ [hyphen] ++ hexn 12 u.

Fixpoint read_hex (l : list Z) (acc : Z) : option Z :=
  match l with
  | [] => Some acc
  | c :: l' => match to_digit 16 c with Some d => read_hex l' (acc * 16 + d) | None => None end
  end.
Definition uuid_of_text (l : list Z) : outcome (list Z) Uuid :=
  let h := filter (λ c, c ≠ hyphen) l in
  if negb (Z.of_nat (length h) =? 32) then Err (str "invalid length")
  else ok_or (read_hex h 0) (str "invalid character").

Lemma read_hex_app l c acc n : read_hex l acc = Some n →
  read_hex (l ++ [c]) acc = match to_digit 16 c with Some d => Some (n * 16 + d) | None => None end.
Proof.
  revert acc. induction l as [|x l IH]; intros acc Hn; simpl in *; [injection Hn as ->; by destruct (to_digit 16 c)|].
  destruct (to_digit 16 x); [by apply IH|done].
Qed.

Lemma read_hexn n u acc : 0 <= u < 16 ^ Z.of_nat n → read_hex (hexn n u) acc = Some (acc * 16 ^ Z.of_nat n + u).
Proof.
  revert u. induction n as [|n IH]; intros u Hu.
  { simpl in *. f_equal. lia. }
  rewrite Nat2Z.inj_succ, Z.pow_succ_r in * by lia. cbn [hexn].
  assert (Hd : 0 <= u / 16 < 16 ^ Z.of_nat n) by (Z.to_euclidean_division_equations; lia).
  rewrite (read_hex_app _ _ _ _ (IH (u / 16) Hd)), to_digit_char by (Z.to_euclidean_division_equations; lia).
  f_equal. pose proof (Z.div_mod u 16). lia.
Qed.

Lemma hexn_hex n u c : c ∈ hexn n u → 48 <= c <= 57 ∨ 97 <= c <= 102.
Proof.
  revert u. induction n as [|n IH]; intros u; cbn [hexn]; [set_solver|].
  rewrite elem_of_app, list_elem_of_singleton. intros [Hc| ->]; [by eapply IH|].
  pose proof (Z.mod_pos_bound u 16 ltac:(lia)). unfold digit_char. case_match; lia.
Qed.

Lemma hexn_length n u : length (hexn n u) = n.
Proof. revert u. induction n as [|n IH]; intros u; cbn [hexn]; [done|]. rewrite length_app, IH. simpl. lia. Qed.

Lemma hexn_split n m u : hexn (n + m) u = hexn n (u / 16 ^ Z.of_nat m) ++ hexn m u.
Proof.
  revert u. induction m as [|m IH]; intros u.
  { rewrite Nat.add_0_r. simpl. by rewrite Z.div_1_r, app_nil_r. }
  rewrite Nat.add_succ_r. cbn [hexn]. rewrite IH, <- app_assoc.
  by rewrite Z.div_div, Nat2Z.inj_succ, Z.pow_succ_r by lia.
Qed.

Lemma hexn_no_hyphen n u : filter (λ c, c ≠ hyphen) (hexn n u) = hexn n u.
Proof.
  assert (Hf : ∀ l : list Z, (∀ c, c ∈ l → c ≠ hyphen) → filter (λ c, c ≠ hyphen) l = l).
  { induction l as [|c l IH]; intros Hl; [done|]. rewrite filter_cons, decide_True by (apply Hl; constructor).
    f_equal. apply IH. set_solver. }
  apply Hf. intros c Hc%hexn_hex. unfold hyphen. lia.
Qed.

Lemma uuid_text_digits u : filter (λ c, c ≠ hyphen) (uuid_text u) = hexn 32 u.
Proof.
  unfold uuid_text. rewrite !filter_app, !hexn_no_hyphen.
  change (filter (λ c, c ≠ hyphen) [hyphen]) with (@nil Z). cbn [app].
  rewrite (hexn_split 8 24), (hexn_split 4 20), (hexn_split 4 16), (hexn_split 4 12). done.
Qed.

#[export] Program Instance hyphenated : UuidCrate := {|
  uuid_to_string := uuid_text;
  uuid_parse := uuid_of_text
|}.
Next Obligation.
  intros u Hu. unfold uuid_of_text. rewrite uuid_text_digits, hexn_length.
  change (negb (Z.of_nat 32 =? 32)) with false. cbv iota.
  rewrite (read_hexn 32) by exact Hu. by rewrite Z.mul_0_l, Z.add_0_l.
Qed.
Next Obligation.
  intros u c. cbv beta. unfold uuid_text. rewrite !elem_of_app, !list_elem_of_singleton.
  intros Hc. destruct_or! Hc; subst; try (by left); right; by eapply hexn_hex.
Qed.

(** ** A file format

    The fields of the file one after the other, each byte in binary; what
    follows the last field is a remark and repeats the node name. *)
Fixpoint bits (p : positive) : list Z :=
  match p with
  | xH => [35]
  | xO p' => 48 :: bits p'
  | xI p' => 49 :: bits p'
  end.
Fixpoint read_bits (l : list Z) : option (positive * list Z) :=
  match l with
  | [] => None
  | c :: l' =>
      if c =? 35 then Some (xH, l')
      else match read_bits l' with
           | Some (p, rest) => Some ((if c =? 48 then xO p else xI p), rest)
           | None => None
           end
  end.

Lemma read_bits_app p rest : read_bits (bits p ++ rest) = Some (p, rest).
Proof. induction p as [p IH|p IH|]; simpl; rewrite ?IH; done. Qed.

Lemma bits_no_dollar p : dollar ∉ bits p.
Proof. unfold dollar. induction p; simpl; rewrite ?not_elem_of_cons; try (split; [lia|done]). set_solver by lia. Qed.

(** A field is a list of numbers: [49] and the number in binary for each, then [59]. *)
Fixpoint write_field (f : list Z) : list Z :=
  match f with
  | [] => [59]
  | z :: f' => 49 :: bits (encode z) ++ write_field f'
  end.
Fixpoint read_field (fuel : nat) (l : list Z) : option (list Z * list Z) :=
  match fuel, l with
  | S fuel', c :: l' =>
      if c =? 59 then Some ([], l')
      else match read_bits l' with
           | Some (p, rest) =>
               match decode p, read_field fuel' rest with
               | Some z, Some (f, rest') => Some (z :: f, rest')
               | _, _ => None
               end
           | None => None
           end
  | _, _ => None
  end.

Lemma read_write_field f rest fuel :
  (length f < fuel)%nat → read_field fuel (write_field f ++ rest) = Some (f, rest).
Proof.
  revert fuel. induction f as [|z f IH]; intros fuel Hf; (destruct fuel as [|fuel]; [lia|]); [done|].
  cbn [write_field read_field app]. rewrite <- app_assoc, read_bits_app, decode_encode, IH; [done|]. simpl in Hf. lia.
Qed.

Lemma write_field_length f : (length f < length (write_field f))%nat.
Proof. induction f as [|z f IH]; simpl; [lia|]. rewrite length_app. lia. Qed.

Lemma write_field_no_dollar f : dollar ∉ write_field f.
Proof.
  induction f as [|z f IH]; cbn [write_field].
  - unfold dollar. set_solver by lia.
  - rewrite not_elem_of_cons, not_elem_of_app. split; [unfold dollar; lia|]. split; [apply bits_no_dollar|done].
Qed.

Fixpoint read_fields (n : nat) (l : list Z) : option (list (list Z)) :=
  match n with
  | O => Some []
  | S n' =>
      match read_field (S (length l)) l with
      | Some (f, rest) => (λ fs, f :: fs) <$> read_fields n' rest
      | None => None
      end
  end.

Lemma read_write_fields fs rest :
  read_fields (length fs) (concat (write_field <$> fs) ++ rest) = Some fs.
Proof.
  induction fs as [|f fs IH]; [done|]. cbn [length read_fields fmap list_fmap concat]. rewrite <- app_assoc.
  rewrite read_write_field; [by rewrite IH|]. rewrite !length_app. pose proof (write_field_length f). lia.
Qed.

Definition text_field (o : option (list Z)) : list Z := match o with None => [] | Some l => 1 :: l end.
Definition num_field (o : option Z) : list Z := match o with None => [] | Some z => [z] end.
Definition bool_field (o : option bool) : list Z := match o with None => [] | Some b => [Z.b2z b] end.
Definition present {S} (o : option S) : list Z := match o with None => [] | Some _ => [1] end.
Definition field {S A} (o : option S) (f : S → option A) (w : option A → list Z) : list Z :=
  match o with None => [] | Some s => w (f s) end.

Definition as_text (f : list Z) : option (list Z) := match f with [] => None | _ :: l => Some l end.
Definition as_num (f : list Z) : option Z := head f.
Definition as_bool (f : list Z) : option bool := (λ z, negb (z =? 0)) <$> head f.
Definition section {S} (f : list Z) (s : S) : option S := match f with [] => None | _ => Some s end.

Definition file_fields (fc : FileConfig) : list (list Z) :=
  let pg := match f_database fc with Some db => df_postgres db | None => None end in
  [text_field (f_node_id fc);
   present (f_backdoor fc); field (f_backdoor fc) bf_ip text_field; field (f_backdoor fc) bf_port text_field;
   present (f_metrics fc); field (f_metrics fc) mf_enabled bool_field; field (f_metrics fc) mf_ip text_field;
   field (f_metrics fc) mf_port text_field;
   present (f_scheduler fc); field (f_scheduler fc) sf_buckets_number num_field;
   field (f_scheduler fc) sf_test_mode bool_field;
   present (f_database fc); field (f_database fc) df_db_type text_field;
   present pg; field pg pf_user text_field; field pg pf_password text_field;
   field pg pf_url text_field; field pg pf_port text_field;
   present (f_cluster fc); field (f_cluster fc) cf_enabled bool_field; field (f_cluster fc) cf_node_name text_field;
   field (f_cluster fc) cf_ip text_field; field (f_cluster fc) cf_port num_field; field (f_cluster fc) cf_seeds text_field;
   present (f_rpc fc); field (f_rpc fc) rf_enabled bool_field; field (f_rpc fc) rf_ip text_field;
   field (f_rpc fc) rf_port num_field].

Definition file_of_fields (l : list (list Z)) : option FileConfig :=
  match l with
  | [id; b; bip; bport; m; me; mip; mport; s; sn; st; d; dt; p; pu; pp; purl; pport; c; ce; cn; cip; cport; cs; r; re; rip; rport] =>
      Some (mkFileConfig (as_text id)
        (section b (mkBackdoorFile (as_text bip) (as_text bport)))
        (section m (mkMetricsFile (as_bool me) (as_text mip) (as_text mport)))
        (section s (mkSchedulerFile (as_num sn) (as_bool st)))
        (section d (mkDatabaseFile (as_text dt)
           (section p (mkPostgresFile (as_text pu) (as_text pp) (as_text purl) (as_text pport)))))
        (section c (mkClusterFile (as_bool ce) (as_text cn) (as_text cip) (as_num cport) (as_text cs)))
        (section r (mkRpcFile (as_bool re) (as_text rip) (as_num rport))))
  | _ => None
  end.

Lemma as_text_field o : as_text (text_field o) = o.
Proof. by destruct o. Qed.
Lemma as_num_field o : as_num (num_field o) = o.
Proof. by destruct o. Qed.
Lemma as_bool_field o : as_bool (bool_field o) = o.
Proof. by destruct o as [[]|]. Qed.

Lemma file_of_file_fields fc : file_of_fields (file_fields fc) = Some fc.
Proof.
  destruct fc as [id b m s d c r]. unfold file_fields, file_of_fields. cbn. rewrite !as_text_field.
  destruct b as [[]|], m as [[]|], s as [[]|], d as [[? [[]|]]|], c as [[]|], r as [[]|]; cbn;
    by rewrite ?as_text_field, ?as_num_field, ?as_bool_field.
Qed.

(** The remark at the end of the file. *)
Definition remark (fc : FileConfig) : list Z :=
  match f_cluster fc with Some c => default [] (cf_node_name c) | None => [] end.

Definition fields_to_string (fc : FileConfig) : outcome (list Z) (list Z) :=
  Ok (concat (write_field <$> file_fields fc) ++ remark fc).
Definition fields_from_str (text : list Z) : outcome (list Z) FileConfig :=
  match read_fields 28 text with
  | Some l => ok_or (file_of_fields l) (str "missing field")
  | None => Err (str "invalid syntax")
  end.

Lemma fields_roundtrip fc text : fields_to_string fc = Ok text → fields_from_str text = Ok fc.
Proof.
  intros [= <-]. unfold fields_from_str. change 28%nat with (length (file_fields fc)).
  by rewrite read_write_fields, file_of_file_fields.
Qed.

#[export] Instance fields_format : YamlCrate := {|
  yaml_to_string := fields_to_string;
  yaml_from_str := fields_from_str;
  yaml_roundtrip := fields_roundtrip
|}.

Lemma fields_no_dollar fs : dollar ∉ concat (write_field <$> fs).
Proof.
  induction fs as [|f fs IH]; cbn; [set_solver|]. rewrite not_elem_of_app. split; [apply write_field_no_dollar|done].
Qed.

Lemma fields_text fc text :
  yaml_to_string fc = Ok text → text = concat (write_field <$> file_fields fc) ++ remark fc.
Proof. intros Hy. symmetry. by injection Hy. Qed.

Lemma fields_format_plain c text :
  yaml_to_string (to_file_config c) = Ok text → config_plain c → dollar ∉ text.
Proof.
  intros ->%fields_text Hc. rewrite not_elem_of_app. split; [apply fields_no_dollar|].
  apply Hc. unfold config_texts. cbn. set_solver.
Qed.

Lemma fields_format_placeholders : yaml_writes_placeholders.
Proof.
  intros c name text ->%fields_text Hname _. exists (concat (write_field <$> file_fields (to_file_config c))), [].
  unfold remark. cbn [to_file_config f_cluster cf_node_name]. rewrite Hname, app_nil_r.
  split; [done|]. apply fields_no_dollar.
Qed.

(** ** A disk *)
Notation Disk := (gmap (list Z) (list Z)).

Lemma disk_written (path text : list Z) (d : Disk) :
  bool_decide (is_Some (<[path := text]> d !! path)) = true ∧
  ok_or (<[path := text]> d !! path) (str "No such file or directory (os error 2)") = Ok text.
Proof. rewrite lookup_insert_eq. split; [|done]. by apply bool_decide_eq_true. Qed.

#[export] Program Instance disk : FileSystem Disk := {|
  fs_exists path d := bool_decide (is_Some (d !! path));
  fs_read_to_string path d := ok_or (d !! path) (str "No such file or directory (os error 2)");
  fs_create_parent _ d := (Ok tt, d);
  fs_write path text d := (Ok tt, <[path := text]> d)
|}.
Next Obligation.
  intros path text d d' Hd. assert (d' = <[path := text]> d) as -> by (by injection Hd). apply disk_written.
Qed.

#[export] Instance bare_environment : Environment := {| env_var _ := None; home_dir := Some (str "/root") |}.

Lemma disk_always_works path : disk_works (FS := Disk) path.
Proof. intros c d. by eexists. Qed.

(** ** A server *)
Definition node_file : list Z := str "/etc/hes/node.yaml".
Definition node_uuid : Uuid := 0xc571dc5be3f24b628f09bc3ba6d89b85.
Definition with_options : CliOverrides :=
  mkCli None None true None None (Some 24) (Some InMemory) None None None None true (Some (str "north"))
    None None None false None None false.

(** Started with options, then a port and a bad bucket count are set. *)
Definition started : ConfigManager Disk :=
  mkConfigManager (apply_cli_overrides (hes_config_default node_uuid) with_options) node_file
    (resolve_config node_uuid (Some node_file) with_options (∅ : Disk)).2.
Definition changes : list (list Z * list Z) :=
  [(str "rpc_port", str "+06601"); (str "buckets_number", str "0"); (str "cluster_seeds", str "10.0.0.2:6570")].

Lemma started_plain : config_plain (cm_config (set_all changes started)).
Proof.
  intros t Ht. apply (bool_decide_unpack _). revert t Ht. apply Forall_forall.
  apply (bool_decide_unpack _). vm_compute. exact I.
Qed.

Lemma config_survives_restart_witness : ∃ c fs2,
  resolve_config 7 (Some node_file) no_cli (cm_fs (set_all changes started)) = (Ok (c, node_file), fs2) ∧
  hc_node_id c = node_uuid ∧ hc_cluster_enabled c = false ∧ hc_rpc_port c = 6601 ∧ hc_buckets_number c = 24 ∧
  hc_cluster_seeds c = Some (str "10.0.0.2:6570").
Proof.
  destruct (config_survives_restart fields_format_plain node_uuid 7 node_file with_options changes ∅
    (cm_fs started) (cm_config started) node_file) as (Hid & fs2 & Hr).
  - apply disk_always_works.
  - reflexivity.
  - exact started_plain.
  - split; vm_compute; (reflexivity || discriminate).
  - exists (cm_config (set_all changes started)), fs2. split; [exact Hr|]. repeat split; vm_compute; reflexivity.
Defined.

Lemma placeholder_name_blocks_restart_witness : ∃ s',
  cm_set_config_value (str "node_name") (str "${NODE}") started = (Ok tt, s') ∧
  (cm_get_config_value (str "node_name") s').1 = Ok (Some (str "${NODE}")) ∧
  resolve_config 7 (Some node_file) no_cli (cm_fs s') = (Err (EnvVarNotFound (str "NODE")), cm_fs s').
Proof.
  apply (placeholder_name_blocks_restart (str "NODE") started 7 no_cli).
  - exact fields_format_placeholders.
  - apply disk_always_works.
  - intros t Ht. apply (bool_decide_unpack _). revert t Ht. apply Forall_forall.
    apply (bool_decide_unpack _). vm_compute. exact I.
  - split; [discriminate|]. apply (bool_decide_unpack _). vm_compute. exact I.
  - reflexivity.
Defined.
