(* ===== verification/Delegation.v ===== *)
(** * Delegation of devices

    Model of [DelegationHandler] of [src/cluster/delegation.rs]: handing
    devices over to another node, answering its answers, and giving all
    devices away before a shutdown. *)

From S2P Require Import Prelude Bytes Net Float32 Node ClusterPayload ClusterMessage Database Calendar Scheduler DeviceManager Membership ClusterNode.

Local Open Scope Z_scope.
Local Open Scope hes_scope.

(** [DateTime::from_timestamp(secs, 0).unwrap_or_default()]: out of [chrono]'s range gives the epoch. *)
Definition datetime_of_timestamp `{ChronoCrate} (secs : Z) : Z := default 0 (from_timestamp secs 0).

(** [schedule_time.and_utc().timestamp()]. *)
Definition timestamp_of_datetime (t : Z) : Z := t / ns_per_s.

Definition delegated_payload (d : DelegatedDevice) : DelegatedDevicePayload :=
  mkDelegatedDevice (dd_device_id d) (dd_ipv4 d) (dd_ipv6 d) (timestamp_of_datetime (dd_schedule_time d)).

Definition delegated_of_payload `{ChronoCrate} (p : DelegatedDevicePayload) : DelegatedDevice :=
  mkDelegated (ddp_device_id p) (ddp_ipv4 p) (ddp_ipv6 p) (datetime_of_timestamp (ddp_schedule_time p)).

(** [min_by_key]: the first of the least. *)
Fixpoint min_by_key {A} (key : A → Z) (l : list A) : option A :=
  match l with
  | [] => None
  | x :: l' => match min_by_key key l' with
               | Some y => if key x <=? key y then Some x else Some y
               | None => Some x
               end
  end.

(** [slice::chunks(n)]; [n] is positive. *)
Fixpoint chunks_aux {A} (fuel : nat) (n : nat) (l : list A) : list (list A) :=
  match fuel, l with
  | S f, _ :: _ => take n l :: chunks_aux f n (drop n l)
  | _, _ => []
  end.
Definition chunks {A} (n : nat) (l : list A) : list (list A) := chunks_aux (length l) n l.

Section delegation.
Context `{BytesCrate} `{ChronoCrate} `{HashOrder} `{UdpSocket}.
Context {JS DB CS : Type} `{JobCrate JS} `{Engine DB} `{ConfigStore CS}.

Definition delegation_target (target : option Uuid) (m : MembershipList)
  : outcome ClusterError (Uuid * SocketAddr) :=
  match target with
  | Some id =>
      let! n := ok_or (get_node id m) (NodeNotFound id) in Ok (id, cluster_addr n)
  | None =>
      let! n := ok_or (min_by_key device_count (active_nodes m)) NoNodesAvailable in
      Ok (node_id n, cluster_addr n)
  end.

(** [local] is the handler's own copy of the node identifier. *)
Definition request_delegation (now : Z) (local : Uuid) (devices : list DelegatedDevice)
    (reason : DelegationReason) (target : option Uuid) : C JS DB CS (list Uuid) :=
  if decide (devices = []) then sret []
  else
    do! dest <- read_members (delegation_target target) ;
    do! (_, addr) <- slift dest ;
    do! (_, seq) <- take_seq ;
    do! _ <- send_message addr
      (delegate_request (now_ms now) local seq (mkDelegateRequest (delegated_payload <$> devices) reason)) ;
    sret (dd_device_id <$> devices).

Definition can_accept (reason : DelegationReason) (l : NodeInfo) : bool :=
  let overloaded := f32_ge (load_percent l) f32_90 in
  if decide (reason = Shutdown) then is_available l else is_available l && negb overloaded.

Definition reject_reason : list Z := str "Node is not available or overloaded".

Definition handle_delegation_request (now : Z) (local : Uuid) (from : SocketAddr)
    (p : DelegateRequestPayload) : C JS DB CS unit :=
  do! accept <- read_members (λ m, can_accept (drq_reason p) (local_node m)) ;
  do! (_, seq) <- take_seq ;
  if negb accept then
    send_message from (delegate_reject (now_ms now) local seq reject_reason)
  else
    do! ids <- in_dm (accept_delegation (delegated_of_payload <$> drq_devices p)) ;
    send_message from (delegate_accept (now_ms now) local seq (mkDelegateAccept ids)).

Definition handle_delegation_accept (p : DelegateAcceptPayload) : C JS DB CS unit :=
  do! _ <- in_dm (release_devices (dac_accepted_device_ids p)) ;
  in_dm (sfor (dac_accepted_device_ids p) remove_scheduled_device).

Definition handle_delegation_reject (reason : list Z) : C JS DB CS unit := serr (DelegationRejected reason).

(** The device with its schedule, as the database gives them ([?] converts the database error). *)
Definition shutdown_device (now : Z) (id : Uuid) : C JS DB CS DelegatedDevice :=
  do! device <- in_cdb (get_device id) ;
  do! conn <- sresult (in_cdb (get_scheduled_connection id)) ;
  sret (mkDelegated (dev_id device) (dev_ipv4 device) (dev_ipv6 device)
    (match conn with Ok c => schedule_time c | _ => now + ns_per_day end)).

Definition shutdown_devices (now : Z) (ids : list Uuid) : C JS DB CS (list DelegatedDevice) :=
  scollect ids (shutdown_device now).

(** Active nodes by increasing number of devices. *)
Definition shutdown_targets (m : MembershipList) : list Uuid :=
  node_id <$> sort_by_key device_count (active_nodes m).

Definition shutdown_delegation (now : Z) (local : Uuid) : C JS DB CS unit :=
  do! ids <- sget (λ s, devices_for_shutdown (cn_dm s)) ;
  if decide (ids = []) then sret tt
  else
    do! devices <- shutdown_devices now ids ;
    do! targets <- read_members shutdown_targets ;
    if decide (targets = []) then serr NoNodesAvailable
    else
      let per_node := div_ceil (Z.of_nat (length devices)) (Z.of_nat (length targets)) in
      sfor (imap pair (chunks (Z.to_nat per_node) devices)) (λ p,
        match targets !! (p.1 mod length targets)%nat with
        | None => spanic
        | Some id => do! _ <- request_delegation now local p.2 Shutdown (Some id) ; sret tt
        end).
End delegation.
