(* ===== verification/FailureDetector.v ===== *)
(** * Failure detection

    Model of [src/cluster/failure_detector.rs]. A handler that sleeps is given
    a [Pause]: the clock before and after, the random number it draws and the
    effect of the other tasks of the node while it slept. *)

From S2P Require Import Prelude Bytes Net Float32 Node ClusterPayload ClusterMessage Database Calendar Scheduler DeviceManager Membership ClusterNode.

Local Open Scope Z_scope.
Local Open Scope hes_scope.

Section detector.
Context `{BytesCrate} `{ChronoCrate} `{HashOrder} `{UdpSocket}.
Context {JS DB CS : Type} `{JobCrate JS} `{Engine DB} `{ConfigStore CS}.

Record Pause := mkPause {
  p_now : Z;
  p_after : Z;
  p_random : Z;
  p_others : ClusterNode JS DB CS → ClusterNode JS DB CS
}.

(** [tokio::time::sleep]: the other tasks run. *)
Definition sleep (p : Pause) : C JS DB CS unit := smod (p_others p).

(** Whether the target's heartbeat is recent once the probe has been waited for. *)
Definition indirect_probe (cfg : ClusterConfig) (p : Pause) (target : Uuid) : C JS DB CS bool :=
  do! helpers <- read_members (λ m, filter (λ n, node_id n ≠ target) (active_nodes m)) ;
  if decide (helpers = []) then sret false
  else
    match helpers !! Z.to_nat (p_random p mod Z.of_nat (length helpers)) with
    | None => spanic
    | Some helper =>
        do! (id, seq) <- take_seq ;
        do! r <- sresult (send_message (cluster_addr helper) (probe_request (now_ms (p_now p)) id seq target)) ;
        match r with
        | Ok _ =>
            do! _ <- sleep p ;
            read_members (λ m, match get_node target m with
                               | Some n => time_since_heartbeat (p_after p) n <? suspect_timeout cfg
                               | None => false
                               end)
        | _ => sret false
        end
    end.

(** [node.update_heartbeat(); node.status = Active]. *)
Definition revive (now : Z) (n : NodeInfo) : NodeInfo := set_status Active (touch_heartbeat now n).

Definition handle_suspect_node (cfg : ClusterConfig) (p : Pause) (id : Uuid) : C JS DB CS unit :=
  do! node <- read_members (get_node id) ;
  match node with
  | None => sret tt
  | Some n =>
      if time_since_heartbeat (p_now p) n <=? suspect_timeout cfg then sret tt
      else
        do! _ <- with_members (mark_suspect id) ;
        do! (local_id, seq) <- take_seq ;
        do! _ <- sresult (E := ClusterError) (broadcast_message (node_suspect (now_ms (p_now p)) local_id seq id)) ;
        do! alive <- indirect_probe cfg p id ;
        if alive : bool then with_members (modify_node (revive (p_after p)) id) else sret tt
  end.

(** [(node_id, device_count)] of the active nodes. *)
Definition other_loads (m : MembershipList) : list (Uuid * Z) :=
  (λ n, (node_id n, device_count n)) <$> active_nodes m.

(** "Sync membership local stats". *)
Definition sync_local_stats : C JS DB CS unit :=
  do! count <- sget (λ s, wrap_u32 (owned_count (cn_dm s))) ;
  with_members (λ m, update_local_stats (bucket_count (local_node m)) count m).

Definition handle_dead_node (now : Z) (id : Uuid) : C JS DB CS unit :=
  do! node <- read_members (get_node id) ;
  match node with
  | None => sret tt
  | Some _ =>
      do! _ <- with_members (mark_dead id) ;
      do! _ <- sresult (E := ClusterError) (in_cdb (update_cluster_node_status id (str "dead"))) ;
      do! (local_id, seq) <- take_seq ;
      do! _ <- sresult (E := ClusterError) (broadcast_message (node_dead (now_ms now) local_id seq id)) ;
      do! others <- read_members other_loads ;
      do! _ <- sresult (E := ClusterError) (in_dm (redistribute_from_failed id others)) ;
      do! _ <- sync_local_stats ;
      with_members (λ m, (remove_node id m).2)
  end.

(** One turn of [failure_detector_loop]; the [i]-th suspect is handled during the pause [pauses i]. *)
Definition detector_tick (cfg : ClusterConfig) (now : Z) (pauses : nat → Pause) (later : Z) : C JS DB CS unit :=
  do! suspects <- read_members (get_suspect_candidates now) ;
  do! _ <- sfor (imap pair suspects) (λ p, handle_suspect_node cfg (pauses p.1) p.2) ;
  do! dead <- read_members (get_dead_candidates later) ;
  sfor dead (handle_dead_node later).

Definition PROBE_FRESH_MS : Z := 5000.

Definition handle_probe_request (p : Pause) (target : Uuid) (requester : SocketAddr) : C JS DB CS unit :=
  do! addr <- read_members (λ m, cluster_addr <$> get_node target m) ;
  do! alive <- (match addr with
    | None => sret false
    | Some a =>
        do! (id, seq) <- take_seq ;
        do! r <- sresult (send_message a (status_request (now_ms (p_now p)) id seq)) ;
        match r with
        | Ok _ =>
            do! _ <- sleep p ;
            read_members (λ m, match get_node target m with
                               | Some n => time_since_heartbeat (p_after p) n <? PROBE_FRESH_MS
                               | None => false
                               end)
        | _ => sret false
        end
    end) ;
  do! (id, seq) <- take_seq ;
  try_send requester (probe_response (now_ms (p_after p)) id seq target alive).
End detector.
Arguments Pause JS DB CS : clear implicits.
