(* ===== verification/ClusterServer.v ===== *)
(** * The cluster server

    Model of [src/cluster/server.rs]: one handler per message type, the
    dispatch, and the treatment of one datagram. The node identifier printed
    by [Uuid::to_string] only matters for its first eight digits. *)

From S2P Require Import Prelude Bytes Net Float32 Node ClusterPayload ClusterMessage Database Calendar Scheduler DeviceManager Membership ClusterNode Delegation FailureDetector.

Local Open Scope Z_scope.
Local Open Scope hes_scope.

(** The first eight hexadecimal digits of [Uuid::to_string]: its top 32 bits. *)
Definition uuid_prefix (id : Uuid) : list Z :=
  (λ i, digit_char (Z.shiftr id (124 - 4 * Z.of_nat i) mod 16)) <$> seq 0 8.

Section server.
Context `{BytesCrate} `{ChronoCrate} `{HashOrder} `{UdpSocket}.
Context {JS DB CS : Type} `{JobCrate JS} `{Engine DB} `{ConfigStore CS}.

Definition invalid {A} (what : list Z) : C JS DB CS A := serr (InvalidMessage (str "Expected " ++ what ++ str " payload")).

Definition handle_config_update (now : Z) (sender : Uuid) (sender_seq : Z) (from : SocketAddr)
    (p : ClusterPayload) : C JS DB CS unit :=
  match p with
  | PConfigUpdate u =>
      do! r <- (λ s, let (r, c) := set_config_value (cu_key u) (cu_value u) (cn_config s) in
                     match r with Panic => (Panic, set_cn_config c s) | _ => (Ok r, set_cn_config c s) end) ;
      let '(success, error) := match r with Err e => (false, Some e) | _ => (true, None) end in
      try_send from (config_update_ack (now_ms now) sender (wrap_u32 (sender_seq + 1))
        (mkConfigUpdateAck (cu_update_id u) success error))
  | _ => invalid (str "ConfigUpdate")
  end.

Definition apply_heartbeat (now : Z) (h : HeartbeatPayload) (n : NodeInfo) : NodeInfo :=
  {| node_id := node_id n; node_name := node_name n; cluster_addr := cluster_addr n;
     backdoor_port := backdoor_port n; status := hb_status h; started_at := started_at n;
     last_heartbeat := now; bucket_count := hb_bucket_count h; device_count := hb_device_count h;
     max_device_suggested := hb_max_device_suggested h; load_percent := f32_of_Z (hb_load_percent h) |}.

Definition node_of_heartbeat (now : Z) (id : Uuid) (from : SocketAddr) (h : HeartbeatPayload) : NodeInfo :=
  {| node_id := id; node_name := str "node-" ++ uuid_prefix id; cluster_addr := from;
     backdoor_port := 6565; status := hb_status h; started_at := now; last_heartbeat := now;
     bucket_count := hb_bucket_count h; device_count := hb_device_count h;
     max_device_suggested := hb_max_device_suggested h; load_percent := f32_of_Z (hb_load_percent h) |}.

Definition handle_heartbeat (now : Z) (id : Uuid) (from : SocketAddr) (p : ClusterPayload) : C JS DB CS unit :=
  match p with
  | PHeartbeat h =>
      with_members (λ m,
        match get_node id m with
        | Some _ => modify_node (apply_heartbeat now h) id m
        | None => add_or_update_node now (node_of_heartbeat now id from h) m
        end)
  | _ => invalid (str "Heartbeat")
  end.

Definition handle_heartbeat_ack (now : Z) (id : Uuid) : C JS DB CS unit :=
  with_members (m_update_heartbeat now id).

Definition known_node_of (n : NodeInfo) : KnownNodeInfo :=
  mkKnownNode (node_id n) (node_name n) (cluster_addr n) (backdoor_port n) (status n).

Definition status_payload (from_id : Uuid) (s : ClusterNode JS DB CS) : StatusResponsePayload :=
  let m := cn_members s in
  let l := local_node m in
  {| sr_node_name := node_name l; sr_status := status l;
     sr_bucket_count := wrap_u16 (dm_local_bucket_count (dm (cn_dm s)));
     sr_device_count := wrap_u32 (owned_count (cn_dm s));
     sr_load_percent := f32_to_u8 (load_percent l);
     sr_max_device_suggested := max_device_suggested l; sr_backdoor_port := backdoor_port l;
     sr_known_nodes := known_node_of <$> filter (λ n, node_id n ≠ from_id) (reachable_nodes m) |}.

Definition handle_status_request (now : Z) (from_id : Uuid) (from : SocketAddr) : C JS DB CS unit :=
  do! payload <- sget (status_payload from_id) ;
  do! (id, seq) <- take_seq ;
  send_message from (status_response (now_ms now) id seq payload).

Definition node_of_status (now : Z) (id : Uuid) (from : SocketAddr) (p : StatusResponsePayload) : NodeInfo :=
  {| node_id := id; node_name := sr_node_name p; cluster_addr := sock_new (sock_ip from) (sock_port from);
     backdoor_port := sr_backdoor_port p; status := sr_status p; started_at := now; last_heartbeat := now;
     bucket_count := sr_bucket_count p; device_count := sr_device_count p;
     max_device_suggested := sr_max_device_suggested p; load_percent := f32_of_Z (sr_load_percent p) |}.

Definition handle_status_response (now : Z) (id : Uuid) (from : SocketAddr) (p : ClusterPayload) : C JS DB CS unit :=
  match p with
  | PStatusResponse st =>
      do! _ <- with_members (add_or_update_node now (node_of_status now id from st)) ;
      do! payload <- read_members create_node_join_payload ;
      do! (local_id, seq) <- take_seq ;
      do! unknown <- read_members (λ m,
        kn_cluster_addr <$> filter (λ k, get_node (kn_node_id k) m = None) (sr_known_nodes st)) ;
      sfor unknown (λ addr, try_send addr (node_join (now_ms now) local_id seq payload))
  | _ => invalid (str "StatusResponse")
  end.

Definition node_of_join (now : Z) (id : Uuid) (from : SocketAddr) (j : NodeJoinPayload) : NodeInfo :=
  {| node_id := id; node_name := nj_node_name j;
     cluster_addr := sock_new (sock_ip from) (sock_port (nj_cluster_addr j));
     backdoor_port := nj_backdoor_port j; status := Starting; started_at := now; last_heartbeat := now;
     bucket_count := 0; device_count := 0; max_device_suggested := DEFAULT_MAX_DEVICES;
     load_percent := f32_zero |}.

Definition seeds_text (m : MembershipList) : list Z :=
  join (str ",") ((λ n, sock_to_string (cluster_addr n))
    <$> filter (λ n, node_id n ≠ m_local_node_id m) (reachable_nodes m)).

Definition handle_node_join (now : Z) (id : Uuid) (from : SocketAddr) (p : ClusterPayload) : C JS DB CS unit :=
  match p with
  | PNodeJoin j =>
      do! _ <- with_members (add_or_update_node now (node_of_join now id from j)) ;
      do! seeds <- read_members seeds_text ;
      do! _ <- (λ s, let (r, c) := set_cluster_seeds (Some seeds) (cn_config s) in
                     match r with Panic => (Panic, set_cn_config c s) | _ => (Ok tt, set_cn_config c s) end) ;
      do! target <- read_members (λ m, cluster_addr <$> get_node id m) ;
      match target with
      | Some addr => handle_status_request now id addr
      | None => sret tt
      end
  | _ => invalid (str "NodeJoin")
  end.

Definition handle_node_leave (id : Uuid) : C JS DB CS unit := with_members (λ m, (remove_node id m).2).

Definition handle_node_suspect (p : ClusterPayload) : C JS DB CS unit :=
  match p with
  | PNodeSuspect s => with_members (mark_suspect (nsp_suspect_node_id s))
  | _ => invalid (str "NodeSuspect")
  end.

Definition handle_node_dead (p : ClusterPayload) : C JS DB CS unit :=
  match p with
  | PNodeDead d =>
      let id := ndp_dead_node_id d in
      do! _ <- with_members (mark_dead id) ;
      do! _ <- in_cdb (update_cluster_node_status id (str "dead")) ;
      do! others <- read_members other_loads ;
      do! _ <- in_dm (redistribute_from_failed id others) ;
      do! _ <- sync_local_stats ;
      with_members (λ m, (remove_node id m).2)
  | _ => invalid (str "NodeDead")
  end.

(** [local] is the identifier the delegation handler was created with; [p] is the pause of a
    probe request, [p_now p] the clock of all other handlers. *)
Definition handle_message (local : Uuid) (p : Pause JS DB CS) (from : SocketAddr) (msg : ClusterMessage)
  : C JS DB CS unit :=
  let now := p_now p in
  let id := msg_node_id msg in
  let payload := msg_payload msg in
  match msg_type msg with
  | Heartbeat => handle_heartbeat now id from payload
  | HeartbeatAck => handle_heartbeat_ack now id
  | StatusRequest => handle_status_request now id from
  | StatusResponse => handle_status_response now id from payload
  | DelegateRequest =>
      match payload with
      | PDelegateRequest r => handle_delegation_request now local from r
      | _ => invalid (str "DelegateRequest")
      end
  | DelegateAccept =>
      match payload with
      | PDelegateAccept a => handle_delegation_accept a
      | _ => invalid (str "DelegateAccept")
      end
  | DelegateReject =>
      match payload with
      | PDelegateReject r => handle_delegation_reject (drj_reason r)
      | _ => invalid (str "DelegateReject")
      end
  | NodeJoin => handle_node_join now id from payload
  | NodeLeave => handle_node_leave id
  | NodeSuspect => handle_node_suspect payload
  | NodeDead => handle_node_dead payload
  | ProbeRequest =>
      match payload with
      | PProbeRequest q => handle_probe_request p (prq_target_node_id q) from
      | _ => invalid (str "ProbeRequest")
      end
  | ProbeResponse =>
      match payload with
      | PProbeResponse q =>
          if prs_is_alive q then with_members (m_update_heartbeat now (prs_target_node_id q)) else sret tt
      | _ => sret tt
      end
  | ConfigUpdate => handle_config_update now id (msg_seq msg) from payload
  | ConfigUpdateAck => sret tt
  end.

(** One turn of the loop of [run_cluster_server]: decode the datagram, handle the message, log
    errors. Only a panic of the decoder or of a handler ends the loop. *)
Definition server_step (local : Uuid) (p : Pause JS DB CS) (from : SocketAddr) (datagram : list Z)
  : C JS DB CS unit :=
  match codec_decode datagram with
  | Panic => spanic
  | Err _ => sret tt
  | Ok (None, _) => sret tt
  | Ok (Some msg, _) =>
      do! _ <- sresult (E := ClusterError) (handle_message local p from msg) ; sret tt
  end.
End server.
