(* ===== verification/ClusterManager.v ===== *)
(** * The cluster manager

    Model of [src/cluster/manager.rs]: starting a node (alone or through seed
    nodes) and its graceful shutdown. Binding the socket and spawning the
    background tasks are not modelled; the tasks themselves are
    [heartbeat_tick], [detector_tick] and [server_step]. *)

From S2P Require Import Prelude Bytes Net Float32 Node ClusterPayload ClusterMessage Database Calendar Scheduler DeviceManager Membership ClusterNode Delegation FailureDetector.

Local Open Scope Z_scope.
Local Open Scope hes_scope.

Section manager.
Context `{BytesCrate} `{ChronoCrate} `{HashOrder} `{UdpSocket}.
Context {JS DB CS : Type} `{JobCrate JS} `{Engine DB} `{ConfigStore CS}.

(** [ClusterManager::new], once the socket is bound. *)
Definition cluster_manager_new (now : Z) (cfg : ClusterConfig) (d : DmState JS DB) (cs : CS)
  : outcome ClusterError (ClusterNode JS DB CS) :=
  let! m := membership_new now cfg in Ok (mkClusterNode m d cs [] 0).

Definition join_cluster (cfg : ClusterConfig) (p : Pause JS DB CS) : C JS DB CS unit :=
  do! (id, seq) <- take_seq ;
  do! payload <- read_members create_node_join_payload ;
  do! _ <- sfor (cluster_seeds cfg) (λ seed, try_send seed (node_join (now_ms (p_now p)) id seq payload)) ;
  do! _ <- sleep p ;
  do! _ <- in_dm claim_unassigned_devices ;
  sret tt.

Definition start (cfg : ClusterConfig) (p : Pause JS DB CS) : C JS DB CS unit :=
  do! _ <- in_dm load_from_database ;
  do! _ <- (if decide (cluster_seeds cfg = [])
            then do! _ <- in_dm claim_all_devices ; sret tt
            else join_cluster cfg p) ;
  do! _ <- in_cdb (register_cluster_node (cfg_node_id cfg) (cfg_node_name cfg) (cluster_ip cfg)
                     (cluster_port cfg) (cfg_backdoor_port cfg)) ;
  with_members (set_local_status Active).

Definition shutdown (cfg : ClusterConfig) (p : Pause JS DB CS) : C JS DB CS unit :=
  do! _ <- with_members (set_local_status Draining) ;
  do! _ <- shutdown_delegation (p_now p) (cfg_node_id cfg) ;
  do! _ <- sleep p ;
  do! (id, seq) <- take_seq ;
  do! _ <- broadcast_message (node_leave (now_ms (p_after p)) id seq) ;
  in_cdb (update_cluster_node_status (cfg_node_id cfg) (str "draining")).

(** [ClusterManager::local_addr]. *)
Definition manager_local_addr (cfg : ClusterConfig) : SocketAddr :=
  match parse_sock (cluster_ip cfg ++ colon :: dec (cluster_port cfg)) with
  | Some a => a
  | None => SockV4 0 0 0 0 0
  end.
End manager.
