(* ===== verification/Rpc.v ===== *)
(** * The JSON-RPC admin console

    Model of [src/rpc/src/]: the protocol ([protocol.rs], [error.rs]), the
    dispatch ([handler.rs]), the methods ([methods/*.rs]) and a client's
    connection ([server.rs]). The crate [serde_json] and the text of dates
    are the class [RpcText]; the clock, fresh identifiers and the uptime are
    arguments. *)

From S2P Require Import Prelude Bytes Net Float32 Node ClusterPayload ClusterMessage Database Calendar Scheduler DeviceManager Membership ClusterNode Delegation Config.

Local Open Scope Z_scope.
Local Open Scope hes_scope.

(** ** JSON values

    An integer fits [i64] or [u64]; a float is a finite [f32]. *)
Inductive Value :=
| JNull
| JBool (b : bool)
| JInt (n : Z)
| JFloat (f : f32)
| JString (s : list Z)
| JArray (l : list Value)
| JObject (fields : list (list Z * Value)).

(** [Value::get(key)]: a field of an object, nothing for other values. *)
Definition json_get (key : list Z) (v : Value) : option Value :=
  match v with
  | JObject fields => snd <$> head (filter (λ e, e.1 = key) fields)
  | _ => None
  end.
Definition as_str (v : Value) : option (list Z) := match v with JString s => Some s | _ => None end.
Definition as_array (v : Value) : option (list Value) := match v with JArray l => Some l | _ => None end.
Definition as_i64 (v : Value) : option Z :=
  match v with JInt n => if (- 2 ^ 63 <=? n) && (n <? 2 ^ 63) then Some n else None | _ => None end.
Definition as_u64 (v : Value) : option Z :=
  match v with JInt n => if (0 <=? n) && (n <? 2 ^ 64) then Some n else None | _ => None end.

(** [params.get(key).and_then(Value::as_str)]. *)
Definition param_str (key : list Z) (params : Value) : option (list Z) := json_get key params ≫= as_str.

(** [json!] of an [Option<String>] and of an [f32]. *)
Definition json_opt (o : option (list Z)) : Value := match o with Some s => JString s | None => JNull end.
Definition json_f32 (f : f32) : Value :=
  match f with
  | SpecFloat.S754_infinity _ | SpecFloat.S754_nan => JNull
  | _ => JFloat f
  end.

(** ** Errors *)
Inductive RpcError :=
| RpcIo (msg : list Z)
| RpcJson (msg : list Z)
| MethodNotFound (m : list Z)
| InvalidParams (msg : list Z)
| Internal (msg : list Z)
| RpcConfig (msg : list Z)
| ClusterNotEnabled
| DeviceNotFound (msg : list Z)
| RpcDatabase (msg : list Z).

(** [RpcError::code]. *)
Definition rpc_code (e : RpcError) : Z :=
  match e with
  | RpcIo _ => -32603
  | RpcJson _ => -32700
  | MethodNotFound _ => -32601
  | InvalidParams _ => -32602
  | Internal _ => -32603
  | RpcConfig _ => -32000
  | ClusterNotEnabled => -32001
  | DeviceNotFound _ => -32002
  | RpcDatabase _ => -32003
  end.

Definition rpc_error_text (e : RpcError) : list Z :=
  match e with
  | RpcIo m => str "IO error: " ++ m
  | RpcJson m => str "JSON error: " ++ m
  | MethodNotFound m => str "Method not found: " ++ m
  | InvalidParams m => str "Invalid params: " ++ m
  | Internal m => str "Internal error: " ++ m
  | RpcConfig m => str "Config error: " ++ m
  | ClusterNotEnabled => str "Cluster not enabled"
  | DeviceNotFound m => str "Device not found: " ++ m
  | RpcDatabase m => str "Database error: " ++ m
  end.

(** [Display] of the errors that methods put into their answers. *)
Definition database_error_text (e : DatabaseError) : list Z :=
  match e with
  | TcpError m => str "io error: " ++ m
  | QueryError m => str "QueryError error: " ++ m
  | NoDataFound => str "Error: No data found"
  | TooManyRows => str "Error: Too many rows"
  | InvalidInitilizationArguments => str "Error: Invalid initialization arguments"
  | SqlxError m => str "Sqlx error: " ++ m
  | RegistrationError => str "Error during registration"
  | DbAckTimeout => str "Error ACK timeout"
  end.

(** ** Requests and responses *)
Record JsonRpcRequest := mkRequest {
  rq_jsonrpc : list Z;
  rq_method : list Z;
  rq_params : Value;
  rq_id : Value
}.
Record JsonRpcError := mkRpcErrorObject {
  re_code : Z;
  re_message : list Z;
  re_data : option Value
}.
Record JsonRpcResponse := mkResponse {
  rs_jsonrpc : list Z;
  rs_result : option Value;
  rs_error : option JsonRpcError;
  rs_id : Value
}.

Definition rpc_success (id result : Value) : JsonRpcResponse := mkResponse (str "2.0") (Some result) None id.
Definition rpc_error (id : Value) (e : RpcError) : JsonRpcResponse :=
  mkResponse (str "2.0") None (Some (mkRpcErrorObject (rpc_code e) (rpc_error_text e) None)) id.

(** What is used of [serde_json] and of the text of dates and library errors. *)
Class RpcText := {
  request_from_str : list Z → outcome (list Z) JsonRpcRequest;
  response_to_vec : JsonRpcResponse → option (list Z);
  rfc3339 : Z → list Z;
  naive_text : Z → list Z;
  job_scheduler_error_text : list Z;
  io_error_text : list Z
}.

Section text.
Context `{RpcText} `{UuidCrate}.

Definition scheduler_error_text (e : SchedulerError) : list Z :=
  match e with
  | JobSchedulerError => str "Error in job scheduler: " ++ job_scheduler_error_text
  | SchedDatabaseError e => str "Error in database: " ++ database_error_text e
  | ParseError m => str "Parse Error: " ++ m
  | NoScheduleDefined => str "No schedule defined Error"
  | NoBucketDefined => str "No bucket defined"
  end.

Definition device_manager_error_text (e : DeviceManagerError) : list Z :=
  match e with
  | DmDatabase e => str "Database error: " ++ database_error_text e
  | DmScheduler e => str "Scheduler error: " ++ scheduler_error_text e
  | DmNoNodesAvailable => str "No active nodes available for redistribution"
  end.

Definition cluster_error_text (e : ClusterError) : list Z :=
  match e with
  | CommunicationError m => str "Communication error: " ++ m
  | CodecError m => str "Codec error: " ++ m
  | ClDatabaseError e => str "Database error: " ++ database_error_text e
  | ClDeviceManagerError e => str "Device manager error: " ++ device_manager_error_text e
  | NodeNotFound id => str "Node not found: " ++ uuid_to_string id
  | NoNodesAvailable => str "No nodes available for delegation"
  | DelegationRejected r => str "Delegation rejected: " ++ r
  | ClIoError => str "IO error: " ++ io_error_text
  | InvalidConfig m => str "Invalid configuration: " ++ m
  | NodeAlreadyExists id => str "Node already registered: " ++ uuid_to_string id
  | ClTimeout id => str "Timeout waiting for response from node " ++ uuid_to_string id
  | InvalidMessage m => str "Invalid message: " ++ m
  | NotInitialized => str "Cluster not initialized"
  | InvalidState m => str "Invalid state: " ++ m
  | ClSchedulerError m => str "Scheduler error: " ++ m
  end.
End text.

(** [format!("{:?}", status)]. *)
Definition status_debug (s : NodeStatus) : list Z :=
  match s with
  | Starting => str "Starting"
  | Active => str "Active"
  | Draining => str "Draining"
  | Suspect => str "Suspect"
  | Dead => str "Dead"
  end.

Definition scheduled_status_text (s : ScheduledStatus) : list Z :=
  match s with Done => str "done" | Lost => str "lost" | Awaiting => str "awaiting" end.

(** [s.contains(pattern)]. *)
Fixpoint contains (p l : list Z) : bool :=
  match strip_prefix p l with
  | Some _ => true
  | None => match l with [] => false | _ :: l' => contains p l' end
  end.

(** ** State *)
Section rpc.
Context `{RpcText} `{UuidCrate} `{BytesCrate} `{ChronoCrate} `{HashOrder} `{UdpSocket}.
Context {JS DB CS : Type} `{JobCrate JS} `{Engine DB} `{ConfigStore CS}.

(** [ClusterManagerHandle]: the membership and the socket are those of the node. *)
Record ClusterHandle := mkHandle { h_node_id : Uuid; h_local_addr : SocketAddr }.

(** [RpcState]: the node's shared state (device manager, database, configuration and, with
    a cluster, membership and socket), the metrics flag and the addresses sent on the
    rebind channel, the last of which the backdoor sees. *)
Record RpcState := mkRpcState {
  r_node_id : Uuid;
  r_node : ClusterNode JS DB CS;
  r_cluster : option ClusterHandle;
  r_metrics_enabled : bool;
  r_rebind : list (list Z * list Z)
}.
Definition set_r_node (n : ClusterNode JS DB CS) (st : RpcState) : RpcState :=
  mkRpcState (r_node_id st) n (r_cluster st) (r_metrics_enabled st) (r_rebind st).

(** The body of a method: its result, or the error it answers early. *)
Definition RPC (A : Type) : Type := SE RpcState RpcError A.

Definition in_node {A} (conv : ClusterError → RpcError) (m : C JS DB CS A) : RPC A :=
  szoom r_node set_r_node conv m.
Definition rpc_in_db {A} (conv : DatabaseError → RpcError) (m : SE DB DatabaseError A) : RPC A :=
  szoom (λ st, dm_db (cn_dm (r_node st)))
    (λ d st, set_r_node (set_cn_dm (set_dm_db d (cn_dm (r_node st))) (r_node st)) st) conv m.
Definition rpc_in_config {A} (m : SE CS (list Z) A) : RPC A :=
  szoom (λ st, cn_config (r_node st)) (λ c st, set_r_node (set_cn_config c (r_node st)) st) RpcConfig m.
Definition read_node {A} (f : ClusterNode JS DB CS → A) : RPC A := sget (λ st, f (r_node st)).

(** [match o { Some(x) => x, None => return error }]. *)
Definition or_error {A} (o : option A) (e : RpcError) : RPC A := slift (ok_or o e).
Definition need_cluster : RPC ClusterHandle := λ st, (ok_or (r_cluster st) ClusterNotEnabled, st).

Definition obj (fields : list (list Z * Value)) : Value := JObject fields.
Definition jstr (s : string) : Value := JString (str s).

(** [store.get_config_value(key).await.ok().flatten()]. *)
Definition config_value (key : list Z) : RPC (option (list Z)) :=
  do! r <- sresult (rpc_in_config (get_config_value key)) ;
  sret (match r with Ok o => o | _ => None end).

(** ** config.* *)
Definition config_list : RPC Value :=
  do! map <- rpc_in_config get_all_config ;
  sret (obj ((λ e, (e.1, JString e.2)) <$> map)).

Definition config_get (params : Value) : RPC Value :=
  do! key <- or_error (param_str (str "key") params) (InvalidParams (str "missing 'key'")) ;
  do! val <- rpc_in_config (get_config_value key) ;
  match val with
  | Some val => sret (obj [(str "key", JString key); (str "value", JString val)])
  | None => serr (InvalidParams (str "unknown config key: " ++ key))
  end.

Definition set_metrics_enabled (b : bool) (st : RpcState) : RpcState :=
  mkRpcState (r_node_id st) (r_node st) (r_cluster st) b (r_rebind st).
Definition request_rebind (a : list Z * list Z) (st : RpcState) : RpcState :=
  mkRpcState (r_node_id st) (r_node st) (r_cluster st) (r_metrics_enabled st) (r_rebind st ++ [a]).
Definition rename_local (name : list Z) (m : MembershipList) : MembershipList :=
  let n := local_node m in
  set_local (mkNodeInfo (node_id n) name (cluster_addr n) (backdoor_port n) (status n) (started_at n)
    (last_heartbeat n) (bucket_count n) (device_count n) (max_device_suggested n) (load_percent n)) m.

Definition apply_hot_reload (key value : list Z) : RPC unit :=
  if decide (key = str "metrics_enabled") then smod (set_metrics_enabled (bool_decide (value = str "true")))
  else if decide (key = str "backdoor_ip" ∨ key = str "backdoor_port") then
    do! ip <- config_value (str "backdoor_ip") ;
    do! port <- config_value (str "backdoor_port") ;
    smod (request_rebind (default [] ip, default [] port))
  else if decide (key = str "node_name") then
    do! cluster <- sget r_cluster ;
    match cluster with
    | Some _ => if decide (value = []) then sret tt
                else in_node (λ e, Internal []) (with_members (rename_local value))
    | None => sret tt
    end
  else sret tt.

Definition config_set (params : Value) : RPC Value :=
  do! key <- or_error (param_str (str "key") params) (InvalidParams (str "missing 'key'")) ;
  do! value <- or_error (param_str (str "value") params)
    (InvalidParams (str "missing 'value' (must be a string)")) ;
  do! _ <- rpc_in_config (set_config_value key value) ;
  do! _ <- apply_hot_reload key value ;
  sret (obj [(str "key", JString key); (str "value", JString value); (str "status", jstr "ok")]).

(** [now] and [update_id] are the clock and the fresh identifier of the broadcast. *)
Definition config_propagate (now : Z) (update_id : Uuid) (params : Value) : RPC Value :=
  do! key <- or_error (param_str (str "key") params) (InvalidParams (str "missing 'key'")) ;
  do! value <- or_error (param_str (str "value") params) (InvalidParams (str "missing 'value'")) ;
  do! _ <- rpc_in_config (set_config_value key value) ;
  do! _ <- apply_hot_reload key value ;
  do! cluster <- sget r_cluster ;
  do! propagated_to <-
    match cluster with
    | Some h =>
        do! r <- sresult (in_node (λ e, Internal (cluster_error_text e))
                   (broadcast_config_update now update_id (h_node_id h) key value)) ;
        sret (match r with Ok count => count | _ => 0 end)
    | None => sret 0
    end ;
  sret (obj [(str "key", JString key); (str "value", JString value); (str "status", jstr "ok");
             (str "propagated_to", JInt propagated_to)]).

(** ** device.* *)
Definition device_list (params : Value) : RPC Value :=
  let limit := default 100 (json_get (str "limit") params ≫= as_u64) in
  let offset := default 0 (json_get (str "offset") params ≫= as_u64) in
  do! ids <- read_node (λ n, set_iter (owned_devices (dm (cn_dm n)))) ;
  do! total <- read_node (λ n, owned_count (cn_dm n)) ;
  sret (obj [(str "devices", JArray ((λ id, JString (uuid_to_string id)) <$> take_usize limit (skip_usize offset ids)));
             (str "total", JInt total); (str "limit", JInt limit); (str "offset", JInt offset)]).

Definition device_info (params : Value) : RPC Value :=
  do! device_id_str <- or_error (param_str (str "device_id") params) (InvalidParams (str "missing 'device_id'")) ;
  do! device_id <- slift (omap_err (λ e, InvalidParams (str "invalid UUID: " ++ e)) (uuid_parse device_id_str)) ;
  do! device <- rpc_in_db (λ e,
      let err_str := database_error_text e in
      if (contains (str "not found") err_str || contains (str "no rows") err_str)%bool
      then DeviceNotFound (uuid_to_string device_id) else RpcDatabase err_str)
    (get_device device_id) ;
  sret (obj [(str "device_id", JString (uuid_to_string (dev_id device))); (str "ipv4", json_opt (dev_ipv4 device));
             (str "ipv6", json_opt (dev_ipv6 device)); (str "imei", json_opt (dev_imei device))]).

(** [collect::<Result<Vec<_>, _>>]: the first error wins. *)
Fixpoint parse_ids (l : list Value) : outcome RpcError (list Uuid) :=
  match l with
  | [] => Ok []
  | v :: l' =>
      let! s := ok_or (as_str v) (InvalidParams (str "device_ids must be strings")) in
      let! id := omap_err (λ e, InvalidParams (str "invalid UUID '" ++ s ++ str "': " ++ e)) (uuid_parse s) in
      let! ids := parse_ids l' in
      Ok (id :: ids)
  end.

Definition resolve_device_ids (params : Value) (owned : list Uuid) : outcome RpcError (list Uuid) :=
  match json_get (str "device_ids") params ≫= as_array with
  | Some arr =>
      let! ids := parse_ids arr in
      if decide (ids = []) then Err (InvalidParams (str "device_ids is empty")) else Ok ids
  | None =>
      match param_str (str "device_id") params with
      | Some s =>
          let! id := omap_err (λ e, InvalidParams (str "invalid device_id UUID: " ++ e)) (uuid_parse s) in
          Ok [id]
      | None =>
          match json_get (str "count") params ≫= as_u64 with
          | Some n =>
              if n =? 0 then Err (InvalidParams (str "count must be > 0"))
              else
                let picked := take_usize n owned in
                if decide (picked = []) then Err (Internal (str "no owned devices to delegate")) else Ok picked
          | None => Err (InvalidParams (str "provide 'device_id', 'device_ids', or 'count'"))
          end
      end
  end.

(** The optional target: an identifier of a known node. *)
Definition delegate_target (params : Value) : RPC (option Uuid) :=
  match param_str (str "target_node_id") params with
  | None => sret None
  | Some s =>
      do! id <- slift (omap_err (λ e, InvalidParams (str "invalid target_node_id UUID: " ++ e)) (uuid_parse s)) ;
      do! known <- read_node (λ n, get_node id (cn_members n)) ;
      match known with
      | None => serr (Internal (str "node " ++ uuid_to_string id ++ str " not found in membership"))
      | Some _ => sret (Some id)
      end
  end.

Definition check_owned (id : Uuid) : RPC unit :=
  do! mine <- read_node (λ n, dm_owns_device id (cn_dm n)) ;
  if (mine : bool) then sret tt
  else serr (DeviceNotFound (str "device " ++ uuid_to_string id ++ str " not owned by this node")).

Definition delegated_from_db (now : Z) (id : Uuid) : RPC DelegatedDevice :=
  do! device <- rpc_in_db (λ e, RpcDatabase (database_error_text e)) (get_device id) ;
  do! conn <- sresult (rpc_in_db (λ e, RpcDatabase (database_error_text e)) (get_scheduled_connection id)) ;
  sret (mkDelegated (dev_id device) (dev_ipv4 device) (dev_ipv6 device)
    (match conn with Ok c => schedule_time c | _ => now + ns_per_day end)).

Definition device_delegate (now : Z) (params : Value) : RPC Value :=
  do! cluster <- need_cluster ;
  do! target <- delegate_target params ;
  do! owned <- read_node (λ n, set_iter (owned_devices (dm (cn_dm n)))) ;
  do! ids <- slift (resolve_device_ids params owned) ;
  do! _ <- sfor ids check_owned ;
  do! delegated <- scollect ids (delegated_from_db now) ;
  do! done_ids <- in_node (λ e, Internal (cluster_error_text e))
    (request_delegation now (h_node_id cluster) delegated Rebalance target) ;
  sret (obj [(str "status", jstr "delegation_initiated");
             (str "delegated", JArray ((λ id, JString (uuid_to_string id)) <$> done_ids));
             (str "count", JInt (Z.of_nat (length done_ids)));
             (str "target_node_id", json_opt (uuid_to_string <$> target))]).

(** ** cluster.* *)
Definition peer_json (n : NodeInfo) : Value :=
  obj [(str "node_id", JString (uuid_to_string (node_id n))); (str "node_name", JString (node_name n));
       (str "cluster_addr", JString (sock_to_string (cluster_addr n)));
       (str "status", JString (status_debug (status n))); (str "device_count", JInt (device_count n));
       (str "load_percent", json_f32 (load_percent n)); (str "last_heartbeat", JString (rfc3339 (last_heartbeat n)))].

Definition node_list (n : ClusterNode JS DB CS) : list NodeInfo := (hash_iter (nodes (cn_members n))).*2.

Definition cluster_peers : RPC Value :=
  do! _ <- need_cluster ;
  do! all <- read_node node_list ;
  sret (obj [(str "peers", JArray (peer_json <$> all))]).

(** [iter().sum()] on [u32]. *)
Definition sum_u32 (l : list Z) : Z := fold_left (λ a b, wrap_u32 (a + b)) l 0.

Definition cluster_status : RPC Value :=
  do! cluster <- need_cluster ;
  do! all <- read_node node_list ;
  do! local <- read_node (λ n, wrap_u32 (owned_count (cn_dm n))) ;
  let active := filter (λ n, status n = Active) all in
  let peer_devices := sum_u32 (device_count <$> filter (λ n, node_id n ≠ h_node_id cluster) all) in
  sret (obj [(str "total_nodes", JInt (Z.of_nat (length all))); (str "active_nodes", JInt (Z.of_nat (length active)));
             (str "total_devices", JInt (wrap_u32 (local + peer_devices)));
             (str "local_node_id", JString (uuid_to_string (h_node_id cluster)))]).

(** The seed list with the new seed; the address is compared as text. *)
Definition add_seed (current seed : list Z) : list Z :=
  if decide (current = []) then seed
  else if existsb (λ s, bool_decide (trim s = seed)) (split 44 current) then current
  else current ++ [44] ++ seed.

(** The dash of the note is U+2014. *)
Definition cluster_join (now : Z) (params : Value) : RPC Value :=
  do! _ <- need_cluster ;
  do! seed_str <- or_error (param_str (str "seed") params) (InvalidParams (str "missing 'seed' (expected 'ip:port')")) ;
  do! seed <- or_error (parse_sock seed_str) (InvalidParams (quoted seed_str ++ str " is not a valid ip:port address")) ;
  do! _ <- in_node (λ e, Internal (str "failed to send NODE_JOIN to " ++ sock_to_string seed ++ str ": " ++ cluster_error_text e))
    (send_join_to_peer now seed) ;
  do! current <- config_value (str "cluster_seeds") ;
  do! _ <- sresult (E := RpcError) (rpc_in_config (set_config_value (str "cluster_seeds") (add_seed (default [] current) seed_str))) ;
  sret (obj [(str "status", jstr "join_requested"); (str "seed", JString seed_str);
             (str "note", JString (str "NODE_JOIN sent " ++ [226; 128; 148] ++ str " peer list updates via incoming heartbeats"))]).

(** ** scheduler.* *)
Definition clamp (lo hi n : Z) : Z := Z.max lo (Z.min hi n).

Definition page_params (params : Value) : Z * Z * option Uuid :=
  (clamp 1 200 (default 20 (json_get (str "limit") params ≫= as_i64)),
   Z.max 0 (default 0 (json_get (str "offset") params ≫= as_i64)),
   param_str (str "device_id") params ≫= λ s, match uuid_parse s with Ok id => Some id | _ => None end).

Definition upcoming_json (c : ScheduledConnection) : Value :=
  obj [(str "device_id", JString (uuid_to_string (fk_device c))); (str "schedule_time", JString (naive_text (schedule_time c)))].
Definition history_json (c : ScheduledConnection) : Value :=
  obj [(str "device_id", JString (uuid_to_string (fk_device c))); (str "schedule_time", JString (naive_text (schedule_time c)));
       (str "connection_time", json_opt (naive_text <$> connection_time c));
       (str "status", JString (scheduled_status_text (sc_status c)))].
Definition page_json (f : ScheduledConnection → Value) (l : list ScheduledConnection) : Value :=
  obj [(str "connections", JArray (f <$> l)); (str "count", JInt (Z.of_nat (length l)))].

Definition scheduler_upcoming (params : Value) : RPC Value :=
  let '(limit, offset, device_id) := page_params params in
  do! l <- rpc_in_db (λ e, Internal (database_error_text e)) (get_upcoming_connections limit offset device_id) ;
  sret (page_json upcoming_json l).

Definition scheduler_history (params : Value) : RPC Value :=
  let '(limit, offset, device_id) := page_params params in
  do! l <- rpc_in_db (λ e, Internal (database_error_text e)) (get_connection_history limit offset device_id) ;
  sret (page_json history_json l).

(** ** system.* *)
Definition uptime_human (secs : Z) : list Z :=
  dec (secs / 86400) ++ str "d " ++ dec (secs mod 86400 / 3600) ++ str "h " ++
  dec (secs mod 3600 / 60) ++ str "m " ++ dec (secs mod 60) ++ str "s".

Definition system_version (uptime_secs : Z) : RPC Value :=
  do! node_name <- config_value (str "node_name") ;
  do! database_type <- config_value (str "database_type") ;
  do! st <- sget (λ st, st) ;
  sret (obj [(str "version", jstr "0.1.0"); (str "node_id", JString (uuid_to_string (r_node_id st)));
             (str "node_name", JString (default [] node_name));
             (str "database", JString (default (str "unknown") database_type));
             (str "uptime", JString (uptime_human uptime_secs)); (str "uptime_secs", JInt uptime_secs);
             (str "cluster", match r_cluster st with
                             | Some h => obj [(str "enabled", JBool true); (str "addr", JString (sock_to_string (h_local_addr h)))]
                             | None => obj [(str "enabled", JBool false)]
                             end)]).

(** ** Dispatch *)
Inductive Method :=
| SystemVersion | ConfigList | ConfigGet | ConfigSet | ConfigPropagate | DeviceList | DeviceInfo | DeviceDelegate
| ClusterPeers | ClusterStatus | ClusterJoin | SchedulerUpcoming | SchedulerHistory.

Definition method_name (m : Method) : list Z :=
  match m with
  | SystemVersion => str "system.version" | ConfigList => str "config.list" | ConfigGet => str "config.get"
  | ConfigSet => str "config.set" | ConfigPropagate => str "config.propagate" | DeviceList => str "device.list"
  | DeviceInfo => str "device.info" | DeviceDelegate => str "device.delegate" | ClusterPeers => str "cluster.peers"
  | ClusterStatus => str "cluster.status" | ClusterJoin => str "cluster.join"
  | SchedulerUpcoming => str "scheduler.upcoming" | SchedulerHistory => str "scheduler.history"
  end.
Definition methods : list Method :=
  [SystemVersion; ConfigList; ConfigGet; ConfigSet; ConfigPropagate; DeviceList; DeviceInfo; DeviceDelegate;
   ClusterPeers; ClusterStatus; ClusterJoin; SchedulerUpcoming; SchedulerHistory].
Definition method_of (name : list Z) : option Method := head (filter (λ m, method_name m = name) methods).

(** The clock, a fresh identifier and the uptime while a request is served. *)
Record Moment := mkMoment { mo_now : Z; mo_fresh : Uuid; mo_uptime : Z }.

Definition run_method (t : Moment) (m : Method) (params : Value) : RPC Value :=
  match m with
  | SystemVersion => system_version (mo_uptime t)
  | ConfigList => config_list
  | ConfigGet => config_get params
  | ConfigSet => config_set params
  | ConfigPropagate => config_propagate (mo_now t) (mo_fresh t) params
  | DeviceList => device_list params
  | DeviceInfo => device_info params
  | DeviceDelegate => device_delegate (mo_now t) params
  | ClusterPeers => cluster_peers
  | ClusterStatus => cluster_status
  | ClusterJoin => cluster_join (mo_now t) params
  | SchedulerUpcoming => scheduler_upcoming params
  | SchedulerHistory => scheduler_history params
  end.

(** The response to a request; a panic of a method ends the connection's task. *)
Definition dispatch (t : Moment) (req : JsonRpcRequest) (st : RpcState) : option JsonRpcResponse * RpcState :=
  match method_of (rq_method req) with
  | None => (Some (rpc_error (rq_id req) (MethodNotFound (rq_method req))), st)
  | Some m =>
      match run_method t m (rq_params req) st with
      | (Ok result, st') => (Some (rpc_success (rq_id req) result), st')
      | (Err e, st') => (Some (rpc_error (rq_id req) e), st')
      | (Panic, st') => (None, st')
      end
  end.

(** ** A client's connection

    What [read_line] answers, one after the other: a line with its newline,
    the end of the stream or an error; whether each write succeeds. *)
Inductive ReadLine := Line (l : list Z) | Closed | ReadError.
Definition MAX_LINE_LENGTH : Z := 64 * 1024.

(** The connection writes [out] and is over, with the state it leaves. *)
Fixpoint handle_connection (clock : nat → Moment) (writes : nat → bool) (n : nat) (input : list ReadLine)
    (st : RpcState) : list (list Z) * RpcState :=
  match input with
  | [] | Closed :: _ | ReadError :: _ => ([], st)
  | Line line :: input' =>
      if MAX_LINE_LENGTH <? Z.of_nat (length line) then ([], st)
      else
        let trimmed := trim line in
        if decide (trimmed = []) then handle_connection clock writes n input' st
        else
          let '(response, st1) :=
            match request_from_str trimmed with
            | Ok req => dispatch (clock n) req st
            | Err e => (Some (rpc_error JNull (RpcJson e)), st)
            | Panic => (None, st)
            end in
          match response with
          | None => ([], st1)
          | Some r =>
              match response_to_vec r with
              | None => handle_connection clock writes (S n) input' st1
              | Some bytes =>
                  if writes n then
                    let (out, st2) := handle_connection clock writes (S n) input' st1 in
                    ((bytes ++ [10]) :: out, st2)
                  else ([], st1)
              end
          end
  end.
End rpc.
Arguments RpcState JS DB CS : clear implicits.
Arguments RPC JS DB CS A : clear implicits.
