(* ===== verification/RpcServer.v ===== *)
(** * The console's server

    Model of [start_rpc_server] and [handle_connection] of
    [src/rpc/src/server.rs] with many clients: the accept loop, the semaphore
    that limits the connections, the connections' tasks and the gauge of open
    connections. The tasks interleave between two awaits; an [RpcEvent] is what
    runs next. *)

From S2P Require Import Prelude Bytes Net Float32 Node ClusterPayload ClusterMessage Database Calendar Scheduler DeviceManager Membership ClusterNode Delegation Config Rpc.

Local Open Scope Z_scope.
Local Open Scope hes_scope.

Definition MAX_RPC_CONNECTIONS : nat := 16.

(** A connection's task: not yet run, in its loop, over, or ended by a panic. *)
Inductive ConnState := CoSpawned | CoOpen | CoClosed | CoPanicked.

#[export] Instance ConnState_eq_dec : EqDecision ConnState.
Proof. solve_decision. Defined.

(** [co_out] is what it has written. *)
Record Conn := mkConn {
  co_state : ConnState;
  co_out : list (list Z)
}.

Section server.
Context `{RpcText} `{UuidCrate} `{BytesCrate} `{ChronoCrate} `{HashOrder} `{UdpSocket}.
Context {JS DB CS : Type} `{JobCrate JS} `{Engine DB} `{ConfigStore CS}.

(** [rv_waiting]: the accept loop has a client and waits for a permit. *)
Record RpcServer := mkRpcServer {
  rv_state : RpcState JS DB CS;
  rv_permits : nat;
  rv_waiting : bool;
  rv_conns : list Conn;
  rv_gauge : Z
}.

Definition rpc_server_new (st : RpcState JS DB CS) : RpcServer := mkRpcServer st MAX_RPC_CONNECTIONS false [] 0.

(** [tokio::spawn(handle_connection(..))] with a permit of the semaphore. *)
Definition spawn_connection (s : RpcServer) : RpcServer :=
  mkRpcServer (rv_state s) (rv_permits s - 1) false (rv_conns s ++ [mkConn CoSpawned []]) (rv_gauge s).

(** [accept] answers; the loop goes on when it has a permit. *)
Definition accept_client (s : RpcServer) : RpcServer :=
  if rv_waiting s then s
  else if (0 <? rv_permits s)%nat then spawn_connection s
  else mkRpcServer (rv_state s) (rv_permits s) true (rv_conns s) (rv_gauge s).

(** The waiting loop gets a permit. *)
Definition acquire_permit (s : RpcServer) : RpcServer :=
  if (rv_waiting s && (0 <? rv_permits s)%nat)%bool then spawn_connection s else s.

(** A turn of the loop of a connection: its state and what it wrote. *)
Definition connection_turn (t : Moment) (write : bool) (input : ReadLine) (st : RpcState JS DB CS)
  : ConnState * option (list Z) * RpcState JS DB CS :=
  match input with
  | Closed | ReadError => (CoClosed, None, st)
  | Line line =>
      if MAX_LINE_LENGTH <? Z.of_nat (length line) then (CoClosed, None, st)
      else
        let trimmed := trim line in
        if decide (trimmed = []) then (CoOpen, None, st)
        else
          let '(response, st1) :=
            match request_from_str trimmed with
            | Ok req => dispatch t req st
            | Err e => (Some (rpc_error JNull (RpcJson e)), st)
            | Panic => (None, st)
            end in
          match response with
          | None => (CoPanicked, None, st1)
          | Some r =>
              match response_to_vec r with
              | None => (CoOpen, None, st1)
              | Some bytes =>
                  if write then (CoOpen, Some (bytes ++ [10]), st1) else (CoClosed, None, st1)
              end
          end
  end.

Definition option_list {A} (o : option A) : list A := match o with Some x => [x] | None => [] end.

(** Connection [k] starts: the gauge goes up. *)
Definition connection_start (k : nat) (s : RpcServer) : RpcServer :=
  match rv_conns s !! k with
  | Some (mkConn CoSpawned out) =>
      mkRpcServer (rv_state s) (rv_permits s) (rv_waiting s) (<[k := mkConn CoOpen out]> (rv_conns s)) (rv_gauge s + 1)
  | _ => s
  end.

(** Connection [k] reads. At its end the permit is dropped; the gauge goes down on every
    way out but a panic. *)
Definition connection_read (k : nat) (t : Moment) (write : bool) (input : ReadLine) (s : RpcServer) : RpcServer :=
  match rv_conns s !! k with
  | Some (mkConn CoOpen out) =>
      let '(state, bytes, st1) := connection_turn t write input (rv_state s) in
      let conns := <[k := mkConn state (out ++ option_list bytes)]> (rv_conns s) in
      match state with
      | CoOpen | CoSpawned => mkRpcServer st1 (rv_permits s) (rv_waiting s) conns (rv_gauge s)
      | CoClosed => mkRpcServer st1 (S (rv_permits s)) (rv_waiting s) conns (rv_gauge s - 1)
      | CoPanicked => mkRpcServer st1 (S (rv_permits s)) (rv_waiting s) conns (rv_gauge s)
      end
  | _ => s
  end.

(** What runs next; [accept] may also fail, and other tasks share the node. *)
Inductive RpcEvent :=
| ReAccept (ok : bool)
| RePermit
| ReStart (k : nat)
| ReRead (k : nat) (t : Moment) (write : bool) (input : ReadLine)
| ReOther (f : RpcState JS DB CS → RpcState JS DB CS).

Definition rpc_step (e : RpcEvent) (s : RpcServer) : RpcServer :=
  match e with
  | ReAccept ok => if ok then accept_client s else s
  | RePermit => acquire_permit s
  | ReStart k => connection_start k s
  | ReRead k t write input => connection_read k t write input s
  | ReOther f => mkRpcServer (f (rv_state s)) (rv_permits s) (rv_waiting s) (rv_conns s) (rv_gauge s)
  end.
Definition rpc_run (es : list RpcEvent) (s : RpcServer) : RpcServer := fold_left (λ s e, rpc_step e s) es s.
End server.
Arguments RpcServer JS DB CS : clear implicits.
Arguments RpcEvent JS DB CS : clear implicits.
