(* ===== verification/Metrics.v ===== *)
(** * Metrics

    Model of [src/metrics/]: the three collections of Prometheus metrics with
    their registries, which are created when they are first used and carry the
    identifier of the node as a label, and the HTTP endpoint that shows them.
    The crate [prometheus] is the class [PrometheusCrate]. What the rest of the
    system counts is not modelled, except the gauges of [Membership.v] and
    [RpcServer.v]. *)

From S2P Require Import Prelude Bytes Net.

Local Open Scope Z_scope.
Local Open Scope hes_scope.

Inductive MetricsError :=
| PrometheusErr (msg : list Z)
| MetricsTcpError
| FromUtf8Error
| MetricsTryInto.

(** ** Families

    The kind of a metric with its labels; the bounds of the buckets of a histogram are given
    in tenths. *)
Inductive MetricKind :=
| IntCounter
| IntGauge
| Histogram (buckets : list Z)
| IntCounterVec (labels : list (list Z))
| IntGaugeVec (labels : list (list Z))
| HistogramVec (buckets : list Z) (labels : list (list Z)).

Record Family := mkFamily { fa_name : list Z; fa_help : list Z; fa_kind : MetricKind }.

(** [MetricsConns::try_new]: the metrics in the order they are made and registered. *)
Definition connection_families : list Family :=
  [mkFamily (str "connections_tracker")
     (str "Keeps track of all connections") (IntCounterVec [str "type"]);
   mkFamily (str "ack_response_time_ms")
     (str "ACK response time in milliseconds") (Histogram [100; 250; 500; 1000; 2500; 5000; 10000; 25000; 50000; 100000]);
   mkFamily (str "ack_timeout_count")
     (str "ACKs that exceeded the timeout threshold") IntCounter;
   mkFamily (str "scheduled_devices_total")
     (str "Total devices with scheduled connections") IntGauge;
   mkFamily (str "devices_per_bucket")
     (str "Devices assigned to each scheduler bucket") (IntGaugeVec [str "bucket"]);
   mkFamily (str "errors_total")
     (str "Total errors by component and type") (IntCounterVec [str "component"; str "error_type"]);
   mkFamily (str "messages_total")
     (str "Total messages by type and direction") (IntCounterVec [str "msg_type"; str "direction"]);
   mkFamily (str "hes_device_connection_outcome_total")
     (str "Periodic session outcomes by result type") (IntCounterVec [str "outcome"]);
   mkFamily (str "hes_device_retry_count_total")
     (str "Total session retries across all devices") IntCounter;
   mkFamily (str "hes_device_session_active")
     (str "Currently active periodic sessions") IntGauge;
   mkFamily (str "hes_scheduler_job_execution_duration_ms")
     (str "Wall-clock time to execute a full wake_up_device job in milliseconds") (Histogram [5000; 10000; 50000; 100000; 300000; 600000; 1200000; 3000000]);
   mkFamily (str "hes_scheduler_wake_drift_ms")
     (str "Positive difference between actual job fire time and scheduled time in milliseconds") (Histogram [1000; 5000; 10000; 20000; 50000; 100000; 300000]);
   mkFamily (str "hes_scheduler_overdue_devices_total")
     (str "Devices found past their scheduled wake time at startup reload") IntGauge;
   mkFamily (str "hes_registration_total")
     (str "Device registration outcomes (success/ack_timeout/db_error)") (IntCounterVec [str "outcome"]);
   mkFamily (str "hes_registration_duration_ms")
     (str "Full registration round-trip (RegisterRequest to ACK received) in milliseconds") (Histogram [100; 250; 500; 1000; 2500; 5000; 10000; 25000; 50000; 100000]);
   mkFamily (str "hes_db_query_duration_ms")
     (str "Database query latency in milliseconds") (HistogramVec [10; 50; 100; 250; 500; 1000; 2500; 5000; 10000] [str "query_name"; str "result"]);
   mkFamily (str "hes_db_errors_total")
     (str "Database errors by query name") (IntCounterVec [str "query_name"]);
   mkFamily (str "hes_rpc_request_total")
     (str "JSON-RPC requests by method and result") (IntCounterVec [str "method"; str "result"]);
   mkFamily (str "hes_rpc_request_duration_ms")
     (str "JSON-RPC request latency in milliseconds") (HistogramVec [10; 50; 100; 250; 500; 1000; 2500; 5000] [str "method"]);
   mkFamily (str "hes_rpc_active_connections")
     (str "Currently open JSON-RPC TCP connections") IntGauge].

(** [MetricsCluster::try_new]. *)
Definition cluster_families : list Family :=
  [mkFamily (str "hes_cluster_nodes_total")
     (str "Total number of nodes in the cluster") IntGauge;
   mkFamily (str "hes_cluster_nodes_active")
     (str "Number of active nodes in the cluster") IntGauge;
   mkFamily (str "hes_cluster_buckets_owned")
     (str "Number of buckets owned by this node") IntGauge;
   mkFamily (str "hes_cluster_devices_owned")
     (str "Number of devices managed by this node") IntGauge;
   mkFamily (str "hes_cluster_heartbeat_sent_total")
     (str "Total heartbeats sent by this node") IntCounter;
   mkFamily (str "hes_cluster_heartbeat_received_total")
     (str "Total heartbeats received by this node") IntCounter;
   mkFamily (str "hes_cluster_heartbeat_timeout_total")
     (str "Total heartbeat timeouts detected") IntCounter;
   mkFamily (str "hes_cluster_failovers_total")
     (str "Total node failovers handled") IntCounter;
   mkFamily (str "hes_cluster_delegations_total")
     (str "Total bucket delegations performed") IntCounter;
   mkFamily (str "hes_cluster_rebalances_total")
     (str "Total cluster rebalances performed") IntCounter;
   mkFamily (str "hes_cluster_messages_total")
     (str "Total cluster messages by type and direction") (IntCounterVec [str "msg_type"; str "direction"]);
   mkFamily (str "hes_cluster_state_changes_total")
     (str "Node state transitions observed by this node") (IntCounterVec [str "from"; str "to"]);
   mkFamily (str "hes_cluster_suspect_nodes")
     (str "Current number of nodes in suspect state") IntGauge;
   mkFamily (str "hes_cluster_config_apply_duration_ms")
     (str "Time to apply a received config update locally, in milliseconds") (Histogram [1; 5; 10; 50; 100; 250; 500; 1000])].

(** [MetricsProtocol::try_new]. *)
Definition protocol_families : list Family :=
  [mkFamily (str "hes_message_size_bytes")
     (str "Wire size of protocol messages in bytes") (HistogramVec [460; 640; 960; 1280; 2560; 5120; 10240] [str "msg_type"]);
   mkFamily (str "hes_message_decode_errors_total")
     (str "Protocol message decode failures by error kind") (IntCounterVec [str "error_kind"]);
   mkFamily (str "hes_mac_verification_total")
     (str "MAC tag verification outcomes (valid / invalid / skipped)") (IntCounterVec [str "result"]);
   mkFamily (str "hes_sequence_replay_detected_total")
     (str "Sequence-number replay attacks detected") IntCounter;
   mkFamily (str "hes_obis_read_total")
     (str "OBIS codes read from device ReadResponse payloads") (IntCounterVec [str "obis_code"])].

(** ** The crate

    A name starts with a letter, [_] or [:] and goes on with these and digits; a label has
    no [:]. The labels of a family are distinct, a histogram has buckets with increasing
    bounds and no label [le]. *)
Definition letter (colon : bool) (c : Z) : bool :=
  ((65 <=? c) && (c <=? 90)) || ((97 <=? c) && (c <=? 122)) || (c =? 95) || (colon && (c =? 58)).
Definition valid_name (colon : bool) (l : list Z) : bool :=
  match l with
  | [] => false
  | c :: l' => letter colon c && forallb (λ d, letter colon d || ((48 <=? d) && (d <=? 57))) l'
  end.
Fixpoint increasing (l : list Z) : bool :=
  match l with
  | a :: l' => match l' with b :: _ => (a <? b) && increasing l' | [] => true end
  | [] => true
  end.
Definition kind_labels (k : MetricKind) : list (list Z) :=
  match k with
  | IntCounterVec labels | IntGaugeVec labels | HistogramVec _ labels => labels
  | _ => []
  end.
Definition kind_buckets (k : MetricKind) : option (list Z) :=
  match k with Histogram b | HistogramVec b _ => Some b | _ => None end.
Definition family_ok (f : Family) : bool :=
  let labels := kind_labels (fa_kind f) in
  valid_name true (fa_name f) && negb (bool_decide (fa_help f = [])) && forallb (valid_name false) labels && bool_decide (NoDup labels) &&
  match kind_buckets (fa_kind f) with
  | Some b => negb (bool_decide (b = [])) && increasing b && bool_decide (str "le" ∉ labels)
  | None => true
  end.

(** [Reg] is a registry, [Col] a metric. A valid family can be made; a metric whose name is
    new can be registered. *)
Class PrometheusCrate (Reg Col : Type) := {
  registry_new : list (list Z * list Z) → outcome (list Z) Reg;
  collector_new : Family → outcome (list Z) Col;
  inc_by : list (list Z) → Z → Col → Col;
  register : Col → Reg → outcome (list Z) Reg;
  encode_text : Reg → outcome (list Z) (list Z);
  registry_labels : Reg → list (list Z * list Z);
  registry_names : Reg → list (list Z);
  collector_name : Col → list Z;
  registry_new_ok labels : forallb (valid_name false) labels.*1 = true →
    ∃ r, registry_new labels = Ok r ∧ registry_labels r = labels ∧ registry_names r = [];
  collector_new_ok f : family_ok f = true → ∃ c, collector_new f = Ok c ∧ collector_name c = fa_name f;
  inc_by_name labels n c : collector_name (inc_by labels n c) = collector_name c;
  register_ok c r : collector_name c ∉ registry_names r →
    ∃ r', register c r = Ok r' ∧ registry_labels r' = registry_labels r ∧ registry_names r' = registry_names r ++ [collector_name c]
}.

Section metrics.
Context {Reg Col : Type} `{PrometheusCrate Reg Col}.

(** The node's identifier ([METRICS_NODE_ID]) and the lazily made collections. *)
Record Metrics := mkMetrics {
  ms_node_id : option (list Z);
  ms_connections : option Reg;
  ms_cluster : option Reg;
  ms_protocol : option Reg
}.
Definition metrics_none : Metrics := mkMetrics None None None None.

(** [init]: the first call counts. *)
Definition metrics_init (node_id : list Z) (s : Metrics) : Metrics :=
  match ms_node_id s with
  | Some _ => s
  | None => mkMetrics (Some node_id) (ms_connections s) (ms_cluster s) (ms_protocol s)
  end.
Definition metrics_node_id (s : Metrics) : list Z := default (str "unknown") (ms_node_id s).

(** The common part of the three [try_new]: the registry with the node's label, every metric
    made, then every metric registered. *)
Fixpoint make_all (l : list Family) : outcome (list Z) (list Col) :=
  match l with
  | [] => Ok []
  | f :: l' => let! c := collector_new f in let! cs := make_all l' in Ok (c :: cs)
  end.
Fixpoint register_all (l : list Col) (r : Reg) : outcome (list Z) Reg :=
  match l with
  | [] => Ok r
  | c :: l' => let! r' := register c r in register_all l' r'
  end.
Definition try_new (prepare : list Col → list Col) (families : list Family) (node_id : list Z) : outcome MetricsError Reg :=
  omap_err PrometheusErr
    (let! r := registry_new [(str "node_id", node_id)] in
     let! cs := make_all families in
     register_all (prepare cs) r).

(** The counter of connections has a first sample. *)
Definition with_new_connection (cs : list Col) : list Col :=
  match cs with c :: cs' => inc_by [str "new_connection"] 0 c :: cs' | [] => [] end.
Definition connections_try_new : list Z → outcome MetricsError Reg := try_new with_new_connection connection_families.
Definition cluster_try_new : list Z → outcome MetricsError Reg := try_new (λ cs, cs) cluster_families.
Definition protocol_try_new : list Z → outcome MetricsError Reg := try_new (λ cs, cs) protocol_families.

(** [LazyLock]: made at the first use with the identifier known then; a failure panics. *)
Definition force (get : Metrics → option Reg) (set : Reg → Metrics → Metrics) (make : list Z → outcome MetricsError Reg)
    (s : Metrics) : outcome MetricsError Reg * Metrics :=
  match get s with
  | Some r => (Ok r, s)
  | None =>
      match make (metrics_node_id s) with
      | Ok r => (Ok r, set r s)
      | _ => (Panic, s)
      end
  end.
Definition METRICS_CONNECTIONS : SE Metrics MetricsError Reg :=
  force ms_connections (λ r s, mkMetrics (ms_node_id s) (Some r) (ms_cluster s) (ms_protocol s)) connections_try_new.
Definition METRICS_CLUSTER : SE Metrics MetricsError Reg :=
  force ms_cluster (λ r s, mkMetrics (ms_node_id s) (ms_connections s) (Some r) (ms_protocol s)) cluster_try_new.
Definition METRICS_PROTOCOL : SE Metrics MetricsError Reg :=
  force ms_protocol (λ r s, mkMetrics (ms_node_id s) (ms_connections s) (ms_cluster s) (Some r)) protocol_try_new.

(** [gather_metrics]. *)
Definition gather_metrics (r : Reg) : outcome MetricsError (list Z) :=
  let! buffer := omap_err PrometheusErr (encode_text r) in
  if utf8_valid buffer then Ok buffer else Err FromUtf8Error.

(** ** The endpoint

    [get_metrics]: the status and the body; a collection that cannot be shown is left out. *)
Definition push_text (output : list Z) (o : outcome MetricsError (list Z)) : list Z :=
  match o with Ok t => output ++ t | _ => output end.
Definition get_metrics (enabled : bool) : SE Metrics MetricsError (Z * list Z) :=
  if negb enabled then sret (503, [])
  else
    do! conns <- METRICS_CONNECTIONS ;
    let output := push_text [] (gather_metrics conns) in
    do! cluster <- METRICS_CLUSTER ;
    let output := push_text output (gather_metrics cluster) in
    do! protocol <- METRICS_PROTOCOL ;
    let output := push_text output (gather_metrics protocol) in
    sret (200, output).

(** What a client gets: [None] when nothing listens. [started]: [main] has started the
    endpoint; [bound]: its task could bind the address. *)
Inductive HttpPath := PathMetrics | PathHealth.
Definition scrape (started bound enabled : bool) (path : HttpPath) : SE Metrics MetricsError (option (Z * list Z)) :=
  if negb (started && bound) then sret None
  else
    match path with
    | PathMetrics => do! r <- get_metrics enabled ; sret (Some r)
    | PathHealth => sret (Some (200, str "Service Up"))
    end.
End metrics.
Arguments Metrics Reg : clear implicits.
