(* ===== verification/MetricsFacts.v ===== *)
(** * Facts about the metrics

    The collections can always be made, so that their first use never panics;
    their names are distinct; and what the endpoint answers. *)

From S2P Require Import Prelude Bytes Net Metrics.

Local Open Scope Z_scope.
Local Open Scope hes_scope.

Section facts.
Context {Reg Col : Type} `{PrometheusCrate Reg Col}.
Implicit Types (s : Metrics Reg).

Lemma make_all_ok l : forallb family_ok l = true → ∃ cs, make_all l = Ok cs ∧ collector_name <$> cs = fa_name <$> l.
Proof.
  induction l as [|f l IH]; cbn [forallb make_all]; intros Hok; [by exists []|].
  apply andb_true_iff in Hok as [Hf Hl]. destruct (collector_new_ok f Hf) as (c & -> & Hc). destruct (IH Hl) as (cs & -> & Hcs).
  exists (c :: cs). split; [done|]. cbn [fmap list_fmap]. by rewrite Hc, <- Hcs.
Qed.

Lemma register_all_ok cs r : NoDup (registry_names r ++ (collector_name <$> cs)) →
  ∃ r', register_all cs r = Ok r' ∧ registry_labels r' = registry_labels r ∧ registry_names r' = registry_names r ++ (collector_name <$> cs).
Proof.
  revert r. induction cs as [|c cs IH]; intros r Hn; cbn [register_all fmap list_fmap] in *; [exists r; by rewrite app_nil_r|].
  destruct (register_ok c r) as (r1 & Hreg & Hl & Hr1).
  { apply NoDup_app in Hn as (_ & Hd & _). intros Hin. apply (Hd _ Hin). constructor. }
  rewrite Hreg. cbn [obind]. destruct (IH r1) as (r' & -> & Hl' & Hr'); [by rewrite Hr1, <- app_assoc|].
  exists r'. split; [done|]. rewrite Hl', Hl, Hr', Hr1, <- app_assoc. done.
Qed.

Lemma try_new_ok prepare l node_id :
  forallb family_ok l = true → NoDup (fa_name <$> l) → (∀ cs, collector_name <$> prepare cs = collector_name <$> cs) →
  ∃ r, try_new prepare l node_id = Ok r ∧ registry_labels r = [(str "node_id", node_id)] ∧ registry_names r = fa_name <$> l.
Proof.
  intros Hf Hn Hprep. unfold try_new. destruct (registry_new_ok [(str "node_id", node_id)]) as (r0 & -> & Hl0 & Hr0); [done|].
  cbn [obind]. destruct (make_all_ok l Hf) as (cs & -> & Hcs). cbn [obind].
  destruct (register_all_ok (prepare cs) r0) as (r & -> & Hl & Hr); [by rewrite Hr0, Hprep, Hcs|].
  exists r. by rewrite Hl, Hl0, Hr, Hr0, Hprep, Hcs.
Qed.

Lemma families_valid : forallb family_ok (connection_families ++ cluster_families ++ protocol_families) = true.
Proof. vm_compute. reflexivity. Qed.
Lemma families_distinct : NoDup (fa_name <$> connection_families ++ cluster_families ++ protocol_families).
Proof. apply (bool_decide_unpack _). vm_compute. exact I. Qed.

Lemma new_connection_names (cs : list Col) : collector_name <$> with_new_connection cs = collector_name <$> cs.
Proof. destruct cs; [done|]. cbn. by rewrite inc_by_name. Qed.

Lemma collections_made node_id :
  (∃ r, connections_try_new node_id = Ok r ∧ registry_labels r = [(str "node_id", node_id)] ∧ registry_names r = fa_name <$> connection_families) ∧
  (∃ r, cluster_try_new node_id = Ok r ∧ registry_labels r = [(str "node_id", node_id)] ∧ registry_names r = fa_name <$> cluster_families) ∧
  (∃ r, protocol_try_new node_id = Ok r ∧ registry_labels r = [(str "node_id", node_id)] ∧ registry_names r = fa_name <$> protocol_families).
Proof.
  pose proof families_valid as Hf. rewrite !forallb_app, !andb_true_iff in Hf. destruct Hf as (Hf1 & Hf2 & Hf3).
  pose proof families_distinct as Hn. rewrite !fmap_app in Hn. apply NoDup_app in Hn as (Hn1 & _ & Hn). apply NoDup_app in Hn as (Hn2 & _ & Hn3).
  split; [by apply try_new_ok; [..|apply new_connection_names]|]. by split; apply try_new_ok.
Qed.

(** A collection is made with the identifier given to [init] before its first use, or else
    with "unknown"; [made s] says so of every collection that exists. *)
Definition carries (id : list Z) (o : option Reg) : Prop := ∀ r, o = Some r → registry_labels r = [(str "node_id", id)].
Definition made (id : list Z) s : Prop :=
  metrics_node_id s = id ∧ carries id (ms_connections s) ∧ carries id (ms_cluster s) ∧ carries id (ms_protocol s).

Lemma force_connections id s : made id s →
  ∃ r s', METRICS_CONNECTIONS s = (Ok r, s') ∧ made id s' ∧ ms_connections s' = Some r.
Proof.
  intros (Hid & H1 & H2 & H3). unfold METRICS_CONNECTIONS, force. destruct (ms_connections s) as [r|] eqn:Hr; [exists r, s; by rewrite <- Hr in H1|].
  destruct (collections_made (metrics_node_id s)) as ((r & -> & Hl & _) & _). do 2 eexists. split; [done|]. split; [|done].
  split; [done|]. split; [|done]. intros _ [= <-]. by rewrite Hl, Hid.
Qed.
Lemma force_cluster id s : made id s →
  ∃ r s', METRICS_CLUSTER s = (Ok r, s') ∧ made id s' ∧ ms_cluster s' = Some r ∧ ms_connections s' = ms_connections s.
Proof.
  intros (Hid & H1 & H2 & H3). unfold METRICS_CLUSTER, force. destruct (ms_cluster s) as [r|] eqn:Hr; [exists r, s; by rewrite <- Hr in H2|].
  destruct (collections_made (metrics_node_id s)) as (_ & (r & -> & Hl & _) & _). do 2 eexists. split; [done|]. split; [|done].
  split; [done|]. split; [done|]. split; [|done]. intros _ [= <-]. by rewrite Hl, Hid.
Qed.
Lemma force_protocol id s : made id s →
  ∃ r s', METRICS_PROTOCOL s = (Ok r, s') ∧ made id s' ∧ ms_protocol s' = Some r ∧
    ms_connections s' = ms_connections s ∧ ms_cluster s' = ms_cluster s.
Proof.
  intros (Hid & H1 & H2 & H3). unfold METRICS_PROTOCOL, force. destruct (ms_protocol s) as [r|] eqn:Hr; [exists r, s; by rewrite <- Hr in H3|].
  destruct (collections_made (metrics_node_id s)) as (_ & _ & (r & -> & Hl & _)). do 2 eexists. split; [done|]. split; [|done].
  split; [done|]. split; [done|]. split; [done|]. intros _ [= <-]. by rewrite Hl, Hid.
Qed.

(** The text of a registry, nothing when it cannot be shown; the text of a scrape is that of
    the three registries. *)
Definition shown (r : Reg) : list Z := match gather_metrics r with Ok t => t | _ => [] end.
Definition shows_all s (body : list Z) : Prop :=
  ∃ r1 r2 r3, ms_connections s = Some r1 ∧ ms_cluster s = Some r2 ∧ ms_protocol s = Some r3 ∧
    body = shown r1 ++ shown r2 ++ shown r3.

Lemma push_shown output r : push_text output (gather_metrics r) = output ++ shown r.
Proof. unfold shown. destruct (gather_metrics r); simpl; by rewrite ?app_nil_r. Qed.

(** [/metrics] answers, whatever the collections are. *)
Lemma get_metrics_ok id enabled s : made id s →
  ∃ body s', get_metrics enabled s = (Ok (if enabled then 200 else 503, body), s') ∧ made id s' ∧
    if enabled : bool then shows_all s' body else body = [].
Proof.
  intros Hm. unfold get_metrics. destruct enabled; cbn [negb]; [|by exists [], s].
  destruct (force_connections id s Hm) as (r1 & s1 & Hr1 & Hm1 & E1). rewrite (sbind_ok _ _ _ _ _ Hr1).
  destruct (force_cluster id s1 Hm1) as (r2 & s2 & Hr2 & Hm2 & E2 & K2). rewrite (sbind_ok _ _ _ _ _ Hr2).
  destruct (force_protocol id s2 Hm2) as (r3 & s3 & Hr3 & Hm3 & E3 & K3 & K3'). rewrite (sbind_ok _ _ _ _ _ Hr3).
  do 2 eexists. split; [done|]. split; [done|]. exists r1, r2, r3. rewrite K3, K3', K2. split_and!; [done..|].
  by rewrite !push_shown, <- (assoc_L (++)).
Qed.

(** The metrics can always be made: for every identifier of a node the three collections
    come into being, so that their first use never panics; each registry carries the node's
    identifier and holds exactly its metrics, 20, 14 and 5, and no two of the 39 share a
    name, so the body of [/metrics] names every metric once. *)
Theorem metrics_collections_made (node_id : list Z) :
  ∃ r1 r2 r3 : Reg, connections_try_new node_id = Ok r1 ∧ cluster_try_new node_id = Ok r2 ∧ protocol_try_new node_id = Ok r3 ∧
    Forall (λ r, registry_labels r = [(str "node_id", node_id)]) [r1; r2; r3] ∧
    length <$> [registry_names r1; registry_names r2; registry_names r3] = [20; 14; 5]%nat ∧
    NoDup (registry_names r1 ++ registry_names r2 ++ registry_names r3).
Proof.
  destruct (collections_made node_id) as ((r1 & H1 & Hl1 & Hn1) & (r2 & H2 & Hl2 & Hn2) & (r3 & H3 & Hl3 & Hn3)).
  exists r1, r2, r3. split; [done|]. split; [done|]. split; [done|]. split; [by repeat constructor|].
  rewrite Hn1, Hn2, Hn3. split; [done|]. rewrite <- !fmap_app. apply families_distinct.
Qed.
End facts.

(** ** A registry

    The labels and the names of what it holds; its text is the names. *)
Module name_registry.
Record Names := mkNames { na_labels : list (list Z * list Z); na_names : list (list Z) }.

Definition names_register (c : list Z) (r : Names) : outcome (list Z) Names :=
  if decide (c ∈ na_names r) then Err (str "duplicate") else Ok (mkNames (na_labels r) (na_names r ++ [c])).

#[export, refine] Instance name_registry : PrometheusCrate Names (list Z) := {|
  registry_new labels := if forallb (valid_name false) labels.*1 then Ok (mkNames labels []) else Err (str "label");
  collector_new f := if family_ok f then Ok (fa_name f) else Err (str "invalid");
  inc_by _ _ c := c;
  register := names_register;
  encode_text r := Ok (concat ((λ n, n ++ [10]) <$> na_names r));
  registry_labels := na_labels;
  registry_names := na_names;
  collector_name c := c
|}.
Proof.
  - intros labels ->. by eexists.
  - intros f ->. by eexists.
  - done.
  - intros c r Hc. unfold names_register. rewrite decide_False by done. by eexists.
Defined.
End name_registry.
