(* ===== verification/Main.v ===== *)
(** * Start-up

    Model of [main] in [src/main.rs]: the configuration is resolved, the
    components are created and wired, the cluster is joined, the pending
    connections are reloaded, and the services are started; the input loop
    waits for a key, and the cluster is left. What
    [main] finds outside the program (the database behind [Database::new], the
    host name, the sockets, the clock, the other tasks while it waits) is a
    [Boot]. *)

From S2P Require Import Prelude Bytes Net Float32 Node ClusterPayload ClusterMessage Database Calendar Scheduler DeviceManager Membership ClusterNode Delegation FailureDetector ClusterManager Config Storage Rpc Metrics.

Local Open Scope Z_scope.
Local Open Scope hes_scope.

Inductive StartError :=
| StConfig (e : ConfigError)
| StNeedsSharedDatabase
| StDatabase (e : DatabaseError)
| StCluster (e : ClusterError)
| StDevices (e : DeviceManagerError)
| StIo.

Section main.
Context `{RpcText} `{UuidCrate} `{YamlCrate} `{Environment} {FS : Type} `{FileSystem FS}.
Context `{BytesCrate} `{ChronoCrate} `{HashOrder} `{UdpSocket}.
Context {JS DB : Type} `{JobCrate JS} `{Engine DB}.

Record Boot := mkBoot {
  bt_fresh : Uuid;
  bt_fresh_cluster : Uuid;
  bt_hostname : option (list Z);
  bt_db : DatabaseConfig → outcome DatabaseError DB;
  bt_now : Z;
  bt_pause : Pause JS DB (ConfigManager FS);
  bt_clock : nat → Z;
  bt_cluster_socket : bool;
  bt_backdoor_socket : bool;
  bt_metrics_socket : bool;
  bt_rpc_socket : bool
}.

(** Without a cluster nothing looks at the membership; the state has a list with this node. *)
Definition alone (now : Z) (config : HesConfig) : MembershipList :=
  mkMembership (new_local now (hc_node_id config) [] (SockV4 0 0 0 0 0) 0) ∅ 0
    (config_new (hc_node_id config) [] [] 0 0 0) 0.

(** The database, the scheduler and the device manager. *)
Definition create_devices (config : HesConfig) (db : DB) : DmState JS DB :=
  mkDmState (device_manager_new (hc_node_id config) (wrap_i32 (hc_buckets_number config))
    (scheduler_new (hc_buckets_number config) (hc_node_id config) (hc_test_mode config))) db.

(** The cluster manager, started, and the node's devices made known to the scheduler. *)
Definition start_cluster (bt : Boot) (cm : ConfigManager FS) (d : DmState JS DB)
  : outcome StartError (ClusterNode JS DB (ConfigManager FS) * option ClusterHandle) :=
  let config := cm_config cm in
  let! cc := omap_err StCluster (from_cli_args (bt_fresh_cluster bt) (bt_hostname bt) (hc_node_id config)
    (hc_node_name config) (hc_cluster_ip config) (hc_cluster_port config)
    (default 6565 (parse_uint u16_max (hc_backdoor_port config))) (wrap_i32 (hc_buckets_number config))
    (hc_cluster_seeds config)) in
  if negb (bt_cluster_socket bt) then Err (StCluster ClIoError)
  else
    let! node := omap_err StCluster (cluster_manager_new (bt_now bt) cc d cm) in
    match start cc (bt_pause bt) node with
    | (Err e, _) => Err (StCluster e)
    | (Panic, _) => Panic
    | (Ok _, node1) =>
        let owned := owned_devices (dm (cn_dm node1)) in
        let d1 := (dm_enable_cluster_mode owned (cn_dm node1)).2 in
        Ok (set_cn_dm d1 node1, Some (mkHandle (hc_node_id config) (manager_local_addr cc)))
    end.

(** What [Database::new] is given. *)
Definition main_database (config : HesConfig) : DatabaseConfig :=
  mkDatabaseConfig (hc_database_type config) (hc_postgres_user config) (hc_postgres_password config)
    (hc_postgres_url config) (hc_postgres_port config).

(** The state of the running system. *)
Definition hes_main (bt : Boot) (cli_config : option (list Z)) (cli : CliOverrides) (fs : FS)
  : outcome StartError (RpcState JS DB (ConfigManager FS)) :=
  match resolve_config (bt_fresh bt) cli_config cli fs with
  | (Err e, _) => Err (StConfig e)
  | (Panic, _) => Panic
  | (Ok (config, path), fs1) =>
      let cm := mkConfigManager config path fs1 in
      if hc_cluster_enabled config && bool_decide (hc_database_type config = InMemory) then Err StNeedsSharedDatabase
      else
        let! db := omap_err StDatabase (bt_db bt (main_database config)) in
        let d := create_devices config db in
        let! (node, handle) :=
          (if hc_cluster_enabled config then start_cluster bt cm d
           else Ok (mkClusterNode (alone (bt_now bt) config) d cm [] 0, None)) in
        match (do! _ <- dm_set_reschedule_sender ; dm_reload_active_connections (bt_clock bt)) (cn_dm node) with
        | (Err e, _) => Err (StDevices e)
        | (Panic, _) => Panic
        | (Ok _, d1) =>
            if negb (bt_backdoor_socket bt) then Err StIo
            else if hc_rpc_enabled config && negb (bt_rpc_socket bt) then Err StIo
            else Ok (mkRpcState (hc_node_id config) (set_cn_dm d1 node) handle (hc_metrics_enabled config)
                       [(hc_backdoor_ip config, hc_backdoor_port config)])
        end
  end.

(** [metrics::init], and whether the task of the metrics endpoint is started: when metrics
    are enabled at the start. Whether it can bind its address is only logged. *)
Definition metrics_at_start {Reg : Type} (st : RpcState JS DB (ConfigManager FS)) : Metrics Reg :=
  metrics_init (uuid_to_string (r_node_id st)) metrics_none.
Definition endpoint_started (st : RpcState JS DB (ConfigManager FS)) : bool := r_metrics_enabled st.

(** ** The end *)

(** One turn of the input loop. Each turn has a [BufReader] of its own, which takes what the
    terminal has, hands out one byte and is dropped with the rest; [None] is an error of the
    read, and no byte the end of the input. *)
Definition quit_key (read : option (list Z)) : bool :=
  match read with
  | Some (c :: _) => (c =? 113) || (c =? 81)
  | _ => false
  end.

(** The loop: the reads that are left, [None] while it goes on. *)
Fixpoint input_loop (reads : list (option (list Z))) : option (list (option (list Z))) :=
  match reads with
  | [] => None
  | r :: rs => if quit_key r then Some rs else input_loop rs
  end.

(** The cluster is left, and its error only logged; [cluster] is the manager, if there is one. *)
Definition hes_stop (cluster : option ClusterConfig) (p : Pause JS DB (ConfigManager FS))
    (st : RpcState JS DB (ConfigManager FS)) : outcome StartError (RpcState JS DB (ConfigManager FS)) :=
  match cluster with
  | None => Ok st
  | Some cc =>
      match shutdown cc p (r_node st) with
      | (Panic, _) => Panic
      | (_, node) => Ok (set_r_node node st)
      end
  end.
End main.
Arguments Boot FS JS DB : clear implicits.
