(* ===== verification/HesCli.v ===== *)
(** * The command-line client

    Model of [tools/hes-cli/src/main.rs]: how a line of the operator becomes a
    JSON-RPC request ([parse_command]), what a turn of the client's loop does,
    and what is shown of a response. Writing a request as text is the class
    [ValueText]. *)

From S2P Require Import Prelude Bytes Net Float32 Node ClusterPayload ClusterMessage Database Calendar Scheduler DeviceManager Membership ClusterNode Delegation Config Rpc.

Local Open Scope Z_scope.
Local Open Scope hes_scope.

(** [str::split_whitespace]; [cur] is the word read so far, [fuel] the length of the text. *)
Fixpoint words_from (fuel : nat) (cur l : list Z) : list (list Z) :=
  let flush := match cur with [] => [] | _ => [cur] end in
  match fuel, l with
  | _, [] | O, _ => flush
  | S fuel', b :: l' =>
      match ws_prefix l with
      | Some rest => flush ++ words_from fuel' [] rest
      | None => words_from fuel' (cur ++ [b]) l'
      end
  end.
Definition split_whitespace (l : list Z) : list (list Z) := words_from (length l) [] l.

(** [str::parse::<i64>]. *)
Definition parse_i64 (l : list Z) : option Z :=
  match l with
  | 45 :: [] => None
  | 45 :: l' => Z.opp <$> parse_digits (2 ^ 63) l' 0
  | _ => parse_uint (2 ^ 63 - 1) l
  end.
Definition parse_u64 (l : list Z) : option Z := parse_uint (2 ^ 64 - 1) l.

(** The loop over [--limit N], [--offset N] and other words, of which the last counts. *)
Fixpoint page_options (parse : list Z → option Z) (default_limit : Z) (l : list (list Z))
    (limit offset : Z) (other : option (list Z)) : Z * Z * option (list Z) :=
  match l with
  | [] => (limit, offset, other)
  | a :: l' =>
      match l' with
      | b :: l'' =>
          if decide (a = str "--limit") then page_options parse default_limit l'' (default default_limit (parse b)) offset other
          else if decide (a = str "--offset") then page_options parse default_limit l'' limit (default 0 (parse b)) other
          else page_options parse default_limit l' limit offset (Some a)
      | [] => (limit, offset, Some a)
      end
  end.

Definition with_field (k : string) (o : option (list Z)) (fields : list (list Z * Value)) : Value :=
  JObject (fields ++ match o with Some s => [(str k, JString s)] | None => [] end).

(** [device delegate <sel> [node_id]]. *)
Definition delegate_params (selector : list Z) (target : option (list Z)) : Value :=
  match parse_u64 selector with
  | Some n => with_field "target_node_id" target [(str "count", JInt n)]
  | None =>
      if decide (44 ∈ selector)
      then with_field "target_node_id" target [(str "device_ids", JArray (JString <$> split 44 selector))]
      else with_field "target_node_id" target [(str "device_id", JString selector)]
  end.

Definition scheduler_params (args : list (list Z)) : Value :=
  let '(limit, offset, device_id) := page_options parse_i64 20 args 20 0 None in
  with_field "device_id" device_id [(str "limit", JInt limit); (str "offset", JInt offset)].

Definition key_params (key : list Z) : Value := JObject [(str "key", JString key)].
Definition key_value_params (key value : list Z) : Value := JObject [(str "key", JString key); (str "value", JString value)].

(** The method and the parameters of a command. *)
Definition command_of (parts : list (list Z)) : option (Method * Value) :=
  match parts with
  | [a] => if decide (a = str "version") then Some (SystemVersion, JObject []) else None
  | a :: b :: rest =>
      if decide (a = str "config") then
        match rest with
        | [] => if decide (b = str "list") then Some (ConfigList, JObject []) else None
        | [key] => if decide (b = str "get") then Some (ConfigGet, key_params key) else None
        | [key; value] =>
            if decide (b = str "set") then Some (ConfigSet, key_value_params key value)
            else if decide (b = str "propagate") then Some (ConfigPropagate, key_value_params key value)
            else None
        | _ => None
        end
      else if decide (a = str "cluster") then
        match rest with
        | [] => if decide (b = str "peers") then Some (ClusterPeers, JObject [])
                else if decide (b = str "status") then Some (ClusterStatus, JObject []) else None
        | [seed] => if decide (b = str "join") then Some (ClusterJoin, JObject [(str "seed", JString seed)]) else None
        | _ => None
        end
      else if decide (a = str "device") then
        if decide (b = str "list") then
          let '(limit, offset, _) := page_options parse_u64 100 rest 100 0 None in
          Some (DeviceList, JObject [(str "limit", JInt limit); (str "offset", JInt offset)])
        else if decide (b = str "info") then
          match rest with [uuid] => Some (DeviceInfo, JObject [(str "device_id", JString uuid)]) | _ => None end
        else if decide (b = str "delegate") then
          match rest with
          | selector :: rest' => Some (DeviceDelegate, delegate_params selector (head rest'))
          | [] => None
          end
        else None
      else if decide (a = str "scheduler") then
        if decide (b = str "upcoming") then Some (SchedulerUpcoming, scheduler_params rest)
        else if decide (b = str "history") then Some (SchedulerHistory, scheduler_params rest)
        else None
      else None
  | [] => None
  end.

(** The names the client writes, as its own table: that the server reads each as the same
    method is [method_of_name] in [HesCliFacts.v]. *)
Definition cli_method (m : Method) : list Z :=
  match m with
  | SystemVersion => str "system.version" | ConfigList => str "config.list" | ConfigGet => str "config.get"
  | ConfigSet => str "config.set" | ConfigPropagate => str "config.propagate" | ClusterPeers => str "cluster.peers"
  | ClusterStatus => str "cluster.status" | ClusterJoin => str "cluster.join" | DeviceList => str "device.list"
  | DeviceInfo => str "device.info" | DeviceDelegate => str "device.delegate"
  | SchedulerUpcoming => str "scheduler.upcoming" | SchedulerHistory => str "scheduler.history"
  end.

Definition parse_command (input : list Z) (id : Z) : option Value :=
  (λ c, JObject [(str "jsonrpc", JString (str "2.0")); (str "method", JString (cli_method c.1));
                 (str "params", c.2); (str "id", JInt id)]) <$> command_of (split_whitespace input).

(** ** A turn of the loop *)
Inductive CliAction := CliContinue | CliExit | CliHelp | CliUnknown | CliSend (request : Value).

Definition cli_turn (line : list Z) (next_id : Z) : CliAction :=
  let trimmed := trim line in
  if decide (trimmed = []) then CliContinue
  else if decide (trimmed = str "exit" ∨ trimmed = str "quit") then CliExit
  else if decide (trimmed = str "help") then CliHelp
  else match parse_command trimmed next_id with
       | Some r => CliSend r
       | None => CliUnknown
       end.

(** What is printed of a response that is JSON. *)
Inductive Shown := ShowResult (v : Value) | ShowError (code : Z) (msg : list Z) | ShowRaw (v : Value).

Definition pretty_print_response (v : Value) : Shown :=
  match json_get (str "result") v with
  | Some result => ShowResult result
  | None =>
      match json_get (str "error") v with
      | Some error =>
          ShowError (default 0 (json_get (str "code") error ≫= as_i64))
            (default (str "unknown error") (json_get (str "message") error ≫= as_str))
      | None => ShowRaw v
      end
  end.

(** What comes of a request: it is not written, nothing comes back (the end of the
    stream or an error), or a response. *)
Inductive Reply := NotWritten | NoAnswer | Answered (v : Value).

(** The loop: the requests sent, each with what is shown of its response. The input ends
    with an interrupt, the end of the file or an error. *)
Fixpoint cli_loop (input : list (list Z)) (replies : list Reply) (next_id : Z) : list (Value * option Shown) :=
  match input with
  | [] => []
  | line :: input' =>
      match cli_turn line next_id with
      | CliContinue | CliHelp | CliUnknown => cli_loop input' replies next_id
      | CliExit => []
      | CliSend request =>
          match replies with
          | NotWritten :: _ => []
          | Answered v :: replies' =>
              (request, Some (pretty_print_response v)) :: cli_loop input' replies' (wrap_u64 (next_id + 1))
          | NoAnswer :: _ | [] => [(request, None)]
          end
      end
  end.

(** ** The texts

    [#[derive(Deserialize)]] of a request, [#[derive(Serialize)]] of a response. *)
Definition request_of_value (v : Value) : option JsonRpcRequest :=
  match json_get (str "jsonrpc") v ≫= as_str, json_get (str "method") v ≫= as_str, json_get (str "id") v with
  | Some j, Some m, Some id => Some (mkRequest j m (default JNull (json_get (str "params") v)) id)
  | _, _, _ => None
  end.

Definition error_value (e : JsonRpcError) : Value :=
  JObject ([(str "code", JInt (re_code e)); (str "message", JString (re_message e))] ++
           match re_data e with Some d => [(str "data", d)] | None => [] end).
Definition response_value (r : JsonRpcResponse) : Value :=
  JObject ([(str "jsonrpc", JString (rs_jsonrpc r))] ++
           match rs_result r with Some v => [(str "result", v)] | None => [] end ++
           match rs_error r with Some e => [(str "error", error_value e)] | None => [] end ++
           [(str "id", rs_id r)]).

(** A value [serde_json] can hold: distinct keys, integers of [i64] or [u64]. *)
Fixpoint json_ok (v : Value) : bool :=
  match v with
  | JInt n => (- 2 ^ 63 <=? n) && (n <? 2 ^ 64)
  | JArray l => forallb json_ok l
  | JObject fields => bool_decide (NoDup fields.*1) && forallb (λ e, json_ok e.2) fields
  | _ => true
  end.

(** [serde_json] writes a request so that it reads it back, without blanks around it. *)
Class ValueText `{RpcText} := {
  value_to_vec : Value → list Z;
  value_read v req : json_ok v = true → request_of_value v = Some req → request_from_str (value_to_vec v) = Ok req;
  value_trimmed v req : json_ok v = true → request_of_value v = Some req →
    trim (value_to_vec v ++ [10]) = value_to_vec v ∧ value_to_vec v ≠ []
}.
