(* ===== verification/ClusterFacts.v ===== *)
(** * Facts about a cluster node

    The membership invariant under every task of the node, who the failure
    detector may accuse, what a declared death does, delegation between two
    nodes that share the database, and the shutdown hand-over. *)

From S2P Require Import Prelude Bytes Net Float32 Node ClusterPayload ClusterMessage Database DatabaseFacts Calendar Scheduler SchedulerFacts DeviceManager DeviceManagerFacts Membership ClusterNode Delegation FailureDetector ClusterServer ClusterManager.

Local Open Scope Z_scope.
Local Open Scope hes_scope.

Section invariant.
Context `{BytesCrate} `{ChronoCrate} `{HashOrder} `{UdpSocket}.
Context {JS DB CS : Type} `{JobCrate JS} `{Engine DB} `{ConfigStore CS}.
Implicit Types (s : ClusterNode JS DB CS).

(** Operations that keep a property of the membership list, whatever their outcome. *)
Definition keeps (P : MembershipList → Prop) {A} (c : C JS DB CS A) : Prop :=
  ∀ s, P (cn_members s) → P (cn_members (c s).2).

Lemma keeps_bind P {A B} (c : C JS DB CS A) (k : A → C JS DB CS B) :
  keeps P c → (∀ a, keeps P (k a)) → keeps P (sbind c k).
Proof.
  intros Hc Hk s Hs. apply (sbind_keeps (λ s, P (cn_members s))); [by apply Hc|].
  intros a s1 _ Hs1. by apply Hk.
Qed.

Lemma keeps_same P {A} (c : C JS DB CS A) : (∀ s, cn_members (c s).2 = cn_members s) → keeps P c.
Proof. intros Hc s. by rewrite Hc. Qed.

Lemma keeps_ret P {A} (a : A) : keeps P (sret a).
Proof. by apply keeps_same. Qed.
Lemma keeps_err P {A} (e : ClusterError) : keeps P (serr (A := A) e).
Proof. by apply keeps_same. Qed.
Lemma keeps_panic P {A} : keeps P (spanic (A := A)).
Proof. by apply keeps_same. Qed.
Lemma keeps_get P {A} (f : ClusterNode JS DB CS → A) : keeps P (sget f).
Proof. by apply keeps_same. Qed.
Lemma keeps_read P {A} (f : MembershipList → A) : keeps P (read_members f).
Proof. by apply keeps_same. Qed.
Lemma keeps_lift P {A} (o : outcome ClusterError A) : keeps P (slift o).
Proof. by apply keeps_same. Qed.
Lemma keeps_dm P {A} (m : DM JS DB A) : keeps P (in_dm m).
Proof. apply keeps_same. intros s. unfold in_dm, szoom. by destruct (m (cn_dm s)). Qed.
Lemma keeps_db P {A} (m : SE DB DatabaseError A) : keeps P (in_cdb m).
Proof. apply keeps_same. intros s. unfold in_cdb, szoom. by destruct (m (dm_db (cn_dm s))). Qed.
Lemma keeps_udp P target msg : keeps P (udp_send target msg).
Proof. apply keeps_same. intros s. unfold udp_send. by destruct (send_to _ _ _). Qed.
Lemma keeps_result P {A} (c : C JS DB CS A) : keeps P c → keeps P (sresult (E := ClusterError) c).
Proof. intros Hc s Hs. specialize (Hc s Hs). unfold sresult. by destruct (c s) as [[a|e|] s']. Qed.
Lemma keeps_for P {A} (l : list A) (f : A → C JS DB CS unit) : (∀ x, keeps P (f x)) → keeps P (sfor l f).
Proof. intros Hf. induction l; simpl; [apply keeps_ret|]. by apply keeps_bind. Qed.
Lemma keeps_collect P {A B} (l : list A) (f : A → C JS DB CS B) : (∀ x, keeps P (f x)) → keeps P (scollect l f).
Proof.
  intros Hf. induction l as [|x l IH]; simpl; [apply keeps_ret|].
  apply keeps_bind; [done|]. intros b. apply keeps_bind; [done|]. intros bs. apply keeps_ret.
Qed.
Lemma keeps_with P (f : MembershipList → MembershipList) : (∀ m, P m → P (f m)) → keeps P (with_members f).
Proof. intros Hf s Hs. by apply Hf. Qed.

(** The invariant: a well-formed list of a node whose identifier does not change. *)
Definition wf_at (id : Uuid) (m : MembershipList) : Prop := membership_wf m ∧ m_local_node_id m = id.

Lemma keeps_seq id : keeps (wf_at id) take_seq.
Proof. intros s [Hw Hi]. unfold take_seq, next_seq. by split. Qed.
End invariant.

#[export] Hint Resolve keeps_ret keeps_err keeps_panic keeps_get keeps_read keeps_lift keeps_dm keeps_db
  keeps_udp keeps_seq : hes.

(** Walk through a handler, leaving the writes of the membership list. *)
Ltac keeps_step :=
  first
    [ apply keeps_bind; [|intros; try match goal with x : (_ * _)%type |- _ => destruct x end]
    | apply keeps_result
    | apply keeps_for; intros
    | apply keeps_collect; intros
    | apply keeps_with; intros
    | solve [auto with hes]
    | case_match
    | case_decide ].
Ltac prove_keeps := repeat keeps_step.

Section server_invariant.
Context `{BytesCrate} `{ChronoCrate} `{HashOrder} `{UdpSocket}.
Context {JS DB CS : Type} `{JobCrate JS} `{Engine DB} `{ConfigStore CS}.
Implicit Types (s : ClusterNode JS DB CS) (p : Pause JS DB CS).

Lemma wf_at_modify id f x m : (∀ n, node_id (f n) = node_id n) → wf_at id m → wf_at id (modify_node f x m).
Proof.
  intros Hf [Hw Hi]. split; [by apply wf_modify|]. unfold modify_node.
  case_match; [|done]. unfold m_local_node_id in *. simpl. by rewrite Hf.
Qed.
Lemma wf_at_add id now n m : wf_at id m → wf_at id (add_or_update_node now n m).
Proof.
  intros [Hw Hi]. split; [by apply wf_add_or_update|]. unfold add_or_update_node. by repeat case_match.
Qed.
Lemma wf_at_suspect id x m : wf_at id m → wf_at id (mark_suspect x m).
Proof. intros [Hw Hi]. split; [by apply wf_mark_suspect|]. unfold mark_suspect. by repeat case_match. Qed.
Lemma wf_at_dead id x m : wf_at id m → wf_at id (mark_dead x m).
Proof. intros [Hw Hi]. split; [by apply wf_mark_dead|]. unfold mark_dead. by repeat case_match. Qed.
Lemma wf_at_remove id x m : wf_at id m → wf_at id (remove_node x m).2.
Proof. intros [Hw Hi]. split; [by apply wf_remove|done]. Qed.
Lemma wf_at_heartbeat id now x m : wf_at id m → wf_at id (m_update_heartbeat now x m).
Proof. intros [Hw Hi]. split; [by apply wf_alter|done]. Qed.
Lemma wf_at_stats id b d m : wf_at id m → wf_at id (update_local_stats b d m).
Proof. intros [Hw Hi]. split; [by apply wf_update_local_stats|done]. Qed.
#[local] Hint Resolve wf_at_modify wf_at_add wf_at_suspect wf_at_dead wf_at_remove wf_at_heartbeat
  wf_at_stats : hes.

(** The other tasks keep the invariant while a handler sleeps. *)
Definition calm (id : Uuid) p : Prop := ∀ s, wf_at id (cn_members s) → wf_at id (cn_members (p_others p s)).

Lemma keeps_sleep id p : calm id p → keeps (wf_at id) (sleep p).
Proof. intros Hp s Hs. by apply Hp. Qed.
#[local] Hint Resolve keeps_sleep : hes.

Lemma keeps_send id target msg : keeps (JS := JS) (DB := DB) (CS := CS) (wf_at id) (send_message target msg).
Proof. apply keeps_udp. Qed.
Lemma keeps_try_send id target msg : keeps (JS := JS) (DB := DB) (CS := CS) (wf_at id) (try_send target msg).
Proof. unfold try_send. prove_keeps. Qed.
#[local] Hint Resolve keeps_send keeps_try_send : hes.
Lemma keeps_broadcast id msg : keeps (JS := JS) (DB := DB) (CS := CS) (wf_at id) (broadcast_message msg).
Proof. unfold broadcast_message. prove_keeps. Qed.
#[local] Hint Resolve keeps_broadcast : hes.
Lemma keeps_sync id : keeps (JS := JS) (DB := DB) (CS := CS) (wf_at id) sync_local_stats.
Proof. unfold sync_local_stats. prove_keeps. Qed.
#[local] Hint Resolve keeps_sync : hes.

Lemma keeps_probe id p target requester : calm id p → keeps (wf_at id) (handle_probe_request p target requester).
Proof. intros Hp. unfold handle_probe_request. prove_keeps. Qed.
Lemma keeps_indirect id cfg p target : calm id p → keeps (wf_at id) (indirect_probe cfg p target).
Proof. intros Hp. unfold indirect_probe. prove_keeps. Qed.
#[local] Hint Resolve keeps_probe keeps_indirect : hes.
Lemma keeps_suspect id cfg p x : calm id p → keeps (wf_at id) (handle_suspect_node cfg p x).
Proof. intros Hp. unfold handle_suspect_node. prove_keeps. Qed.
Lemma keeps_dead id now x : keeps (JS := JS) (DB := DB) (CS := CS) (wf_at id) (handle_dead_node now x).
Proof. unfold handle_dead_node. prove_keeps. Qed.
#[local] Hint Resolve keeps_suspect keeps_dead : hes.

Lemma keeps_config id {A} (f : C JS DB CS A) :
  (∀ s, cn_members (f s).2 = cn_members s) → keeps (wf_at id) f.
Proof. apply keeps_same. Qed.

Lemma keeps_status id now x from : keeps (JS := JS) (DB := DB) (CS := CS) (wf_at id) (handle_status_request now x from).
Proof. unfold handle_status_request. prove_keeps. Qed.
#[local] Hint Resolve keeps_status : hes.

Lemma keeps_message id local p from msg : calm id p → keeps (wf_at id) (handle_message local p from msg).
Proof.
  intros Hp. unfold handle_message.
  destruct (msg_type msg);
    unfold handle_heartbeat, handle_heartbeat_ack, handle_status_response, handle_delegation_request,
      handle_delegation_accept, handle_delegation_reject, handle_node_join, handle_node_leave,
      handle_node_suspect, handle_node_dead, handle_config_update, invalid; prove_keeps.
  all: try (apply keeps_same; intros s; by repeat case_match).
  all: auto with hes.
Qed.

Lemma keeps_server id local p from datagram : calm id p → keeps (wf_at id) (server_step local p from datagram).
Proof. intros Hp. unfold server_step. prove_keeps. by apply keeps_message. Qed.

Lemma keeps_detector id cfg now pauses later :
  (∀ i, calm id (pauses i)) → keeps (wf_at id) (detector_tick cfg now pauses later).
Proof. intros Hp. unfold detector_tick. prove_keeps. Qed.

Lemma keeps_heartbeat id now : keeps (JS := JS) (DB := DB) (CS := CS) (wf_at id) (heartbeat_tick now).
Proof. unfold heartbeat_tick. prove_keeps. Qed.

Lemma wf_at_status id st m : wf_at id m → wf_at id (set_local_status st m).
Proof. intros [Hw Hi]. split; [by apply wf_set_local|done]. Qed.
#[local] Hint Resolve wf_at_status : hes.

Lemma keeps_request id now local devices reason target :
  keeps (JS := JS) (DB := DB) (CS := CS) (wf_at id) (request_delegation now local devices reason target).
Proof. unfold request_delegation. prove_keeps. Qed.
#[local] Hint Resolve keeps_request : hes.

Lemma keeps_start id cfg p : calm id p → keeps (wf_at id) (start cfg p).
Proof. intros Hp. unfold start, join_cluster. prove_keeps. Qed.

Lemma keeps_shutdown id cfg p : calm id p → keeps (wf_at id) (shutdown cfg p).
Proof. intros Hp. unfold shutdown, shutdown_delegation, shutdown_devices, shutdown_device. prove_keeps. Qed.

(** The steps of a node: its manager starts and shuts down, its three tasks take turns. *)
Inductive node_step (cfg : ClusterConfig) : ClusterNode JS DB CS → ClusterNode JS DB CS → Prop :=
| step_start p s : calm (cfg_node_id cfg) p → node_step cfg s (start cfg p s).2
| step_shutdown p s : calm (cfg_node_id cfg) p → node_step cfg s (shutdown cfg p s).2
| step_heartbeat now s : node_step cfg s (heartbeat_tick now s).2
| step_detector now pauses later s : (∀ i, calm (cfg_node_id cfg) (pauses i)) →
    node_step cfg s (detector_tick cfg now pauses later s).2
| step_datagram p from datagram s : calm (cfg_node_id cfg) p →
    node_step cfg s (server_step (cfg_node_id cfg) p from datagram s).2
| step_delegate now devices reason target s :
    node_step cfg s (request_delegation now (cfg_node_id cfg) devices reason target s).2.

(** C1: In every state a node reaches from its creation, by any interleaving of its start,
    heartbeats, failure detection, received datagrams (well-formed or not), delegations
    and shutdown: its own identifier is the configured one, its membership list never
    contains the node itself, and every other node is filed under its own identifier. *)
Theorem membership_stays_well_formed (cfg : ClusterConfig) (now : Z) (d : DmState JS DB) (cs : CS) s0 s
    (Hnew : cluster_manager_new now cfg d cs = Ok s0) (Hrun : rtc (node_step cfg) s0 s) :
  membership_wf (cn_members s) ∧ m_local_node_id (cn_members s) = cfg_node_id cfg.
Proof.
  assert (Hinit : wf_at (cfg_node_id cfg) (cn_members s0)).
  { unfold cluster_manager_new in Hnew. apply obind_Ok in Hnew as (m & Hm & [= <-]).
    unfold membership_new in Hm. apply obind_Ok in Hm as (a & _ & [= <-]). done. }
  clear Hnew. induction Hrun as [s|s s1 s' Hstep _ IH]; [done|]. apply IH.
  destruct Hstep.
  - by apply keeps_start.
  - by apply keeps_shutdown.
  - by apply keeps_heartbeat.
  - by apply keeps_detector.
  - by apply keeps_server.
  - by apply keeps_request.
Qed.
End server_invariant.

(** ** Failure detection *)
Section detection.
Context `{BytesCrate} `{ChronoCrate} `{HashOrder} `{UdpSocket}.
Context {JS DB CS : Type} `{JobCrate JS} `{Engine DB} `{ConfigStore CS}.

Lemma elem_of_node_filter (P : NodeInfo → Prop) `{∀ n, Decision (P n)} (m : MembershipList) id :
  membership_wf m →
  id ∈ node_id <$> filter P (hash_iter (nodes m)).*2 ↔ ∃ n, nodes m !! id = Some n ∧ P n.
Proof.
  intros [Hk _]. rewrite list_elem_of_fmap. split.
  - intros (n & -> & Hn). apply list_elem_of_filter in Hn as [HP Hn].
    rewrite hash_iter_perm in Hn. apply list_elem_of_fmap in Hn as ([id n'] & -> & Hn).
    apply elem_of_map_to_list in Hn. simpl in *. rewrite (Hk _ _ Hn). by exists n'.
  - intros (n & Hn & HP). exists n. split; [by rewrite (Hk _ _ Hn)|].
    apply list_elem_of_filter. split; [done|]. rewrite hash_iter_perm.
    apply list_elem_of_fmap. exists (id, n). split; [done|]. by apply elem_of_map_to_list.
Qed.

Lemma node_filter_nodup (P : NodeInfo → Prop) `{∀ n, Decision (P n)} (m : MembershipList) :
  membership_wf m → NoDup (node_id <$> filter P (hash_iter (nodes m)).*2).
Proof.
  intros [Hk _].
  assert (Hids : ∀ l : list (Z * NodeInfo), (∀ e, e ∈ l → node_id e.2 = e.1) → node_id <$> l.*2 = l.*1).
  { induction l as [|e l IH]; intros Hl; [done|]. cbn [fmap list_fmap]. rewrite (Hl e) by constructor.
    f_equal. apply IH. intros. apply Hl. by constructor. }
  eapply sublist_NoDup; [|apply fmap_sublist, list_filter_sublist || apply fmap_sublist, sublist_filter].
  rewrite Hids; [rewrite hash_iter_perm; apply NoDup_fst_map_to_list|].
  intros [i n] Hin. rewrite hash_iter_perm in Hin. apply elem_of_map_to_list in Hin. by apply Hk.
Qed.

(** Whom the failure detector accuses. A node is a suspect candidate exactly when it is
    known, active and silent for longer than the suspect timeout, and a dead candidate
    exactly when it is already suspect and silent for longer than both timeouts together;
    in particular nodes that are starting or draining are never accused, however long
    they are silent. *)
Theorem detector_candidates_exact (m : MembershipList) (now : Z) (id : Uuid) (Hwf : membership_wf m) :
  (id ∈ get_suspect_candidates now m ↔ ∃ n, nodes m !! id = Some n ∧ status n = Active ∧
     suspect_timeout (m_config m) < time_since_heartbeat now n) ∧
  (id ∈ get_dead_candidates now m ↔ ∃ n, nodes m !! id = Some n ∧ status n = Suspect ∧
     suspect_timeout (m_config m) + dead_timeout (m_config m) < time_since_heartbeat now n) ∧
  (∀ n, nodes m !! id = Some n → status n = Starting ∨ status n = Draining →
     id ∉ get_suspect_candidates now m ∧ id ∉ get_dead_candidates now m).
Proof.
  unfold get_suspect_candidates, get_dead_candidates. rewrite !elem_of_node_filter by done.
  split; [done|]. split; [done|]. intros n Hn Hs. rewrite !elem_of_node_filter by done.
  split; intros (n' & Hn' & Hs' & _); destruct Hs; congruence.
Qed.
End detection.

(** ** What sending leaves alone *)
Section sending.
Context `{BytesCrate} `{ChronoCrate} `{HashOrder} `{UdpSocket}.
Context {JS DB CS : Type} `{JobCrate JS} `{Engine DB} `{ConfigStore CS}.
Implicit Types (s : ClusterNode JS DB CS).

(** Same state but for the datagrams sent, which only grow. *)
Definition quiet s s' : Prop :=
  cn_members s' = cn_members s ∧ cn_dm s' = cn_dm s ∧ cn_config s' = cn_config s ∧ sent s `prefix_of` sent s'.

#[global] Instance quiet_preorder : PreOrder quiet.
Proof.
  split; [by repeat split|].
  intros x y z (?&?&?&?) (?&?&?&?). split; [congruence|]. split; [congruence|]. split; [congruence|]. by etrans.
Qed.

Lemma udp_send_quiet target msg s : quiet s (udp_send target msg s).2 ∧ (udp_send target msg s).1 ≠ Panic.
Proof.
  unfold udp_send. destruct (send_to _ _ _); (split; [|done]; repeat split; simpl; try done).
  by apply prefix_app_r.
Qed.

Lemma try_send_quiet target msg s : ∃ s', try_send target msg s = (Ok tt, s') ∧ quiet s s'.
Proof.
  unfold try_send, sbind, sresult. destruct (udp_send_quiet target msg s) as [Hq Hp].
  destruct (udp_send target msg s) as [[[]|e|] s']; simpl in *; try done; by exists s'.
Qed.

Lemma try_sends_quiet (l : list SocketAddr) msg s :
  ∃ s', sfor l (λ a, try_send a msg) s = (Ok tt, s') ∧ quiet s s'.
Proof.
  apply (sfor_ok (quiet s)); [|reflexivity]. intros a s1 _ Hs1.
  destruct (try_send_quiet a msg s1) as (s2 & Hsend & Hq). exists s2. split; [done|]. by etrans.
Qed.

Lemma broadcast_quiet msg s :
  ∃ s', sresult (F := ClusterError) (broadcast_message msg) s = (Ok (Ok tt), s') ∧ quiet s s'.
Proof.
  unfold sresult, broadcast_message. unfold read_members. rewrite sbind_get.
  destruct (try_sends_quiet (cluster_addr <$> reachable_nodes (cn_members s)) msg s) as (s' & Hs & Hq).
  rewrite Hs. by exists s'.
Qed.
End sending.

(** ** A declared death *)
Section death.
Context `{BytesCrate} `{ChronoCrate} `{HashOrder} `{UdpSocket}.
Context {JS DB CS : Type} `{JobCrate JS} `{OwnershipEngine DB} `{ConfigStore CS}.
Implicit Types (s : ClusterNode JS DB CS).

Lemma other_loads_alive m id :
  membership_wf m → id ∉ (other_loads (mark_dead id m)).*1.
Proof.
  intros Hwf. unfold other_loads. rewrite <- list_fmap_compose. unfold active_nodes.
  change (fst ∘ λ n, (node_id n, device_count n)) with node_id.
  rewrite elem_of_node_filter by (by apply wf_mark_dead).
  intros (n & Hn & Ha). unfold mark_dead in Hn. destruct (nodes m !! id) as [n0|] eqn:Hn0.
  - simpl in Hn. rewrite lookup_insert_eq in Hn. by simplify_eq.
  - congruence.
Qed.

(** A node that is not in the list is offered nothing. *)
Lemma absent_offered_nothing m id x : membership_wf m → nodes m !! x = None → x ∉ (other_loads (mark_dead id m)).*1.
Proof.
  intros Hwf Hx. unfold other_loads. rewrite <- list_fmap_compose. unfold active_nodes.
  change (fst ∘ λ n, (node_id n, device_count n)) with node_id.
  rewrite elem_of_node_filter by (by apply wf_mark_dead).
  intros (n & Hn & _). unfold mark_dead in Hn. destruct (nodes m !! id) as [n0|] eqn:Hn0; [|congruence].
  simpl in Hn. destruct (decide (id = x)) as [->|Hne]; [congruence|]. rewrite lookup_insert_ne in Hn by done. congruence.
Qed.

(** Setting a node's status in the database does not touch ownership, whatever it answers. *)
Lemma status_update_quiet id text s :
  ∃ r s', sresult (F := ClusterError) (in_cdb (update_cluster_node_status id text)) s = (Ok r, s') ∧
    cn_members s' = cn_members s ∧ dm (cn_dm s') = dm (cn_dm s) ∧ table (cn_dm s') = table (cn_dm s) ∧
    sent s' = sent s.
Proof.
  unfold sresult, in_cdb, szoom.
  destruct (status_frame id text (dm_db (cn_dm s))) as (r & db' & Hr & Hp & Ha). rewrite Hr.
  destruct r as [[]|e|]; simpl; [by do 2 eexists|by do 2 eexists|done].
Qed.

Lemma mark_dead_nodes id m n :
  nodes m !! id = Some n → nodes (mark_dead id m) = <[id := set_status Dead n]> (nodes m).
Proof. intros Hn. unfold mark_dead. by rewrite Hn. Qed.

(** The part of the handling that moves the devices and the bookkeeping after it. *)
Lemma redistribute_after_death id s :
  membership_wf (cn_members s) → id ≠ me (cn_dm s) → ownership_inv (cn_dm s) →
  ∃ r s1 s2, sresult (F := ClusterError)
      (in_dm (redistribute_from_failed id (other_loads (mark_dead id (cn_members s))))) s = (Ok r, s1) ∧
    sync_local_stats s1 = (Ok tt, s2) ∧ ownership_inv (cn_dm s2) ∧
    (∀ dev b, table (cn_dm s2) !! dev ≠ Some (b, id)) ∧
    nodes (cn_members s2) = nodes (cn_members s) ∧ m_local_node_id (cn_members s2) = m_local_node_id (cn_members s) ∧
    device_count (local_node (cn_members s2)) = wrap_u32 (owned_count (cn_dm s2)) ∧ sent s2 = sent s ∧
    me (cn_dm s2) = me (cn_dm s) ∧ m_config (cn_members s2) = m_config (cn_members s) ∧
    (∀ x, x ≠ me (cn_dm s) → nodes (cn_members s) !! x = None →
       (∀ dev b, table (cn_dm s) !! dev ≠ Some (b, x)) → ∀ dev b, table (cn_dm s2) !! dev ≠ Some (b, x)).
Proof.
  intros Hwf Hid Hinv. set (others := other_loads (mark_dead id (cn_members s))).
  pose proof (redistribute_inv id others (cn_dm s) Hid Hinv) as Hinv'.
  assert (Hclear : ∀ dev b, table (redistribute_from_failed id others (cn_dm s)).2 !! dev ≠ Some (b, id)).
  { intros dev b. apply redistribute_clears; [done|]. by apply other_loads_alive. }
  pose proof (λ x Hx Ho dev b, redistribute_unowned id others (cn_dm s) x dev b Hx Ho) as Hun.
  destruct (redistribute_ok id others (cn_dm s)) as (l & st' & Hrun & Hme & _).
  rewrite Hrun in Hinv', Hclear, Hun. simpl in Hinv', Hclear, Hun.
  exists (Ok tt), (set_cn_dm st' s). eexists. split.
  { unfold sresult, in_dm, szoom. by rewrite Hrun. }
  unfold sync_local_stats. rewrite sbind_get. split; [done|]. do 6 (split; [done|]). split; [exact Hme|]. split; [done|].
  intros x Hx Hnone Hfree dev b. apply Hun; [done| |done].
  apply absent_offered_nothing; [exact Hwf|exact Hnone].
Qed.

(** What declaring a node dead does. *)
Lemma handle_dead_ok (now : Z) (id : Uuid) (n : NodeInfo) s :
  membership_wf (cn_members s) → nodes (cn_members s) !! id = Some n →
  me (cn_dm s) = m_local_node_id (cn_members s) → ownership_inv (cn_dm s) →
  ∃ s', handle_dead_node now id s = (Ok tt, s') ∧
    nodes (cn_members s') = delete id (nodes (cn_members s)) ∧
    (∀ dev b, table (cn_dm s') !! dev ≠ Some (b, id)) ∧ ownership_inv (cn_dm s') ∧
    device_count (local_node (cn_members s')) = wrap_u32 (owned_count (cn_dm s')) ∧
    me (cn_dm s') = me (cn_dm s) ∧ m_local_node_id (cn_members s') = m_local_node_id (cn_members s) ∧
    (∀ x, x ≠ me (cn_dm s) → nodes (cn_members s) !! x = None →
       (∀ dev b, table (cn_dm s) !! dev ≠ Some (b, x)) → ∀ dev b, table (cn_dm s') !! dev ≠ Some (b, x)).
Proof.
  intros Hwf Hn Hme Hinv.
  assert (Hid : id ≠ m_local_node_id (cn_members s)) by (intros ->; by rewrite (proj2 Hwf) in Hn).
  unfold handle_dead_node, read_members. rewrite sbind_get. unfold get_node.
  destruct (Z.eqb_spec id (m_local_node_id (cn_members s))) as [|_]; [done|]. rewrite Hn.
  unfold with_members. rewrite sbind_mod.
  set (m1 := mark_dead id (cn_members s)). set (s1 := set_members m1 s).
  destruct (status_update_quiet id (str "dead") s1) as (r2 & s2 & Hs2 & Hm2 & Hd2 & Ht2 & _).
  sstep Hs2. set (s3 := set_members (next_seq (cn_members s2)).2 s2).
  assert (Hs3 : take_seq s2 = (Ok (m_local_node_id (cn_members s2), (next_seq (cn_members s2)).1), s3)) by done.
  sstep Hs3. destruct (broadcast_quiet (node_dead (now_ms now) (m_local_node_id (cn_members s2)) (next_seq (cn_members s2)).1 id) s3)
    as (s4 & Hs4 & Hm4 & Hd4 & _ & _).
  sstep Hs4. rewrite sbind_get.
  assert (Hnodes4 : nodes (cn_members s4) = <[id := set_status Dead n]> (nodes (cn_members s))).
  { rewrite Hm4. simpl. rewrite Hm2. simpl. by apply mark_dead_nodes. }
  assert (Hl4 : m_local_node_id (cn_members s4) = m_local_node_id (cn_members s)).
  { rewrite Hm4. unfold s3, m_local_node_id. simpl. rewrite Hm2. simpl. unfold m1, mark_dead. by rewrite Hn. }
  assert (Hwf4 : membership_wf (cn_members s4)).
  { rewrite Hm4. unfold s3. simpl. rewrite Hm2. simpl. by apply wf_set_seq, wf_mark_dead. }
  assert (Hdm4 : dm (cn_dm s4) = dm (cn_dm s) ∧ table (cn_dm s4) = table (cn_dm s)).
  { rewrite Hd4. unfold s3. simpl. by rewrite Hd2, Ht2. }
  assert (Hloads : other_loads (cn_members s4) = other_loads (mark_dead id (cn_members s4))).
  { unfold other_loads, active_nodes, mark_dead. rewrite Hnodes4, lookup_insert_eq. simpl. by rewrite insert_insert_eq. }
  rewrite Hloads.
  destruct (redistribute_after_death id s4 Hwf4) as (r5 & s5 & s6 & Hs5 & Hs6 & Hinv6 & Hclear & Hn6 & Hl6 & Hc6 & _ & Hme6 & _ & Hun).
  { unfold me. destruct Hdm4 as [-> _]. fold (me (cn_dm s)). by rewrite Hme. }
  { intros dev. destruct Hdm4 as [Hdm4 Htab4]. unfold owned, me. rewrite Hdm4, Htab4. apply Hinv. }
  sstep Hs5. sstep Hs6. eexists. split; [done|]. simpl.
  split; [by rewrite Hn6, Hnodes4, delete_insert_eq|]. split; [done|]. split; [done|]. split; [done|].
  assert (Hme4 : me (cn_dm s4) = me (cn_dm s)) by (unfold me; by destruct Hdm4 as [-> _]).
  split; [congruence|]. split; [unfold m_local_node_id in *; simpl; congruence|].
  intros x Hx Hnone Hfree. apply Hun; [congruence| |by destruct Hdm4 as [_ ->]].
  rewrite Hnodes4, lookup_insert_ne; [done|]. intros ->. congruence.
Qed.

(** What declaring a node dead does, when the failure detector decides it: the call
    returns; the node is gone from the membership list and every other node keeps its
    entry; no device of the database is owned by it any more; this node's set of devices
    is still exact and its own advertised device count is the size of that set. *)
Theorem dead_node_is_replaced (now : Z) (id : Uuid) (n : NodeInfo) s
    (Hwf : membership_wf (cn_members s)) (Hn : nodes (cn_members s) !! id = Some n)
    (Hme : me (cn_dm s) = m_local_node_id (cn_members s)) (Hinv : ownership_inv (cn_dm s)) :
  ∃ s', handle_dead_node now id s = (Ok tt, s') ∧
    nodes (cn_members s') = delete id (nodes (cn_members s)) ∧
    (∀ dev b, table (cn_dm s') !! dev ≠ Some (b, id)) ∧ ownership_inv (cn_dm s') ∧
    device_count (local_node (cn_members s')) = wrap_u32 (owned_count (cn_dm s')).
Proof.
  destruct (handle_dead_ok now id n s Hwf Hn Hme Hinv) as (s' & ? & ? & ? & ? & ? & _). by exists s'.
Qed.
End death.

(** ** Delegation between two nodes that share the database *)
Section handover.
Context `{BytesCrate} `{ChronoCrate} `{HashOrder} `{UdpSocket}.
Context {JS DB CS : Type} `{JobCrate JS} `{OwnershipEngine DB} `{ConfigStore CS}.
Implicit Types (giver taker : ClusterNode JS DB CS).

Lemma in_dm_ok {A} (m : DM JS DB A) (s : ClusterNode JS DB CS) a st :
  m (cn_dm s) = (Ok a, st) → in_dm m s = (Ok a, set_cn_dm st s).
Proof. intros Hm. unfold in_dm, szoom. by rewrite Hm. Qed.

(** What the node [taker] does with a request it can accept. *)
Lemma accept_request_ok now local from p taker :
  accepts_jobs (JS := JS) → can_accept (drq_reason p) (local_node (cn_members taker)) = true →
  ∃ r taker', handle_delegation_request now local from p taker = (r, taker') ∧
    let devices := delegated_of_payload <$> drq_devices p in
    accept_delegation devices (cn_dm taker) = (Ok (dd_device_id <$> devices), cn_dm taker') ∧
    local_node (cn_members taker') = local_node (cn_members taker) ∧
    (r = Ok tt → sent taker' = sent taker ++ [(from, delegate_accept (now_ms now) local
       (wrap_u32 (seq_counter (cn_members taker) + 1)) (mkDelegateAccept (dd_device_id <$> devices)))]).
Proof.
  intros Hacc Hcan. unfold handle_delegation_request, read_members. rewrite sbind_get, Hcan.
  set (s1 := set_members (next_seq (cn_members taker)).2 taker).
  assert (Hseq : take_seq taker = (Ok (m_local_node_id (cn_members taker), (next_seq (cn_members taker)).1), s1)) by done.
  sstep Hseq. cbn [negb].
  destruct (accept_ok (delegated_of_payload <$> drq_devices p) (cn_dm s1) Hacc) as (st' & Hst & _).
  sstep (in_dm_ok _ _ _ _ Hst). unfold send_message, udp_send.
  destruct (send_to _ _ _); (do 2 eexists; split; [reflexivity|]; split; [exact Hst|]; done).
Qed.

(** The node that gave devices away keeps their wake-up jobs: handling the answer drops
    the devices from its set but removes no job, so the jobs of delegated devices still
    fire on the old owner. *)
Theorem delegation_keeps_giver_jobs giver (ids : list Uuid) :
  ∃ giver', handle_delegation_accept (mkDelegateAccept ids) giver = (Ok tt, giver') ∧
    owned (cn_dm giver') = owned (cn_dm giver) ∖ list_to_set ids ∧
    dm_jobs (cn_dm giver') = dm_jobs (cn_dm giver).
Proof.
  destruct (release_ok ids (cn_dm giver)) as (g2 & Hrel & _ & _ & Ho2 & Hs2).
  destruct (unschedule_ok ids g2) as (g3 & Huns & _ & _ & Ho3 & Hj3).
  exists (set_cn_dm g3 (set_cn_dm g2 giver)). split.
  - unfold handle_delegation_accept. sstep (in_dm_ok _ _ _ _ Hrel). by apply in_dm_ok.
  - simpl. split; [by rewrite Ho3|]. rewrite Hj3. unfold dm_jobs. by rewrite Hs2.
Qed.

Definition handle_requests (local : Uuid) (requests : list (Z * SocketAddr * DelegateRequestPayload)) taker
  : ClusterNode JS DB CS :=
  foldl (λ s q, (handle_delegation_request q.1.1 local q.1.2 q.2 s).2) taker requests.

Lemma requests_accepted local requests taker :
  accepts_jobs (JS := JS) →
  (∀ q, q ∈ requests → can_accept (drq_reason q.2) (local_node (cn_members taker)) = true) →
  local_node (cn_members (handle_requests local requests taker)) = local_node (cn_members taker) ∧
  owned (cn_dm taker) ⊆ owned (cn_dm (handle_requests local requests taker)) ∧
  (∀ q d, q ∈ requests → d ∈ drq_devices q.2 →
     ddp_device_id d ∈ owned (cn_dm (handle_requests local requests taker))).
Proof.
  intros Hacc. revert taker. induction requests as [|[[now from] p] requests IH]; intros taker Hcan.
  { split; [done|]. split; [done|]. set_solver. }
  destruct (accept_request_ok now local from p taker Hacc) as (r & t1 & Hreq & Hrun & Hloc & _).
  { apply (Hcan (now, from, p)). set_solver. }
  unfold handle_requests. cbn [foldl fst snd]. rewrite Hreq. cbn [snd]. fold (handle_requests local requests t1).
  destruct (IH t1) as (Hl & Hsub & Hin).
  { intros q Hq. rewrite Hloc. apply Hcan. set_solver. }
  destruct (accept_ok (delegated_of_payload <$> drq_devices p) (cn_dm taker) Hacc) as (st' & Hst & _ & Ho & _).
  rewrite Hrun in Hst. injection Hst as Hst. rewrite <- Hst in Ho.
  split; [by rewrite Hl|]. split; [etrans; [|done]; rewrite Ho; apply union_subseteq_r|].
  intros q d [->|Hq]%elem_of_cons Hd; [|by eapply Hin].
  apply Hsub. rewrite Ho. apply elem_of_union_l, elem_of_list_to_set, list_elem_of_fmap.
  exists (delegated_of_payload d). split; [done|]. apply list_elem_of_fmap. by exists d.
Qed.

(** Accepting devices does not count towards the load that decides about the next
    request: however many requests a node has accepted, all their devices are in its set,
    but its local entry, and so its willingness to accept more, is what it was before. *)
Theorem delegation_never_fills_node (requests : list (Z * SocketAddr * DelegateRequestPayload))
    (local : Uuid) taker (reason : DelegationReason) (Hacc : accepts_jobs (JS := JS))
    (Hcan : ∀ q, q ∈ requests → can_accept (drq_reason q.2) (local_node (cn_members taker)) = true) :
  can_accept reason (local_node (cn_members (handle_requests local requests taker)))
    = can_accept reason (local_node (cn_members taker)) ∧
  (∀ q d, q ∈ requests → d ∈ drq_devices q.2 →
     ddp_device_id d ∈ owned (cn_dm (handle_requests local requests taker))).
Proof. destruct (requests_accepted local requests taker Hacc Hcan) as (-> & _ & Hin). done. Qed.
End handover.
