(* ===== verification/DetectorFacts.v ===== *)
(** * A node that falls silent is removed

    One turn of the failure detector after both timeouts: the silent node is
    suspected, declared dead, removed from the membership, and its devices
    have new owners, whatever the other nodes do meanwhile. *)

From S2P Require Import Prelude Bytes Net Float32 Node ClusterPayload ClusterMessage Database DatabaseFacts Calendar Scheduler SchedulerFacts DeviceManager DeviceManagerFacts Membership ClusterNode Delegation FailureDetector ClusterServer ClusterManager ClusterFacts.

Local Open Scope Z_scope.
Local Open Scope hes_scope.

Section silence.
Context `{BytesCrate} `{ChronoCrate} `{HashOrder} `{UdpSocket}.
Context {JS DB CS : Type} `{JobCrate JS} `{OwnershipEngine DB} `{ConfigStore CS}.
Implicit Types (s : ClusterNode JS DB CS) (p : Pause JS DB CS).

Context (cfg : ClusterConfig) (silent : Uuid) (since : Z).

(** The node [silent] was last heard at [since]; it has one of the statuses [P]. *)
Definition unheard (P : NodeStatus → Prop) s : Prop :=
  membership_wf (cn_members s) ∧ m_config (cn_members s) = cfg ∧
  ∃ n, nodes (cn_members s) !! silent = Some n ∧ last_heartbeat n = since ∧ P (status n).
Definition serving s : Prop :=
  me (cn_dm s) = m_local_node_id (cn_members s) ∧ ownership_inv (cn_dm s).

Definition accused (st : NodeStatus) : Prop := st = Active ∨ st = Suspect.
Definition good s : Prop := unheard accused s ∧ serving s.
Definition good_suspect s : Prop := unheard (λ st, st = Suspect) s ∧ serving s.

Lemma good_of_suspect s : good_suspect s → good s.
Proof. intros [(? & ? & n & ? & ? & ?) ?]. split; [|done]. split; [done|]. split; [done|]. exists n. unfold accused. auto. Qed.

(** What other tasks may do while the detector sleeps: anything that is not a sign of life
    of the silent node and keeps the node's own invariants. *)
Definition undisturbed p : Prop :=
  (∀ s, good s → good (p_others p s)) ∧ (∀ s, good_suspect s → good_suspect (p_others p s)).

(** The two predicates together: [Q] is one of them. *)
Definition steady_on (Q : ClusterNode JS DB CS → Prop) : Prop :=
  Q = good ∨ Q = good_suspect.

(** They depend on the members and the device manager only. *)
Lemma steady_quiet Q s s' : steady_on Q → cn_dm s' = cn_dm s → nodes (cn_members s') = nodes (cn_members s) →
  local_node (cn_members s') = local_node (cn_members s) → m_config (cn_members s') = m_config (cn_members s) → Q s → Q s'.
Proof.
  intros HQ Hd Hn Hl Hc.
  assert (Hw : membership_wf (cn_members s) → membership_wf (cn_members s')).
  { unfold membership_wf, m_local_node_id. by rewrite Hn, Hl. }
  destruct HQ as [->| ->]; unfold good, good_suspect, unheard, serving, m_local_node_id; rewrite Hd, Hn, Hl, Hc; intuition.
Qed.

(** Changing the entry of another node, or marking this one suspect. *)
Lemma steady_other Q x f s : steady_on Q → x ≠ silent → (∀ n, node_id (f n) = node_id n) → Q s →
  Q (set_members (modify_node f x (cn_members s)) s).
Proof.
  intros HQ Hx Hf.
  assert (Hw : membership_wf (cn_members s) → membership_wf (modify_node f x (cn_members s))) by (by apply wf_modify).
  assert (Hl : m_local_node_id (modify_node f x (cn_members s)) = m_local_node_id (cn_members s)).
  { unfold modify_node. case_match; [|done]. unfold m_local_node_id. simpl. apply Hf. }
  assert (Hc : m_config (modify_node f x (cn_members s)) = m_config (cn_members s)) by (unfold modify_node; by case_match).
  assert (Hn : nodes (modify_node f x (cn_members s)) !! silent = nodes (cn_members s) !! silent).
  { unfold modify_node. case_match; [done|]. simpl. by rewrite lookup_alter_ne. }
  destruct HQ as [->| ->]; unfold good, good_suspect, unheard, serving; cbn [cn_members cn_dm set_members];
    rewrite Hn, Hl, Hc; intuition.
Qed.

Lemma mark_suspect_frame x m :
  local_node (mark_suspect x m) = local_node m ∧ m_config (mark_suspect x m) = m_config m ∧
  (x ≠ silent → nodes (mark_suspect x m) !! silent = nodes m !! silent).
Proof.
  unfold mark_suspect. destruct (nodes m !! x) as [n|]; [|done]. case_decide; [|done]. simpl. split; [done|]. split; [done|].
  intros Hx. by rewrite lookup_insert_ne.
Qed.

Lemma steady_mark Q x s : steady_on Q → Q s →
  Q (set_members (mark_suspect x (cn_members s)) s) ∧
  (x = silent → good_suspect (set_members (mark_suspect x (cn_members s)) s)).
Proof.
  intros HQ Hs. destruct (mark_suspect_frame x (cn_members s)) as (Hl & Hc & Hn).
  assert (Hw : membership_wf (cn_members s) → membership_wf (mark_suspect x (cn_members s))) by (by apply wf_mark_suspect).
  assert (Hsus : x = silent → good_suspect (set_members (mark_suspect x (cn_members s)) s)).
  { intros ->. assert (Hg : good s) by (destruct HQ as [->| ->]; [done|by apply good_of_suspect]).
    destruct Hg as [(Hwf & Hcfg & n & Hlook & Hlast & Hst) Hserv].
    split; [|unfold serving, m_local_node_id in *; cbn [cn_members cn_dm set_members]; by rewrite Hl].
    split; [by apply Hw|]. split; [simpl; congruence|]. unfold mark_suspect. simpl. rewrite Hlook.
    destruct Hst as [Ha|Ha]; rewrite Ha; [rewrite decide_True by done|rewrite decide_False by done; by exists n].
    simpl. rewrite lookup_insert_eq. by eexists. }
  split; [|exact Hsus]. destruct (decide (x = silent)) as [Hx|Hx].
  - destruct HQ as [->| ->]; [by apply good_of_suspect, Hsus|by apply Hsus].
  - destruct HQ as [->| ->]; unfold good, good_suspect, unheard, serving, m_local_node_id in *;
      cbn [cn_members cn_dm set_members]; rewrite (Hn Hx), Hl, Hc; intuition.
Qed.

(** ** Suspicion *)

(** The silent node has been unheard for more than [d] milliseconds. *)
Definition overdue (d now : Z) : Prop := d < Z.max ((now - since) ÷ ns_per_ms) 0.

Lemma overdue_later d now later : now <= later → overdue d now → overdue d later.
Proof.
  unfold overdue. intros Hle Hd. eapply Z.lt_le_trans; [exact Hd|]. apply Z.max_le_compat_r, Z.quot_le_mono; [done|lia].
Qed.
Lemma overdue_silence d now n : last_heartbeat n = since → overdue d now → d < time_since_heartbeat now n.
Proof. unfold overdue, time_since_heartbeat. by intros ->. Qed.

Lemma good_of Q s : steady_on Q → Q s → good s.
Proof. intros [->| ->]; [done|apply good_of_suspect]. Qed.

(** The silent node is found where the code looks for it. *)
Lemma silent_known Q s : steady_on Q → Q s →
  ∃ n, get_node silent (cn_members s) = Some n ∧ nodes (cn_members s) !! silent = Some n ∧ last_heartbeat n = since.
Proof.
  intros HQ Hs. destruct (good_of Q s HQ Hs) as [(Hwf & _ & n & Hn & Hl & _) _]. exists n. split; [|done].
  unfold get_node. destruct (Z.eqb_spec silent (m_local_node_id (cn_members s))) as [He|]; [|done].
  rewrite He in Hn. by rewrite (proj2 Hwf) in Hn.
Qed.

Lemma steady_seq Q s : steady_on Q → Q s →
  ∃ x s', take_seq s = (Ok x, s') ∧ Q s'.
Proof. intros HQ Hs. do 2 eexists. split; [done|]. by apply (steady_quiet Q s). Qed.

Lemma steady_calm Q p s : steady_on Q → undisturbed p → Q s → Q (p_others p s).
Proof. intros [->| ->] [Hg Hb]; auto. Qed.

Lemma probe_ok Q x p s : steady_on Q → undisturbed p → overdue (suspect_timeout cfg) (p_after p) → Q s →
  ∃ b s', indirect_probe cfg p x s = (Ok b, s') ∧ Q s' ∧ (x = silent → b = false).
Proof.
  intros HQ Hp Hover Hs. unfold indirect_probe, read_members. rewrite sbind_get.
  set (helpers := filter _ _). case_decide as Hh; [by exists false, s|].
  assert (Hlen : (0 < length helpers)%nat) by (destruct helpers; [done|simpl; lia]).
  destruct (lookup_lt_is_Some_2 helpers (Z.to_nat (p_random p mod Z.of_nat (length helpers)))) as [h Hl].
  { pose proof (Z.mod_pos_bound (p_random p) (Z.of_nat (length helpers)) ltac:(lia)). lia. }
  rewrite Hl. destruct (steady_seq Q s HQ Hs) as ([id seq] & s1 & Hseq & Hs1). sstep Hseq.
  destruct (udp_send_quiet (cluster_addr h) (probe_request (now_ms (p_now p)) id seq x) s1) as [(Hm & Hd & _ & _) Hnp].
  unfold sbind at 1, sresult, send_message. destruct (udp_send _ _ s1) as [[[]|e|] s2]; cbn [fst snd] in *; [| |done].
  - unfold sleep. rewrite sbind_mod. unfold sget. do 2 eexists. split; [reflexivity|].
    assert (Hs2 : Q s2) by (apply (steady_quiet Q s1 s2 HQ); by rewrite ?Hm).
    assert (Hs3 : Q (p_others p s2)) by (by apply steady_calm). split; [exact Hs3|]. intros ->.
    destruct (silent_known Q _ HQ Hs3) as (n & -> & _ & Hl3). apply Z.ltb_ge.
    pose proof (overdue_silence _ _ n Hl3 Hover). lia.
  - exists false, s2. split; [done|]. split; [|done]. apply (steady_quiet Q s1 s2 HQ); by rewrite ?Hm.
Qed.

Lemma handle_suspect_ok Q x p s : steady_on Q → undisturbed p →
  overdue (suspect_timeout cfg) (p_now p) → overdue (suspect_timeout cfg) (p_after p) → Q s →
  ∃ s', handle_suspect_node cfg p x s = (Ok tt, s') ∧ Q s' ∧ (x = silent → good_suspect s').
Proof.
  intros HQ Hp Hnow Hafter Hs. unfold handle_suspect_node, read_members. rewrite sbind_get.
  destruct (get_node x (cn_members s)) as [n|] eqn:Hx.
  2: { exists s. split; [done|]. split; [done|]. intros ->. destruct (silent_known Q s HQ Hs) as (n & Hn & _). congruence. }
  destruct (Z.leb_spec (time_since_heartbeat (p_now p) n) (suspect_timeout cfg)) as [Hle|_].
  { exists s. split; [done|]. split; [done|]. intros ->. destruct (silent_known Q s HQ Hs) as (n' & Hn & _ & Hl).
    rewrite Hx in Hn. injection Hn as <-. pose proof (overdue_silence _ _ n Hl Hnow). lia. }
  unfold with_members at 1. rewrite sbind_mod. set (s1 := set_members _ s).
  destruct (steady_mark Q x s HQ Hs) as [Hm Hsus]. fold s1 in Hm, Hsus.
  set (Q' := if decide (x = silent) then good_suspect else Q).
  assert (HQ' : steady_on Q') by (unfold Q'; case_decide; [by right|done]).
  assert (Hs1 : Q' s1) by (unfold Q'; case_decide; auto).
  assert (Hback : ∀ s', Q' s' → Q s' ∧ (x = silent → good_suspect s')).
  { intros s' Hs'. unfold Q' in Hs'. case_decide as Hd; [|done]. split; [|done].
    destruct HQ as [->| ->]; [by apply good_of_suspect|done]. }
  destruct (steady_seq Q' s1 HQ' Hs1) as ([lid seq] & s2 & Hseq & Hs2). sstep Hseq.
  destruct (broadcast_quiet (node_suspect (now_ms (p_now p)) lid seq x) s2) as (s3 & Hb & Hm3 & Hd3 & _ & _). sstep Hb.
  assert (Hs3 : Q' s3) by (apply (steady_quiet Q' s2 s3 HQ'); by rewrite ?Hm3).
  destruct (probe_ok Q' x p s3 HQ' Hp Hafter Hs3) as (alive & s4 & Hpr & Hs4 & Hdead). sstep Hpr.
  destruct alive; [|exists s4; split; [done|by apply Hback]].
  eexists. split; [done|]. apply Hback. apply steady_other; [done| |done|done]. intros Hx'. by specialize (Hdead Hx').
Qed.

Lemma suspect_loop_ok (l : list (nat * Uuid)) pauses Q s : steady_on Q → Q s →
  (∀ i, undisturbed (pauses i) ∧ overdue (suspect_timeout cfg) (p_now (pauses i)) ∧ overdue (suspect_timeout cfg) (p_after (pauses i))) →
  ∃ s', sfor l (λ q, handle_suspect_node cfg (pauses q.1) q.2) s = (Ok tt, s') ∧ Q s' ∧ (silent ∈ l.*2 → good_suspect s').
Proof.
  intros HQ Hs Hp. revert Q HQ s Hs. induction l as [|[i x] l IH]; intros Q HQ s Hs; [exists s; split; [done|]; set_solver|].
  cbn [sfor fst snd]. destruct (Hp i) as (Hc & Hn & Ha).
  destruct (handle_suspect_ok Q x (pauses i) s HQ Hc Hn Ha Hs) as (s1 & Hrun & Hs1 & Hsus). sstep Hrun.
  destruct (IH Q HQ s1 Hs1) as (s2 & Hrun2 & Hs2 & Hsus2).
  exists s2. split; [exact Hrun2|]. split; [done|]. intros [He|Hin]%elem_of_cons; [|by apply Hsus2].
  destruct (IH good_suspect ltac:(by right) s1 (Hsus (eq_sym He))) as (s2' & Hrun2' & Hs2' & _).
  rewrite Hrun2 in Hrun2'. by injection Hrun2' as <-.
Qed.

(** ** Death *)
Definition gone (x : Uuid) s : Prop :=
  x ≠ me (cn_dm s) ∧ nodes (cn_members s) !! x = None ∧ ∀ dev b, table (cn_dm s) !! dev ≠ Some (b, x).

Lemma dead_loop_ok later (l : list Uuid) s : membership_wf (cn_members s) → serving s →
  NoDup l → (∀ x, x ∈ l → is_Some (nodes (cn_members s) !! x)) →
  ∃ s', sfor l (handle_dead_node later) s = (Ok tt, s') ∧ serving s' ∧
    (∀ x, gone x s → gone x s') ∧ (∀ x, x ∈ l → gone x s').
Proof.
  revert s. induction l as [|x l IH]; intros s Hwf Hserv Hnd Hin; [exists s; split; [done|]; set_solver|].
  cbn [sfor]. apply NoDup_cons in Hnd as [Hfresh Hnd]. destruct (Hin x ltac:(constructor)) as [n Hx].
  destruct (handle_dead_ok later x n s Hwf Hx (proj1 Hserv) (proj2 Hserv))
    as (s1 & Hrun & Hn1 & Hclear & Hinv & _ & Hme & Hl & Hun). sstep Hrun.
  assert (Hserv1 : serving s1) by (split; [|done]; rewrite Hme, Hl; apply Hserv).
  assert (Hwf1 : membership_wf (cn_members s1)).
  { pose proof (wf_delete x _ Hwf) as Hd. unfold membership_wf, m_local_node_id in *. simpl in Hd. by rewrite Hn1, Hl. }
  assert (Hgone : gone x s1).
  { split; [|split; [by rewrite Hn1, lookup_delete_eq|done]]. rewrite Hme, (proj1 Hserv). intros ->.
    by rewrite (proj2 Hwf) in Hx. }
  assert (Hold : ∀ y, gone y s → gone y s1).
  { intros y (Hy & Hny & Hfree). split; [by rewrite Hme|]. split; [rewrite Hn1; apply lookup_delete_None; by right|].
    by apply Hun. }
  destruct (IH s1 Hwf1 Hserv1 Hnd) as (s2 & Hrun2 & Hs2 & Hkeep & Hall).
  { intros y Hy. rewrite Hn1, lookup_delete_ne by (by intros ->). apply Hin. by constructor. }
  exists s2. split; [done|]. split; [done|]. split; [intros y Hy; by apply Hkeep, Hold|].
  intros y [->|Hy]%elem_of_cons; [by apply Hkeep|by apply Hall].
Qed.

Lemma dead_candidates_nodup now m : membership_wf m → NoDup (get_dead_candidates now m).
Proof. apply node_filter_nodup. Qed.

(** C4: A node that falls silent is removed. When nothing has been heard of an active or
    suspect node for longer than both timeouts, the next turn of the failure detector (one
    every ten seconds) returns with that node out of the membership and without a single
    device in the database, and with this node's own set of devices exact: whatever other
    nodes are suspected or dead in the same turn, whatever helper is drawn for the probes,
    whether datagrams are lost, and whatever the other tasks do while the detector waits,
    short of a sign of life of that node. *)
Theorem silent_node_is_removed now pauses later s
    (Hgood : good s) (Hnow : overdue (suspect_timeout cfg + dead_timeout cfg) now)
    (Hpos : 0 <= dead_timeout cfg) (Hlater : now <= later)
    (Hpause : ∀ i, undisturbed (pauses i) ∧ now <= p_now (pauses i) ∧ now <= p_after (pauses i)) :
  ∃ s', detector_tick cfg now pauses later s = (Ok tt, s') ∧
    nodes (cn_members s') !! silent = None ∧ (∀ dev b, table (cn_dm s') !! dev ≠ Some (b, silent)) ∧
    ownership_inv (cn_dm s').
Proof.
  assert (Hover : overdue (suspect_timeout cfg) now) by (unfold overdue in *; lia).
  assert (Hp : ∀ i, undisturbed (pauses i) ∧ overdue (suspect_timeout cfg) (p_now (pauses i)) ∧
    overdue (suspect_timeout cfg) (p_after (pauses i))).
  { intros i. destruct (Hpause i) as (Hc & Hn & Ha). split; [done|]. split; by apply (overdue_later _ now). }
  unfold detector_tick, read_members. rewrite sbind_get. set (suspects := get_suspect_candidates now (cn_members s)).
  assert (Hloop : ∃ s1, sfor (imap pair suspects) (λ q, handle_suspect_node cfg (pauses q.1) q.2) s = (Ok tt, s1) ∧ good_suspect s1).
  { destruct Hgood as [(Hwf & Hcfg & n & Hn & Hl & Hst) Hserv].
    assert (Hg : good s) by (split; [split; [done|]; split; [done|]; by exists n|done]).
    destruct Hst as [Ha|Ha].
    - destruct (suspect_loop_ok (imap pair suspects) pauses good s ltac:(by left) Hg Hp) as (s1 & Hrun & _ & Hsus).
      exists s1. split; [exact Hrun|]. apply Hsus. rewrite fmap_imap.
      assert (Him : imap (λ i, snd ∘ pair i) suspects = suspects) by (clear; induction suspects as [|x l IH]; [done|]; cbn [imap]; f_equal; apply IH).
      rewrite Him. apply elem_of_node_filter; [done|]. exists n. rewrite Hcfg. split; [done|]. split; [done|].
      by apply overdue_silence.
    - assert (Hgs : good_suspect s) by (split; [split; [done|]; split; [done|]; by exists n|done]).
      destruct (suspect_loop_ok (imap pair suspects) pauses good_suspect s ltac:(by right) Hgs Hp) as (s1 & Hrun & Hs1 & _). eauto. }
  destruct Hloop as (s1 & Hrun & [(Hwf1 & Hcfg1 & n1 & Hn1 & Hl1 & Hst1) Hserv1]). sstep Hrun. rewrite sbind_get.
  destruct (dead_loop_ok later (get_dead_candidates later (cn_members s1)) s1 Hwf1 Hserv1) as (s2 & Hrun2 & Hserv2 & _ & Hdead).
  { by apply dead_candidates_nodup. }
  { intros x Hx. apply elem_of_node_filter in Hx as (n & Hn & _); [by eexists|done]. }
  exists s2. split; [exact Hrun2|]. destruct (Hdead silent) as (_ & Hnone & Hfree).
  { apply elem_of_node_filter; [done|]. exists n1. rewrite Hcfg1. split; [done|]. split; [done|].
    apply overdue_silence; [done|]. by apply (overdue_later _ now). }
  split; [done|]. split; [done|]. apply Hserv2.
Qed.
End silence.
