(* ===== verification/ShutdownFacts.v ===== *)
(** * Facts about the shutdown of a node

    The shutdown delegation splits the devices of the node into one chunk per
    active peer; every device goes out in exactly one request. Proved on the
    in-memory engine and a network that takes every datagram that fits. *)

From S2P Require Import Prelude Bytes Net Float32 Node ClusterPayload ClusterPayloadFacts ClusterMessage Database DatabaseFacts Calendar Scheduler DeviceManager DeviceManagerFacts Membership ClusterNode Delegation ClusterFacts.

Local Open Scope Z_scope.
Local Open Scope hes_scope.

(** ** Chunks *)
Lemma chunks_aux_concat {A} fuel n (l : list A) :
  (0 < n)%nat → (length l ≤ fuel)%nat → concat (chunks_aux fuel n l) = l.
Proof.
  intros Hn. revert l. induction fuel as [|f IH]; intros l Hl; [by destruct l; [|simpl in Hl; lia]|].
  destruct l as [|x l]; [done|]. cbn [chunks_aux concat]. rewrite IH, take_drop; [done|].
  rewrite length_drop. simpl in *. lia.
Qed.

Lemma chunks_concat {A} n (l : list A) : (0 < n)%nat → concat (chunks n l) = l.
Proof. intros Hn. by apply chunks_aux_concat. Qed.

Lemma chunks_aux_count {A} fuel n (l : list A) :
  (0 < n)%nat → (n * length (chunks_aux fuel n l) < length l + n)%nat.
Proof.
  intros Hn. revert l. induction fuel as [|f IH]; intros l; [simpl; lia|].
  destruct l as [|x l]; [simpl; lia|]. cbn [chunks_aux length].
  specialize (IH (drop n (x :: l))). rewrite length_drop in IH. simpl length in IH.
  destruct (decide (n ≤ S (length l))%nat); [lia|].
  assert (Hnil : drop n (x :: l) = []) by (apply drop_ge; simpl; lia).
  rewrite Hnil. destruct f; simpl; lia.
Qed.

(** One chunk per target at most. *)
Lemma chunks_per_target {A} (l : list A) t :
  0 < t → l ≠ [] →
  Z.of_nat (length (chunks (Z.to_nat (div_ceil (Z.of_nat (length l)) t)) l)) <= t ∧
  0 < div_ceil (Z.of_nat (length l)) t.
Proof.
  intros Ht Hl. set (n := div_ceil (Z.of_nat (length l)) t).
  assert (0 < Z.of_nat (length l)) by (destruct l; simpl; (done || lia)).
  assert (Hn : 0 < n ∧ Z.of_nat (length l) <= n * t).
  { unfold n, div_ceil. split; [apply Z.div_str_pos; lia|].
    pose proof (Z.mul_succ_div_gt (Z.of_nat (length l) + t - 1) t ltac:(lia)). lia. }
  split; [|lia]. unfold chunks. pose proof (chunks_aux_count (length l) (Z.to_nat n) l ltac:(lia)) as Hc.
  nia.
Qed.

Lemma chunks_aux_part {A} fuel n (l c : list A) :
  (0 < n)%nat → c ∈ chunks_aux fuel n l → c ≠ [] ∧ c `sublist_of` l.
Proof.
  intros Hn. revert l. induction fuel as [|f IH]; intros l Hc; [simpl in Hc; set_solver|].
  destruct l as [|x l]; [simpl in Hc; set_solver|]. cbn [chunks_aux] in Hc.
  apply elem_of_cons in Hc as [->|Hc].
  - split; [by destruct n; [lia|]|apply sublist_take].
  - apply IH in Hc as [Hne Hs]. split; [done|]. etrans; [done|apply sublist_drop].
Qed.

(** ** Sizes *)
Section size.
Context `{BytesCrate}.

Definition short_text (o : option (list Z)) : Prop := ∀ t, o = Some t → (length t ≤ 45)%nat.
Definition short_payload (p : DelegatedDevicePayload) : Prop := short_text (ddp_ipv4 p) ∧ short_text (ddp_ipv6 p).

Lemma length_optional_string o : short_text o → (length (encode_optional_string o) ≤ 48)%nat.
Proof.
  intros Ho. unfold encode_optional_string. destruct o as [t|]; [|rewrite length_put_u8; lia].
  specialize (Ho t eq_refl). rewrite !length_app, length_put_u8, length_put_len. lia.
Qed.

Lemma length_delegate_request now id seq ps reason :
  Forall short_payload ps → (length ps ≤ 540)%nat →
  Z.of_nat (length (codec_encode (delegate_request now id seq (mkDelegateRequest ps reason)))) <= UDP_MAX.
Proof.
  intros Hps Hn. unfold codec_encode. rewrite length_app, length_encode_header. simpl.
  unfold delegate_request_encode. rewrite !length_app, length_put_len, length_put_u8. simpl.
  assert (Hd : (length (concat (delegated_device_encode <$> ps)) ≤ 120 * length ps)%nat).
  { clear Hn. induction Hps as [|p ps [H4 H6] _ IH]; [done|]. rewrite fmap_cons. cbn [concat length].
    rewrite length_app. unfold delegated_device_encode at 1.
    rewrite !length_app, length_put_u128, length_put_i64.
    pose proof (length_optional_string _ H4). pose proof (length_optional_string _ H6). lia. }
  unfold UDP_MAX. lia.
Qed.
End size.

(** ** A request *)
Section request.
Context `{BytesCrate} `{ChronoCrate} `{HashOrder} `{UdpSocket}.
Context {JS DB CS : Type} `{JobCrate JS} `{Engine DB} `{ConfigStore CS}.
Implicit Types (s : ClusterNode JS DB CS).

Definition takes_all : Prop := ∀ n a b, Z.of_nat (length b) <= UDP_MAX → send_to n a b = None.

(** The devices a message asks the receiver to take. *)
Definition requested (m : ClusterMessage) : list DelegatedDevicePayload :=
  match msg_payload m with PDelegateRequest r => drq_devices r | _ => [] end.

Lemma request_ok now local ds reason id n s :
  takes_all → ds ≠ [] → get_node id (cn_members s) = Some n →
  Forall short_payload (delegated_payload <$> ds) → (length ds ≤ 540)%nat →
  ∃ m s', request_delegation now local ds reason (Some id) s = (Ok (dd_device_id <$> ds), s') ∧
    sent s' = sent s ++ [(cluster_addr n, m)] ∧
    m = delegate_request (now_ms now) local (wrap_u32 (seq_counter (cn_members s) + 1)) (mkDelegateRequest (delegated_payload <$> ds) reason) ∧
    cn_dm s' = cn_dm s ∧
    nodes (cn_members s') = nodes (cn_members s) ∧ local_node (cn_members s') = local_node (cn_members s).
Proof.
  intros Hnet Hne Hn Hshort Hlen. unfold request_delegation. rewrite decide_False by done.
  unfold read_members. rewrite sbind_get. unfold delegation_target. rewrite Hn. simpl.
  set (s1 := set_members (next_seq (cn_members s)).2 s).
  unfold sbind at 1. cbn [slift].
  assert (Hseq : take_seq s = (Ok (m_local_node_id (cn_members s), (next_seq (cn_members s)).1), s1)) by done.
  sstep Hseq. unfold sbind, send_message, udp_send. rewrite Hnet.
  - do 2 eexists. split; [reflexivity|]. done.
  - apply length_delegate_request; [done|]. by rewrite length_fmap.
Qed.

End request.

(** ** The hand-over *)
Section shutdown.
Context `{BytesCrate} `{ChronoCrate} `{HashOrder} `{UdpSocket}.
Context {JS CS : Type} `{JobCrate JS} `{ConfigStore CS}.
Implicit Types (s : ClusterNode JS InnerDB CS).

(** Every owned device has a row with addresses of at most 45 characters. *)
Definition known_device s (id : Uuid) : Prop :=
  ∃ d, devices (dm_db (cn_dm s)) !! id = Some d ∧ dev_id d = id ∧ short_text (dev_ipv4 d) ∧ short_text (dev_ipv6 d).

Lemma shutdown_devices_ok now ids s :
  (∀ id, id ∈ ids → known_device s id) →
  ∃ ds, shutdown_devices now ids s = (Ok ds, s) ∧ dd_device_id <$> ds = ids ∧
    Forall short_payload (delegated_payload <$> ds).
Proof.
  unfold shutdown_devices. induction ids as [|id ids IH]; intros Hk; [by exists []|].
  destruct IH as (ds & Hds & Hids & Hshort); [intros x Hx; apply Hk; set_solver|].
  destruct (Hk id ltac:(set_solver)) as (d & Hd & Hid & Hv4 & Hv6).
  assert (Hget : in_cdb (get_device id) s = (Ok d, s)).
  { unfold in_cdb, szoom. simpl. unfold mem_get_device. rewrite Hd. by destruct s as [? [] ? ? ?]. }
  set (r := match scheduled_connections (dm_db (cn_dm s)) !! id with Some c => Ok c | None => Err (ClDatabaseError NoDataFound) end).
  assert (Hconn : sresult (F := ClusterError) (in_cdb (get_scheduled_connection id)) s = (Ok r, s)).
  { unfold sresult, in_cdb, szoom, r. simpl. unfold mem_get_scheduled_connection.
    destruct (scheduled_connections _ !! id); simpl; by destruct s as [? [] ? ? ?]. }
  assert (Hbody : shutdown_device now id s = (Ok (mkDelegated (dev_id d) (dev_ipv4 d) (dev_ipv6 d)
    (match r with Ok c => schedule_time c | _ => now + ns_per_day end)), s)).
  { unfold shutdown_device. sstep Hget. by sstep Hconn. }
  eexists. split.
  - cbn [scollect]. sstep Hbody. by sstep Hds.
  - split; [by rewrite fmap_cons, Hids; simpl; rewrite Hid|]. rewrite fmap_cons. by constructor.
Qed.

(** The targets of the shutdown are active nodes of the list. *)
Lemma target_known m id :
  membership_wf m → id ∈ shutdown_targets m →
  ∃ n, get_node id m = Some n ∧ nodes m !! id = Some n ∧ status n = Active.
Proof.
  intros Hwf Hid. unfold shutdown_targets in Hid.
  assert (Hid' : id ∈ node_id <$> active_nodes m) by (by rewrite <- (sort_by_key_perm device_count)).
  unfold active_nodes in Hid'. apply elem_of_node_filter in Hid' as (n & Hn & Ha); [|done].
  exists n. split; [|split; [done|]].
  - unfold get_node. destruct (Z.eqb_spec id (m_local_node_id m)) as [->|]; [|done].
    by rewrite (proj2 Hwf) in Hn.
  - unfold is_available in Ha. by destruct (status n).
Qed.

Lemma targets_nodup m : membership_wf m → NoDup (shutdown_targets m).
Proof.
  intros Hwf. unfold shutdown_targets. rewrite (sort_by_key_perm device_count). by apply node_filter_nodup.
Qed.

(** A request goes to an active peer of the list. *)
Definition sent_to (m : MembershipList) (n : NodeInfo) (am : SocketAddr * ClusterMessage) : Prop :=
  nodes m !! node_id n = Some n ∧ status n = Active ∧ am.1 = cluster_addr n.

Lemma shutdown_loop now local targets m0 (cs : list (list DelegatedDevice)) k s :
  takes_all → membership_wf m0 → targets = shutdown_targets m0 → targets ≠ [] →
  nodes (cn_members s) = nodes m0 → local_node (cn_members s) = local_node m0 →
  (∀ c, c ∈ cs → c ≠ [] ∧ Forall short_payload (delegated_payload <$> c) ∧ (length c ≤ 540)%nat) →
  ∃ msgs peers s', sfor (imap (λ i c, ((k + i)%nat, c)) cs) (λ p,
      match targets !! (p.1 mod length targets)%nat with
      | None => spanic
      | Some id => do! _ <- request_delegation now local p.2 Shutdown (Some id) ; sret tt
      end) s = (Ok tt, s') ∧
    sent s' = sent s ++ msgs ∧ length msgs = length cs ∧
    concat (requested ∘ snd <$> msgs) = delegated_payload <$> concat cs ∧
    Forall2 (sent_to m0) peers msgs ∧
    (∀ i n, peers !! i = Some n → targets !! ((k + i) mod length targets)%nat = Some (node_id n)).
Proof.
  intros Hnet Hwf -> Hne. revert k s. induction cs as [|c cs IH]; intros k s Hnodes Hlocal Hcs.
  { exists [], [], s. rewrite app_nil_r. by split_and!. }
  rewrite imap_cons. cbn [sfor fst snd].
  destruct (lookup_lt_is_Some_2 (shutdown_targets m0) ((k + 0) mod length (shutdown_targets m0))%nat) as [id Hid].
  { apply Nat.mod_upper_bound. by destruct (shutdown_targets m0). }
  destruct (target_known m0 id Hwf) as (n & Hget & Hn & Ha); [by eapply list_elem_of_lookup_2|].
  assert (Hnid : node_id n = id) by (by apply (proj1 Hwf)).
  destruct (Hcs c ltac:(set_solver)) as (Hc & Hshort & Hlen).
  destruct (request_ok now local c Shutdown id n s Hnet Hc) as (m & s1 & Hreq & Hsent & -> & _ & Hn1 & Hl1); [|done..|].
  { unfold get_node, m_local_node_id in *. by rewrite Hlocal, Hnodes. }
  destruct (IH (S k) s1) as (msgs & peers & s' & Hloop & Hsent' & Hcount & Hall & Hpeers & Hturn).
  { congruence. } { congruence. } { intros x Hx. apply Hcs. set_solver. }
  eexists ((cluster_addr n, _) :: msgs), (n :: peers), s'. split.
  - unfold sbind at 1. rewrite Hid. sstep Hreq. cbn. rewrite <- Hloop. f_equal.
    apply imap_ext. intros i x _. simpl. f_equal. lia.
  - split; [by rewrite Hsent', Hsent, <- (assoc_L (++))|]. split; [simpl; by rewrite Hcount|]. split_and!.
    + rewrite fmap_cons. cbn [concat]. by rewrite fmap_app, <- Hall.
    + constructor; [|done]. unfold sent_to. by rewrite Hnid.
    + intros [|i] n' Hi; simpl in Hi; [injection Hi as <-; by rewrite Hnid|].
      replace (k + S i)%nat with (S k + i)%nat by lia. by apply Hturn.
Qed.

(** When there are no more chunks than targets no target gets two. *)
Lemma turns_distinct {A} (key : A → Uuid) (targets : list Uuid) (peers : list A) :
  NoDup targets → (length peers ≤ length targets)%nat →
  (∀ i n, peers !! i = Some n → targets !! (i mod length targets)%nat = Some (key n)) → NoDup (key <$> peers).
Proof.
  intros Hnd Hlen Hturn. apply NoDup_alt. intros i j x Hi Hj. rewrite !list_lookup_fmap in Hi, Hj.
  destruct (peers !! i) as [a|] eqn:Ea, (peers !! j) as [b|] eqn:Eb; try done. injection Hi as <-. injection Hj as Hab.
  pose proof (lookup_lt_Some _ _ _ Ea). pose proof (lookup_lt_Some _ _ _ Eb).
  apply Hturn in Ea, Eb. rewrite Nat.mod_small in Ea, Eb by lia. rewrite Hab in Eb. by eapply NoDup_lookup.
Qed.

(** C29: A node that shuts down with active peers hands over all its devices: the delegation
    succeeds and sends its requests to different active peers, so that each peer gets at
    most one; together the requests name every device the node owns exactly once. Over the
    in-memory database, for up to 540 devices which all have a row with addresses of at most
    45 characters, so that every request fits a datagram, and a network that takes every
    datagram that fits. *)
Theorem shutdown_offers_every_device now local s
    (Hnet : takes_all) (Hwf : membership_wf (cn_members s))
    (Hpeers : shutdown_targets (cn_members s) ≠ []) (Hsome : owned (cn_dm s) ≠ ∅)
    (Hcount : (size (owned (cn_dm s)) ≤ 540)%nat)
    (Hknown : ∀ id, id ∈ owned (cn_dm s) → known_device s id) :
  ∃ msgs peers s', shutdown_delegation now local s = (Ok tt, s') ∧ sent s' = sent s ++ msgs ∧
    Forall2 (sent_to (cn_members s)) peers msgs ∧ NoDup (node_id <$> peers) ∧
    NoDup (ddp_device_id <$> concat (requested ∘ snd <$> msgs)) ∧
    (∀ id, id ∈ ddp_device_id <$> concat (requested ∘ snd <$> msgs) ↔ id ∈ owned (cn_dm s)).
Proof.
  unfold shutdown_delegation. rewrite sbind_get.
  set (ids := devices_for_shutdown (cn_dm s)). set (targets := shutdown_targets (cn_members s)).
  assert (Hids : ∀ id, id ∈ ids ↔ id ∈ owned (cn_dm s)) by (intros; apply elem_of_set_iter).
  assert (Hlen : length ids = size (owned (cn_dm s))) by apply set_iter_length.
  assert (Hids0 : ids ≠ []).
  { intros Hnil. apply Hsome, set_eq. intros id. rewrite <- Hids, Hnil. set_solver. }
  rewrite decide_False by done.
  destruct (shutdown_devices_ok now ids s) as (ds & Hds & Hdsid & Hshort); [intros id Hid; by apply Hknown, Hids|].
  sstep Hds. unfold read_members. rewrite sbind_get. fold targets. rewrite decide_False by done.
  assert (Hdlen : length ds = length ids) by (by rewrite <- Hdsid, length_fmap).
  assert (Hds0 : ds ≠ []) by (intros ->; by destruct ids).
  set (per := div_ceil (Z.of_nat (length ds)) (Z.of_nat (length targets))).
  destruct (chunks_per_target ds (Z.of_nat (length targets))) as [Hper Hper0]; [|done|].
  { assert (length targets ≠ 0%nat) by (by intros ?%nil_length_inv). lia. }
  fold per in Hper, Hper0.
  destruct (shutdown_loop now local targets (cn_members s) (chunks (Z.to_nat per) ds) 0 s)
    as (msgs & peers & s' & Hloop & Hsent & Hnum & Hall & Hto & Hturn); try done.
  { intros c Hc. apply chunks_aux_part in Hc as [Hc Hsub]; [|lia]. split; [done|]. split.
    - rewrite Forall_fmap, Forall_forall in Hshort |- *. intros d Hd. apply Hshort. by eapply elem_of_sublist.
    - apply sublist_length in Hsub. lia. }
  exists msgs, peers, s'. split; [exact Hloop|]. split; [done|]. split; [done|].
  rewrite Hall, chunks_concat by lia.
  assert (Hfin : ddp_device_id <$> (delegated_payload <$> ds) = ids).
  { rewrite <- list_fmap_compose. by rewrite <- Hdsid. }
  rewrite Hfin. split; [|split; [apply set_iter_NoDup|done]].
  apply (turns_distinct node_id targets); [by apply targets_nodup| |done].
  apply Forall2_length in Hto. lia.
Qed.

(** C39: A delegation of 2519 devices or more to a known node always fails: its request is
    larger than any UDP datagram. Nothing is sent and no device changes hands, so that a
    node with that many devices per peer cannot complete its shutdown. *)
Theorem oversized_delegation_fails now local (ds : list DelegatedDevice) reason (id : Uuid) n s
    (Hn : get_node id (cn_members s) = Some n) (Hlen : (2519 ≤ length ds)%nat) :
  ∃ e s', request_delegation now local ds reason (Some id) s = (Err (CommunicationError e), s') ∧
    sent s' = sent s ∧ cn_dm s' = cn_dm s ∧ nodes (cn_members s') = nodes (cn_members s).
Proof.
  unfold request_delegation. rewrite decide_False by (by intros ->; simpl in Hlen; lia).
  unfold read_members. rewrite sbind_get. unfold delegation_target. rewrite Hn. simpl.
  unfold sbind at 1. cbn [slift].
  set (s1 := set_members (next_seq (cn_members s)).2 s).
  assert (Hseq : take_seq s = (Ok (m_local_node_id (cn_members s), (next_seq (cn_members s)).1), s1)) by done.
  sstep Hseq. unfold sbind, send_message, udp_send.
  destruct (send_to _ _ _) as [e|] eqn:Hsend.
  - by do 2 eexists.
  - exfalso. revert Hsend. apply send_too_large. eapply Z.lt_le_trans; [|apply delegate_request_length].
    simpl. rewrite length_fmap. unfold UDP_MAX. lia.
Qed.
End shutdown.
