(* ===== verification/ClusterExamples.v ===== *)
(** * Particular behaviours of a cluster node, and instances of the theorems

    The overload threshold, the answers to probes, the entries that a
    NODE_JOIN does not refresh, the gauge of active nodes, and concrete
    clusters in which the theorems on cluster nodes are applied. *)

From S2P Require Import Prelude Bytes Net Float32 Node ClusterPayload ClusterMessage Database DatabaseFacts Calendar Scheduler SchedulerFacts DeviceManager DeviceManagerFacts Membership ClusterNode Delegation FailureDetector ClusterServer ClusterManager ClusterFacts DetectorFacts ShutdownFacts.

Local Open Scope Z_scope.
Local Open Scope hes_scope.

(** ** Behaviours *)
Section behaviours.
Context `{BytesCrate} `{ChronoCrate} `{HashOrder} `{UdpSocket}.
Context {JS DB CS : Type} `{JobCrate JS} `{Engine DB} `{ConfigStore CS}.
Implicit Types (s : ClusterNode JS DB CS).

(** The rule of acceptance and its threshold. A delegation because of a shutdown is
    accepted exactly by active nodes; any other exactly by active nodes that are not
    overloaded. With the default capacity of 1000 devices, and the load computed in single
    precision as the code does, a node is overloaded from 900 devices on and not below. *)
Theorem overload_threshold (m : MembershipList) (b d : Z) (reason : DelegationReason)
    (Hmax : max_device_suggested (local_node m) = DEFAULT_MAX_DEVICES) (Hd : 0 <= d <= 2000) :
  can_accept reason (local_node (update_local_stats b d m))
  = bool_decide (status (local_node m) = Active) && (bool_decide (reason = Shutdown) || (d <? 900)).
Proof.
  assert (Hload : ∀ d, 0 <= d <= 2000 →
    f32_ge (f32_mul (f32_div (f32_of_Z d) (f32_of_Z 1000)) f32_100) f32_90 = negb (d <? 900)).
  { intros x Hx. assert (Hall : Forall (λ d, f32_ge (f32_mul (f32_div (f32_of_Z d) (f32_of_Z 1000)) f32_100) f32_90
      = negb (d <? 900)) (seqZ 0 2001)) by (eapply bool_decide_unpack; vm_compute; exact I).
    rewrite Forall_forall in Hall. apply Hall, elem_of_seqZ. lia. }
  unfold can_accept, update_local_stats, is_available. rewrite Hmax. simpl load_percent. simpl status.
  change (0 <? DEFAULT_MAX_DEVICES) with true. cbv iota. unfold DEFAULT_MAX_DEVICES.
  rewrite Hload, negb_involutive by done.
  destruct (status (local_node m)), reason, (d <? 900); reflexivity.
Qed.

(** The effect of the other tasks on the entry of a node while a handler sleeps: none. *)
Definition leaves_entry (p : Pause JS DB CS) (id : Uuid) : Prop :=
  ∀ s, get_node id (cn_members (p_others p s)) = get_node id (cn_members s).

Lemma take_seq_ok s : take_seq s = (Ok (m_local_node_id (cn_members s), wrap_u32 (seq_counter (cn_members s) + 1)),
  set_members (set_seq (wrap_u32 (seq_counter (cn_members s) + 1)) (cn_members s)) s).
Proof. done. Qed.

(** The answer to a probe request does not depend on the ping. The cluster server
    handles a probe request in its receiving loop, so that while it waits no reply can be
    processed and the entry of the probed node stays as it is; whatever answer is sent then
    says "alive" only if a heartbeat of that node had already been received less than
    five seconds before, and a node it does not know is reported as not alive. *)
Theorem probe_answer_ignores_ping (p : Pause JS DB CS) (target : Uuid) (requester : SocketAddr) s s'
    (Hsrv : leaves_entry p target) (Hquiet : ∀ s, sent (p_others p s) = sent s)
    (Hrun : handle_probe_request p target requester s = (Ok tt, s')) :
  ∃ pings answers, sent s' = sent s ++ pings ++ answers ∧
    (∀ a m, (a, m) ∈ pings → msg_type m = StatusRequest) ∧
    ∀ a m, (a, m) ∈ answers → ∃ alive, a = requester ∧ msg_payload m = PProbeResponse (mkProbeResponse target alive) ∧
      (alive = true → ∃ n, get_node target (cn_members s) = Some n ∧
         time_since_heartbeat (p_after p) n < PROBE_FRESH_MS).
Proof.
  unfold handle_probe_request, read_members in Hrun. rewrite sbind_get in Hrun.
  assert (Hanswer : ∀ alive s1, (alive = true → ∃ n, get_node target (cn_members s) = Some n ∧
        time_since_heartbeat (p_after p) n < PROBE_FRESH_MS) →
    (do! (id, seq) <- take_seq ;
     try_send requester (probe_response (now_ms (p_after p)) id seq target alive)) s1 = (Ok tt, s') →
    ∃ answers, sent s' = sent s1 ++ answers ∧ ∀ a m, (a, m) ∈ answers →
      ∃ alive, a = requester ∧ msg_payload m = PProbeResponse (mkProbeResponse target alive) ∧
      (alive = true → ∃ n, get_node target (cn_members s) = Some n ∧
         time_since_heartbeat (p_after p) n < PROBE_FRESH_MS)).
  { intros alive s1 Halive Hs1. rewrite (sbind_ok _ _ _ _ _ (take_seq_ok s1)) in Hs1.
    unfold try_send, sbind, sresult, udp_send, sret in Hs1.
    destruct (send_to _ _ _); simplify_eq; simpl.
    - exists []. rewrite app_nil_r. split; [reflexivity|]. set_solver.
    - eexists. split; [done|]. intros a m Hin. apply list_elem_of_singleton in Hin. simplify_eq. by exists alive. }
  destruct (get_node target (cn_members s)) as [n|] eqn:Hn; simpl in Hrun.
  - apply sbind_inv in Hrun as (alive & s1 & Hping & Hrun).
    rewrite (sbind_ok _ _ _ _ _ (take_seq_ok s)) in Hping. set (s0 := set_members _ s) in Hping.
    unfold sbind at 1, sresult, send_message, udp_send in Hping.
    destruct (send_to _ _ _); simpl in Hping.
    + injection Hping as <- <-. destruct (Hanswer false _ ltac:(done) Hrun) as (answers & Hs & Ha).
      exists [], answers. split; [exact Hs|]. split; [set_solver|done].
    + unfold sleep in Hping. rewrite sbind_mod in Hping. unfold sget in Hping. injection Hping as Halive <-.
      rewrite Hsrv in Halive. unfold get_node in Hn, Halive. simpl in Halive. unfold m_local_node_id in *. simpl in Halive.
      rewrite Hn in Halive.
      assert (Hfresh : alive = true → ∃ n0, Some n = Some n0 ∧ time_since_heartbeat (p_after p) n0 < PROBE_FRESH_MS).
      { intros ->. exists n. split; [done|]. by apply Z.ltb_lt. }
      destruct (Hanswer alive _ Hfresh Hrun) as (answers & Hs & Ha).
      eexists [_], answers. split; [rewrite Hs, Hquiet; simpl; by rewrite <- (assoc_L (++))|]. split; [|done].
      intros a m Hin. apply list_elem_of_singleton in Hin. by simplify_eq.
  - rewrite sbind_ret in Hrun. destruct (Hanswer false _ ltac:(done) Hrun) as (answers & Hs & Ha).
    exists [], answers. split; [exact Hs|]. split; [set_solver|done].
Qed.

(** A NODE_JOIN does not refresh the address of a node already in the list: a node that
    comes back with another cluster address or backdoor port keeps its old ones (its name
    and status change), and so it does when it was first heard of through a heartbeat. *)
Theorem rejoin_keeps_old_address (now : Z) (id : Uuid) (from : SocketAddr) (j : NodeJoinPayload)
    (m : MembershipList) (old : NodeInfo)
    (Hold : nodes m !! id = Some old) (Hid : id ≠ m_local_node_id m) :
  ∃ n, nodes (add_or_update_node now (node_of_join now id from j) m) !! id = Some n ∧
    status n = Starting ∧ node_name n = nj_node_name j ∧ last_heartbeat n = now ∧
    cluster_addr n = cluster_addr old ∧ backdoor_port n = backdoor_port old.
Proof.
  unfold add_or_update_node. simpl node_id. destruct (Z.eqb_spec id (m_local_node_id m)); [done|].
  rewrite Hold. simpl. rewrite lookup_insert_eq. by eexists.
Qed.

(** A heartbeat refreshes exactly the entry of its sender: afterwards the sender is known
    with the advertised status and load and no silence; the other entries, the sequence
    counter and the configuration are unchanged. A heartbeat that carries the receiver's own
    identifier overwrites the receiver's own status and load. *)
Theorem heartbeat_refreshes_sender (now : Z) (id : Uuid) (from : SocketAddr) (h : HeartbeatPayload) s :
  ∃ s', handle_heartbeat now id from (PHeartbeat h) s = (Ok tt, s') ∧
    (∃ n, get_node id (cn_members s') = Some n ∧ status n = hb_status h ∧ device_count n = hb_device_count h ∧
       load_percent n = f32_of_Z (hb_load_percent h) ∧ time_since_heartbeat now n = 0) ∧
    (∀ id', id' ≠ id → nodes (cn_members s') !! id' = nodes (cn_members s) !! id') ∧
    (id ≠ m_local_node_id (cn_members s) → local_node (cn_members s') = local_node (cn_members s)) ∧
    seq_counter (cn_members s') = seq_counter (cn_members s) ∧ m_config (cn_members s') = m_config (cn_members s) ∧
    cn_dm s' = cn_dm s.
Proof.
  assert (Hz : ∀ n, last_heartbeat n = now → time_since_heartbeat now n = 0).
  { intros n Hn. unfold time_since_heartbeat. by rewrite Hn, Z.sub_diag. }
  unfold handle_heartbeat, with_members, smod. eexists. split; [reflexivity|]. simpl.
  set (m := cn_members s).
  unfold get_node, modify_node, add_or_update_node, m_local_node_id. simpl.
  destruct (Z.eqb_spec id (node_id (local_node m))) as [Hl|Hl].
  - simpl. rewrite <- Hl, Z.eqb_refl. split; [|done].
    eexists. split; [done|]. do 3 (split; [done|]). by apply Hz.
  - destruct (nodes m !! id) as [n|] eqn:Hn; simpl.
    + destruct (Z.eqb_spec id (node_id (local_node m))); [done|]. split.
      * eexists. rewrite lookup_alter_eq, Hn. split; [done|]. do 3 (split; [done|]). by apply Hz.
      * split; [|done]. intros id' Hne. by apply lookup_alter_ne.
    + destruct (Z.eqb_spec id (node_id (local_node m))); [done|]. simpl.
      destruct (Z.eqb_spec id (node_id (local_node m))); [done|]. split.
      * eexists. rewrite lookup_insert_eq. split; [done|]. do 3 (split; [done|]). by apply Hz.
      * split; [|done]. intros id' Hne. by apply lookup_insert_ne.
Qed.
End behaviours.

(** ** A cluster of nodes 7, 8 and 9 *)
#[local] Existing Instance gregorian.gregorian.
#[local] Existing Instance big_endian.big_endian.

Local Notation Node := (ClusterNode JobTable InnerDB unit).

Definition cfg7 : ClusterConfig := config_new 7 (str "alpha") (str "10.0.0.7") 6570 6565 48.
Definition peer (id : Uuid) (st : NodeStatus) (heard : Z) : NodeInfo :=
  set_status st (new_local heard id (str "peer") (SockV4 10 0 0 id 6570) 6565).
Definition list7 : MembershipList :=
  mkMembership (set_status Active (new_local 0 7 (str "alpha") (SockV4 10 0 0 7 6570) 6565))
    {[ 8 := peer 8 Active 0; 9 := peer 9 Suspect 0 ]} 0 cfg7 1.

Definition device (id : Uuid) : Device := mkDevice id (Some (str "192.168.0.9")) None None.
(** Node 7 owns devices 1 and 5, node 9 devices 2 and 3, node 8 device 4. *)
Definition shared_db : InnerDB :=
  mkInnerDB {[ 1 := device 1; 5 := device 5 ]} ∅
    {[ 1 := (0, 7); 5 := (1, 7); 2 := (1, 9); 3 := (2, 9); 4 := (0, 8) ]} ∅.
Definition manager (id : Uuid) (own : gset Z) (db : InnerDB) : DmState JobTable InnerDB :=
  mkDmState (set_owned own (device_manager_new id 48 (scheduler_new 48 id false))) db.
Definition alpha : Node := mkClusterNode list7 (manager 7 {[ 1; 5 ]} shared_db) tt [] 0.
Definition beta : Node :=
  mkClusterNode (mkMembership (peer 8 Active 0) {[ 7 := peer 7 Active 0 ]} 0 cfg7 1)
    (manager 8 {[ 4 ]} shared_db) tt [] 0.

Definition no_pause : Pause JobTable InnerDB unit := mkPause 0 0 0 (λ s, s).

(** A decidable closed statement holds by evaluation. *)
Ltac check := apply (bool_decide_unpack _); vm_compute; exact I.

Lemma list7_wf : membership_wf list7.
Proof.
  split; [|reflexivity].
  change (map_Forall (λ id n, node_id n = id) (nodes list7)).
  check.
Qed.

(** The ownership invariant of a concrete node, checked on both sides. *)
Lemma ownership_check (st : DmState JobTable InnerDB) :
  set_Forall (λ id, snd <$> table st !! id = Some (me st)) (owned st) →
  map_Forall (λ id e, e.2 = me st → id ∈ owned st) (table st) → ownership_inv st.
Proof.
  intros Hset Hmap id. split.
  - intros Hid. specialize (Hset id Hid). apply fmap_Some in Hset as ([b n] & Hb & Hn). simpl in Hn.
    exists b. by rewrite Hb, Hn.
  - intros [b Hb]. by apply (Hmap id (b, me st) Hb).
Qed.

Lemma alpha_owns : ownership_inv (cn_dm alpha).
Proof.
  apply ownership_check; check.
Qed.
Lemma beta_owns : ownership_inv (cn_dm beta).
Proof.
  apply ownership_check; check.
Qed.

Lemma membership_stays_well_formed_witness :
  ∃ s0 : Node, cluster_manager_new 0 cfg7 (manager 7 ∅ shared_db) tt = Ok s0 ∧
    let s := (server_step 7 no_pause (SockV4 10 0 0 8 6570) truncated_ack s0).2 in
    membership_wf (cn_members s) ∧ m_local_node_id (cn_members s) = 7.
Proof.
  eexists. split; [vm_compute; reflexivity|].
  eapply (membership_stays_well_formed cfg7 0 (manager 7 ∅ shared_db) tt).
  - vm_compute. reflexivity.
  - eapply rtc_once. apply (step_datagram cfg7 no_pause). by intros s.
Defined.

Lemma detector_candidates_exact_witness :
  (8 ∈ get_suspect_candidates (181000 * ns_per_ms) list7) ∧ (9 ∈ get_dead_candidates (241000 * ns_per_ms) list7).
Proof.
  split.
  - apply (detector_candidates_exact list7 (181000 * ns_per_ms) 8 list7_wf).
    exists (peer 8 Active 0). split; [reflexivity|]. split; vm_compute; reflexivity.
  - apply (detector_candidates_exact list7 (241000 * ns_per_ms) 9 list7_wf).
    exists (peer 9 Suspect 0). split; [reflexivity|]. split; vm_compute; reflexivity.
Defined.

Lemma dead_node_is_replaced_witness :
  ∃ s' : Node, handle_dead_node 0 9 alpha = (Ok tt, s') ∧
    nodes (cn_members s') = delete 9 (nodes list7) ∧ (∀ dev b, table (cn_dm s') !! dev ≠ Some (b, 9)) ∧
    ownership_inv (cn_dm s') ∧ device_count (local_node (cn_members s')) = wrap_u32 (owned_count (cn_dm s')).
Proof.
  apply (dead_node_is_replaced 0 9 (peer 9 Suspect 0) alpha).
  - exact list7_wf.
  - reflexivity.
  - reflexivity.
  - exact alpha_owns.
Defined.

(** Nodes 8 and 9 have been silent for 241 seconds. *)
Lemma silent_node_is_removed_witness :
  let now := 241000 * ns_per_ms in
  ∃ s' : Node, detector_tick cfg7 now (λ _, mkPause now now 0 (λ s, s)) now alpha = (Ok tt, s') ∧
    nodes (cn_members s') !! 8 = None ∧ (∀ dev b, table (cn_dm s') !! dev ≠ Some (b, 8)) ∧ ownership_inv (cn_dm s').
Proof.
  intros now. apply (silent_node_is_removed cfg7 8 0 now (λ _, mkPause now now 0 (λ s, s)) now alpha).
  - split; [|split; [reflexivity|exact alpha_owns]]. split; [exact list7_wf|]. split; [reflexivity|].
    exists (peer 8 Active 0). split; [reflexivity|]. split; [reflexivity|]. by left.
  - vm_compute. reflexivity.
  - vm_compute. discriminate.
  - reflexivity.
  - intros i. split; [split; done|]. split; reflexivity.
Defined.

Lemma delegation_never_fills_node_witness :
  let requests := replicate 3 (0, SockV4 10 0 0 7 6570,
    mkDelegateRequest [delegated_payload (mkDelegated 5 None None 0)] Rebalance) in
  can_accept Rebalance (local_node (cn_members (handle_requests 8 requests beta))) = true ∧
  5 ∈ owned (cn_dm (handle_requests 8 requests beta)).
Proof.
  intros requests. destruct (delegation_never_fills_node requests 8 beta Rebalance) as [Hc Hin].
  - exact job_table_accepts.
  - intros q [-> _]%elem_of_replicate. vm_compute. reflexivity.
  - split; [rewrite Hc; vm_compute; reflexivity|]. 
    apply (Hin (0, SockV4 10 0 0 7 6570, mkDelegateRequest [delegated_payload (mkDelegated 5 None None 0)] Rebalance)
      (delegated_payload (mkDelegated 5 None None 0))); set_solver.
Defined.

Lemma shutdown_offers_every_device_witness :
  ∃ msgs (s' : Node), shutdown_delegation 0 7 alpha = (Ok tt, s') ∧ sent s' = sent alpha ++ msgs ∧
    (∀ id, id ∈ ddp_device_id <$> concat (requested ∘ snd <$> msgs) ↔ id ∈ owned (cn_dm alpha)).
Proof.
  destruct (shutdown_offers_every_device 0 7 alpha) as (msgs & peers & s' & Hrun & Hsent & _ & _ & _ & Hids).
  - intros n a b Hb. simpl. destruct (Z.ltb_spec UDP_MAX (Z.of_nat (length b))); [lia|done].
  - exact list7_wf.
  - vm_compute. discriminate.
  - intros He. assert (1 ∈ owned (cn_dm alpha)) by (apply (bool_decide_unpack _); vm_compute; exact I). set_solver.
  - vm_compute. lia.
  - intros id Hid. exists (device id). assert (Hc : id = 1 ∨ id = 5) by (unfold owned, alpha in Hid; simpl in Hid; set_solver).
    destruct Hc as [->| ->]; (split; [reflexivity|]; split; [done|]; split; [intros t [= <-]; simpl; lia|done]).
  - exists msgs, s'. done.
Defined.

Lemma oversized_delegation_fails_witness :
  let ds := replicate 2519 (mkDelegated 5 None None 0) in
  ∃ e (s' : Node), request_delegation 0 7 ds Shutdown (Some 8) alpha = (Err (CommunicationError e), s') ∧
    sent s' = sent alpha ∧ cn_dm s' = cn_dm alpha ∧ nodes (cn_members s') = nodes list7.
Proof.
  intros ds. apply (oversized_delegation_fails 0 7 ds Shutdown 8 (peer 8 Active 0) alpha).
  - reflexivity.
  - unfold ds. rewrite length_replicate. lia.
Defined.

Lemma overload_threshold_witness :
  can_accept Rebalance (local_node (update_local_stats 48 899 list7)) = true ∧
  can_accept Rebalance (local_node (update_local_stats 48 900 list7)) = false ∧
  can_accept Shutdown (local_node (update_local_stats 48 900 list7)) = true.
Proof.
  split; [|split].
  - rewrite (overload_threshold list7 48 899 Rebalance); [reflexivity|reflexivity|lia].
  - rewrite (overload_threshold list7 48 900 Rebalance); [reflexivity|reflexivity|lia].
  - rewrite (overload_threshold list7 48 900 Shutdown); [reflexivity|reflexivity|lia].
Defined.

(** Node 8 is alive and answers the ping, but its last heartbeat is six seconds old. *)
Lemma probe_answer_ignores_ping_witness :
  let p := mkPause (4000 * ns_per_ms) (6000 * ns_per_ms) 0 (λ s : Node, s) in
  ∃ pings answers, sent (handle_probe_request p 8 (SockV4 10 0 0 9 6570) alpha).2 = sent alpha ++ pings ++ answers ∧
    (∀ a m, (a, m) ∈ pings → msg_type m = StatusRequest) ∧
    ∀ a m, (a, m) ∈ answers → ∃ alive, a = SockV4 10 0 0 9 6570 ∧
      msg_payload m = PProbeResponse (mkProbeResponse 8 alive) ∧
      (alive = true → ∃ n, get_node 8 list7 = Some n ∧ time_since_heartbeat (p_after p) n < PROBE_FRESH_MS).
Proof.
  intros p. apply (probe_answer_ignores_ping p 8 (SockV4 10 0 0 9 6570) alpha).
  - done.
  - done.
  - vm_compute. reflexivity.
Defined.

Lemma rejoin_keeps_old_address_witness :
  ∃ n, nodes (add_or_update_node 5 (node_of_join 5 8 (SockV4 10 0 0 80 1) (mkNodeJoin (str "beta") (SockV4 10 0 0 80 7000) 7001)) list7) !! 8 = Some n ∧
    status n = Starting ∧ node_name n = str "beta" ∧ last_heartbeat n = 5 ∧
    cluster_addr n = SockV4 10 0 0 8 6570 ∧ backdoor_port n = 6565.
Proof.
  apply (rejoin_keeps_old_address 5 8 (SockV4 10 0 0 80 1) (mkNodeJoin (str "beta") (SockV4 10 0 0 80 7000) 7001) list7 (peer 8 Active 0)).
  - reflexivity.
  - vm_compute. discriminate.
Defined.

(** The gauge of active nodes goes stale: from a state in which it shows the number of
    active nodes, a heartbeat that announces that an active node is draining leaves it
    where it was. *)
Theorem heartbeat_leaves_gauge_stale :
  ∃ (s : Node) h, gauge_exact (cn_members s) ∧
    ¬ gauge_exact (cn_members (handle_heartbeat 0 8 (SockV4 10 0 0 8 6570) (PHeartbeat h) s).2).
Proof.
  exists alpha, (mkHeartbeat Draining 48 1 0 1000 []). split; [reflexivity|]. vm_compute. discriminate.
Qed.
