(* ===== verification/Handover.v ===== *)
(** * The hand-over of devices between two nodes

    A delegation from the request to the answer, as the two nodes see it: the
    giver sends its request, the server of the taker handles the datagram and
    sends its answer, the server of the giver handles that datagram. Both work
    on one database. *)

From S2P Require Import Prelude Bytes Net Float32 Node ClusterPayload ClusterPayloadFacts ClusterMessage Database DatabaseFacts Calendar Scheduler SchedulerFacts DeviceManager DeviceManagerFacts Membership ClusterNode Delegation FailureDetector ClusterServer ClusterFacts ShutdownFacts ClusterExamples.

Local Open Scope Z_scope.
Local Open Scope hes_scope.

Section handover.
Context `{BytesCrate} `{ChronoCrate} `{HashOrder} `{UdpSocket}.
Context {JS DB CS : Type} `{JobCrate JS} `{OwnershipEngine DB} `{ConfigStore CS}.
Implicit Types (giver taker s : ClusterNode JS DB CS).

(** [s] after another node has written to the shared database. *)
Definition sharing (db : DB) s : ClusterNode JS DB CS := set_cn_dm (set_dm_db db (cn_dm s)) s.

Lemma wrap_u32_wf z : u32_wf (wrap_u32 z).
Proof. apply Z.mod_pos_bound. lia. Qed.

(** A message that a node makes survives the network. *)
Lemma new_message_decodes now id z t p :
  uuid_wf id → payload_matches t p = true → payload_wf p →
  codec_decode (codec_encode (message_new now id (wrap_u32 z) t p)) = Ok (Some (message_new now id (wrap_u32 z) t p), []).
Proof.
  intros Hid Hm Hp. rewrite <- (app_nil_r (codec_encode _)). apply codec_decode_encode.
  split; [done|]. split; [done|]. split; [apply wrap_u32_wf|]. split; [|done]. apply Z.mod_pos_bound. lia.
Qed.

Lemma server_step_ok local (p : Pause JS DB CS) from datagram msg s s' r :
  codec_decode datagram = Ok (Some msg, []) → handle_message local p from msg s = (Ok r, s') →
  server_step local p from datagram s = (Ok tt, s').
Proof. intros Hd Hh. unfold server_step. rewrite Hd. unfold sbind, sresult. by rewrite Hh. Qed.

Lemma length_delegate_accept now id seq ids :
  (length ids ≤ 540)%nat →
  Z.of_nat (length (codec_encode (delegate_accept now id seq (mkDelegateAccept ids)))) <= UDP_MAX.
Proof.
  intros Hn. unfold codec_encode. rewrite length_app, length_encode_header. simpl.
  unfold delegate_accept_encode. rewrite !length_app, length_put_len, length_concat_u128. unfold UDP_MAX. simpl. lia.
Qed.

(** ** The taker *)
Section exchange.
Variables (devices : list DelegatedDevice) (reason : DelegationReason).
Let ids := dd_device_id <$> devices.
Hypothesis Hnet : takes_all.
Hypothesis Hacc : accepts_jobs (JS := JS).
Hypothesis Hwf : Forall delegated_device_wf (delegated_payload <$> devices).
Hypothesis Hshort : Forall short_payload (delegated_payload <$> devices).
Hypothesis Hlen : (length devices ≤ 540)%nat.

Lemma ids_wf : delegate_accept_wf (mkDelegateAccept ids).
Proof.
  split; cbn [dac_accepted_device_ids].
  - apply Forall_forall. intros i (d & -> & Hd)%list_elem_of_fmap.
    apply (proj1 (Forall_forall _ _) Hwf (delegated_payload d)), list_elem_of_fmap. by exists d.
  - unfold len16, ids. rewrite length_fmap. lia.
Qed.

Lemma request_decodes now id z :
  uuid_wf id →
  let m := delegate_request now id (wrap_u32 z) (mkDelegateRequest (delegated_payload <$> devices) reason) in
  codec_decode (codec_encode m) = Ok (Some m, []).
Proof.
  intros Hid m. apply new_message_decodes; [done|done|]. split; [done|]. unfold len16. cbn [drq_devices].
  rewrite length_fmap. lia.
Qed.

Lemma taker_accepts now id z (p : Pause JS DB CS) from taker :
  uuid_wf id → can_accept reason (local_node (cn_members taker)) = true →
  ∃ answer taker',
    server_step (me (cn_dm taker)) p from
      (codec_encode (delegate_request now id (wrap_u32 z) (mkDelegateRequest (delegated_payload <$> devices) reason))) taker
    = (Ok tt, taker') ∧
    sent taker' = sent taker ++ [(from, answer)] ∧
    (∃ t z', answer = delegate_accept t (me (cn_dm taker)) (wrap_u32 z') (mkDelegateAccept ids)) ∧
    accept_delegation (delegated_of_payload <$> (delegated_payload <$> devices)) (cn_dm taker) = (Ok ids, cn_dm taker').
Proof.
  intros Hid Hcan. set (q := mkDelegateRequest (delegated_payload <$> devices) reason).
  destruct (accept_request_ok (p_now p) (me (cn_dm taker)) from q taker Hacc Hcan) as (r & taker' & Hreq & Hrun & _ & Hsent).
  assert (Hids : dd_device_id <$> (delegated_of_payload <$> drq_devices q) = ids) by (simpl; by rewrite <- !list_fmap_compose).
  assert (Hr : r = Ok tt).
  { revert Hreq. unfold handle_delegation_request, read_members. rewrite sbind_get.
    change (drq_reason q) with reason. rewrite Hcan. set (s1 := set_members (next_seq (cn_members taker)).2 taker).
    assert (Hseq : take_seq taker = (Ok (m_local_node_id (cn_members taker), (next_seq (cn_members taker)).1), s1)) by done.
    sstep Hseq. cbn [negb]. sstep (in_dm_ok (accept_delegation (delegated_of_payload <$> drq_devices q)) s1 _ _ Hrun).
    rewrite Hids. unfold send_message, udp_send. rewrite Hnet; [by intros [= <- _]|].
    apply length_delegate_accept. unfold ids. by rewrite length_fmap. }
  rewrite Hids in Hrun, Hsent. exists (delegate_accept (now_ms (p_now p)) (me (cn_dm taker)) (wrap_u32 (seq_counter (cn_members taker) + 1)) (mkDelegateAccept ids)), taker'.
  split; [|split; [by apply Hsent|split; [by do 2 eexists|exact Hrun]]].
  eapply (server_step_ok _ _ _ _ _ _ _ tt); [by apply request_decodes|]. change (handle_delegation_request (p_now p) (me (cn_dm taker)) from q taker = (Ok tt, taker')).
  by rewrite Hreq, Hr.
Qed.

(** ** The giver *)
Lemma giver_releases t id z (q : Pause JS DB CS) from giver :
  uuid_wf id → ∃ giver',
    server_step (me (cn_dm giver)) q from (codec_encode (delegate_accept t id (wrap_u32 z) (mkDelegateAccept ids))) giver = (Ok tt, giver') ∧
    dm_db (cn_dm giver') = dm_db (cn_dm giver) ∧ me (cn_dm giver') = me (cn_dm giver) ∧
    owned (cn_dm giver') = owned (cn_dm giver) ∖ list_to_set ids.
Proof.
  intros Hid. destruct (release_ok ids (cn_dm giver)) as (g2 & Hrel & Hdb2 & Hm2 & Ho2 & _).
  destruct (unschedule_ok ids g2) as (g3 & Huns & Hdb3 & Hm3 & Ho3 & _).
  exists (set_cn_dm g3 (set_cn_dm g2 giver)). split.
  - eapply (server_step_ok _ _ _ _ _ _ _ tt); [apply new_message_decodes; [done|done|exact ids_wf]|].
    change (handle_delegation_accept (mkDelegateAccept ids) giver = (Ok tt, set_cn_dm g3 (set_cn_dm g2 giver))).
    unfold handle_delegation_accept. sstep (in_dm_ok _ _ _ _ Hrel). by apply in_dm_ok.
  - cbn [set_cn_dm cn_dm]. by rewrite Hdb3, Hm3, Ho3.
Qed.
End exchange.

(** C11: Delegation moves devices without losing or doubling any. The giver asks a peer that
    can accept for devices it owns; the datagram it sends is handled by the server of the
    peer, and the datagram the peer answers with by the server of the giver. All three
    steps succeed, and then, in the shared database, every row of a handed-over device
    names the taker and keeps its bucket, and every other row is as before; the sets of both
    nodes are exact; the devices are in the set of the taker and not in that of the giver;
    and the taker has a wake-up job for each at its original time, to the second. (Up to 540
    devices with addresses of at most 45 characters, so that the request fits a datagram,
    a network that takes every datagram that fits, and a database that answers.) *)
Theorem delegation_hands_over now reason (devices : list DelegatedDevice) giver taker n (p q : Pause JS DB CS) from
    (Hnet : takes_all) (Hacc : accepts_jobs (JS := JS))
    (Hsome : devices ≠ []) (Hlen : (length devices ≤ 540)%nat)
    (Hwf : Forall delegated_device_wf (delegated_payload <$> devices))
    (Hshort : Forall short_payload (delegated_payload <$> devices))
    (Htime : ∀ d, d ∈ devices → day_ok (timestamp_of_datetime (dd_schedule_time d) / secs_per_day))
    (Hids : uuid_wf (me (cn_dm giver)) ∧ uuid_wf (me (cn_dm taker)))
    (Hpeer : get_node (me (cn_dm taker)) (cn_members giver) = Some n)
    (Hcan : can_accept reason (local_node (cn_members taker)) = true)
    (Hne : me (cn_dm taker) ≠ me (cn_dm giver)) (Hdb : dm_db (cn_dm giver) = dm_db (cn_dm taker))
    (Hown : ∀ d, d ∈ devices → dd_device_id d ∈ owned (cn_dm giver))
    (Hgiver : ownership_inv (cn_dm giver)) (Htaker : ownership_inv (cn_dm taker)) :
  ∃ request giver1 answer taker' giver',
    request_delegation now (me (cn_dm giver)) devices reason (Some (me (cn_dm taker))) giver
      = (Ok (dd_device_id <$> devices), giver1) ∧
    sent giver1 = sent giver ++ [(cluster_addr n, request)] ∧
    server_step (me (cn_dm taker)) p from (codec_encode request) taker = (Ok tt, taker') ∧
    sent taker' = sent taker ++ [(from, answer)] ∧
    server_step (me (cn_dm giver)) q (cluster_addr n) (codec_encode answer) (sharing (dm_db (cn_dm taker')) giver1) = (Ok tt, giver') ∧
    (∀ id, table (cn_dm giver') !! id = if decide (id ∈ dd_device_id <$> devices)
       then (λ e, (e.1, me (cn_dm taker))) <$> table (cn_dm giver) !! id else table (cn_dm giver) !! id) ∧
    dm_db (cn_dm giver') = dm_db (cn_dm taker') ∧
    ownership_inv (cn_dm giver') ∧ ownership_inv (cn_dm taker') ∧
    (∀ d, d ∈ devices → dd_device_id d ∉ owned (cn_dm giver') ∧ dd_device_id d ∈ owned (cn_dm taker') ∧
       ∃ j, dm_jobs (cn_dm taker') !! j = Some (mkJob (timestamp_of_datetime (dd_schedule_time d) * ns_per_s)
              (dd_device_id d) (reschedule_tx (dm_scheduler (dm (cn_dm taker)))))).
Proof.
  destruct (request_ok now (me (cn_dm giver)) devices reason _ n giver Hnet Hsome Hpeer Hshort Hlen)
    as (request & giver1 & Hreq & Hsent & -> & Hdm1 & _). destruct Hids as [Hid1 Hid2].
  destruct (taker_accepts devices reason Hnet Hacc Hwf Hlen (now_ms now) (me (cn_dm giver)) (seq_counter (cn_members giver) + 1)
    p from taker Hid1 Hcan) as (answer & taker' & Hstep & Hsent' & (t & z & ->) & Hrun).
  destruct (giver_releases devices Hwf Hlen t (me (cn_dm taker)) z q (cluster_addr n) (sharing (dm_db (cn_dm taker')) giver1) Hid2)
    as (giver' & Hrel & Hdb' & Hme' & Ho').
  cbn [sharing set_cn_dm cn_dm set_dm_db dm_db] in Hrel, Hdb', Hme', Ho'.
  change (me (set_dm_db ?d ?x)) with (me x) in Hrel, Hme'. change (owned (set_dm_db ?d ?x)) with (owned x) in Ho'. rewrite Hdm1 in Hrel, Hme', Ho'.
  set (accepted := delegated_of_payload <$> (delegated_payload <$> devices)) in Hrun.
  assert (Hacceptids : dd_device_id <$> accepted = dd_device_id <$> devices) by (unfold accepted; by rewrite <- !list_fmap_compose).
  destruct (accept_ok accepted (cn_dm taker) Hacc) as (st' & Hst & _ & Hot & Htt & _ & Hjobs).
  rewrite Hrun in Hst. injection Hst as _ <-. rewrite Hacceptids in Hot, Htt.
  assert (Htab : ∀ x, table (cn_dm giver') !! x = table (cn_dm taker') !! x) by (intros x; unfold table; by rewrite Hdb').
  assert (Hsame : table (cn_dm giver) = table (cn_dm taker)) by (unfold table; by rewrite Hdb).
  assert (Hinv' : ownership_inv (cn_dm taker')).
  { pose proof (accept_inv accepted (cn_dm taker) Htaker) as Hi. rewrite Hrun in Hi. apply Hi. unfold accepted.
    intros d (x & -> & (y & -> & Hy)%list_elem_of_fmap)%list_elem_of_fmap. simpl. apply elem_of_dom.
    destruct (proj1 (Hgiver _) (Hown y Hy)) as [b Hb]. rewrite Hsame in Hb. by eexists. }
  do 5 eexists. split; [exact Hreq|]. split; [exact Hsent|]. split; [exact Hstep|]. split; [exact Hsent'|]. split; [exact Hrel|].
  split; [intros id; by rewrite Htab, Htt, Hsame|]. split; [done|]. split; [|split; [done|]].
  - intros id. rewrite Ho', Hme', Htab, Htt. specialize (Hgiver id). rewrite Hsame in Hgiver. case_decide as Hin.
    + split; [rewrite elem_of_difference, elem_of_list_to_set; by intros [_ ?]|].
      intros [b (e & _ & [= _ Heq])%fmap_Some]. by rewrite Heq in Hne.
    + rewrite elem_of_difference, elem_of_list_to_set, Hgiver. tauto.
  - intros d Hd. assert (Hin : dd_device_id d ∈ dd_device_id <$> devices) by (apply list_elem_of_fmap; by exists d).
    split; [rewrite Ho', elem_of_difference, elem_of_list_to_set; by intros [_ ?]|].
    split; [rewrite Hot; by apply elem_of_union_l, elem_of_list_to_set|].
    destruct (Hjobs (delegated_of_payload (delegated_payload d))) as [j Hj].
    { unfold accepted. apply list_elem_of_fmap. eexists. split; [done|]. apply list_elem_of_fmap. by exists d. }
    exists j. rewrite Hj. simpl. unfold datetime_of_timestamp.
    rewrite from_timestamp_ok by (auto || (unfold ns_per_s; lia)). simpl. by rewrite Z.add_0_r.
Qed.
End handover.

#[local] Existing Instance gregorian.gregorian.
#[local] Existing Instance big_endian.big_endian.

(** Node 7 hands device 5 over to node 8. *)
Lemma delegation_hands_over_witness :
  let d := mkDelegated 5 None None (86400 * ns_per_s) in
  ∃ request giver1 answer taker' giver',
    request_delegation 0 7 [d] Rebalance (Some 8) alpha = (Ok [5], giver1) ∧
    sent giver1 = [(SockV4 10 0 0 8 6570, request)] ∧
    server_step 8 no_pause (SockV4 10 0 0 7 6570) (codec_encode request) beta = (Ok tt, taker') ∧
    sent taker' = [(SockV4 10 0 0 7 6570, answer)] ∧
    server_step 7 no_pause (SockV4 10 0 0 8 6570) (codec_encode answer) (sharing (dm_db (cn_dm taker')) giver1) = (Ok tt, giver') ∧
    table (cn_dm giver') !! 5 = Some (1, 8) ∧ 5 ∉ owned (cn_dm giver') ∧ 5 ∈ owned (cn_dm taker') ∧
    ownership_inv (cn_dm giver') ∧ ownership_inv (cn_dm taker').
Proof.
  intros d.
  destruct (delegation_hands_over 0 Rebalance [d] alpha beta (peer 8 Active 0) no_pause no_pause (SockV4 10 0 0 7 6570))
    as (request & giver1 & answer & taker' & giver' & Hreq & Hs1 & Hst & Hs2 & Hrel & Htab & _ & Hi1 & Hi2 & Hd).
  - intros n a b Hb. simpl. destruct (Z.ltb_spec UDP_MAX (Z.of_nat (length b))); [lia|done].
  - exact job_table_accepts.
  - done.
  - simpl. lia.
  - apply Forall_singleton. split; [done|]. split; [done|]. split; [done|]. vm_compute. by split.
  - apply Forall_singleton. split; intros t [=].
  - intros x ->%list_elem_of_singleton. unfold day_ok. vm_compute. split; [discriminate|reflexivity].
  - split; vm_compute; by split.
  - reflexivity.
  - reflexivity.
  - done.
  - reflexivity.
  - intros x ->%list_elem_of_singleton. check.
  - exact alpha_owns.
  - exact beta_owns.
  - exists request, giver1, answer, taker', giver'. do 5 (split; [done|]).
    split; [rewrite Htab; reflexivity|].
    destruct (Hd d) as (Hn & Hy & _); [by apply list_elem_of_singleton|]. done.
Defined.
