(* ===== verification/RpcFacts.v ===== *)
(** * Facts about the admin console

    Every line of a client gets one well-formed response; what a delegation
    request may hand out; the errors of [device.info]; and a delegation to
    oneself. *)

From S2P Require Import Prelude Bytes Net Float32 Node ClusterPayload ClusterMessage Database DatabaseFacts Calendar Scheduler SchedulerFacts DeviceManager DeviceManagerFacts Membership ClusterNode Delegation ClusterServer ClusterFacts Config ConfigFacts Rpc.

Local Open Scope Z_scope.
Local Open Scope hes_scope.

(** ** Every request is answered *)
Section answers.
Context `{RpcText} `{UuidCrate} `{BytesCrate} `{ChronoCrate} `{HashOrder} `{UdpSocket}.
Context {JS DB CS : Type} `{JobCrate JS} `{Engine DB} `{ConfigStore CS}.
Implicit Types (st : RpcState JS DB CS).

(** The parsers, the queries and the store answer, in one way or another. *)
Record services_answer : Prop := {
  sa_uuid s : uuid_parse s ≠ Panic;
  sa_request s : request_from_str s ≠ Panic;
  sa_device id : never_panics (get_device (DB := DB) id);
  sa_connection id : never_panics (get_scheduled_connection (DB := DB) id);
  sa_upcoming l o d : never_panics (get_upcoming_connections (DB := DB) l o d);
  sa_history l o d : never_panics (get_connection_history (DB := DB) l o d);
  sa_all : never_panics (get_all_config (CS := CS));
  sa_get k : never_panics (get_config_value (CS := CS) k);
  sa_set k v : never_panics (set_config_value (CS := CS) k v)
}.
Hypothesis services : services_answer.

Lemma np_parse s : uuid_parse s ≠ Panic.
Proof. apply services. Qed.
Lemma np_udp target msg : never_panics (udp_send (JS := JS) (DB := DB) (CS := CS) target msg).
Proof. intros s. unfold udp_send. by destruct (send_to _ _ _). Qed.
Lemma np_seq : never_panics (take_seq (JS := JS) (DB := DB) (CS := CS)).
Proof. done. Qed.
Lemma np_peers peers msg n : never_panics (notify_peers (JS := JS) (DB := DB) (CS := CS) peers msg n).
Proof.
  revert n. induction peers as [|p peers IH]; intros n; cbn [notify_peers]; [apply np_ret|].
  apply np_bind; [apply np_result, np_udp|done].
Qed.
Lemma np_broadcast_config now u id k v :
  never_panics (broadcast_config_update (JS := JS) (DB := DB) (CS := CS) now u id k v).
Proof. unfold broadcast_config_update. apply np_bind; [apply np_get|]. intros. case_decide; [apply np_ret|apply np_peers]. Qed.
Lemma np_delegation now local devices reason target :
  never_panics (request_delegation (JS := JS) (DB := DB) (CS := CS) now local devices reason target).
Proof.
  assert (Ht : ∀ t m, delegation_target t m ≠ Panic).
  { intros t m. unfold delegation_target. destruct t; (apply obind_no_panic; [apply ok_or_no_panic|done]). }
  intros s. unfold request_delegation. case_decide; [done|]. unfold read_members. rewrite sbind_get.
  apply np_bind; [apply np_lift, Ht|]. intros [? addr]. apply np_bind; [apply np_seq|]. intros [? seq].
  apply np_bind; [apply np_udp|done].
Qed.

Lemma np_value key : never_panics (config_value (JS := JS) (DB := DB) (CS := CS) key).
Proof. unfold config_value, rpc_in_config. pose proof (sa_get services key). auto with np. Qed.
Lemma np_reload key value : never_panics (apply_hot_reload (JS := JS) (DB := DB) (CS := CS) key value).
Proof.
  unfold apply_hot_reload. repeat case_decide; auto using np_value with np.
  all: apply np_bind; [apply np_get|]; intros [h|]; unfold in_node, with_members; auto with np.
Qed.
Lemma np_ids l : parse_ids l ≠ Panic.
Proof.
  induction l as [|v l IH]; cbn [parse_ids]; [done|].
  apply obind_no_panic; [apply ok_or_no_panic|]. intros s. apply obind_no_panic; [apply omap_err_no_panic, np_parse|].
  intros. by apply obind_no_panic.
Qed.
Lemma np_resolve params owned : resolve_device_ids params owned ≠ Panic.
Proof.
  unfold resolve_device_ids. repeat case_match; try done;
    (apply obind_no_panic; [apply np_ids || apply omap_err_no_panic, np_parse|]; intros; first [done | case_decide; done]).
Qed.

Lemma run_method_np t m params : never_panics (run_method (JS := JS) (DB := DB) (CS := CS) t m params).
Proof.
  pose proof (sa_device services). pose proof (sa_connection services). pose proof (sa_upcoming services).
  pose proof (sa_history services). pose proof (sa_all services). pose proof (sa_get services). pose proof (sa_set services).
  pose proof np_value. pose proof np_reload. pose proof np_parse. pose proof np_resolve.
  destruct m; cbn [run_method].
  - unfold system_version. auto with np.
  - unfold config_list, rpc_in_config. auto with np.
  - unfold config_get, or_error, rpc_in_config. apply np_bind; [auto with np|]. intros. apply np_bind; [auto with np|]. intros []; auto with np.
  - unfold config_set, or_error, rpc_in_config. auto 10 with np.
  - unfold config_propagate, or_error, rpc_in_config, in_node. repeat (apply np_bind; [solve [auto with np]|]; intros).
    apply np_bind; [|auto with np]. case_match; [|auto with np].
    apply np_bind; [apply np_result, np_zoom, np_broadcast_config|auto with np].
  - unfold device_list, read_node. auto with np.
  - unfold device_info, or_error, rpc_in_db. auto 10 with np.
  - unfold device_delegate, need_cluster, read_node, in_node.
    apply np_bind; [intros s; apply ok_or_no_panic|]. intros h.
    apply np_bind. { unfold delegate_target, read_node. case_match; [|auto with np].
      apply np_bind; [auto with np|]. intros. apply np_bind; [auto with np|]. intros []; auto with np. }
    intros. apply np_bind; [auto with np|]. intros. apply np_bind; [auto with np|]. intros.
    apply np_bind. { apply np_for. intros. unfold check_owned, read_node. apply np_bind; [auto with np|]. intros []; auto with np. }
    intros. apply np_bind. { apply np_collect. intros. unfold delegated_from_db, rpc_in_db. auto 10 with np. }
    intros. apply np_bind; [apply np_zoom, np_delegation|auto with np].
  - unfold cluster_peers, need_cluster, read_node. apply np_bind; [intros s; apply ok_or_no_panic|]. auto with np.
  - unfold cluster_status, need_cluster, read_node. apply np_bind; [intros s; apply ok_or_no_panic|]. auto with np.
  - unfold cluster_join, need_cluster, or_error, in_node, rpc_in_config. apply np_bind; [intros s; apply ok_or_no_panic|].
    intros. do 2 (apply np_bind; [auto with np|]; intros). apply np_bind.
    { apply np_zoom. unfold send_join_to_peer, read_members, send_message. apply np_bind; [apply np_seq|]. intros [].
      apply np_bind; [auto with np|]. intros. apply np_udp. }
    auto 10 with np.
  - unfold scheduler_upcoming, rpc_in_db. destruct (page_params params) as [[? ?] ?]. auto with np.
  - unfold scheduler_history, rpc_in_db. destruct (page_params params) as [[? ?] ?]. auto with np.
Qed.

(** A response with exactly one of a result and an error. *)
Definition response_ok (r : JsonRpcResponse) (id : Value) : Prop :=
  rs_jsonrpc r = str "2.0" ∧ rs_id r = id ∧
  ((∃ v, rs_result r = Some v ∧ rs_error r = None) ∨ (∃ e, rs_result r = None ∧ rs_error r = Some e)).

Lemma dispatch_answers t req st : ∃ r st', dispatch t req st = (Some r, st') ∧ response_ok r (rq_id req).
Proof.
  unfold dispatch, response_ok. destruct (method_of (rq_method req)) as [m|]; [|by do 2 eexists; eauto 10].
  pose proof (run_method_np t m (rq_params req) st) as Hm.
  destruct (run_method t m (rq_params req) st) as [[v|e|] st']; [by do 2 eexists; eauto 10|by do 2 eexists; eauto 10|done].
Qed.

(** The response that belongs to a line. *)
Definition answers_line (line : list Z) (r : JsonRpcResponse) : Prop :=
  match request_from_str (trim line) with
  | Ok req => response_ok r (rq_id req)
  | _ => response_ok r JNull ∧ re_code <$> rs_error r = Some (-32700)
  end.

Lemma line_answered t line st :
  ∃ r st1, (match request_from_str (trim line) with
            | Ok req => dispatch t req st
            | Err e => (Some (rpc_error JNull (RpcJson e)), st)
            | Panic => (None, st)
            end) = (Some r, st1) ∧ answers_line line r.
Proof.
  unfold answers_line. pose proof (sa_request services (trim line)) as Hp.
  destruct (request_from_str (trim line)) as [req|e|]; [apply dispatch_answers| |done].
  exists (rpc_error JNull (RpcJson e)), st. unfold response_ok. split; [done|]. split; [|done]. eauto 10.
Qed.

(** The lines a connection answers: those that are not blank. *)
Definition asked (lines : list (list Z)) : list (list Z) := filter (λ l, trim l ≠ []) lines.

(** Every request is answered. A client that sends any lines of at most 64 KiB, requests
    or not, and then closes gets exactly one response for each line that is not blank, in
    order: with the identifier of the request and exactly one of a result and an error, or,
    for a line that is no request, a parse error (-32700) with a null identifier. No method
    ends the connection. *)
Theorem every_line_is_answered (clock : nat → Moment) (lines : list (list Z)) (n : nat) st
    (Hshort : ∀ l, l ∈ lines → Z.of_nat (length l) <= MAX_LINE_LENGTH)
    (Hser : ∀ r, response_to_vec r ≠ None) :
  ∃ rs out st', handle_connection clock (λ _, true) n ((Line <$> lines) ++ [Closed]) st = (out, st') ∧
    Forall2 answers_line (asked lines) rs ∧
    Forall2 (λ r bytes, ∃ b, response_to_vec r = Some b ∧ bytes = b ++ [10]) rs out.
Proof.
  revert n st. induction lines as [|line lines IH]; intros n st.
  { exists [], [], st. split; [done|]. split; constructor. }
  cbn [fmap list_fmap app handle_connection asked].
  destruct (Z.ltb_spec MAX_LINE_LENGTH (Z.of_nat (length line))) as [Hl|_].
  { specialize (Hshort line ltac:(constructor)). lia. }
  assert (Hrest : ∀ l, l ∈ lines → Z.of_nat (length l) <= MAX_LINE_LENGTH) by (intros; apply Hshort; by constructor).
  specialize (IH Hrest). unfold asked in *. rewrite filter_cons. case_decide as Hblank.
  { rewrite decide_False by naive_solver. apply IH. }
  rewrite decide_True by done.
  destruct (line_answered (clock n) line st) as (r & st1 & -> & Hans).
  destruct (response_to_vec r) as [b|] eqn:Hb; [|by destruct (Hser r)].
  destruct (IH (S n) st1) as (rs & out & st' & Hrun & Hrs & Hout).
  change (Line <$> lines) with (Line <$> lines) in Hrun. rewrite Hrun.
  exists (r :: rs), ((b ++ [10]) :: out), st'. split; [done|]. split; constructor; eauto.
Qed.
End answers.

(** ** Delegating devices *)
Section delegate.
Context `{RpcText} `{UuidCrate} `{BytesCrate} `{ChronoCrate} `{HashOrder} `{UdpSocket}.
Context {JS DB CS : Type} `{JobCrate JS} `{Engine DB} `{ConfigStore CS}.
Implicit Types (st : RpcState JS DB CS).

Definition rpc_owned st : gset Z := owned_devices (dm (cn_dm (r_node st))).
Definition rpc_sent st : list (SocketAddr * ClusterMessage) := sent (r_node st).

(** Reading the database keeps the rest of the state. *)
Definition db_only st st' : Prop :=
  ∃ db, st' = set_r_node (set_cn_dm (set_dm_db db (cn_dm (r_node st))) (r_node st)) st.

#[global] Instance db_only_preorder : PreOrder db_only.
Proof.
  split.
  - intros st. exists (dm_db (cn_dm (r_node st))). by destruct st as [? [? [] ? ? ?] ? ? ?].
  - intros x y z [d1 ->] [d2 ->]. by exists d2.
Qed.

Lemma rpc_in_db_only {A} conv (m : SE DB DatabaseError A) st : db_only st (rpc_in_db conv m st).2.
Proof. unfold rpc_in_db, szoom. destruct (m _) as [r d]. by exists d. Qed.

Lemma delegated_db_only now id st : db_only st (delegated_from_db now id st).2.
Proof.
  unfold delegated_from_db. apply (sbind_keeps (db_only st)); [apply rpc_in_db_only|].
  intros d st1 _ Hd1. apply (sbind_keeps (db_only st)); [|done]. unfold sresult.
  pose proof (rpc_in_db_only (λ e, RpcDatabase (database_error_text e)) (get_scheduled_connection id) st1) as Hd2.
  destruct (rpc_in_db _ _ st1) as [[] st2]; simpl in *; by etrans.
Qed.

Lemma check_owned_loop ids st r st' :
  sfor ids check_owned st = (r, st') → st' = st ∧ (r = Ok tt → ∀ id, id ∈ ids → id ∈ rpc_owned st).
Proof.
  revert r st'. induction ids as [|id ids IH]; intros r st' Hrun.
  { injection Hrun as <- <-. split; [done|]. set_solver. }
  cbn [sfor] in Hrun. unfold check_owned at 1, read_node, sbind, sget, dm_owns_device in Hrun.
  case_bool_decide as Ho; simpl in Hrun; [|by injection Hrun as <- <-].
  destruct (IH _ _ Hrun) as [-> Hall]. split; [done|]. intros Hr x Hx. apply elem_of_cons in Hx as [->|Hx]; eauto.
Qed.

(** The engine answers the device that was asked for, in every database of the kind [P], and
    reading keeps the kind. *)
Record names_devices (P : DB → Prop) : Prop := {
  nd_name id db d db' : P db → get_device id db = (Ok d, db') → dev_id d = id;
  nd_device id db : P db → P (get_device id db).2;
  nd_connection id db : P db → P (get_scheduled_connection id db).2
}.
Definition rpc_db st : DB := dm_db (cn_dm (r_node st)).

Lemma rpc_in_db_keeps {A} (P : DB → Prop) conv (m : SE DB DatabaseError A) st :
  P (m (rpc_db st)).2 → P (rpc_db (rpc_in_db conv m st).2).
Proof. unfold rpc_in_db, szoom, rpc_db. by destruct (m _). Qed.

Lemma delegated_id (P : DB → Prop) now id st d st' :
  names_devices P → P (rpc_db st) → delegated_from_db now id st = (Ok d, st') → dd_device_id d = id ∧ P (rpc_db st').
Proof.
  intros Hn HP Hrun. set (conv := λ e, RpcDatabase (database_error_text e)).
  pose proof (rpc_in_db_keeps P conv (get_device id) st (nd_device P Hn id _ HP)) as HP1.
  unfold delegated_from_db in Hrun. fold conv in Hrun. apply sbind_inv in Hrun as (dev & st1 & Hdev & Hrun).
  rewrite Hdev in HP1. simpl in HP1.
  pose proof (rpc_in_db_keeps P conv (get_scheduled_connection id) st1 (nd_connection P Hn id _ HP1)) as HP2.
  apply sbind_inv in Hrun as (conn & st2 & Hconn & Hret). injection Hret as <- <-. simpl.
  unfold sresult in Hconn. split.
  - unfold rpc_in_db, szoom in Hdev. destruct (get_device id _) as [[dv|e|] db'] eqn:Hg; simplify_eq/=. exact (nd_name P Hn _ _ _ _ HP Hg).
  - destruct (rpc_in_db conv (get_scheduled_connection id) st1) as [[] st3]; by simplify_eq/=.
Qed.

Lemma delegated_ids (P : DB → Prop) now ids st l st' :
  names_devices P → P (rpc_db st) → scollect ids (delegated_from_db now) st = (Ok l, st') → dd_device_id <$> l = ids.
Proof.
  intros Hn. revert st l st'. induction ids as [|id ids IH]; intros st l st' HP Hrun; [by injection Hrun as <- _|].
  cbn [scollect] in Hrun. apply sbind_inv in Hrun as (d & st1 & Hd & Hrun).
  apply sbind_inv in Hrun as (ds & st2 & Hds & Hret). injection Hret as <- _.
  destruct (delegated_id P now id st d st1 Hn HP Hd) as [<- HP1]. cbn [fmap list_fmap]. f_equal. by eapply IH.
Qed.

(** What a request for delegation sends. *)
Definition offers st st' (now : Z) (devices : list DelegatedDevice) : Prop :=
  ∃ addr local seq, rpc_sent st' = rpc_sent st ++ [(addr, delegate_request (now_ms now) local seq
    (mkDelegateRequest (delegated_payload <$> devices) Rebalance))].

Lemma request_delegation_effect now local devices target (s : ClusterNode JS DB CS) r s' :
  request_delegation now local devices Rebalance target s = (r, s') →
  cn_dm s' = cn_dm s ∧
  (sent s' = sent s ∨ ∃ addr seq, sent s' = sent s ++ [(addr, delegate_request (now_ms now) local seq
     (mkDelegateRequest (delegated_payload <$> devices) Rebalance))]).
Proof.
  unfold request_delegation. case_decide; [intros [= <- <-]; eauto|]. unfold read_members. rewrite sbind_get.
  unfold sbind at 1, slift. destruct (delegation_target target (cn_members s)) as [[? addr]|e|];
    [|intros [= <- <-]; eauto..].
  unfold take_seq, sbind, send_message, udp_send, sret. simpl. destruct (send_to _ _ _); intros [= <- <-]; simpl; eauto 10.
Qed.

Lemma scollect_db_only now ids st : db_only st (scollect ids (delegated_from_db now) st).2.
Proof.
  apply scollect_inv; [|done]. intros id st1 _ Hd. etrans; [exact Hd|apply delegated_db_only].
Qed.

(** What a delegation request may do to the node. *)
Definition harmless now st st' : Prop :=
  rpc_owned st' = rpc_owned st ∧
  (rpc_sent st' = rpc_sent st ∨
   ∃ devices, offers st st' now devices ∧ ∀ d, d ∈ devices → dd_device_id d ∈ rpc_owned st).

Lemma harmless_refl now st : harmless now st st.
Proof. split; [done|]. by left. Qed.

(** A step that only reads. *)
Lemma harmless_read now {A} (m : RPC JS DB CS A) (k : A → RPC JS DB CS Value) st r st' :
  (m st).2 = st → (∀ a, k a st = (r, st') → harmless now st st') → sbind m k st = (r, st') → harmless now st st'.
Proof.
  unfold sbind. destruct (m st) as [[a|e|] st1]; simpl; intros -> Hk; [by apply Hk|intros [= <- <-]; apply harmless_refl..].
Qed.

(** C30: [device.delegate] hands out only devices of this node. Whatever the parameters (a
    list, one device, a number of devices, with or without a target), the request either
    sends nothing, or sends one delegation request, and every device in it is owned by
    this node; the node's own set of devices does not change until the peer answers. *)
Theorem delegate_offers_only_owned (P : DB → Prop) now params st r st' (Hn : names_devices P)
    (HP : P (rpc_db st)) (Hrun : device_delegate now params st = (r, st')) :
  rpc_owned st' = rpc_owned st ∧
  (rpc_sent st' = rpc_sent st ∨
   ∃ devices, offers st st' now devices ∧ ∀ d, d ∈ devices → dd_device_id d ∈ rpc_owned st).
Proof.
  fold (harmless now st st'). unfold device_delegate in Hrun. revert Hrun.
  apply harmless_read; [done|]. intros h. apply harmless_read.
  { unfold delegate_target, read_node, sbind, slift, sget. repeat case_match; simplify_eq/=; done. }
  intros target. apply harmless_read; [done|]. intros owned. apply harmless_read; [done|]. intros ids Hrun.
  unfold sbind at 1 in Hrun. destruct (sfor ids check_owned st) as [c st1] eqn:Hc.
  destruct (check_owned_loop _ _ _ _ Hc) as [-> Hown].
  destruct c as [[]|e|]; [|injection Hrun as <- <-; apply harmless_refl..]. specialize (Hown eq_refl).
  pose proof (scollect_db_only now ids st) as Hdb.
  unfold sbind at 1 in Hrun. destruct (scollect ids (delegated_from_db now) st) as [d st2] eqn:Hd.
  simpl in Hdb. destruct Hdb as [db ->].
  destruct d as [devices|e|]; [|injection Hrun as <- <-; split; [done|by left]..].
  apply (delegated_ids P) in Hd; [|done..].
  unfold sbind, in_node, szoom in Hrun. simpl in Hrun.
  destruct (request_delegation _ _ _ _ _ _) as [q s'] eqn:Hq.
  apply request_delegation_effect in Hq as [Hdm Hsent].
  assert (Hst : r_node st' = s') by (destruct q; simpl in Hrun; by injection Hrun as <- <-). unfold harmless, rpc_owned, rpc_sent. rewrite Hst, Hdm.
  split; [done|]. destruct Hsent as [Hs|(addr & seq & Hs)]; [left; by rewrite Hs|].
  right. exists devices. split; [unfold offers, rpc_sent; rewrite Hst; eauto|].
  intros x Hx. apply Hown. rewrite <- Hd. by apply list_elem_of_fmap_2.
Qed.
End delegate.

(** ** [device.info] *)
Section info.
Context `{RpcText} `{UuidCrate} `{BytesCrate} `{ChronoCrate} `{HashOrder} `{UdpSocket}.
Context {JS DB CS : Type} `{JobCrate JS} `{Engine DB} `{ConfigStore CS}.

(** An unknown device is reported as a database failure. [device.info] looks for "not
    found" or "no rows" in the text of the error, but the engines answer [NoDataFound] for a
    device they do not have, whose text has neither: the client gets code -32003 ("Database
    error: Error: No data found"), not the code -32002 that is documented for it. *)
Theorem device_info_unknown (t : Moment) (req : JsonRpcRequest) (st : RpcState JS DB CS) s id db'
    (Hm : rq_method req = str "device.info") (Hp : param_str (str "device_id") (rq_params req) = Some s)
    (Hid : uuid_parse s = Ok id) (Hnone : get_device id (dm_db (cn_dm (r_node st))) = (Err NoDataFound, db')) :
  ∃ st', dispatch t req st = (Some (rpc_error (rq_id req) (RpcDatabase (str "Error: No data found"))), st') ∧
    rpc_code (RpcDatabase (str "Error: No data found")) = -32003.
Proof.
  unfold dispatch. rewrite Hm. change (method_of (str "device.info")) with (Some DeviceInfo). cbn [run_method].
  unfold device_info, or_error, slift, sbind. rewrite Hp. cbn [ok_or]. rewrite Hid. cbn [omap_err].
  unfold rpc_in_db, szoom. rewrite Hnone. cbn [omap_err]. by eexists.
Qed.
End info.

(** ** A delegation to oneself *)
Section self_delegation.
Context `{RpcText} `{UuidCrate} `{BytesCrate} `{ChronoCrate} `{HashOrder} `{UdpSocket}.
Context {JS DB CS : Type} `{JobCrate JS} `{OwnershipEngine DB} `{ConfigStore CS}.
Implicit Types (s : ClusterNode JS DB CS).

(** The target check of [device.delegate] lets the node's own identifier through. *)
Lemma delegate_target_self params (st : RpcState JS DB CS) text id :
  param_str (str "target_node_id") params = Some text → uuid_parse text = Ok id →
  id = m_local_node_id (cn_members (r_node st)) →
  delegate_target params st = (Ok (Some id), st).
Proof.
  intros Hp Hu ->. unfold delegate_target, sbind, slift, read_node, sget. rewrite Hp, Hu. cbn [omap_err].
  unfold get_node. by rewrite Z.eqb_refl.
Qed.

(** A node that is told to delegate devices to itself loses them. The console accepts the
    node's own identifier as target; the node then accepts its own request, which leaves the
    database naming it as owner, and on its own answer drops the devices from its set: no
    node serves them, although the database still says this one does. *)
Theorem self_delegation_drops_devices now from reason (devices : list DelegatedDevice) s
    (Hacc : accepts_jobs (JS := JS)) (Hcan : can_accept reason (local_node (cn_members s)) = true)
    (Hown : ∀ d, d ∈ devices → dd_device_id d ∈ owned (cn_dm s)) (Hinv : ownership_inv (cn_dm s)) :
  (∀ params (st : RpcState JS DB CS) text, r_node st = s → param_str (str "target_node_id") params = Some text →
     uuid_parse text = Ok (m_local_node_id (cn_members s)) →
     delegate_target params st = (Ok (Some (m_local_node_id (cn_members s))), st)) ∧
  ∃ r s1 s2,
    handle_delegation_request now (me (cn_dm s)) from
      (mkDelegateRequest (delegated_payload <$> devices) reason) s = (r, s1) ∧
    handle_delegation_accept (mkDelegateAccept (dd_device_id <$> devices)) s1 = (Ok tt, s2) ∧
    ∀ d, d ∈ devices → dd_device_id d ∉ owned (cn_dm s2) ∧
      ∃ b, table (cn_dm s2) !! dd_device_id d = Some (b, me (cn_dm s)).
Proof.
  split; [intros params st text <- Hp Hu; by eapply delegate_target_self|].
  set (p := mkDelegateRequest (delegated_payload <$> devices) reason).
  destruct (accept_request_ok now (me (cn_dm s)) from p s Hacc Hcan) as (r & s1 & Hreq & Hrun & _ & _).
  assert (Hids : dd_device_id <$> (delegated_of_payload <$> drq_devices p) = dd_device_id <$> devices).
  { simpl. by rewrite <- !list_fmap_compose. }
  pose proof (accept_inv (delegated_of_payload <$> drq_devices p) (cn_dm s) Hinv) as Hi. rewrite Hrun in Hi.
  destruct (accept_ok (delegated_of_payload <$> drq_devices p) (cn_dm s) Hacc) as (st' & Hst & Hme' & Ho' & _).
  rewrite Hrun in Hst. injection Hst as Hst. rewrite Hids in Ho'. rewrite <- Hst in Hme', Ho'.
  assert (Hinv1 : ownership_inv (cn_dm s1)).
  { apply Hi. simpl. intros d (q & -> & (x & -> & Hx)%list_elem_of_fmap)%list_elem_of_fmap.
    destruct (proj1 (Hinv _) (Hown x Hx)) as [b Hb]. simpl. apply elem_of_dom. by eexists. }
  destruct (release_ok (dd_device_id <$> devices) (cn_dm s1)) as (g2 & Hrel & Hdb2 & Hm2 & Ho2 & _).
  destruct (unschedule_ok (dd_device_id <$> devices) g2) as (g3 & Huns & Hdb3 & Hm3 & Ho3 & _).
  exists r, s1, (set_cn_dm g3 (set_cn_dm g2 s1)). split; [done|]. split.
  { unfold handle_delegation_accept. simpl. sstep (in_dm_ok _ _ _ _ Hrel). by apply in_dm_ok. }
  intros d Hd. simpl. split.
  - rewrite Ho3, Ho2. intros [_ Hn]%elem_of_difference. apply Hn, elem_of_list_to_set. by apply list_elem_of_fmap_2.
  - unfold table. rewrite Hdb3, Hdb2. rewrite <- Hme'. apply (proj1 (Hinv1 (dd_device_id d))).
    rewrite Ho'. apply elem_of_union_l, elem_of_list_to_set. by apply list_elem_of_fmap_2.
Qed.
End self_delegation.
