(* ===== verification/RpcServerFacts.v ===== *)
(** * Many clients of the console

    Under every interleaving of the accept loop and the connections: the
    semaphore bounds the connections, the gauge counts the open ones, and each
    client gets the answers to its own lines, in order. *)

From S2P Require Import Prelude Bytes Net Float32 Node ClusterPayload ClusterMessage Database Calendar Scheduler DeviceManager Membership ClusterNode Delegation ClusterFacts Config Rpc RpcServer RpcFacts.

Local Open Scope Z_scope.
Local Open Scope hes_scope.

(** ** Counting connections *)
Definition count (p : Conn → bool) (l : list Conn) : nat := length (filter (λ c, p c = true) l).
Definition live (c : Conn) : bool := match co_state c with CoSpawned | CoOpen => true | _ => false end.
Definition is_state (x : ConnState) (c : Conn) : bool := bool_decide (co_state c = x).

Lemma count_app p l l' : count p (l ++ l') = (count p l + count p l')%nat.
Proof. unfold count. by rewrite filter_app, length_app. Qed.
Lemma count_cons p c l : count p (c :: l) = ((if p c then 1 else 0) + count p l)%nat.
Proof. unfold count. rewrite filter_cons. by destruct (p c). Qed.
Lemma count_insert p l k c c' :
  l !! k = Some c → (count p (<[k := c']> l) + (if p c then 1 else 0) = count p l + (if p c' then 1 else 0))%nat.
Proof.
  revert k. induction l as [|x l IH]; intros [|k] Hk; simplify_eq/=; rewrite !count_cons.
  - lia.
  - specialize (IH k Hk). lia.
Qed.

Section facts.
Context `{RpcText} `{UuidCrate} `{BytesCrate} `{ChronoCrate} `{HashOrder} `{UdpSocket}.
Context {JS DB CS : Type} `{JobCrate JS} `{Engine DB} `{ConfigStore CS}.
Implicit Types (st : RpcState JS DB CS) (s : RpcServer JS DB CS).

(** The line of an input that asks for a response: not overlong and not blank. *)
Definition asks (input : ReadLine) : option (list Z) :=
  match input with
  | Line line => if MAX_LINE_LENGTH <? Z.of_nat (length line) then None else if decide (trim line = []) then None else Some line
  | _ => None
  end.

(** One connection by itself does what [handle_connection] does. *)
Lemma handle_connection_turn clock writes n x input st :
  handle_connection clock writes n (x :: input) st =
  let '(state, out, st1) := connection_turn (clock n) (writes n) x st in
  match state with
  | CoOpen =>
      let (outs, st2) := handle_connection clock writes (if asks x then S n else n) input st1 in (option_list out ++ outs, st2)
  | _ => (option_list out, st1)
  end.
Proof.
  cbn [handle_connection]. unfold connection_turn, asks. destruct x as [line| |]; [|done..].
  destruct (MAX_LINE_LENGTH <? Z.of_nat (length line)); [done|]. case_decide; [by destruct (handle_connection _ _ _ _ _)|].
  destruct (match request_from_str (trim line) with Ok _ => _ | Err _ => _ | Panic => _ end) as [[r|] st1]; [|done].
  destruct (response_to_vec r) as [bytes|]; [|by destruct (handle_connection _ _ _ _ _)]. by destruct (writes n).
Qed.

(** ** The connections *)
Definition server_ok s : Prop :=
  (rv_permits s + count live (rv_conns s) = MAX_RPC_CONNECTIONS)%nat ∧
  rv_gauge s = Z.of_nat (count (is_state CoOpen) (rv_conns s) + count (is_state CoPanicked) (rv_conns s)).

Lemma spawn_ok s : server_ok s → (0 < rv_permits s)%nat → server_ok (spawn_connection s).
Proof.
  intros [Hp Hg] Hpos. unfold server_ok, spawn_connection. cbn [rv_permits rv_conns rv_gauge].
  rewrite !count_app, Hg. change (count live [mkConn CoSpawned []]) with 1%nat.
  change (count (is_state CoOpen) [mkConn CoSpawned []]) with 0%nat.
  change (count (is_state CoPanicked) [mkConn CoSpawned []]) with 0%nat. lia.
Qed.

(** Replacing the state of a connection moves the counts by one. *)
Lemma insert_counts s k out out' x y :
  rv_conns s !! k = Some (mkConn x out) →
  let conns := <[k := mkConn y out']> (rv_conns s) in
  (count live conns + (if live (mkConn x out) then 1 else 0) = count live (rv_conns s) + (if live (mkConn y out') then 1 else 0))%nat ∧
  (count (is_state CoOpen) conns + (if bool_decide (x = CoOpen) then 1 else 0)
   = count (is_state CoOpen) (rv_conns s) + (if bool_decide (y = CoOpen) then 1 else 0))%nat ∧
  (count (is_state CoPanicked) conns + (if bool_decide (x = CoPanicked) then 1 else 0)
   = count (is_state CoPanicked) (rv_conns s) + (if bool_decide (y = CoPanicked) then 1 else 0))%nat.
Proof.
  intros Hk conns. split; [exact (count_insert live _ k _ _ Hk)|].
  split; [exact (count_insert (is_state CoOpen) _ k _ _ Hk)|exact (count_insert (is_state CoPanicked) _ k _ _ Hk)].
Qed.

Lemma turn_not_spawned t write input st : (connection_turn t write input st).1.1 ≠ CoSpawned.
Proof. unfold connection_turn. repeat case_match; done. Qed.

Lemma step_ok e s : server_ok s → server_ok (rpc_step e s).
Proof.
  intros Hok. destruct e as [ok| |k|k t write input|f]; cbn [rpc_step].
  - destruct ok; [|done]. unfold accept_client. destruct (rv_waiting s); [done|].
    destruct (Nat.ltb_spec 0 (rv_permits s)); [by apply spawn_ok|done].
  - unfold acquire_permit. destruct (rv_waiting s); [|done]. simpl. destruct (Nat.ltb_spec 0 (rv_permits s)); [by apply spawn_ok|done].
  - unfold connection_start. destruct (rv_conns s !! k) as [[[] out]|] eqn:Hk; try done.
    destruct (insert_counts s k out out CoSpawned CoOpen Hk) as (Hl & Ho & Hp). destruct Hok as [Hperm Hg].
    unfold server_ok. simpl in *. lia.
  - unfold connection_read. destruct (rv_conns s !! k) as [[[] out]|] eqn:Hk; try done.
    pose proof (turn_not_spawned t write input (rv_state s)) as Hns.
    destruct (connection_turn t write input (rv_state s)) as [[x bytes] st1]. simpl in Hns.
    destruct (insert_counts s k out (out ++ option_list bytes) CoOpen x Hk) as (Hl & Ho & Hp).
    destruct Hok as [Hperm Hg]. destruct x; [done|..]; unfold server_ok; simpl in *; lia.
  - done.
Qed.

Lemma run_ok es s : server_ok s → server_ok (rpc_run es s).
Proof. revert s. induction es as [|e es IH]; intros s Hs; [done|]. by apply IH, step_ok. Qed.

(** C16: The console serves at most sixteen clients. Whatever the order in which clients come,
    connections run and end, and other tasks work on the node, the free permits and the
    connections in progress are sixteen together, so no connection is lost and no permit
    leaks; a client that waits for a permit finds all sixteen taken or is let in at the next
    turn; and the gauge of open connections is the number of connections in their loop plus
    the connections that a panic ended. *)
Theorem rpc_connections_bounded (es : list (RpcEvent JS DB CS)) st :
  let s := rpc_run es (rpc_server_new st) in
  (rv_permits s + count live (rv_conns s) = 16)%nat ∧
  rv_gauge s = Z.of_nat (count (is_state CoOpen) (rv_conns s) + count (is_state CoPanicked) (rv_conns s)) ∧
  (rv_waiting s = true → count live (rv_conns s) = 16%nat ∨
     ∃ c, rv_conns (rpc_step RePermit s) = rv_conns s ++ [c] ∧ live c = true ∧ rv_waiting (rpc_step RePermit s) = false).
Proof.
  intros s. destruct (run_ok es (rpc_server_new st)) as [Hp Hg]; [done|]. fold s in Hp, Hg. unfold MAX_RPC_CONNECTIONS in Hp.
  split; [done|]. split; [done|]. intros Hw. destruct (decide (rv_permits s = 0%nat)) as [Hz|Hnz]; [left; lia|right].
  exists (mkConn CoSpawned []). cbn [rpc_step]. unfold acquire_permit. rewrite Hw. cbn [andb].
  by destruct (Nat.ltb_spec 0 (rv_permits s)); [|lia].
Qed.

(** ** The answers *)
Section answers.
Hypothesis services : services_answer (DB := DB) (CS := CS).
Hypothesis Hser : ∀ r, response_to_vec r ≠ None.

Definition written (r : JsonRpcResponse) (bytes : list Z) : Prop := ∃ b, response_to_vec r = Some b ∧ bytes = b ++ [10].

(** What connection [k] reads in its loop, and whether a response could be written then. *)
Definition read_by (k : nat) (e : RpcEvent JS DB CS) s : list (bool * ReadLine) :=
  match e, rv_conns s !! k with
  | ReRead j _ write input, Some (mkConn CoOpen _) => if decide (j = k) then [(write, input)] else []
  | _, _ => []
  end.
Fixpoint reads (k : nat) (es : list (RpcEvent JS DB CS)) s : list (bool * ReadLine) :=
  match es with
  | [] => []
  | e :: es' => read_by k e s ++ reads k es' (rpc_step e s)
  end.

(** The line of a read that is to be answered, and whether the read ends the connection:
    the client has closed, reading failed, the line is overlong, or its answer cannot be
    written. *)
Definition to_answer (x : bool * ReadLine) : option (list Z) := if x.1 then asks x.2 else None.
Definition ends (x : bool * ReadLine) : bool :=
  match x.2 with
  | Line line => (MAX_LINE_LENGTH <? Z.of_nat (length line)) || (negb x.1 && bool_decide (is_Some (asks x.2)))
  | Closed | ReadError => true
  end.
Definition ended_by (l : list (bool * ReadLine)) : bool := match last l with Some x => ends x | None => false end.

(** What holds of a connection that has read [l]. *)
Record conn_ok (l : list (bool * ReadLine)) (c : Conn) : Prop := {
  cn_state : match co_state c with
             | CoSpawned => l = []
             | CoOpen => ended_by l = false
             | CoClosed => ended_by l = true
             | CoPanicked => False
             end;
  cn_answers : ∃ rs, Forall2 answers_line (omap to_answer l) rs ∧ Forall2 written rs (co_out c)
}.

(** One turn. *)
Lemma turn_answers t write input st x bytes st1 :
  connection_turn t write input st = (x, bytes, st1) →
  x = (if ends (write, input) then CoClosed else CoOpen) ∧
  match to_answer (write, input), bytes with
  | Some l, Some b => ∃ r, answers_line l r ∧ written r b
  | None, None => True
  | _, _ => False
  end.
Proof.
  unfold connection_turn, ends, to_answer, asks. cbn [fst snd]. destruct input as [l| |]; [|by destruct write; intros [= <- <- <-]..].
  destruct (MAX_LINE_LENGTH <? Z.of_nat (length l)); [by destruct write; intros [= <- <- <-]|].
  case_decide as Hblank; [by destruct write; intros [= <- <- <-]|].
  destruct (line_answered services t l st) as (r & st2 & -> & Hans).
  destruct (response_to_vec r) as [b|] eqn:Hb; [|by destruct (Hser r)].
  rewrite bool_decide_true by by eexists. destruct write; intros [= <- <- <-]; [|done]. split; [done|]. exists r. split; [done|]. by exists b.
Qed.

Lemma conn_turn_ok t write input st l out x bytes st1 :
  conn_ok l (mkConn CoOpen out) → connection_turn t write input st = (x, bytes, st1) →
  conn_ok (l ++ [(write, input)]) (mkConn x (out ++ option_list bytes)).
Proof.
  intros [_ (rs & Hd & Hw)] Hturn. destruct (turn_answers _ _ _ _ _ _ _ Hturn) as [-> Hlb]. split; cbn [co_state co_out] in *.
  - unfold ended_by. rewrite last_snoc. by destruct (ends (write, input)).
  - rewrite omap_app. cbn [omap list_omap]. destruct (to_answer (write, input)) as [line|], bytes as [b|]; try done; cbn [option_list].
    + destruct Hlb as (r & Hans & Hwr). exists (rs ++ [r]). split; by apply Forall2_app; [|constructor].
    + exists rs. by rewrite !app_nil_r.
Qed.

Lemma fresh_conn_ok : conn_ok [] (mkConn CoSpawned []).
Proof. split; [done|]. exists []. by split. Qed.

(** Connection [k] of [s] has read [l]; one that does not exist yet has read nothing. *)
Definition has_read (k : nat) (l : list (bool * ReadLine)) s : Prop :=
  match rv_conns s !! k with Some c => conn_ok l c | None => l = [] end.

Lemma spawn_reads k l s : has_read k l s → has_read k l (spawn_connection s).
Proof.
  unfold has_read, spawn_connection. cbn [rv_conns]. destruct (rv_conns s !! k) as [c|] eqn:Hk.
  - by rewrite (lookup_app_l_Some _ _ _ _ Hk).
  - intros ->. rewrite lookup_app_r by (by apply lookup_ge_None). destruct (_ - _)%nat as [|]; [exact fresh_conn_ok|done].
Qed.

Lemma read_by_other k j t write input s : j ≠ k → read_by k (ReRead j t write input) s = [].
Proof. intros Hne. unfold read_by. destruct (rv_conns s !! k) as [[[] out]|]; try done. by rewrite decide_False. Qed.

Lemma step_reads k l e s : has_read k l s → has_read k (l ++ read_by k e s) (rpc_step e s).
Proof.
  intros Hok. destruct e as [ok| |j|j t write input|f]; cbn [rpc_step].
  - cbn [read_by]. rewrite app_nil_r. destruct ok; [|done]. unfold accept_client. destruct (rv_waiting s); [done|].
    destruct (0 <? rv_permits s)%nat; [by apply spawn_reads|done].
  - cbn [read_by]. rewrite app_nil_r. unfold acquire_permit. destruct (_ && _)%bool; [by apply spawn_reads|done].
  - cbn [read_by]. rewrite app_nil_r. unfold connection_start. destruct (rv_conns s !! j) as [[[] out]|] eqn:Hj; try done.
    unfold has_read in *. cbn [rv_conns]. destruct (decide (j = k)) as [->|Hne].
    + rewrite Hj in Hok. rewrite list_lookup_insert_eq by (by eapply lookup_lt_Some). destruct Hok as [-> Ha]. by split.
    + by rewrite list_lookup_insert_ne.
  - unfold connection_read. destruct (decide (j = k)) as [->|Hne].
    + unfold has_read in Hok. unfold read_by. destruct (rv_conns s !! k) as [[[] out]|] eqn:Hk.
      2: { rewrite decide_True by done.
        destruct (connection_turn t write input (rv_state s)) as [[x bytes] st1] eqn:Hturn.
        pose proof (conn_turn_ok _ _ _ _ _ _ _ _ _ Hok Hturn) as Hc.
        assert (Hlt : (k < length (rv_conns s))%nat) by (by eapply lookup_lt_Some).
        destruct x; unfold has_read; cbn [rv_conns]; by rewrite list_lookup_insert_eq. }
      all: unfold has_read; rewrite Hk, app_nil_r; exact Hok.
    + rewrite (read_by_other _ _ _ _ _ _ Hne), app_nil_r. destruct (rv_conns s !! j) as [[[] out]|]; try done.
      destruct (connection_turn t write input (rv_state s)) as [[x bytes] st1].
      by destruct x; unfold has_read; cbn [rv_conns]; rewrite list_lookup_insert_ne by done.
  - cbn [read_by]. by rewrite app_nil_r.
Qed.

Lemma run_reads k es : ∀ l s, has_read k l s → has_read k (l ++ reads k es s) (rpc_run es s).
Proof.
  induction es as [|e es IH]; intros l s Hs; cbn [reads]; [by rewrite app_nil_r|].
  rewrite (assoc_L (++)). apply (IH (l ++ read_by k e s) (rpc_step e s)). by apply step_reads.
Qed.

Lemma no_panicked l : (∀ k c, l !! k = Some c → co_state c ≠ CoPanicked) → count (is_state CoPanicked) l = 0%nat.
Proof.
  induction l as [|c l IH]; intros Hl; [done|]. rewrite count_cons, IH by (intros k; apply (Hl (S k))).
  unfold is_state. rewrite bool_decide_false; [done|]. by apply (Hl 0%nat).
Qed.

(** C15: Every client of the console is answered, however many there are. Under every
    interleaving of the connections, and whatever other tasks do to the node between two
    turns, the lines a connection has read from its client, blank and overlong ones left
    out, have each been answered by exactly one line, in their order: the response to that
    line, with the identifier of its request. A connection is over exactly when its last
    read ended it: the client closed, reading failed, the line was longer than the limit, or
    its response could not be written. No connection is ended by a panic, and the gauge is
    the number of open connections. (The parsers, the database queries and the
    configuration store answer, and every response can be serialised.) *)
Theorem concurrent_clients_answered (es : list (RpcEvent JS DB CS)) st :
  let s := rpc_run es (rpc_server_new st) in
  (∀ k c, rv_conns s !! k = Some c →
    let l := reads k es (rpc_server_new st) in
    (∃ rs, Forall2 answers_line (omap to_answer l) rs ∧
       Forall2 (λ r bytes, ∃ b, response_to_vec r = Some b ∧ bytes = b ++ [10]) rs (co_out c)) ∧
    (co_state c = CoClosed ↔ ∃ x, last l = Some x ∧ ends x = true) ∧ co_state c ≠ CoPanicked) ∧
  rv_gauge s = Z.of_nat (count (is_state CoOpen) (rv_conns s)).
Proof.
  intros s. assert (Hall : ∀ k c, rv_conns s !! k = Some c → conn_ok (reads k es (rpc_server_new st)) c).
  { intros k c Hk. pose proof (run_reads k es [] (rpc_server_new st) eq_refl) as Hr. unfold has_read in Hr. fold s in Hr. by rewrite Hk in Hr. }
  assert (Hnp : ∀ k c, rv_conns s !! k = Some c → co_state c ≠ CoPanicked).
  { intros k c Hk Hp. destruct (Hall k c Hk) as [Hs _]. by rewrite Hp in Hs. }
  split.
  - intros k c Hk. destruct (Hall k c Hk) as [Hs Ha]. split; [exact Ha|]. split; [|by eapply Hnp]. unfold ended_by in Hs.
    destruct (co_state c); [rewrite Hs; split; [done|by intros (x & Hx & _)]| | |done];
      (destruct (last (reads k es (rpc_server_new st))) as [x|]; [|by split; [|intros (x & Hx & _)]]).
    + split; [done|]. intros (y & [= <-] & Hy). by rewrite Hs in Hy.
    + split; [|done]. intros _. by exists x.
  - destruct (run_ok es (rpc_server_new st)) as [_ Hg]; [done|]. fold s in Hg. by rewrite Hg, (no_panicked _ Hnp), Nat.add_0_r.
Qed.
End answers.
End facts.
