(* ===== verification/RpcReload.v ===== *)
(** * The admin console and the running services

    After any sequence of requests the metrics flag and the address the
    backdoor was last told to listen on are those of the configuration. *)

From S2P Require Import Prelude Bytes Net Float32 Node ClusterPayload ClusterMessage Database DatabaseFacts Calendar Scheduler SchedulerFacts DeviceManager DeviceManagerFacts Membership ClusterNode Delegation ClusterServer ClusterFacts Config ConfigFacts Rpc RpcFacts.

Local Open Scope Z_scope.
Local Open Scope hes_scope.

(** ** The running services follow the configuration *)
Section hot_reload.
Context `{RpcText} `{UuidCrate} `{YamlCrate} `{Environment} {FS : Type} `{FileSystem FS}.
Context `{BytesCrate} `{ChronoCrate} `{HashOrder} `{UdpSocket}.
Context {JS DB : Type} `{JobCrate JS} `{Engine DB}.
Implicit Types (st : RpcState JS DB (ConfigManager FS)).

Definition cfg st : HesConfig := cm_config (cn_config (r_node st)).

(** The configuration, the metrics flag and the rebind channel are left alone. *)
Definition frame st st' : Prop :=
  cn_config (r_node st') = cn_config (r_node st) ∧ r_metrics_enabled st' = r_metrics_enabled st ∧
  r_rebind st' = r_rebind st.

#[local] Instance frame_preorder : PreOrder frame.
Proof. split; [done|]. intros x y z (?&?&?) (?&?&?). repeat split; congruence. Qed.

Definition frames {A} (m : RPC JS DB (ConfigManager FS) A) : Prop := ∀ st, frame st (m st).2.

Lemma frames_bind {A B} (m : RPC JS DB (ConfigManager FS) A) (k : A → RPC JS DB (ConfigManager FS) B) :
  frames m → (∀ a, frames (k a)) → frames (sbind m k).
Proof.
  intros Hm Hk st. apply (sbind_keeps (frame st)); [apply Hm|]. intros a st1 _ Hf. etrans; [exact Hf|apply Hk].
Qed.
Lemma frames_ret {A} (a : A) : frames (sret a).
Proof. done. Qed.
Lemma frames_err {A} (e : RpcError) : frames (A := A) (serr e).
Proof. done. Qed.
Lemma frames_read {A} (f : RpcState JS DB (ConfigManager FS) → A) : frames (sget f).
Proof. done. Qed.
Lemma frames_lift {A} (o : outcome RpcError A) : frames (slift o).
Proof. done. Qed.
Lemma frames_need : frames need_cluster.
Proof. done. Qed.
Lemma frames_result {A} (m : RPC JS DB (ConfigManager FS) A) : frames m → frames (sresult m).
Proof. intros Hm st. unfold sresult. specialize (Hm st). by destruct (m st) as [[] ?]. Qed.
Lemma frames_db {A} conv (m : SE DB DatabaseError A) : frames (rpc_in_db conv m).
Proof. intros st. destruct (rpc_in_db_only conv m st) as [db ->]. done. Qed.
Lemma frames_for {A} (l : list A) (f : A → RPC JS DB (ConfigManager FS) unit) : (∀ x, frames (f x)) → frames (sfor l f).
Proof. intros Hf. induction l; cbn [sfor]; [apply frames_ret|]. by apply frames_bind. Qed.
Lemma frames_collect {A B} (l : list A) (f : A → RPC JS DB (ConfigManager FS) B) : (∀ x, frames (f x)) → frames (scollect l f).
Proof.
  intros Hf. induction l; cbn [scollect]; [apply frames_ret|]. apply frames_bind; [done|]. intros.
  apply frames_bind; [done|]. intros. apply frames_ret.
Qed.
Lemma frames_node {A} conv (c : C JS DB (ConfigManager FS) A) :
  (∀ s, cn_config (c s).2 = cn_config s) → frames (in_node conv c).
Proof. intros Hc st. unfold in_node, szoom. specialize (Hc (r_node st)). by destruct (c (r_node st)). Qed.

#[local] Hint Resolve frames_bind frames_ret frames_err frames_read frames_lift frames_need frames_result frames_db
  frames_for frames_collect frames_node : frames.

(** Sending leaves the configuration of the node alone. *)
Definition same_cfg {A} (c : C JS DB (ConfigManager FS) A) : Prop := ∀ s, cn_config (c s).2 = cn_config s.

Lemma same_bind {A B} (c : C JS DB (ConfigManager FS) A) (k : A → C JS DB (ConfigManager FS) B) :
  same_cfg c → (∀ a, same_cfg (k a)) → same_cfg (sbind c k).
Proof.
  intros Hc Hk s. apply (sbind_keeps (λ s', cn_config s' = cn_config s)); [apply Hc|].
  intros a s1 _ <-. apply Hk.
Qed.
Lemma same_udp target msg : same_cfg (udp_send target msg).
Proof. intros s. unfold udp_send. by destruct (send_to _ _ _). Qed.
Lemma same_peers peers msg n : same_cfg (notify_peers peers msg n).
Proof.
  revert n. induction peers as [|p peers IH]; intros n; cbn [notify_peers]; [done|]. apply same_bind; [|done].
  intros s. unfold sresult, send_message. pose proof (same_udp p msg s) as Hs. by destruct (udp_send p msg s) as [[] ?].
Qed.
Lemma same_broadcast now u id k v : same_cfg (broadcast_config_update now u id k v).
Proof. apply same_bind; [done|]. intros. case_decide; [done|apply same_peers]. Qed.
Lemma same_join now seed : same_cfg (send_join_to_peer now seed).
Proof. apply same_bind; [done|]. intros []. apply same_bind; [done|]. intros. apply same_udp. Qed.
Lemma same_delegation now local devices reason target : same_cfg (request_delegation now local devices reason target).
Proof.
  unfold request_delegation. case_decide; [done|]. apply same_bind; [done|]. intros. apply same_bind; [done|]. intros [].
  apply same_bind; [done|]. intros []. apply same_bind; [apply same_udp|done].
Qed.

Lemma config_value_eq key st :
  config_value key st = (Ok (match key_of key with Some k => key_value (cfg st) k | None => None end), st).
Proof.
  unfold config_value, sbind, sresult, rpc_in_config, szoom. simpl. unfold cm_get_config_value, sget, sret.
  f_equal. by destruct st as [? [] ? ? ?].
Qed.
Lemma frames_value key : frames (config_value key).
Proof. intros st. by rewrite config_value_eq. Qed.

(** ** The invariant *)
Definition hot_sync st : Prop :=
  r_metrics_enabled st = hc_metrics_enabled (cfg st) ∧
  last (r_rebind st) = Some (hc_backdoor_ip (cfg st), hc_backdoor_port (cfg st)).

Lemma frame_sync st st' : frame st st' → hot_sync st → hot_sync st'.
Proof. unfold hot_sync, cfg. intros (-> & -> & ->). done. Qed.

(** The configuration after a request to set a key, the services not yet told. *)
Lemma rpc_set_cases key value st :
  (∀ path, disk_works (FS := FS) path) →
  (∃ e st', rpc_in_config (set_config_value key value) st = (Err e, st') ∧ frame st st') ∨
  (∃ k v st', rpc_in_config (set_config_value key value) st = (Ok tt, st') ∧ validate key value = Ok (k, v) ∧
    cfg st' = apply_validated k v (cfg st) ∧ r_metrics_enabled st' = r_metrics_enabled st ∧ r_rebind st' = r_rebind st).
Proof.
  intros Hdisk. unfold rpc_in_config, szoom. simpl.
  destruct (set_value_cases key value (cn_config (r_node st))) as [(e & _ & ->)|[[Hv _]|(k & v & Hv & ->)]].
  - left. by do 2 eexists.
  - by apply validate_no_panic in Hv.
  - right. destruct (cm_store_effect (apply_validated k v) (cn_config (r_node st))) as (Hc & _ & _ & Hw).
    specialize (Hw (Hdisk _)). destruct (cm_store _ _) as [r c]. simpl in *. subst r. by exists k, v; eexists.
Qed.

Lemma reload_backdoor key value st :
  key = key_name KBackdoorIp ∨ key = key_name KBackdoorPort →
  (apply_hot_reload key value st).2 = request_rebind (hc_backdoor_ip (cfg st), hc_backdoor_port (cfg st)) st.
Proof.
  intros Hk. unfold apply_hot_reload. rewrite decide_False by (by destruct Hk as [->| ->]). rewrite decide_True by (destruct Hk as [->| ->]; auto).
  unfold sbind. by rewrite !config_value_eq.
Qed.

(** Telling the services makes them agree again. *)
Lemma reload_sync key value k v st st1 :
  validate key value = Ok (k, v) → cfg st1 = apply_validated k v (cfg st) →
  r_metrics_enabled st1 = r_metrics_enabled st → r_rebind st1 = r_rebind st →
  hot_sync st → hot_sync (apply_hot_reload key value st1).2.
Proof.
  intros Hv Hc Hm Hr [Sm Sr]. destruct (validated_value _ _ _ _ (cfg st) Hv) as (-> & Hval & Hother).
  rewrite <- Hc in Hval, Hother. unfold hot_sync.
  assert (Hme : k ≠ KMetricsEnabled → r_metrics_enabled st1 = hc_metrics_enabled (cfg st1)).
  { intros Hk. specialize (Hother KMetricsEnabled ltac:(congruence)). simpl in Hother. rewrite Hm, Sm.
    by destruct (hc_metrics_enabled (cfg st)), (hc_metrics_enabled (cfg st1)). }
  assert (Hre : k ≠ KBackdoorIp → k ≠ KBackdoorPort →
    last (r_rebind st1) = Some (hc_backdoor_ip (cfg st1), hc_backdoor_port (cfg st1))).
  { intros Hi Hp. pose proof (Hother KBackdoorIp ltac:(congruence)) as [= ->].
    pose proof (Hother KBackdoorPort ltac:(congruence)) as [= ->]. congruence. }
  destruct k; try (split; [by apply Hme|by apply Hre]).
  - rewrite reload_backdoor by auto. split; [by apply Hme|apply last_snoc].
  - rewrite reload_backdoor by auto. split; [by apply Hme|apply last_snoc].
  - split; [|by apply Hre]. simpl in Hval. injection Hval as Hval.
    change (apply_hot_reload (key_name KMetricsEnabled) value st1).2
      with (set_metrics_enabled (bool_decide (value = str "true")) st1).
    change (cfg (set_metrics_enabled _ st1)) with (cfg st1). rewrite <- Hval.
    by destruct (hc_metrics_enabled (cfg st1)).
  - apply frame_sync with st1; [|split; [by apply Hme|by apply Hre]].
    change (apply_hot_reload (key_name KNodeName) value) with
      (do! cluster <- sget r_cluster ;
       match cluster with
       | Some _ => if decide (value = []) then sret tt
                   else in_node (λ e, Internal []) (with_members (rename_local value))
       | None => sret tt
       end : RPC JS DB (ConfigManager FS) unit).
    apply frames_bind; [apply frames_read|]. intros [h|]; [|apply frames_ret].
    case_decide; [apply frames_ret|]. by apply frames_node.
Qed.

Definition keeps_sync {A} (m : RPC JS DB (ConfigManager FS) A) : Prop := ∀ st, hot_sync st → hot_sync (m st).2.

Lemma sync_frame {A} (m : RPC JS DB (ConfigManager FS) A) : frames m → keeps_sync m.
Proof. intros Hm st. by apply frame_sync. Qed.
Lemma sync_bind {A B} (m : RPC JS DB (ConfigManager FS) A) (k : A → RPC JS DB (ConfigManager FS) B) :
  keeps_sync m → (∀ a, keeps_sync (k a)) → keeps_sync (sbind m k).
Proof. intros Hm Hk st Hs. apply sbind_keeps; [by apply Hm|]. intros a st1 _ Hs1. by apply Hk. Qed.

(** A request to set a key, with the services told. *)
Lemma set_sync {A} key value (k : RPC JS DB (ConfigManager FS) A) :
  (∀ path, disk_works (FS := FS) path) → frames k →
  keeps_sync (do! _ <- rpc_in_config (set_config_value key value) ; do! _ <- apply_hot_reload key value ; k).
Proof.
  intros Hdisk Hk st Hs. unfold sbind at 1.
  destruct (rpc_set_cases key value st Hdisk) as [(e & st1 & -> & Hf)|(c & v & st1 & -> & Hv & Hc & Hm & Hr)].
  - by eapply frame_sync.
  - apply sbind_keeps; [by eapply reload_sync|]. intros [] st2 _ Hs2. eapply frame_sync; [apply Hk|done].
Qed.

(** [cluster.join] saves the seed list, which no service reads while it runs. *)
Lemma seeds_sync value : (∀ path, disk_works (FS := FS) path) →
  keeps_sync (sresult (E := RpcError) (rpc_in_config (set_config_value (str "cluster_seeds") value))).
Proof.
  intros Hdisk st Hs. unfold sresult.
  destruct (rpc_set_cases (str "cluster_seeds") value st Hdisk) as [(e & st1 & -> & Hf)|(c & v & st1 & -> & Hv & Hc & Hm & Hr)].
  - by eapply frame_sync.
  - pose proof (reload_sync _ _ _ _ st st1 Hv Hc Hm Hr Hs) as Hr2. exact Hr2.
Qed.

Lemma run_method_sync t m params : (∀ path, disk_works (FS := FS) path) → keeps_sync (run_method t m params).
Proof.
  intros Hdisk. destruct m; cbn [run_method].
  - apply sync_frame. unfold system_version. auto using frames_value with frames.
  - by apply sync_frame.
  - apply sync_frame, frames_bind; [apply frames_lift|]. intros key. apply frames_bind.
    { intros st. by destruct st as [? [] ? ? ?]. }
    intros []; auto with frames.
  - apply sync_bind; [by apply sync_frame|]. intros key. apply sync_bind; [by apply sync_frame|]. intros value.
    by apply set_sync.
  - apply sync_bind; [by apply sync_frame|]. intros key. apply sync_bind; [by apply sync_frame|]. intros value.
    apply set_sync; [done|]. apply frames_bind; [done|]. intros [h|]; apply frames_bind; auto with frames.
    apply frames_bind; [|auto with frames]. apply frames_result, frames_node, same_broadcast.
  - by apply sync_frame.
  - apply sync_frame. unfold device_info, or_error. auto 10 with frames.
  - apply sync_frame. unfold device_delegate. apply frames_bind; [done|]. intros h. apply frames_bind.
    { unfold delegate_target. case_match; [|done]. apply frames_bind; [done|]. intros. apply frames_bind; [done|].
      intros []; done. }
    intros target. apply frames_bind; [done|]. intros. apply frames_bind; [done|]. intros. apply frames_bind.
    { apply frames_for. intros. apply frames_bind; [done|]. intros []; done. }
    intros. apply frames_bind. { apply frames_collect. intros. unfold delegated_from_db. auto 10 with frames. }
    intros. apply frames_bind; [apply frames_node, same_delegation|done].
  - apply sync_frame; unfold cluster_peers, read_node; auto with frames.
  - apply sync_frame; unfold cluster_status, read_node; auto with frames.
  - apply sync_bind; [by apply sync_frame|]. intros h. apply sync_bind; [by apply sync_frame|]. intros text.
    apply sync_bind; [by apply sync_frame|]. intros seed. apply sync_bind; [apply sync_frame, frames_node, same_join|].
    intros []. apply sync_bind; [apply sync_frame, frames_value|]. intros o. apply sync_bind; [by apply seeds_sync|].
    intros r. by apply sync_frame.
  - apply sync_frame. unfold scheduler_upcoming. destruct (page_params params) as [[? ?] ?]. auto with frames.
  - apply sync_frame. unfold scheduler_history. destruct (page_params params) as [[? ?] ?]. auto with frames.
Qed.

Lemma dispatch_sync t req st : (∀ path, disk_works (FS := FS) path) → hot_sync st → hot_sync (dispatch t req st).2.
Proof.
  intros Hdisk Hs. unfold dispatch. destruct (method_of (rq_method req)) as [m|]; [|done].
  pose proof (run_method_sync t m (rq_params req) Hdisk st Hs) as Hr.
  by destruct (run_method t m (rq_params req) st) as [[] ?].
Qed.

(** Requests of any clients, one after the other. *)
Definition serve (reqs : list (Moment * JsonRpcRequest)) st : RpcState JS DB (ConfigManager FS) :=
  fold_left (λ st q, (dispatch q.1 q.2 st).2) reqs st.

(** Any sequence of requests keeps the services in agreement. *)
Lemma serve_sync (reqs : list (Moment * JsonRpcRequest)) st :
  (∀ path, disk_works (FS := FS) path) → hot_sync st → hot_sync (serve reqs st).
Proof.
  intros Hdisk Hstart.
  revert st Hstart. induction reqs as [|[t q] reqs IH]; intros st Hs; [done|]. cbn [serve fold_left].
  apply IH. by apply dispatch_sync.
Qed.
End hot_reload.
