(* ===== verification/RpcExamples.v ===== *)
(** * A console of a concrete node, and instances of the theorems

    Node 7 of [ClusterExamples.v] with the configuration of
    [ConfigExamples.v]. A request is a line of words: the method and then
    the names and values of its parameters. *)

From S2P Require Import Prelude Bytes Net Float32 Node ClusterPayload ClusterMessage Database DatabaseFacts Calendar Scheduler SchedulerFacts DeviceManager DeviceManagerFacts Membership ClusterNode Delegation ClusterServer ClusterFacts ClusterExamples Config ConfigFacts ConfigExamples Rpc RpcServer RpcFacts RpcServerFacts RpcReload.

Local Open Scope Z_scope.
Local Open Scope hes_scope.

#[local] Existing Instance gregorian.gregorian.
#[local] Existing Instance big_endian.big_endian.

(** ** Requests as words *)
Fixpoint pairs (l : list (list Z)) : list (list Z * Value) :=
  match l with
  | k :: v :: l' => (k, JString v) :: pairs l'
  | _ => []
  end.
Definition words_request (l : list Z) : outcome (list Z) JsonRpcRequest :=
  match split 32 l with
  | [] => Err (str "EOF")
  | m :: rest => if decide (m = str "{") then Err (str "EOF") else Ok (mkRequest (str "2.0") m (JObject (pairs rest)) (JInt 1))
  end.
Definition words_response (r : JsonRpcResponse) : option (list Z) :=
  Some (match rs_error r with Some e => dec (- re_code e) ++ str " " ++ re_message e | None => str "ok" end).

#[export] Instance words : RpcText := {|
  request_from_str := words_request;
  response_to_vec := words_response;
  rfc3339 t := dec t;
  naive_text t := dec t;
  job_scheduler_error_text := str "scheduler";
  io_error_text := str "io"
|}.

(** ** The console *)
Local Notation Console := (RpcState JobTable InnerDB (ConfigManager Disk)).

Definition console_node : ClusterNode JobTable InnerDB (ConfigManager Disk) :=
  mkClusterNode list7 (manager 7 {[ 1; 5 ]} shared_db) started [] 0.
Definition console : Console :=
  mkRpcState 7 console_node (Some (mkHandle 7 (SockV4 10 0 0 7 6570))) false [(str "0.0.0.0", str "6565")].

Definition moment : Moment := mkMoment 0 77 60.
Definition ask (line : list Z) : Moment * JsonRpcRequest :=
  (moment, match words_request line with Ok r => r | _ => mkRequest [] [] JNull JNull end).

Lemma console_services : services_answer (DB := InnerDB) (CS := ConfigManager Disk).
Proof.
  split.
  - intros s. simpl. unfold uuid_of_text. destruct (negb _); [done|apply ok_or_no_panic].
  - intros s. simpl. unfold words_request. destruct (split 32 s); [done|]. by case_decide.
  - intros id db. simpl. apply ok_or_no_panic.
  - intros id db. simpl. unfold mem_get_scheduled_connection. apply ok_or_no_panic.
  - done.
  - done.
  - done.
  - done.
  - intros k v s. simpl. destruct (set_value_cases k v s) as [(e & _ & ->)|[[Hv _]|(c & w & _ & ->)]]; [done| |].
    + by apply validate_no_panic in Hv.
    + destruct (cm_store_effect (apply_validated c w) s) as (_ & _ & _ & Hw). by rewrite (Hw (disk_always_works _)).
Qed.

(** A version request, a blank line, no request, an unknown method, an unknown device. *)
Definition client_lines : list (list Z) :=
  [str "system.version" ++ [10]; [13; 10]; str "{" ++ [10]; str "system.reboot" ++ [10];
   str "device.info device_id 00000000-0000-0000-0000-000000000009" ++ [10]].

Lemma every_line_is_answered_witness :
  ∃ rs out (st' : Console),
    handle_connection (λ _, moment) (λ _, true) 0 ((Line <$> client_lines) ++ [Closed]) console = (out, st') ∧
    length rs = 4%nat ∧
    Forall2 (λ r bytes, ∃ b, response_to_vec r = Some b ∧ bytes = b ++ [10]) rs out.
Proof.
  destruct (every_line_is_answered console_services (λ _, moment) client_lines 0 console)
    as (rs & out & st' & Hrun & Hrs & Hout).
  - intros l Hl. revert l Hl. apply Forall_forall. apply (bool_decide_unpack _). vm_compute. exact I.
  - discriminate.
  - exists rs, out, st'. split; [exact Hrun|]. split; [|exact Hout]. apply Forall2_length in Hrs. rewrite <- Hrs.
    vm_compute. reflexivity.
Defined.

(** Two clients: the first asks twice, its second answer cannot be written; the second sends
    no request and leaves. *)
Definition two_clients : list (RpcEvent JobTable InnerDB (ConfigManager Disk)) :=
  [ReAccept true; ReStart 0; ReAccept false; ReAccept true; ReRead 0 moment true (Line (str "system.version" ++ [10]));
   ReStart 1; ReRead 1 moment true (Line (str "{" ++ [10])); ReRead 0 moment false (Line (str "config.list" ++ [10]));
   ReRead 1 moment true Closed; ReAccept true; ReStart 2].

Lemma concurrent_clients_answered_witness :
  let s := rpc_run two_clients (rpc_server_new console) in
  rv_gauge s = 1 ∧ length <$> (co_out <$> rv_conns s) = [1; 1; 0]%nat ∧
  (∀ k c, rv_conns s !! k = Some c → co_state c ≠ CoPanicked) ∧
  ∀ c, rv_conns s !! 0%nat = Some c → ∃ rs, Forall2 answers_line [str "system.version" ++ [10]] rs ∧ length rs = length (co_out c).
Proof.
  destruct (concurrent_clients_answered console_services ltac:(discriminate) two_clients console) as [Hall Hg].
  cbv zeta. split; [rewrite Hg; vm_compute; reflexivity|]. split; [vm_compute; reflexivity|].
  split; [intros k c Hk; exact (proj2 (proj2 (Hall k c Hk)))|].
  intros c Hc. destruct (Hall 0%nat c Hc) as ((rs & Ha & Hw) & _). exists rs.
  assert (Hl : omap to_answer (reads 0 two_clients (rpc_server_new console)) = [str "system.version" ++ [10]]) by (vm_compute; reflexivity).
  rewrite Hl in Ha. split; [exact Ha|exact (Forall2_length _ _ _ Hw)].
Defined.

(** Devices are stored under their own identifier. *)
Lemma mem_names_devices : names_devices (λ db : InnerDB, map_Forall (λ id d, dev_id d = id) (devices db)).
Proof.
  split.
  - intros id db d db' Hdb. simpl. unfold mem_get_device. destruct (devices db !! id) as [x|] eqn:Hx; [|done].
    intros [= <- _]. by apply (Hdb id).
  - done.
  - done.
Qed.

Lemma delegate_offers_only_owned_witness :
  let params := obj [(str "count", JInt 1)] in
  ∃ st' : Console, (device_delegate 0 params console).2 = st' ∧
    rpc_owned st' = {[ 1; 5 ]} ∧ rpc_sent st' ≠ [] ∧
    ∃ devices, offers console st' 0 devices ∧ ∀ d, d ∈ devices → dd_device_id d ∈ rpc_owned console.
Proof.
  intros params. eexists. split; [reflexivity|].
  destruct (delegate_offers_only_owned (λ db, map_Forall (λ id d, dev_id d = id) (devices db)) 0 params console
    (device_delegate 0 params console).1 (device_delegate 0 params console).2) as [Ho Hs].
  - exact mem_names_devices.
  - apply (bool_decide_unpack _). vm_compute. exact I.
  - apply surjective_pairing.
  - assert (Hne : rpc_sent (device_delegate 0 params console).2 ≠ []) by (vm_compute; discriminate).
    split; [rewrite Ho; reflexivity|]. split; [exact Hne|]. destruct Hs as [Hs|Hs]; [|exact Hs].
    exfalso. apply Hne. rewrite Hs. reflexivity.
Defined.

Lemma device_info_unknown_witness :
  ∃ st' : Console,
    dispatch moment (ask (str "device.info device_id 00000000-0000-0000-0000-000000000009")).2 console
      = (Some (rpc_error (JInt 1) (RpcDatabase (str "Error: No data found"))), st').
Proof.
  destruct (device_info_unknown moment (ask (str "device.info device_id 00000000-0000-0000-0000-000000000009")).2
    console (str "00000000-0000-0000-0000-000000000009") 9 shared_db) as (st' & Hrun & _).
  - vm_compute. reflexivity.
  - vm_compute. reflexivity.
  - vm_compute. reflexivity.
  - vm_compute. reflexivity.
  - exists st'. exact Hrun.
Defined.

Lemma self_delegation_drops_devices_witness :
  let d := mkDelegated 5 None None (86400 * ns_per_s) in
  ∃ r (s1 s2 : ClusterNode JobTable InnerDB (ConfigManager Disk)),
    handle_delegation_request 0 7 (SockV4 10 0 0 7 6570) (mkDelegateRequest [delegated_payload d] Rebalance) console_node
      = (r, s1) ∧
    handle_delegation_accept (mkDelegateAccept [5]) s1 = (Ok tt, s2) ∧
    5 ∉ owned (cn_dm s2) ∧ ∃ b, table (cn_dm s2) !! 5 = Some (b, 7).
Proof.
  intros d. destruct (self_delegation_drops_devices 0 (SockV4 10 0 0 7 6570) Rebalance [d] console_node)
    as (_ & r & s1 & s2 & Hreq & Hacc & Hout).
  - exact job_table_accepts.
  - vm_compute. reflexivity.
  - intros x ->%list_elem_of_singleton. apply (bool_decide_unpack _). vm_compute. exact I.
  - exact alpha_owns.
  - exists r, s1, s2. split; [exact Hreq|]. split; [exact Hacc|]. apply (Hout d). set_solver.
Defined.

(** Metrics on, a new port with leading zeros, a bad port, the node renamed. *)
Definition operator : list (Moment * JsonRpcRequest) :=
  [ask (str "config.set key metrics_enabled value true"); ask (str "config.propagate key backdoor_port value 07000");
   ask (str "config.set key backdoor_port value 70000"); ask (str "config.set key node_name value south");
   ask (str "cluster.join seed 10.0.0.9:6570")].
