(* ===== verification/MainFacts.v ===== *)
(** * Facts about the running system

    From the start of the program on, the services follow the configuration;
    and what a node without a cluster does not load. *)

From S2P Require Import Prelude Bytes Net Float32 Node ClusterPayload ClusterMessage Database DatabaseFacts Calendar Scheduler SchedulerFacts DeviceManager DeviceManagerFacts Membership ClusterNode Delegation FailureDetector ClusterServer ClusterManager ClusterFacts ClusterExamples Config ConfigFacts ConfigExamples Rpc Metrics MetricsFacts Main RpcFacts RpcReload RpcExamples.

Local Open Scope Z_scope.
Local Open Scope hes_scope.

Section facts.
Context `{RpcText} `{UuidCrate} `{YamlCrate} `{Environment} {FS : Type} `{FileSystem FS}.
Context `{BytesCrate} `{ChronoCrate} `{HashOrder} `{UdpSocket}.
Context {JS DB : Type} `{JobCrate JS} `{Engine DB}.
Implicit Types (bt : Boot FS JS DB) (st : RpcState JS DB (ConfigManager FS)).

(** While the cluster is joined the other tasks leave the configuration alone. *)
Definition leaves_config bt : Prop := ∀ s, cn_config (p_others (bt_pause bt) s) = cn_config s.

Lemma same_dm {A} (m : DM JS DB A) : same_cfg (in_dm (CS := ConfigManager FS) m).
Proof. intros s. unfold in_dm, szoom. by destruct (m (cn_dm s)). Qed.
Lemma same_cdb {A} (m : SE DB DatabaseError A) : same_cfg (in_cdb (JS := JS) (CS := ConfigManager FS) m).
Proof. intros s. unfold in_cdb, szoom. by destruct (m _). Qed.
Lemma same_for {A} (l : list A) (f : A → C JS DB (ConfigManager FS) unit) : (∀ x, same_cfg (f x)) → same_cfg (sfor l f).
Proof. intros Hf. induction l; cbn [sfor]; [done|]. by apply same_bind. Qed.
Lemma same_try target msg : same_cfg (try_send (JS := JS) (DB := DB) (CS := ConfigManager FS) target msg).
Proof.
  apply same_bind; [|done]. intros s. unfold sresult. pose proof (same_udp target msg s) as Hs.
  by destruct (udp_send target msg s) as [[] ?].
Qed.

Lemma same_start cc bt : leaves_config bt → same_cfg (start cc (bt_pause bt)).
Proof.
  intros Hp. apply same_bind; [apply same_dm|]. intros _. apply same_bind.
  - case_decide; [apply same_bind; [apply same_dm|done]|].
    apply same_bind; [done|]. intros [id seq]. apply same_bind; [done|]. intros payload.
    apply same_bind; [apply same_for; intros; apply same_try|]. intros _. apply same_bind; [exact Hp|]. intros _.
    apply same_bind; [apply same_dm|done].
  - intros _. apply same_bind; [apply same_cdb|done].
Qed.

Lemma start_cluster_config bt cm d node h :
  leaves_config bt → start_cluster bt cm d = Ok (node, h) → cn_config node = cm ∧ h ≠ None.
Proof.
  intros Hp. unfold start_cluster. destruct (from_cli_args _ _ _ _ _ _ _ _ _) as [cc|e|]; cbn [omap_err obind]; [|done..].
  destruct (negb _); [done|]. destruct (cluster_manager_new _ _ _ _) as [n0|e|] eqn:Hn; cbn [omap_err obind]; [|done..].
  assert (Hc : cn_config n0 = cm).
  { unfold cluster_manager_new in Hn. by destruct (membership_new _ _) as [x| |]; simplify_eq/=. }
  pose proof (same_start cc bt Hp n0) as Hs. destruct (start cc (bt_pause bt) n0) as [[u|e|] n1]; [|done..].
  intros [= <- <-]. simpl in *. split; [congruence|done].
Qed.

(** What the started system is made of. *)
Lemma main_ok bt path cli fs st :
  leaves_config bt → hes_main bt path cli fs = Ok st →
  ∃ config p fs1, resolve_config (bt_fresh bt) path cli fs = (Ok (config, p), fs1) ∧
    cn_config (r_node st) = mkConfigManager config p fs1 ∧ r_node_id st = hc_node_id config ∧
    r_metrics_enabled st = hc_metrics_enabled config ∧
    r_rebind st = [(hc_backdoor_ip config, hc_backdoor_port config)] ∧
    (hc_cluster_enabled config = true → hc_database_type config = Postgres) ∧
    (r_cluster st = None ↔ hc_cluster_enabled config = false).
Proof.
  intros Hp. unfold hes_main. destruct (resolve_config _ _ _ _) as [[[config p]|e|] fs1]; [|done..].
  destruct (hc_cluster_enabled config && _) eqn:Hdb; [done|].
  destruct (bt_db bt _) as [db|e|]; cbn [omap_err obind]; [|done..].
  set (cm := mkConfigManager config p fs1). set (o := if hc_cluster_enabled config then _ else _).
  assert (Ho : ∀ node h, o = Ok (node, h) → cn_config node = cm ∧ (h = None ↔ hc_cluster_enabled config = false)).
  { intros node h. unfold o. destruct (hc_cluster_enabled config) eqn:Hce; [|by intros [= <- <-]].
    intros Hs. destruct (start_cluster_config bt cm _ node h Hp Hs). by split. }
  destruct o as [[node h]|e|]; cbn [obind]; [|done..]. destruct (Ho node h eq_refl) as [Hc Hh].
  destruct (sbind _ _ _) as [[u|e|] d1]; [|done..].
  repeat (case_match; [done|]). intros [= <-]. exists config, p, fs1. simpl.
  do 5 (split; [done|]). split; [|done]. intros Hce. rewrite Hce in Hdb. simpl in Hdb.
  apply bool_decide_eq_false in Hdb. by destruct (hc_database_type config).
Qed.

(** C17: The running services follow the configuration. From the start of the program, with any
    configuration file and options, alone or in a cluster, and after any sequence of requests
    to the console, accepted or rejected: the metrics flag is the configured one and the
    address last sent to the backdoor's listener is the configured one. This holds as long
    as the configuration file can be written and, in a cluster, other nodes do not change
    the configuration while this one is joining. *)
Theorem services_follow_config bt path cli fs (reqs : list (Moment * JsonRpcRequest)) st
    (Hdisk : ∀ path, disk_works (FS := FS) path) (Hp : leaves_config bt) (Hstart : hes_main bt path cli fs = Ok st) :
  hot_sync (serve reqs st).
Proof.
  apply serve_sync; [done|]. destruct (main_ok bt path cli fs st Hp Hstart) as (config & p & fs1 & _ & Hc & _ & Hm & Hr & _).
  unfold hot_sync, cfg. rewrite Hc, Hm, Hr. done.
Qed.


(** A node that runs without a cluster does not load its devices. Whatever the database holds,
    also devices that name this node as owner, the set of owned devices is empty after the
    start: [device.list] answers none and the device count is zero, although the scheduler
    reloads the connections of all devices. *)
Theorem single_node_starts_without_devices bt path cli fs st
    (Hp : leaves_config bt) (Hstart : hes_main bt path cli fs = Ok st) (Hsingle : r_cluster st = None) :
  rpc_owned st = ∅.
Proof.
  destruct (main_ok bt path cli fs st Hp Hstart) as (config & p & fs1 & Hres & _ & _ & _ & _ & _ & Hcl).
  apply Hcl in Hsingle. unfold hes_main in Hstart. rewrite Hres, Hsingle in Hstart. cbn [andb] in Hstart.
  destruct (bt_db bt _) as [db|e|]; cbn [omap_err obind] in Hstart; [|done..].
  unfold dm_set_reschedule_sender, dm_sched_mod in Hstart. rewrite sbind_mod in Hstart.
  unfold dm_reload_active_connections, dm_in_sched, szoom in Hstart.
  destruct (scheduler_reload_active_connections _ _) as [[u|e|] ss]; cbn [omap_err] in Hstart; [|done..].
  repeat (case_match; [done|]). by injection Hstart as <-.
Qed.
End facts.

(** ** The input loop *)
Lemma input_loop_ends reads rest :
  input_loop reads = Some rest ↔
  ∃ pre r, reads = pre ++ r :: rest ∧ quit_key r = true ∧ Forall (λ x, quit_key x = false) pre.
Proof.
  revert rest. induction reads as [|r reads IH]; intros rest; cbn [input_loop].
  - split; [done|]. intros (pre & r & Heq & _). by destruct pre.
  - destruct (quit_key r) eqn:Hr.
    + split; [intros [= ->]; by exists [], r|]. intros (pre & r' & Heq & _ & Hpre). destruct pre as [|x pre].
      * by injection Heq as _ ->.
      * injection Heq as <- _. apply Forall_cons in Hpre as [Hx _]. by rewrite Hr in Hx.
    + rewrite IH. split.
      * intros (pre & r' & -> & Hq & Hpre). exists (r :: pre), r'. by rewrite Forall_cons.
      * intros (pre & r' & Heq & Hq & Hpre). destruct pre as [|x pre]; injection Heq as -> ->; [by rewrite Hr in Hq|].
        apply Forall_cons in Hpre as [_ Hpre]. by exists pre, r'.
Qed.

(** The key is only seen as the first byte of what one read takes, and once the input has
    ended the loop turns for ever. *)
Example late_key_is_lost : input_loop [Some (str "xq")] = None.
Proof. reflexivity. Qed.
Lemma closed_input_spins n : input_loop (replicate n (Some [])) = None.
Proof. induction n; [done|]. exact IHn. Qed.

(** ** A server that was started with options *)
#[local] Existing Instance gregorian.gregorian.
#[local] Existing Instance big_endian.big_endian.

Definition boot : Boot Disk JobTable InnerDB :=
  mkBoot node_uuid 1 None (λ _, Ok shared_db) 0 (mkPause 0 0 0 (λ s, s)) (λ _, 0) true true true true.
Definition booted : outcome StartError (RpcState JobTable InnerDB (ConfigManager Disk)) :=
  hes_main boot (Some node_file) with_options ∅.
Definition running : RpcState JobTable InnerDB (ConfigManager Disk) :=
  match booted with Ok st => st | _ => console end.

Lemma booted_ok : booted = Ok running.
Proof.
  unfold running. assert (Hb : ∃ st, booted = Ok st) by (unfold booted; eexists; vm_compute; reflexivity).
  destruct Hb as [st Hb]. rewrite Hb. done.
Qed.

Lemma services_follow_config_witness :
  r_metrics_enabled (serve operator running) = true ∧ last (r_rebind (serve operator running)) = Some (str "0.0.0.0", str "7000").
Proof.
  destruct (services_follow_config boot (Some node_file) with_options ∅ operator running) as [Hm Hr].
  - exact disk_always_works.
  - done.
  - exact booted_ok.
  - rewrite Hm, Hr. split; vm_compute; reflexivity.
Defined.

(** The database names the node as owner of device 1. *)
Lemma single_node_starts_without_devices_witness :
  rpc_owned running = ∅ ∧ r_cluster running = None.
Proof.
  assert (Hc : r_cluster running = None) by (vm_compute; reflexivity).
  split; [|exact Hc].
  apply (single_node_starts_without_devices boot (Some node_file) with_options ∅ running); [done|exact booted_ok|exact Hc].
Defined.

#[local] Existing Instance name_registry.name_registry.

