(* ===== verification/HesCliFacts.v ===== *)
(** * Facts about the command-line client

    A session of the client against the console of a node: what the operator
    is shown is what the methods answer. *)

From S2P Require Import Prelude Bytes Net Float32 Node ClusterPayload ClusterMessage Database Calendar Scheduler DeviceManager Membership ClusterNode Delegation ClusterFacts Config Rpc RpcFacts HesCli.

Local Open Scope Z_scope.
Local Open Scope hes_scope.

(** ** Commands are requests *)
Lemma to_digit_10 c d : to_digit 10 c = Some d → 0 <= d < 10.
Proof. unfold to_digit, in_range. repeat case_match; intros; simplify_eq; lia. Qed.

Lemma parse_digits_range bound l acc n :
  0 <= acc <= bound → parse_digits bound l acc = Some n → 0 <= n <= bound.
Proof.
  revert acc. induction l as [|c l IH]; intros acc Hacc; cbn [parse_digits]; [by intros [= <-]|].
  destruct (to_digit 10 c) as [d|] eqn:Hd; [|done]. apply to_digit_10 in Hd.
  destruct (Z.leb_spec (acc * 10 + d) bound); [|done]. apply IH. lia.
Qed.

Lemma parse_uint_range bound l n : 0 <= bound → parse_uint bound l = Some n → 0 <= n <= bound.
Proof. intros Hb. unfold parse_uint. case_match; [done|]. apply parse_digits_range. lia. Qed.

Definition json_range (n : Z) : Prop := - 2 ^ 63 <= n < 2 ^ 64.

Lemma parse_u64_range l n : parse_u64 l = Some n → 0 <= n < 2 ^ 64.
Proof. unfold parse_u64. intros Hp. apply parse_uint_range in Hp; lia. Qed.
Lemma parse_i64_range l n : parse_i64 l = Some n → json_range n.
Proof.
  unfold parse_i64, json_range. intros Hp.
  repeat case_match; subst; try done;
    first [ apply fmap_Some in Hp as (m & Hm & ->); apply parse_digits_range in Hm; lia
          | apply parse_uint_range in Hp; lia ].
Qed.
Lemma parse_range_default (parse : list Z → option Z) d l :
  (∀ w n, parse w = Some n → json_range n) → json_range d → json_range (default d (parse l)).
Proof. intros Hp Hd. destruct (parse l) eqn:Hl; simpl; eauto. Qed.

Lemma page_options_step parse d a b words limit offset other :
  page_options parse d (a :: b :: words) limit offset other =
  if decide (a = str "--limit") then page_options parse d words (default d (parse b)) offset other
  else if decide (a = str "--offset") then page_options parse d words limit (default 0 (parse b)) other
  else page_options parse d (b :: words) limit offset (Some a).
Proof. reflexivity. Qed.

Lemma page_options_range parse d words limit offset other limit' offset' other' :
  (∀ w n, parse w = Some n → json_range n) → json_range d → json_range limit → json_range offset →
  page_options parse d words limit offset other = (limit', offset', other') → json_range limit' ∧ json_range offset'.
Proof.
  intros Hp Hd. remember (length words) as k eqn:Hk. revert words Hk limit offset other.
  induction k as [k IH] using (well_founded_induction lt_wf). intros [|a [|b words]] -> limit offset other Hl Ho.
  1, 2: by intros [= <- <- <-].
  rewrite page_options_step.
  assert (Hz : json_range 0) by (unfold json_range; lia).
  repeat case_decide; (eapply IH; [|reflexivity|..]); simpl; try lia; auto using parse_range_default.
Qed.

Lemma json_int n : json_range n → json_ok (JInt n) = true.
Proof. unfold json_range. simpl. lia. Qed.
Lemma json_strings l : json_ok (JArray (JString <$> l)) = true.
Proof. simpl. by induction l. Qed.

(** The parameters a method asks for are there. *)
Definition required (m : Method) : list string :=
  match m with
  | ConfigGet => ["key"%string]
  | ConfigSet | ConfigPropagate => ["key"; "value"]%string
  | DeviceInfo => ["device_id"%string]
  | ClusterJoin => ["seed"%string]
  | _ => []
  end.
Definition selects (p : Value) : Prop :=
  is_Some (json_get (str "device_ids") p ≫= as_array) ∨ is_Some (param_str (str "device_id") p) ∨
  is_Some (json_get (str "count") p ≫= as_u64).
Definition params_complete (m : Method) (p : Value) : Prop :=
  Forall (λ k, is_Some (param_str (str k) p)) (required m) ∧ (m = DeviceDelegate → selects p).

Lemma with_field_ok k o fields :
  forallb (λ e, json_ok e.2) fields = true → NoDup (str k :: fields.*1) → json_ok (with_field k o fields) = true.
Proof.
  intros Hf Hn%NoDup_cons. unfold with_field. simpl. rewrite forallb_app, Hf. destruct o; simpl.
  - rewrite bool_decide_true; [done|]. rewrite fmap_app. apply NoDup_app. split; [tauto|]. split; [|apply NoDup_singleton].
    intros x Hx ->%list_elem_of_singleton. tauto.
  - rewrite bool_decide_true; [done|]. rewrite app_nil_r. tauto.
Qed.

Lemma delegate_params_ok selector target :
  json_ok (delegate_params selector target) = true ∧ selects (delegate_params selector target).
Proof.
  unfold delegate_params, selects. destruct (parse_u64 selector) as [n|] eqn:Hn; [|case_decide].
  - apply parse_u64_range in Hn. split.
    + apply with_field_ok; [|apply (bool_decide_unpack _); vm_compute; exact I]. cbn [forallb snd]. rewrite json_int; [done|].
      unfold json_range. lia.
    + do 2 right. exists n. destruct target; simpl; rewrite (proj2 (Z.leb_le 0 n)), (proj2 (Z.ltb_lt n (2 ^ 64))) by lia; reflexivity.
  - split.
    + apply with_field_ok; [|apply (bool_decide_unpack _); vm_compute; exact I]. cbn [forallb snd]. by rewrite json_strings.
    + left. by destruct target; eexists.
  - split.
    + apply with_field_ok; [done|apply (bool_decide_unpack _); vm_compute; exact I].
    + right. left. by destruct target; eexists.
Qed.

Lemma page_ok parse d words limit offset other limit' offset' other' :
  (∀ w n, parse w = Some n → json_range n) → json_range d → json_range limit → json_range offset →
  page_options parse d words limit offset other = (limit', offset', other') →
  forallb (λ e, json_ok e.2) [(str "limit", JInt limit'); (str "offset", JInt offset')] = true.
Proof. intros ? ? ? ? Hp. eapply page_options_range in Hp as [Hl Ho]; [|done..]. cbn [forallb snd]. by rewrite !json_int. Qed.

Lemma scheduler_params_ok args : json_ok (scheduler_params args) = true.
Proof.
  unfold scheduler_params. destruct (page_options _ _ _ _ _ _) as [[limit offset] other] eqn:Hp.
  apply with_field_ok; [|apply (bool_decide_unpack _); vm_compute; exact I].
  eapply page_ok; [|..|exact Hp]; first [exact parse_i64_range | unfold json_range; lia].
Qed.

Lemma device_list_ok args limit offset other :
  page_options parse_u64 100 args 100 0 None = (limit, offset, other) →
  json_ok (JObject [(str "limit", JInt limit); (str "offset", JInt offset)]) = true.
Proof.
  intros Hp. change (json_ok (with_field "limit" None [(str "limit", JInt limit); (str "offset", JInt offset)]) = true).
  eapply page_ok in Hp; [|intros w n Hw; apply parse_u64_range in Hw; unfold json_range; lia|unfold json_range; lia..].
  unfold with_field. cbn [json_ok]. rewrite app_nil_r, Hp. by rewrite bool_decide_true by (apply (bool_decide_unpack _); vm_compute; exact I).
Qed.

Ltac command_case :=
  split; [reflexivity | split; [repeat constructor; eexists; reflexivity | discriminate]].

Lemma command_of_ok parts m p : command_of parts = Some (m, p) → json_ok p = true ∧ params_complete m p.
Proof.
  unfold command_of, params_complete. intros Hc.
  repeat case_match; simplify_eq; first
    [ command_case
    | split; [eapply device_list_ok; eassumption | split; [constructor | discriminate]]
    | split; [apply scheduler_params_ok | split; [constructor | discriminate]]
    | split; [apply delegate_params_ok | split; [constructor | intros _; apply delegate_params_ok]] ].
Qed.

(** ** A session *)
Definition request_value (id : Z) (m : Method) (p : Value) : Value :=
  JObject [(str "jsonrpc", JString (str "2.0")); (str "method", JString (cli_method m));
           (str "params", p); (str "id", JInt id)].

Lemma request_read id m p :
  request_of_value (request_value id m p) = Some (mkRequest (str "2.0") (cli_method m) p (JInt id)).
Proof. reflexivity. Qed.
Lemma command_request_ok id m p : 0 <= id < 2 ^ 64 → json_ok p = true → json_ok (request_value id m p) = true.
Proof.
  intros Hid Hp. unfold request_value.
  change (json_ok (JObject ?l)) with (bool_decide (NoDup l.*1) && forallb (λ e, json_ok e.2) l)%bool.
  rewrite bool_decide_true by (apply (bool_decide_unpack _); vm_compute; exact I). cbn [forallb snd andb].
  rewrite Hp, json_int by (unfold json_range; lia). reflexivity.
Qed.
Lemma method_of_name m : method_of (cli_method m) = Some m.
Proof. by destruct m. Qed.

(** The commands of a session: the lines that are commands, up to the first that leaves. *)
Fixpoint commands (input : list (list Z)) : list (Method * Value) :=
  match input with
  | [] => []
  | line :: input' =>
      match cli_turn line 0 with
      | CliExit => []
      | CliSend _ => match command_of (split_whitespace (trim line)) with Some c => [c] | None => [] end ++ commands input'
      | _ => commands input'
      end
  end.

Lemma cli_turn_cases line id :
  (∃ m p, cli_turn line id = CliSend (request_value id m p) ∧ command_of (split_whitespace (trim line)) = Some (m, p) ∧
     ∀ input, commands (line :: input) = (m, p) :: commands input) ∨
  (cli_turn line id = CliExit ∧ ∀ input, commands (line :: input) = []) ∨
  (cli_turn line id ∈ [CliContinue; CliHelp; CliUnknown] ∧ ∀ input, commands (line :: input) = commands input).
Proof.
  assert (Hin : ∀ x : CliAction, x = CliContinue ∨ x = CliHelp ∨ x = CliUnknown → x ∈ [CliContinue; CliHelp; CliUnknown])
    by (intros ? [->|[->| ->]]; repeat constructor).
  cbn [commands]. unfold cli_turn, parse_command.
  case_decide; [eauto 10|]. case_decide; [eauto 10|]. case_decide; [eauto 10|].
  destruct (command_of _) as [[m p]|] eqn:Hc; simpl; [left; eauto|eauto 10].
Qed.

Section session.
Context `{ValueText} `{UuidCrate} `{BytesCrate} `{ChronoCrate} `{HashOrder} `{UdpSocket}.
Context {JS DB CS : Type} `{JobCrate JS} `{Engine DB} `{ConfigStore CS}.
Implicit Types (st : RpcState JS DB CS).
Hypothesis services : services_answer (DB := DB) (CS := CS).

Definition shown_of (r : outcome RpcError Value) : option Shown :=
  match r with
  | Ok v => Some (ShowResult v)
  | Err e => Some (ShowError (rpc_code e) (rpc_error_text e))
  | Panic => None
  end.

(** What a session is to be: the methods one after the other, each under the next
    identifier, and the result or the error of each shown. *)
Fixpoint session_spec (clock : nat → Moment) (n : nat) (id : Z) (cmds : list (Method * Value)) st
  : list (Value * option Shown) * RpcState JS DB CS :=
  match cmds with
  | [] => ([], st)
  | (m, p) :: cmds' =>
      let (r, st1) := run_method (clock n) m p st in
      let (shown, st2) := session_spec clock (S n) (id + 1) cmds' st1 in
      ((request_value id m p, shown_of r) :: shown, st2)
  end.

Definition request_line (v : Value) : ReadLine := Line (value_to_vec v ++ [10]).

(** One request and its response. *)
Lemma request_served t id m p st :
  ∃ r, dispatch t (mkRequest (str "2.0") (cli_method m) p (JInt id)) st = (Some r, (run_method t m p st).2) ∧
    rs_id r = JInt id ∧ Some (pretty_print_response (response_value r)) = shown_of (run_method t m p st).1.
Proof.
  unfold dispatch. cbn [rq_method rq_params rq_id]. rewrite method_of_name.
  pose proof (run_method_np services t m p st) as Hm.
  destruct (run_method t m p st) as [[v|e|] st']; [| |done]; (eexists; split; [reflexivity|]); (split; [reflexivity|]).
  - reflexivity.
  - by destruct e.
Qed.

Lemma connection_step clock n v req input st r st1 b :
  json_ok v = true → request_of_value v = Some req → Z.of_nat (length (value_to_vec v)) < MAX_LINE_LENGTH →
  dispatch (clock n) req st = (Some r, st1) → response_to_vec r = Some b →
  handle_connection clock (λ _, true) n (request_line v :: input) st =
  let (out, st2) := handle_connection clock (λ _, true) (S n) input st1 in ((b ++ [10]) :: out, st2).
Proof.
  intros Hok Hv Hlen Hd Hb. destruct (value_trimmed v req Hok Hv) as [Htrim Hne]. cbn [handle_connection request_line].
  rewrite length_app. cbn [length]. destruct (Z.ltb_spec MAX_LINE_LENGTH (Z.of_nat (length (value_to_vec v) + 1))); [lia|].
  rewrite Htrim, decide_False by done. by rewrite (value_read v req Hok Hv), Hd, Hb.
Qed.

(** C19: The command-line client shows what the node does. In a session of any typed lines
    against the console of a node, each command is sent as one request with the parameters
    its method asks for, the requests are numbered upwards, and the node runs the methods in
    the order of the commands; for each the operator is shown the method's result or its
    error. Blank lines, unknown commands and what follows [exit] send nothing. *)
Theorem cli_session_shows_methods (clock : nat → Moment) (n : nat) (id : Z) (input : list (list Z)) st
    (Hid : 0 <= id ∧ id + Z.of_nat (length input) < 2 ^ 64)
    (Hser : ∀ r, response_to_vec r ≠ None)
    (Hshort : ∀ v, v ∈ (session_spec clock n id (commands input) st).1.*1 →
      Z.of_nat (length (value_to_vec v)) < MAX_LINE_LENGTH) :
  ∃ rs out,
    cli_loop input ((λ r, Answered (response_value r)) <$> rs) id = (session_spec clock n id (commands input) st).1 ∧
    handle_connection clock (λ _, true) n
      ((request_line <$> (session_spec clock n id (commands input) st).1.*1) ++ [Closed]) st
      = (out, (session_spec clock n id (commands input) st).2) ∧
    Forall2 (λ r bytes, ∃ b, response_to_vec r = Some b ∧ bytes = b ++ [10]) rs out ∧
    Forall (λ c, params_complete c.1 c.2) (commands input).
Proof.
  revert n id st Hid Hshort. induction input as [|line input IH]; intros n id st Hid.
  { intros _. exists [], []. repeat split; constructor. }
  cbn [length] in Hid. destruct (cli_turn_cases line id) as [(m & p & Hturn & Hc & Hcmd)|[[Hturn Hcmd]|[Hturn Hcmd]]];
    rewrite Hcmd; cbn [cli_loop session_spec].
  - destruct (request_served (clock n) id m p st) as (r & Hd & Hr & Hshown).
    destruct (run_method (clock n) m p st) as [res st1]. cbn [fst snd] in Hd, Hshown.
    specialize (IH (S n) (id + 1) st1 ltac:(lia)).
    destruct (session_spec clock (S n) (id + 1) (commands input) st1) as [shown st2]. cbn [fst snd fmap list_fmap] in *.
    intros Hshort. destruct IH as (rs & out & Hloop & Hrun & Hout & Hall); [intros v Hv; apply Hshort; by constructor|].
    destruct (response_to_vec r) as [b|] eqn:Hb; [|by destruct (Hser r)].
    destruct (command_of_ok _ _ _ Hc) as [Hp Hfull].
    exists (r :: rs), ((b ++ [10]) :: out). cbn [fmap list_fmap]. split_and!.
    + rewrite Hturn. rewrite Hshown. f_equal. rewrite <- Hloop. f_equal. unfold wrap_u64. rewrite Z.mod_small; lia.
    + cbn [app]. erewrite connection_step; [|apply command_request_ok; [lia|done]|apply request_read| |exact Hd|exact Hb].
      * by rewrite Hrun.
      * apply Hshort. constructor.
    + constructor; eauto.
    + by constructor.
  - intros _. rewrite Hturn. exists [], []. repeat split; constructor.
  - intros Hshort. destruct (IH n id st) as (rs & out & Hloop & Hrest); [lia|done|]. exists rs, out. split; [|exact Hrest].
    rewrite <- Hloop. by apply list_elem_of_In in Hturn as [<-|[<-|[<-|[]]]].
Qed.
End session.
