(* ===== verification/HesCliExamples.v ===== *)
(** * A session of the command-line client with a concrete node

    The console of [RpcExamples.v], and a text of values: the digits of the
    binary number that encodes the value as a tree. *)

From S2P Require Import Prelude Bytes Net Float32 Node ClusterPayload ClusterMessage Database DatabaseFacts Calendar Scheduler SchedulerFacts DeviceManager DeviceManagerFacts Membership ClusterNode Delegation ClusterServer ClusterFacts ClusterExamples Config ConfigFacts ConfigExamples Rpc RpcFacts RpcReload RpcExamples HesCli HesCliFacts.

Local Open Scope Z_scope.
Local Open Scope hes_scope.

#[local] Existing Instance gregorian.gregorian.
#[local] Existing Instance big_endian.big_endian.

(** ** Values as trees *)
Local Notation Leaf := (list Z + (Z + bool))%type.

Definition float_tree (f : f32) : gen_tree Leaf :=
  match f with
  | SpecFloat.S754_zero s => GenNode 10 [GenLeaf (inr (inr s))]
  | SpecFloat.S754_infinity s => GenNode 11 [GenLeaf (inr (inr s))]
  | SpecFloat.S754_nan => GenNode 12 []
  | SpecFloat.S754_finite s m e => GenNode 13 [GenLeaf (inr (inr s)); GenLeaf (inr (inl (Z.pos m))); GenLeaf (inr (inl e))]
  end.
Definition tree_float (t : gen_tree Leaf) : f32 :=
  match t with
  | GenNode 10 [GenLeaf (inr (inr s))] => SpecFloat.S754_zero s
  | GenNode 11 [GenLeaf (inr (inr s))] => SpecFloat.S754_infinity s
  | GenNode 13 [GenLeaf (inr (inr s)); GenLeaf (inr (inl m)); GenLeaf (inr (inl e))] => SpecFloat.S754_finite s (Z.to_pos m) e
  | _ => SpecFloat.S754_nan
  end.
Lemma tree_float_tree f : tree_float (float_tree f) = f.
Proof. by destruct f. Qed.

Fixpoint value_tree (v : Value) : gen_tree Leaf :=
  match v with
  | JNull => GenNode 0 []
  | JBool b => GenLeaf (inr (inr b))
  | JInt n => GenLeaf (inr (inl n))
  | JFloat f => GenNode 1 [float_tree f]
  | JString s => GenLeaf (inl s)
  | JArray l => GenNode 2 (value_tree <$> l)
  | JObject fields => GenNode 3 ((λ e, GenNode 4 [GenLeaf (inl e.1); value_tree e.2]) <$> fields)
  end.

Fixpoint tree_value (t : gen_tree Leaf) : Value :=
  match t with
  | GenLeaf (inl s) => JString s
  | GenLeaf (inr (inl n)) => JInt n
  | GenLeaf (inr (inr b)) => JBool b
  | GenNode 1 [f] => JFloat (tree_float f)
  | GenNode 2 l => JArray (tree_value <$> l)
  | GenNode 3 l =>
      JObject ((λ e, match e with GenNode _ [GenLeaf (inl k); v] => (k, tree_value v) | _ => ([], JNull) end) <$> l)
  | _ => JNull
  end.

Fixpoint tree_value_tree (v : Value) : tree_value (value_tree v) = v.
Proof.
  destruct v as [| | |f| |l|fields]; cbn [value_tree tree_value]; try reflexivity.
  - by rewrite tree_float_tree.
  - f_equal. induction l as [|x l IH]; [reflexivity|]. cbn [fmap list_fmap]. f_equal; [apply tree_value_tree|exact IH].
  - f_equal. induction fields as [|[k x] l IH]; [reflexivity|]. cbn [fmap list_fmap fst snd].
    f_equal; [by rewrite tree_value_tree|exact IH].
Defined.

(** ** Text *)
Fixpoint bits (p : positive) : list Z :=
  match p with
  | xH => [49]
  | xO p' => 48 :: bits p'
  | xI p' => 49 :: bits p'
  end.
Fixpoint unbits (l : list Z) : positive :=
  match l with
  | [] | [_] => xH
  | b :: l' => if b =? 48 then xO (unbits l') else xI (unbits l')
  end.
Lemma bits_cons p : ∃ b l, bits p = b :: l ∧ (b = 48 ∨ b = 49).
Proof. destruct p; simpl; eauto. Qed.
Lemma unbits_bits p : unbits (bits p) = p.
Proof. induction p as [p IH|p IH|]; cbn [bits]; [..|done]; destruct (bits_cons p) as (b & l & Hb & _); rewrite Hb in *; simpl in *; by rewrite IH. Qed.
Lemma bits_digits p : Forall (λ b, b = 48 ∨ b = 49) (bits p).
Proof. induction p; constructor; auto. Qed.

Local Notation digits := (Forall (λ b, b = 48 ∨ b = 49)).

Lemma ws_prefix_digit b l : b = 48 ∨ b = 49 → ws_prefix (b :: l) = None.
Proof. intros [->| ->]; by destruct l as [|? [|? l]]. Qed.
Lemma ws_prefix_digits l : digits l → ws_prefix l = None.
Proof. intros [|b l' Hb _]; [done|by apply ws_prefix_digit]. Qed.
Lemma ws_suffix_digits l : digits l → ws_suffix l = None.
Proof. intros Hl. unfold ws_suffix. by rewrite !ws_prefix_digits by (rewrite ?Forall_reverse; by apply Forall_take). Qed.
Lemma strip_none fuel front (l : list Z) : front l = None → strip fuel front l = l.
Proof. intros Hl. destruct fuel; [done|]. simpl. by rewrite Hl. Qed.
Lemma trim_digits l : digits l → l ≠ [] → trim (l ++ [10]) = l.
Proof.
  intros Hl Hne. unfold trim. rewrite (strip_none _ ws_prefix).
  2: { destruct Hl as [|b l' Hb _]; [done|by apply ws_prefix_digit]. }
  rewrite reverse_app, length_app, Nat.add_comm. change (reverse [10] ++ reverse l) with (10 :: reverse l).
  cbn [Nat.add length strip]. change (ws_suffix (10 :: reverse l)) with (Some (reverse l)). cbn [strip].
  rewrite strip_none by (apply ws_suffix_digits; by rewrite Forall_reverse). apply reverse_involutive.
Qed.

#[export] Instance coded : RpcText := {|
  request_from_str l :=
    match decode (unbits l) with
    | Some t => ok_or (request_of_value (tree_value t)) (str "missing field")
    | None => Err (str "EOF")
    end;
  response_to_vec r := Some (bits (encode (value_tree (response_value r))));
  rfc3339 t := dec t;
  naive_text t := dec t;
  job_scheduler_error_text := str "scheduler";
  io_error_text := str "io"
|}.

#[export, refine] Instance coded_values : ValueText := {|
  value_to_vec v := bits (encode (value_tree v))
|}.
Proof.
  - intros v req _ Hv. cbn [request_from_str coded]. by rewrite unbits_bits, decode_encode, tree_value_tree, Hv.
  - intros v req _ _. destruct (bits_cons (encode (value_tree v))) as (b & l & Hb & _).
    split; [apply trim_digits; [apply bits_digits|]|]; by rewrite Hb.
Defined.

Lemma coded_services : services_answer (H := coded) (DB := InnerDB) (CS := ConfigManager Disk).
Proof.
  destruct console_services. split; try assumption. intros s. cbn [request_from_str coded].
  destruct (decode _); [apply ok_or_no_panic|done].
Qed.

(** ** The session *)
Definition typed : list (list Z) :=
  [str "  config set metrics_enabled true "; []; str "help"; str "reboot now"; str "device info zzz";
   str "device delegate 1"; str "exit"; str "version"].

Lemma cli_session_shows_methods_witness :
  let spec := session_spec (λ _, moment) 0 1 (commands typed) console in
  spec.1.*2 =
    [Some (ShowResult (obj [(str "key", jstr "metrics_enabled"); (str "value", jstr "true"); (str "status", jstr "ok")]));
     Some (ShowError (-32602) (str "Invalid params: invalid UUID: invalid length"));
     Some (ShowResult (obj [(str "status", jstr "delegation_initiated");
       (str "delegated", JArray [jstr "00000000-0000-0000-0000-000000000005"]); (str "count", JInt 1);
       (str "target_node_id", JNull)]))] ∧
  ∃ rs out,
    cli_loop typed ((λ r, Answered (response_value r)) <$> rs) 1 = spec.1 ∧
    handle_connection (λ _, moment) (λ _, true) 0 ((request_line <$> spec.1.*1) ++ [Closed]) console = (out, spec.2).
Proof.
  intros spec. split; [vm_compute; reflexivity|].
  destruct (cli_session_shows_methods coded_services (λ _, moment) 0 1 typed console) as (rs & out & Hloop & Hrun & _).
  - vm_compute. split; congruence.
  - discriminate.
  - apply Forall_forall. apply (bool_decide_unpack _). vm_compute. exact I.
  - exists rs, out. split; [exact Hloop|exact Hrun].
Defined.
